(** * Howizard audio engine: NLMS filter, biquad bypass, parameter exchange,
      metering, output stage and AEC frame bridge

    The C++ sources are [audio_engine.h] and [audio_engine.cpp].

    - The engine computes on C++ [float], which is IEEE-754 binary32.  The
      model uses the executable binary32 arithmetic of the standard library
      ([SpecFloat] at precision 24 and maximal exponent 128), so rounding,
      signed zeros, infinities and NaN behave as on the target.  Every
      operation of the source rounds once, in the order the source writes
      it; NaN carries no payload.
    - C++ [int] values stay far from the 32-bit limits in all the code below
      and are plain [Z]; [int16_t] samples are [Z] as well.
    - Arrays are lists, read with the total lookup and written with the
      in-place insert; a loop [for (i = 0; i < n; i++)] is a left fold over
      [seq 0 n].
    - The functions of the C library and the ESP-SR helpers are parameters
      of the sections that use them.
    - A member function that runs under [std::lock_guard] is one atomic
      transition of the state it guards. *)

From Stdlib Require Import ZArith Bool Lia.
From Stdlib Require Import Floats.SpecFloat.
From stdpp Require Import base list.

Set Default Proof Using "Type".

(* ===================================================================== *)
(** * Part I: the model                                                    *)
(* ===================================================================== *)

(** ** binary32 and binary64 arithmetic *)

Module F32.
Definition prec : Z := 24.
Definition emax : Z := 128.

Abbreviation float := spec_float (only parsing).

Definition zero : float := S754_zero false.
Definition nan : float := S754_nan.
Definition infinity : float := S754_infinity false.

Definition add : float -> float -> float := SFadd prec emax.
Definition sub : float -> float -> float := SFsub prec emax.
Definition mul : float -> float -> float := SFmul prec emax.
Definition div : float -> float -> float := SFdiv prec emax.
Definition sqrt : float -> float := SFsqrt prec emax.
Definition abs : float -> float := SFabs.
Definition opp : float -> float := SFopp.

(** [a < b], [a <= b] and [a == b] of C++; all three are false as soon as
    one side is NaN. *)
Definition ltb : float -> float -> bool := SFltb.
Definition leb : float -> float -> bool := SFleb.
Definition eqb : float -> float -> bool := SFeqb.
(** [a > b] is [b < a]. *)
Definition gtb (a b : float) : bool := ltb b a.

Definition is_nan (x : float) : bool :=
  match x with S754_nan => true | _ => false end.

Definition is_finite (x : float) : bool :=
  match x with S754_zero _ | S754_finite _ _ _ => true | _ => false end.

Definition is_zero (x : float) : bool :=
  match x with S754_zero _ => true | _ => false end.

(** Sign bit clear and not NaN: [+0], a positive number or [+inf]. *)
Definition is_nonneg (x : float) : bool :=
  match x with
  | S754_zero s | S754_infinity s | S754_finite s _ _ => negb s
  | S754_nan => false
  end.

(** The values a C++ [float] can hold: canonical mantissa and exponent. *)
Definition valid (x : float) : bool := valid_binary prec emax x.

(** [(float) n] for an integer [n]. *)
Definition of_Z (n : Z) : float := binary_normalize prec emax n 0 false.

(** A decimal literal [n/d] with [n] and [d] below [2^24]: the compiler
    rounds the literal to the nearest float, which is what the correctly
    rounded quotient of the two exact integers gives. *)
Definition of_ratio (n d : Z) : float := div (of_Z n) (of_Z d).

Definition one : float := of_Z 1.

(** [std::clamp(v, lo, hi)] is [(v < lo) ? lo : (hi < v) ? hi : v]. *)
Definition clamp (v lo hi : float) : float :=
  if ltb v lo then lo else if ltb hi v then hi else v.

(** [std::max(a, b)] is [(a < b) ? b : a]. *)
Definition max (a b : float) : float := if ltb a b then b else a.

(** Truncation toward zero of a finite value, as an integer. *)
Definition trunc (x : float) : option Z :=
  match x with
  | S754_zero _ => Some 0%Z
  | S754_finite s m e =>
      Some (cond_Zopp s
              (match e with
               | Z0 => Zpos m
               | Zpos p => Z.shiftl (Zpos m) e
               | Zneg p => Z.shiftr (Zpos m) (Zpos p)
               end))
  | _ => None
  end.
End F32.

#[global] Instance float_inhabited : Inhabited spec_float := populate F32.zero.

Module F64.
Definition prec : Z := 53.
Definition emax : Z := 1024.

Definition mul : spec_float -> spec_float -> spec_float := SFmul prec emax.
Definition div : spec_float -> spec_float -> spec_float := SFdiv prec emax.

(** Promotion of a [float] to [double]: exact, only the representation is
    renormalized to a 53-bit mantissa. *)
Definition of_f32 (x : spec_float) : spec_float :=
  match x with
  | S754_finite s m e => binary_round prec emax s m e
  | _ => x
  end.

(** Conversion of a [double] to [float]: round to nearest even. *)
Definition to_f32 (x : spec_float) : spec_float :=
  match x with
  | S754_finite s m e => binary_round F32.prec F32.emax s m e
  | _ => x
  end.

(** [M_PI], the double nearest to pi: [0x400921FB54442D18]. *)
Definition M_PI : spec_float := S754_finite false 7074237752028440 (-51).
End F64.

(** C++ [std::clamp] and [std::min] on [int]. *)
Definition clampZ (v lo hi : Z) : Z :=
  if (v <? lo)%Z then lo else if (hi <? v)%Z then hi else v.

Definition minZ (a b : Z) : Z := if (b <? a)%Z then b else a.

(** ** NLMS adaptive filter ([class NlmsFilter]) *)

Module Nlms.
Import F32.

(** [_weights] and [_refBuf] are heap arrays or [nullptr] ([None]). *)
Record NlmsFilter := {
  _weights : option (list float);
  _refBuf : option (list float);
  _len : Z;
  _pos : Z
}.

Definition destroy (f : NlmsFilter) : NlmsFilter :=
  {| _weights := None; _refBuf := None; _len := 0; _pos := 0 |}.

(** [new float[_len]()] gives [_len] zeros. *)
Definition init (filterLength : Z) : NlmsFilter :=
  {| _weights := Some (replicate (Z.to_nat filterLength) zero);
     _refBuf := Some (replicate (Z.to_nat filterLength) zero);
     _len := filterLength;
     _pos := 0 |}.

Definition reset (f : NlmsFilter) : NlmsFilter :=
  {| _weights := (fun w => replicate (Z.to_nat (_len f)) zero) <$> _weights f;
     _refBuf := (fun r => replicate (Z.to_nat (_len f)) zero) <$> _refBuf f;
     _len := _len f;
     _pos := 0 |}.

Definition isInitialized (f : NlmsFilter) : bool :=
  match _weights f with Some _ => true | None => false end.

(** [1e-6f] and [10.0f]. *)
Definition power_floor : float := of_ratio 1 1000000.
Definition weight_limit : float := of_Z 10.

(** [int idx = (_pos - i + _len) % _len;] with the truncating [%] of C++. *)
Definition tap_index (pos i len : Z) : nat :=
  Z.to_nat (Z.rem (pos - i + len) len).

(** Body of the first loop: accumulates [estimate] and [power]. *)
Definition dot_step (w r : list float) (pos len : Z)
    (acc : float * float) (i : nat) : float * float :=
  let rv := r !!! tap_index pos (Z.of_nat i) len in
  (add (fst acc) (mul (w !!! i) rv), add (snd acc) (mul rv rv)).

(** Body of the second loop: one tap update followed by the sanity check. *)
Definition update_step (r : list float) (pos len : Z) (normStep error : float)
    (w : list float) (i : nat) : list float :=
  let w1 :=
    <[i := add (w !!! i)
             (mul (mul normStep error) (r !!! tap_index pos (Z.of_nat i) len))]> w in
  if gtb (abs (w1 !!! i)) weight_limit then <[i := zero]> w1 else w1.

Definition process (f : NlmsFilter) (ref primary stepSize : float)
    : NlmsFilter * float :=
  match _weights f, _refBuf f with
  | Some w, Some r =>
      if (_len f <=? 0)%Z then (f, zero) else
      let taps := seq 0 (Z.to_nat (_len f)) in
      let r1 := <[Z.to_nat (_pos f) := ref]> r in
      let '(estimate, power) :=
        fold_left (dot_step w r1 (_pos f) (_len f)) taps (zero, zero) in
      let error := sub primary estimate in
      let normStep := div stepSize (add power power_floor) in
      let w' := fold_left (update_step r1 (_pos f) (_len f) normStep error) taps w in
      ({| _weights := Some w'; _refBuf := Some r1; _len := _len f;
          _pos := Z.rem (_pos f + 1) (_len f) |},
       estimate)
  | _, _ => (f, zero)
  end.

(** A sequence of calls, each with its [(ref, primary, stepSize)]; the
    estimates are returned in call order. *)
Fixpoint process_all (f : NlmsFilter) (calls : list (float * float * float))
    : NlmsFilter * list float :=
  match calls with
  | [] => (f, [])
  | (ref, primary, stepSize) :: rest =>
      let '(f1, y) := process f ref primary stepSize in
      let '(f2, ys) := process_all f1 rest in
      (f2, y :: ys)
  end.

(** What [init] establishes and [process] keeps for a positive length. *)
Definition initialized (f : NlmsFilter) : Prop :=
  exists w r,
    _weights f = Some w /\ _refBuf f = Some r /\
    (0 < _len f)%Z /\ length w = Z.to_nat (_len f) /\
    length r = Z.to_nat (_len f) /\ (0 <= _pos f < _len f)%Z.

Definition weights_of (f : NlmsFilter) : list float :=
  default [] (_weights f).

(** *** The per-sample algorithm in the words of the design (section 4.4)

    [tap_guard] is what is done to a tap after its update: the design's
    step 5 resets it when its magnitude exceeds 10. *)
Definition reset_if_diverged (w : float) : float :=
  if gtb (abs w) weight_limit then zero else w.

Definition sum_f32 (xs : list float) : float := fold_left add xs zero.

Section Design.
Variable tap_guard : float -> float.

Definition process_design (w r : list float) (L p : Z) (x d mu : float)
    : list float * list float * Z * float :=
  let r1 := <[Z.to_nat p := x]> r in
  let tap (i : nat) := r1 !!! Z.to_nat ((p - Z.of_nat i) mod L) in
  let y := sum_f32 (imap (fun i wi => mul wi (tap i)) w) in
  let P := sum_f32 (imap (fun i _ => mul (tap i) (tap i)) w) in
  let e := sub d y in
  let mu_hat := div mu (add P power_floor) in
  let w' := imap (fun i wi => tap_guard (add wi (mul (mul mu_hat e) (tap i)))) w in
  (w', r1, ((p + 1) mod L)%Z, y).

(** The design's step on a filter object. *)
Definition process_by_design (f : NlmsFilter) (x d mu : float)
    : NlmsFilter * float :=
  match _weights f, _refBuf f with
  | Some w, Some r =>
      let '(w', r', p', y) := process_design w r (_len f) (_pos f) x d mu in
      ({| _weights := Some w'; _refBuf := Some r'; _len := _len f; _pos := p' |}, y)
  | _, _ => (f, zero)
  end.
End Design.

(** The step with the tap update [w[i] += normStep * e * r[(p-i) mod L]]
    and nothing after it. *)
Definition process_unguarded : NlmsFilter -> float -> float -> float -> NlmsFilter * float :=
  process_by_design (fun w => w).

(** The step with the tap update followed by the reset of step 5. *)
Definition process_guarded : NlmsFilter -> float -> float -> float -> NlmsFilter * float :=
  process_by_design reset_if_diverged.

(** *** Filter objects that can exist

    An object starts with the default member initializers and is only
    changed by its member functions; [init] with a negative length throws
    in [new] and leaves no usable object. *)
Definition null_filter : NlmsFilter :=
  {| _weights := None; _refBuf := None; _len := 0; _pos := 0 |}.

Inductive reachable : NlmsFilter -> Prop :=
| reach_new : reachable null_filter
| reach_init f n : reachable f -> (0 <= n)%Z -> reachable (init n)
| reach_destroy f : reachable f -> reachable (destroy f)
| reach_reset f : reachable f -> reachable (reset f)
| reach_process f ref primary stepSize :
    reachable f -> reachable (fst (process f ref primary stepSize)).

(** The two arrays have [_len] elements and [_pos] indexes them. *)
Definition consistent (f : NlmsFilter) : Prop :=
  match _weights f, _refBuf f with
  | Some w, Some r =>
      (0 <= _len f)%Z /\ length w = Z.to_nat (_len f) /\
      length r = Z.to_nat (_len f) /\ (0 <= _pos f)%Z /\
      ((0 < _len f)%Z -> (_pos f < _len f)%Z)
  | None, None => True
  | _, _ => False
  end.

(** A tap the sanity check accepts: its magnitude does not exceed 10, so
    it is at most 10 whenever it is a number. *)
Definition tap_in_bounds (w : float) : Prop :=
  gtb (abs w) weight_limit = false /\
  (is_nan w = false -> leb (abs w) weight_limit = true).
End Nlms.

(** ** Biquad section and the peaking-EQ coefficients *)

Module Biquad.
Import F32.

(** [struct Biquad], direct form II transposed. *)
Record Biquad := {
  b0 : float; b1 : float; b2 : float;
  a1 : float; a2 : float;
  z1 : float; z2 : float
}.

(** The member initializers: [b0 = 1.0f], everything else [0.0f]. *)
Definition fresh : Biquad :=
  {| b0 := one; b1 := zero; b2 := zero; a1 := zero; a2 := zero;
     z1 := zero; z2 := zero |}.

Definition process (bq : Biquad) (inp : float) : Biquad * float :=
  let out := add (mul (b0 bq) inp) (z1 bq) in
  let z1' := add (sub (mul (b1 bq) inp) (mul (a1 bq) out)) (z2 bq) in
  let z2' := sub (mul (b2 bq) inp) (mul (a2 bq) out) in
  ({| b0 := b0 bq; b1 := b1 bq; b2 := b2 bq; a1 := a1 bq; a2 := a2 bq;
      z1 := z1'; z2 := z2' |},
   out).

Definition reset (bq : Biquad) : Biquad :=
  {| b0 := b0 bq; b1 := b1 bq; b2 := b2 bq; a1 := a1 bq; a2 := a2 bq;
     z1 := zero; z2 := zero |}.

(** [for (i...) buf[i] = bq.process(buf[i]);] over a whole sequence. *)
Fixpoint process_all (bq : Biquad) (xs : list float) : Biquad * list float :=
  match xs with
  | [] => (bq, [])
  | x :: rest =>
      let '(bq1, y) := process bq x in
      let '(bq2, ys) := process_all bq1 rest in
      (bq2, y :: ys)
  end.

Section Coefficients.
(** [cosf], [sinf] and [powf] come from the C library. *)
Variable cosf sinf : float -> float.
Variable powf : float -> float -> float.

(** [fabsf(gainDb) < 0.1f] *)
Definition bypass_threshold : float := of_ratio 1 10.

(** [2.0f * M_PI * freq / sampleRate]: [M_PI] is a [double], so the
    product and the quotient are computed in [double] and the result is
    rounded when it is stored in the [float] variable [w0]. *)
Definition omega0 (freq sampleRate : float) : float :=
  F64.to_f32
    (F64.div
       (F64.mul (F64.mul (F64.of_f32 (of_Z 2)) F64.M_PI) (F64.of_f32 freq))
       (F64.of_f32 sampleRate)).

Definition calcPeakEqCoeffs (bq : Biquad) (freq gainDb Q sampleRate : float)
    : Biquad :=
  if ltb (abs gainDb) bypass_threshold then
    {| b0 := one; b1 := zero; b2 := zero; a1 := zero; a2 := zero;
       z1 := z1 bq; z2 := z2 bq |}
  else
    let A := powf (of_Z 10) (div gainDb (of_Z 40)) in
    let w0 := omega0 freq sampleRate in
    let cosw0 := cosf w0 in
    let sinw0 := sinf w0 in
    let alpha := div sinw0 (mul (of_Z 2) Q) in
    let a0 := add one (div alpha A) in
    {| b0 := div (add one (mul alpha A)) a0;
       b1 := div (mul (of_Z (-2)) cosw0) a0;
       b2 := div (sub one (mul alpha A)) a0;
       a1 := div (mul (of_Z (-2)) cosw0) a0;
       a2 := div (sub one (div alpha A)) a0;
       z1 := z1 bq; z2 := z2 bq |}.
End Coefficients.

(** The five coefficients of the identity section. *)
Definition identity_coeffs (bq : Biquad) : Prop :=
  b0 bq = one /\ b1 bq = zero /\ b2 bq = zero /\ a1 bq = zero /\ a2 bq = zero.

(** A sample comes back with the same bits, or it is [-0.0] and comes back
    as [+0.0]. *)
Definition same_bits_or_zero_sign (x y : float) : Prop :=
  y = x \/ (x = S754_zero true /\ y = S754_zero false).
End Biquad.

(** ** Parameters, levels and the mutex-protected exchange *)

Module Engine.
Import F32.

Record AudioEngineParams := {
  micGain : float;
  hpfEnabled : bool;
  hpfFrequency : float;
  lpfEnabled : bool;
  lpfFrequency : float;
  eqLowGain : float;
  eqMidGain : float;
  eqHighGain : float;
  nsEnabled : bool;
  nsMode : Z;
  agcEnabled : bool;
  agcMode : Z;
  agcCompressionGainDb : Z;
  agcLimiterEnabled : bool;
  agcTargetLevelDbfs : Z;
  veEnabled : bool;
  veBlend : float;
  veStepSize : float;
  veFilterLength : Z;
  veMaxAttenuation : float;
  veRefGain : float;
  veRefHpf : float;
  veRefLpf : float;
  veMode : Z;
  veAecMode : Z;
  veAecFilterLen : Z;
  veVadEnabled : bool;
  veVadMode : Z;
  veVadGateEnabled : bool;
  veVadGateAtten : float;
  outputGain : float;
  outputVolume : Z;
  outputMute : bool;
  boostEnabled : bool
}.

(** The default member initializers of [struct AudioEngineParams]. *)
Definition default_params : AudioEngineParams :=
  {| micGain := of_Z 180;
     hpfEnabled := true; hpfFrequency := of_Z 80;
     lpfEnabled := false; lpfFrequency := of_Z 18000;
     eqLowGain := zero; eqMidGain := zero; eqHighGain := zero;
     nsEnabled := false; nsMode := 2;
     agcEnabled := false; agcMode := 2; agcCompressionGainDb := 9;
     agcLimiterEnabled := true; agcTargetLevelDbfs := -3;
     veEnabled := false; veBlend := of_ratio 5 10;
     veStepSize := of_ratio 8 100; veFilterLength := 64;
     veMaxAttenuation := of_ratio 6 10;
     veRefGain := of_ratio 5 10; veRefHpf := of_Z 150; veRefLpf := of_Z 3000;
     veMode := 0; veAecMode := 1; veAecFilterLen := 4;
     veVadEnabled := true; veVadMode := 3;
     veVadGateEnabled := true; veVadGateAtten := of_ratio 15 100;
     outputGain := of_ratio 15 10; outputVolume := 100;
     outputMute := true; boostEnabled := false |}.

Record AudioLevels := {
  rmsLeft : float;
  rmsRight : float;
  peakLeft : float;
  peakRight : float;
  rmsHP : float;
  peakHP : float;
  vadSpeechDetected : bool
}.

Definition default_levels : AudioLevels :=
  {| rmsLeft := zero; rmsRight := zero; peakLeft := zero; peakRight := zero;
     rmsHP := zero; peakHP := zero; vadSpeechDetected := false |}.

(** The members of [class AudioEngine] that the setters and the getters
    touch.  Every accessor below runs under [std::lock_guard] on [_mutex],
    so each is one atomic step on this state. *)
Record AudioEngine := {
  _params : AudioEngineParams;
  _levels : AudioLevels;
  _running : bool;
  _paramsChanged : bool
}.

Definition fresh : AudioEngine :=
  {| _params := default_params; _levels := default_levels;
     _running := false; _paramsChanged := true |}.

Definition setParams (e : AudioEngine) (p : AudioEngineParams) : AudioEngine :=
  {| _params := p; _levels := _levels e; _running := _running e;
     _paramsChanged := true |}.

Definition getParams (e : AudioEngine) : AudioEngineParams := _params e.

Definition getLevels (e : AudioEngine) : AudioLevels := _levels e.

(** Assignments to a single member of [_params]. *)
Definition with_micGain (p : AudioEngineParams) (v : float) : AudioEngineParams :=
  {| micGain := v;
     hpfEnabled := hpfEnabled p; hpfFrequency := hpfFrequency p;
     lpfEnabled := lpfEnabled p; lpfFrequency := lpfFrequency p;
     eqLowGain := eqLowGain p; eqMidGain := eqMidGain p; eqHighGain := eqHighGain p;
     nsEnabled := nsEnabled p; nsMode := nsMode p;
     agcEnabled := agcEnabled p; agcMode := agcMode p;
     agcCompressionGainDb := agcCompressionGainDb p;
     agcLimiterEnabled := agcLimiterEnabled p;
     agcTargetLevelDbfs := agcTargetLevelDbfs p;
     veEnabled := veEnabled p; veBlend := veBlend p; veStepSize := veStepSize p;
     veFilterLength := veFilterLength p; veMaxAttenuation := veMaxAttenuation p;
     veRefGain := veRefGain p; veRefHpf := veRefHpf p; veRefLpf := veRefLpf p;
     veMode := veMode p; veAecMode := veAecMode p; veAecFilterLen := veAecFilterLen p;
     veVadEnabled := veVadEnabled p; veVadMode := veVadMode p;
     veVadGateEnabled := veVadGateEnabled p; veVadGateAtten := veVadGateAtten p;
     outputGain := outputGain p; outputVolume := outputVolume p;
     outputMute := outputMute p; boostEnabled := boostEnabled p |}.

Definition with_outputGain (p : AudioEngineParams) (v : float) : AudioEngineParams :=
  {| micGain := micGain p;
     hpfEnabled := hpfEnabled p; hpfFrequency := hpfFrequency p;
     lpfEnabled := lpfEnabled p; lpfFrequency := lpfFrequency p;
     eqLowGain := eqLowGain p; eqMidGain := eqMidGain p; eqHighGain := eqHighGain p;
     nsEnabled := nsEnabled p; nsMode := nsMode p;
     agcEnabled := agcEnabled p; agcMode := agcMode p;
     agcCompressionGainDb := agcCompressionGainDb p;
     agcLimiterEnabled := agcLimiterEnabled p;
     agcTargetLevelDbfs := agcTargetLevelDbfs p;
     veEnabled := veEnabled p; veBlend := veBlend p; veStepSize := veStepSize p;
     veFilterLength := veFilterLength p; veMaxAttenuation := veMaxAttenuation p;
     veRefGain := veRefGain p; veRefHpf := veRefHpf p; veRefLpf := veRefLpf p;
     veMode := veMode p; veAecMode := veAecMode p; veAecFilterLen := veAecFilterLen p;
     veVadEnabled := veVadEnabled p; veVadMode := veVadMode p;
     veVadGateEnabled := veVadGateEnabled p; veVadGateAtten := veVadGateAtten p;
     outputGain := v; outputVolume := outputVolume p;
     outputMute := outputMute p; boostEnabled := boostEnabled p |}.

Definition with_outputVolume (p : AudioEngineParams) (v : Z) : AudioEngineParams :=
  {| micGain := micGain p;
     hpfEnabled := hpfEnabled p; hpfFrequency := hpfFrequency p;
     lpfEnabled := lpfEnabled p; lpfFrequency := lpfFrequency p;
     eqLowGain := eqLowGain p; eqMidGain := eqMidGain p; eqHighGain := eqHighGain p;
     nsEnabled := nsEnabled p; nsMode := nsMode p;
     agcEnabled := agcEnabled p; agcMode := agcMode p;
     agcCompressionGainDb := agcCompressionGainDb p;
     agcLimiterEnabled := agcLimiterEnabled p;
     agcTargetLevelDbfs := agcTargetLevelDbfs p;
     veEnabled := veEnabled p; veBlend := veBlend p; veStepSize := veStepSize p;
     veFilterLength := veFilterLength p; veMaxAttenuation := veMaxAttenuation p;
     veRefGain := veRefGain p; veRefHpf := veRefHpf p; veRefLpf := veRefLpf p;
     veMode := veMode p; veAecMode := veAecMode p; veAecFilterLen := veAecFilterLen p;
     veVadEnabled := veVadEnabled p; veVadMode := veVadMode p;
     veVadGateEnabled := veVadGateEnabled p; veVadGateAtten := veVadGateAtten p;
     outputGain := outputGain p; outputVolume := v;
     outputMute := outputMute p; boostEnabled := boostEnabled p |}.

Definition with_outputMute (p : AudioEngineParams) (v : bool) : AudioEngineParams :=
  {| micGain := micGain p;
     hpfEnabled := hpfEnabled p; hpfFrequency := hpfFrequency p;
     lpfEnabled := lpfEnabled p; lpfFrequency := lpfFrequency p;
     eqLowGain := eqLowGain p; eqMidGain := eqMidGain p; eqHighGain := eqHighGain p;
     nsEnabled := nsEnabled p; nsMode := nsMode p;
     agcEnabled := agcEnabled p; agcMode := agcMode p;
     agcCompressionGainDb := agcCompressionGainDb p;
     agcLimiterEnabled := agcLimiterEnabled p;
     agcTargetLevelDbfs := agcTargetLevelDbfs p;
     veEnabled := veEnabled p; veBlend := veBlend p; veStepSize := veStepSize p;
     veFilterLength := veFilterLength p; veMaxAttenuation := veMaxAttenuation p;
     veRefGain := veRefGain p; veRefHpf := veRefHpf p; veRefLpf := veRefLpf p;
     veMode := veMode p; veAecMode := veAecMode p; veAecFilterLen := veAecFilterLen p;
     veVadEnabled := veVadEnabled p; veVadMode := veVadMode p;
     veVadGateEnabled := veVadGateEnabled p; veVadGateAtten := veVadGateAtten p;
     outputGain := outputGain p; outputVolume := outputVolume p;
     outputMute := v; boostEnabled := boostEnabled p |}.

Definition with_boostEnabled (p : AudioEngineParams) (v : bool) : AudioEngineParams :=
  {| micGain := micGain p;
     hpfEnabled := hpfEnabled p; hpfFrequency := hpfFrequency p;
     lpfEnabled := lpfEnabled p; lpfFrequency := lpfFrequency p;
     eqLowGain := eqLowGain p; eqMidGain := eqMidGain p; eqHighGain := eqHighGain p;
     nsEnabled := nsEnabled p; nsMode := nsMode p;
     agcEnabled := agcEnabled p; agcMode := agcMode p;
     agcCompressionGainDb := agcCompressionGainDb p;
     agcLimiterEnabled := agcLimiterEnabled p;
     agcTargetLevelDbfs := agcTargetLevelDbfs p;
     veEnabled := veEnabled p; veBlend := veBlend p; veStepSize := veStepSize p;
     veFilterLength := veFilterLength p; veMaxAttenuation := veMaxAttenuation p;
     veRefGain := veRefGain p; veRefHpf := veRefHpf p; veRefLpf := veRefLpf p;
     veMode := veMode p; veAecMode := veAecMode p; veAecFilterLen := veAecFilterLen p;
     veVadEnabled := veVadEnabled p; veVadMode := veVadMode p;
     veVadGateEnabled := veVadGateEnabled p; veVadGateAtten := veVadGateAtten p;
     outputGain := outputGain p; outputVolume := outputVolume p;
     outputMute := outputMute p; boostEnabled := v |}.

Definition update_params (e : AudioEngine) (p : AudioEngineParams) : AudioEngine :=
  {| _params := p; _levels := _levels e; _running := _running e;
     _paramsChanged := true |}.

Definition setMicGain (e : AudioEngine) (gain : float) : AudioEngine :=
  update_params e (with_micGain (_params e) (clamp gain zero (of_Z 240))).

Definition setOutputGain (e : AudioEngine) (gain : float) : AudioEngine :=
  update_params e (with_outputGain (_params e) (clamp gain zero (of_Z 4))).

Definition setOutputVolume (e : AudioEngine) (vol : Z) : AudioEngine :=
  update_params e (with_outputVolume (_params e) (clampZ vol 0 100)).

Definition setMute (e : AudioEngine) (mute : bool) : AudioEngine :=
  update_params e (with_outputMute (_params e) mute).

(** The defaults with voice exclusion enabled in AEC mode. *)
Definition aec_params : AudioEngineParams :=
  {| micGain := micGain default_params;
     hpfEnabled := hpfEnabled default_params;
     hpfFrequency := hpfFrequency default_params;
     lpfEnabled := lpfEnabled default_params;
     lpfFrequency := lpfFrequency default_params;
     eqLowGain := eqLowGain default_params;
     eqMidGain := eqMidGain default_params;
     eqHighGain := eqHighGain default_params;
     nsEnabled := nsEnabled default_params; nsMode := nsMode default_params;
     agcEnabled := agcEnabled default_params; agcMode := agcMode default_params;
     agcCompressionGainDb := agcCompressionGainDb default_params;
     agcLimiterEnabled := agcLimiterEnabled default_params;
     agcTargetLevelDbfs := agcTargetLevelDbfs default_params;
     veEnabled := true;
     veBlend := veBlend default_params; veStepSize := veStepSize default_params;
     veFilterLength := veFilterLength default_params;
     veMaxAttenuation := veMaxAttenuation default_params;
     veRefGain := veRefGain default_params; veRefHpf := veRefHpf default_params;
     veRefLpf := veRefLpf default_params;
     veMode := 1;
     veAecMode := veAecMode default_params;
     veAecFilterLen := veAecFilterLen default_params;
     veVadEnabled := veVadEnabled default_params;
     veVadMode := veVadMode default_params;
     veVadGateEnabled := veVadGateEnabled default_params;
     veVadGateAtten := veVadGateAtten default_params;
     outputGain := outputGain default_params;
     outputVolume := outputVolume default_params;
     outputMute := outputMute default_params;
     boostEnabled := boostEnabled default_params |}.

(** *** The declared ranges of the data model (section 3)

    The legal range of [outputGain] is [[0, 6]]; [clamp_to_declared_ranges]
    clamps every ranged member of a record to its declared bounds. *)
Definition declared_gain_max : float := of_Z 6.

Definition clamp_to_declared_ranges (p : AudioEngineParams) : AudioEngineParams :=
  {| micGain := clamp (micGain p) zero (of_Z 240);
     hpfEnabled := hpfEnabled p;
     hpfFrequency := clamp (hpfFrequency p) (of_Z 20) (of_Z 2000);
     lpfEnabled := lpfEnabled p;
     lpfFrequency := clamp (lpfFrequency p) (of_Z 500) (of_Z 20000);
     eqLowGain := clamp (eqLowGain p) (of_Z (-12)) (of_Z 12);
     eqMidGain := clamp (eqMidGain p) (of_Z (-12)) (of_Z 12);
     eqHighGain := clamp (eqHighGain p) (of_Z (-12)) (of_Z 12);
     nsEnabled := nsEnabled p; nsMode := clampZ (nsMode p) 0 2;
     agcEnabled := agcEnabled p; agcMode := clampZ (agcMode p) 0 3;
     agcCompressionGainDb := clampZ (agcCompressionGainDb p) 0 90;
     agcLimiterEnabled := agcLimiterEnabled p;
     agcTargetLevelDbfs := clampZ (agcTargetLevelDbfs p) (-31) 0;
     veEnabled := veEnabled p;
     veBlend := clamp (veBlend p) zero one;
     veStepSize := clamp (veStepSize p) (of_ratio 1 100) one;
     veFilterLength := clampZ (veFilterLength p) 16 512;
     veMaxAttenuation := clamp (veMaxAttenuation p) zero one;
     veRefGain := clamp (veRefGain p) (of_ratio 1 10) (of_Z 5);
     veRefHpf := clamp (veRefHpf p) (of_Z 20) (of_Z 500);
     veRefLpf := clamp (veRefLpf p) (of_Z 1000) (of_Z 8000);
     veMode := clampZ (veMode p) 0 1;
     veAecMode := veAecMode p;
     veAecFilterLen := clampZ (veAecFilterLen p) 1 6;
     veVadEnabled := veVadEnabled p;
     veVadMode := clampZ (veVadMode p) 0 4;
     veVadGateEnabled := veVadGateEnabled p;
     veVadGateAtten := clamp (veVadGateAtten p) zero one;
     outputGain := clamp (outputGain p) zero declared_gain_max;
     outputVolume := clampZ (outputVolume p) 0 100;
     outputMute := outputMute p; boostEnabled := boostEnabled p |}.
End Engine.

(** ** Metering and the output stage of [processLoop] (steps 6b and 9 to 13) *)

Module Output.
Import F32 Engine.

Definition PEAK_DECAY : float := of_ratio 97 100.
Definition NUM_CHANNELS_OUT : nat := 2.

(** [-1.0f], [1.0f] and [32767.0f]. *)
Definition minus_one : float := of_Z (-1).
Definition full_scale : float := of_Z 32767.

(** Body of the loop of step 6b: [(sumHP, pkHP)]. *)
Definition hp_meter_step (floatHP : list float)
    (acc : float * float) (i : nat) : float * float :=
  let absHP := abs (floatHP !!! i) in
  (add (fst acc) (mul (floatHP !!! i) (floatHP !!! i)),
   if gtb absHP (snd acc) then absHP else snd acc).

(** Step 6b: levels of the conditioned reference. *)
Definition meter_hp (lv : AudioLevels) (samplesRead : nat) (floatHP : list float)
    : AudioLevels :=
  let '(sumHP, pkHP) :=
    fold_left (hp_meter_step floatHP) (seq 0 samplesRead) (zero, zero) in
  {| rmsLeft := rmsLeft lv; rmsRight := rmsRight lv;
     peakLeft := peakLeft lv; peakRight := peakRight lv;
     rmsHP := sqrt (div sumHP (of_Z (Z.of_nat samplesRead)));
     peakHP := max pkHP (mul (peakHP lv) PEAK_DECAY);
     vadSpeechDetected := vadSpeechDetected lv |}.

(** The four accumulators of step 10. *)
Record Meter := { sumL : float; sumR : float; pkL : float; pkR : float }.

Definition meter_step (floatL floatR : list float) (m : Meter) (i : nat) : Meter :=
  let absL := abs (floatL !!! i) in
  let absR := abs (floatR !!! i) in
  {| sumL := add (sumL m) (mul (floatL !!! i) (floatL !!! i));
     sumR := add (sumR m) (mul (floatR !!! i) (floatR !!! i));
     pkL := if gtb absL (pkL m) then absL else pkL m;
     pkR := if gtb absR (pkR m) then absR else pkR m |}.

Definition meter_block (samplesRead : nat) (floatL floatR : list float) : Meter :=
  fold_left (meter_step floatL floatR) (seq 0 samplesRead)
    {| sumL := zero; sumR := zero; pkL := zero; pkR := zero |}.

(** The peak accumulator of the two metering loops, taken alone: the
    largest [fabsf] seen so far, starting from [0.0f]. *)
Definition peak_body (xs : list float) (pk : float) (i : nat) : float :=
  if gtb (abs (xs !!! i)) pk then abs (xs !!! i) else pk.

Definition block_peak (samplesRead : nat) (xs : list float) : float :=
  fold_left (peak_body xs) (seq 0 samplesRead) zero.

(** Step 10: RMS and peak hold with decay, published under the mutex. *)
Definition meter_lr (lv : AudioLevels) (samplesRead : nat)
    (floatL floatR : list float) : AudioLevels :=
  let m := meter_block samplesRead floatL floatR in
  {| rmsLeft := sqrt (div (sumL m) (of_Z (Z.of_nat samplesRead)));
     rmsRight := sqrt (div (sumR m) (of_Z (Z.of_nat samplesRead)));
     peakLeft := max (pkL m) (mul (peakLeft lv) PEAK_DECAY);
     peakRight := max (pkR m) (mul (peakRight lv) PEAK_DECAY);
     rmsHP := rmsHP lv; peakHP := peakHP lv;
     vadSpeechDetected := vadSpeechDetected lv |}.

(** [_levels.vadSpeechDetected = ...], the only other write to [_levels]. *)
Definition set_vad (lv : AudioLevels) (speech : bool) : AudioLevels :=
  {| rmsLeft := rmsLeft lv; rmsRight := rmsRight lv;
     peakLeft := peakLeft lv; peakRight := peakRight lv;
     rmsHP := rmsHP lv; peakHP := peakHP lv;
     vadSpeechDetected := speech |}.

(** The values [_levels] can take while the worker runs. *)
Inductive reachable_levels : AudioLevels -> Prop :=
| reach_default : reachable_levels default_levels
| reach_hp lv n floatHP :
    reachable_levels lv -> reachable_levels (meter_hp lv n floatHP)
| reach_lr lv n floatL floatR :
    reachable_levels lv -> reachable_levels (meter_lr lv n floatL floatR)
| reach_vad lv speech :
    reachable_levels lv -> reachable_levels (set_vad lv speech).

(** Step 9: [floatL[i] *= gain; floatR[i] *= gain;]. *)
Definition gain_step (gain : float) (bufs : list float * list float) (i : nat)
    : list float * list float :=
  (<[i := mul (fst bufs !!! i) gain]> (fst bufs),
   <[i := mul (snd bufs !!! i) gain]> (snd bufs)).

Definition apply_gain (gain : float) (samplesRead : nat)
    (floatL floatR : list float) : list float * list float :=
  fold_left (gain_step gain) (seq 0 samplesRead) (floatL, floatR).

Section Conversion.
(** [(int16_t) x] truncates toward zero when the truncated value fits in
    16 bits.  For NaN and for values that do not fit, C++ leaves the
    result undefined; the target's choice is the parameter
    [cast_undefined]. *)
Variable cast_undefined : float -> Z.

Definition to_int16 (x : float) : Z :=
  match trunc x with
  | Some z =>
      if ((-32768 <=? z) && (z <=? 32767))%Z then z else cast_undefined x
  | None => cast_undefined x
  end.

(** Step 11: clamp to [[-1, 1]], scale, convert and interleave. *)
Definition convert_step (floatL floatR : list float) (outBuf : list Z) (i : nat)
    : list Z :=
  let l := clamp (floatL !!! i) minus_one one in
  let r := clamp (floatR !!! i) minus_one one in
  <[i * 2 + 1 := to_int16 (mul r full_scale)]>
    (<[i * 2 + 0 := to_int16 (mul l full_scale)]> outBuf).

Definition convert_block (samplesRead : nat) (floatL floatR : list float)
    (outBuf : list Z) : list Z :=
  fold_left (convert_step floatL floatR) (seq 0 samplesRead) outBuf.

(** [memset(outBuf, 0, n * sizeof(int16_t))] *)
Definition memset_zero (outBuf : list Z) (n : nat) : list Z :=
  fold_left (fun b i => <[i := 0%Z]> b) (seq 0 n) outBuf.

Record StageResult := {
  res_levels : AudioLevels;
  res_floatL : list float;
  res_floatR : list float;
  res_outBuf : list Z;
  (** the samples handed to [i2s_write] *)
  res_written : list Z
}.

(** Steps 9 to 13 of one iteration. *)
Definition output_stage (localParams : AudioEngineParams) (lv : AudioLevels)
    (samplesRead : nat) (floatL floatR : list float) (outBuf : list Z)
    : StageResult :=
  let gain := outputGain localParams in
  let '(fl, fr) := apply_gain gain samplesRead floatL floatR in
  let lv' := meter_lr lv samplesRead fl fr in
  let ob := convert_block samplesRead fl fr outBuf in
  let ob' :=
    if outputMute localParams
    then memset_zero ob (samplesRead * NUM_CHANNELS_OUT)
    else ob in
  {| res_levels := lv'; res_floatL := fl; res_floatR := fr;
     res_outBuf := ob';
     res_written := take (samplesRead * NUM_CHANNELS_OUT) ob' |}.
End Conversion.
End Output.

(** ** Polyphase resampler ([class Resampler]) *)

Module Resampler.
Import F32.

Definition FILTER_TAPS : nat := 21.
Definition HALF_TAPS : Z := 10.

Record Resampler := {
  _downsample : bool;
  _coeffs : list float;
  _history : list float;
  _upHistory : list float
}.

(** The table [lpf_coeffs] of [init]; a literal [-0.0029f] is the negation
    of the literal [0.0029f]. *)
Definition lpf_coeffs : list float :=
  [ opp (of_ratio 29 10000); opp (of_ratio 56 10000); zero;
    of_ratio 175 10000; of_ratio 303 10000; zero;
    opp (of_ratio 657 10000); opp (of_ratio 1186 10000); zero;
    of_ratio 3125 10000; of_ratio 5002 10000; of_ratio 3125 10000;
    zero; opp (of_ratio 1186 10000); opp (of_ratio 657 10000);
    zero; of_ratio 303 10000; of_ratio 175 10000;
    zero; opp (of_ratio 56 10000); opp (of_ratio 29 10000) ].

Definition init (downsample : bool) : Resampler :=
  {| _downsample := downsample;
     _coeffs := lpf_coeffs;
     _history := replicate (Z.to_nat HALF_TAPS) zero;
     _upHistory := replicate 3 zero |}.

(** The sample a tap reads: from the saved history before the block, from
    the block itself, or zero past its end. *)
Definition tap_sample (hist inp : list float) (histLen inFrames srcIdx : Z) : float :=
  if (srcIdx <? 0)%Z then
    let histIdx := (histLen + srcIdx)%Z in
    if (0 <=? histIdx)%Z then hist !!! Z.to_nat histIdx else zero
  else if (srcIdx <? inFrames)%Z then inp !!! Z.to_nat srcIdx
  else zero.

Definition down_tap (rs : Resampler) (inp : list float) (inFrames inIdx : Z)
    (sum : float) (t : nat) : float :=
  let srcIdx := (inIdx - HALF_TAPS + Z.of_nat t)%Z in
  add sum (mul (tap_sample (_history rs) inp HALF_TAPS inFrames srcIdx)
               (_coeffs rs !!! t)).

(** The last [n] samples of the block become the new history. *)
Definition save_tail (hist inp : list float) (inFrames n : Z) : list float :=
  if (n <=? inFrames)%Z then
    fold_left
      (fun h i => <[i := inp !!! Z.to_nat (inFrames - n + Z.of_nat i)]> h)
      (seq 0 (Z.to_nat n)) hist
  else hist.

(** [downsample3(in, out, outFrames)]: the samples written to [out] are
    returned; [out] never aliases [in]. *)
Definition downsample3 (rs : Resampler) (inp : list float) (outFrames : nat)
    : Resampler * list float :=
  let inFrames := (Z.of_nat outFrames * 3)%Z in
  let out :=
    map (fun i =>
           fold_left (down_tap rs inp inFrames (Z.of_nat i * 3)) (seq 0 FILTER_TAPS) zero)
        (seq 0 outFrames) in
  ({| _downsample := _downsample rs; _coeffs := _coeffs rs;
      _history := save_tail (_history rs) inp inFrames HALF_TAPS;
      _upHistory := _upHistory rs |},
   out).

Definition up_tap (rs : Resampler) (inp : list float) (inFrames i : Z) (phase : nat)
    (sum : float) (t : nat) : float :=
  let srcIdx := (i - 3 + Z.of_nat t)%Z in
  let sample := tap_sample (_upHistory rs) inp 3 inFrames srcIdx in
  let coeffIdx := t * 3 + phase in
  if coeffIdx <? FILTER_TAPS then add sum (mul sample (_coeffs rs !!! coeffIdx))
  else sum.

(** [upsample3(in, out, inFrames)]: three output samples per input sample,
    each the phase sum scaled by [3.0f]. *)
Definition upsample3 (rs : Resampler) (inp : list float) (inFrames : nat)
    : Resampler * list float :=
  let out :=
    flat_map (fun i =>
                map (fun phase =>
                       mul (fold_left (up_tap rs inp (Z.of_nat inFrames) (Z.of_nat i) phase)
                              (seq 0 7) zero)
                           (of_Z 3))
                    (seq 0 3))
             (seq 0 inFrames) in
  ({| _downsample := _downsample rs; _coeffs := _coeffs rs;
      _history := _history rs;
      _upHistory := save_tail (_upHistory rs) inp (Z.of_nat inFrames) 3 |},
   out).
End Resampler.

(** ** AEC ring buffer ([struct AecRingBuf]) *)

Module AecRingBuf.
Import F32.

Definition CAPACITY : Z := 512.

Record AecRingBuf := { buf : list float; writePos : Z }.

Definition reset (rb : AecRingBuf) : AecRingBuf :=
  {| buf := replicate (Z.to_nat CAPACITY) zero; writePos := 0 |}.

(** [for (i = 0; i < count && writePos < 512; i++) buf[writePos++] = data[i];]
    over the samples still to be pushed: the loop stops at the first sample
    that finds the buffer full. *)
Fixpoint push_loop (rb : AecRingBuf) (pending : list float) : AecRingBuf :=
  match pending with
  | [] => rb
  | x :: rest =>
      if (writePos rb <? CAPACITY)%Z then
        push_loop {| buf := <[Z.to_nat (writePos rb) := x]> (buf rb);
                     writePos := writePos rb + 1 |} rest
      else rb
  end.

Definition push (rb : AecRingBuf) (data : list float) (count : nat) : AecRingBuf :=
  push_loop rb (take count data).

Definition ready (rb : AecRingBuf) : bool := (CAPACITY <=? writePos rb)%Z.

Definition consume (rb : AecRingBuf) : AecRingBuf :=
  {| buf := buf rb; writePos := 0 |}.

(** A ring as [reset] leaves it and [push] keeps it: 512 slots and a
    write position inside them. *)
Definition well_formed (rb : AecRingBuf) : Prop :=
  length (buf rb) = Z.to_nat CAPACITY /\ (0 <= writePos rb <= CAPACITY)%Z.
End AecRingBuf.

(** ** Voice exclusion (step 7 of [processLoop]) and the AEC frame bridge *)

Module VoiceExclusion.
Import F32 Engine.
Import AecRingBuf.

Definition BLOCK_SIZE : nat := 480.
Definition NS_FRAME_16K : nat := 160.
Definition AEC_FRAME_16K : nat := 512.

(** [constexpr float i16scale = 1.0f / 32768.0f;] *)
Definition i16scale : float := div one (of_Z 32768).

(** [memmove(buf, buf + from, n * sizeof(float))] *)
Definition memmove_front (b : list float) (from n : nat) : list float :=
  take n (drop from b) ++ drop n b.

Section Helpers.
(** The ESP-SR helpers are opaque: a handle is a value of an unknown
    type and each call returns the handle's next state with its output.
    [aec_process h in ref] returns the 512 cleaned samples, [vad_process]
    returns whether the state is [VAD_SPEECH]. *)
Variable AecHandle VadHandle : Type.
Variable aec_process : AecHandle -> list Z -> list Z -> AecHandle * list Z.
Variable vad_process : VadHandle -> list Z -> VadHandle * bool.
Variable cast_undefined : float -> Z.

(** The engine members and the locals of [processLoop] that step 7 and
    the AEC part of the parameter update read or write. *)
Record VeState := {
  _nlmsL : option Nlms.NlmsFilter;
  _nlmsR : option Nlms.NlmsFilter;
  veResDownL : Resampler.Resampler;
  veResDownR : Resampler.Resampler;
  veResDownHP : Resampler.Resampler;
  veResUpL : Resampler.Resampler;
  veResUpR : Resampler.Resampler;
  _aecHandleL : option AecHandle;
  _aecHandleR : option AecHandle;
  _vadHandleRef : option VadHandle;
  aecRingL : AecRingBuf;
  aecRingR : AecRingBuf;
  aecRingHP : AecRingBuf;
  aecOutRingL : AecRingBuf;
  aecOutRingR : AecRingBuf;
  aecResDownL : Resampler.Resampler;
  aecResDownR : Resampler.Resampler;
  aecResDownHP : Resampler.Resampler;
  aecResUpL : Resampler.Resampler;
  aecResUpR : Resampler.Resampler;
  aecOutputReady : bool;
  prevVeAecActive : bool;
  prevVeAecMode : Z;
  prevVeAecFilterLen : Z;
  levels : AudioLevels
}.

(** The part of a state that the AEC branch rewrites. *)
Definition with_aec (st : VeState)
    (hL hR : option AecHandle) (vad : option VadHandle)
    (rL rR rHP oL oR : AecRingBuf)
    (dL dR dHP uL uR : Resampler.Resampler) (rdy : bool) (lv : AudioLevels)
    : VeState :=
  {| _nlmsL := _nlmsL st; _nlmsR := _nlmsR st;
     veResDownL := veResDownL st; veResDownR := veResDownR st;
     veResDownHP := veResDownHP st;
     veResUpL := veResUpL st; veResUpR := veResUpR st;
     _aecHandleL := hL; _aecHandleR := hR; _vadHandleRef := vad;
     aecRingL := rL; aecRingR := rR; aecRingHP := rHP;
     aecOutRingL := oL; aecOutRingR := oR;
     aecResDownL := dL; aecResDownR := dR; aecResDownHP := dHP;
     aecResUpL := uL; aecResUpR := uR;
     aecOutputReady := rdy;
     prevVeAecActive := prevVeAecActive st;
     prevVeAecMode := prevVeAecMode st;
     prevVeAecFilterLen := prevVeAecFilterLen st;
     levels := lv |}.

(** [static_cast<int16_t>(std::clamp(x, -1.0f, 1.0f) * 32767.0f)] for
    the 512 samples of a ring. *)
Definition frame_of_samples (samples : list float) : list Z :=
  map (fun i =>
         Output.to_int16 cast_undefined
           (mul (clamp (samples !!! i) Output.minus_one one) Output.full_scale))
      (seq 0 AEC_FRAME_16K).

Definition frame_of (rb : AecRingBuf) : list Z := frame_of_samples (buf rb).

(** [ring.buf[i] = static_cast<float>(out[i]) * i16scale; writePos = 512] *)
Definition store_frame (rb : AecRingBuf) (out : list Z) : AecRingBuf :=
  {| buf :=
       fold_left (fun b i => <[i := mul (of_Z (out !!! i)) i16scale]> b)
         (seq 0 AEC_FRAME_16K) (buf rb);
     writePos := Z.of_nat AEC_FRAME_16K |}.

(** Handles and rings after a completed frame, when all three input
    rings are ready. *)
Definition run_frame (st : VeState) (rL rR rHP : AecRingBuf)
    (hL hR : AecHandle)
    : option AecHandle * option AecHandle * option VadHandle *
      AecRingBuf * AecRingBuf * AecRingBuf * AecRingBuf * AecRingBuf *
      AudioLevels :=
  let aec16kInL := frame_of rL in
  let aec16kInR := frame_of rR in
  let aec16kRef := frame_of rHP in
  let '(vad', lv') :=
    match _vadHandleRef st with
    | Some v =>
        let '(v', speech) := vad_process v aec16kRef in
        (Some v', Output.set_vad (levels st) speech)
    | None => (None, levels st)
    end in
  let '(hL', aec16kOutL) := aec_process hL aec16kInL aec16kRef in
  let '(hR', aec16kOutR) := aec_process hR aec16kInR aec16kRef in
  (Some hL', Some hR', vad',
   consume rL, consume rR, consume rHP,
   store_frame (aecOutRingL st) aec16kOutL,
   store_frame (aecOutRingR st) aec16kOutR,
   lv').

(** [x = (1.0f - blend) * x + blend * aec; if (isnan(x)) x = 0.0f;] *)
Definition blend_sample (blend x up : float) : float :=
  let aec := clamp up Output.minus_one one in
  let y := add (mul (sub one blend) x) (mul blend aec) in
  if is_nan y then zero else y.

Definition blend_block (blend : float) (count : nat) (x up : list float)
    : list float :=
  fold_left (fun b i => <[i := blend_sample blend (b !!! i) (up !!! i)]> b)
    (seq 0 count) x.

(** The AEC branch of step 7 (the block has [BLOCK_SIZE] samples). *)
Definition aec_branch (blend : float) (st : VeState) (hL hR : AecHandle)
    (samplesRead : nat) (floatL floatR floatHP : list float)
    : VeState * list float * list float :=
  let '(dL, blockL) := Resampler.downsample3 (aecResDownL st) floatL NS_FRAME_16K in
  let '(dR, blockR) := Resampler.downsample3 (aecResDownR st) floatR NS_FRAME_16K in
  let '(dHP, blockHP) := Resampler.downsample3 (aecResDownHP st) floatHP NS_FRAME_16K in
  let rL := push (aecRingL st) blockL NS_FRAME_16K in
  let rR := push (aecRingR st) blockR NS_FRAME_16K in
  let rHP := push (aecRingHP st) blockHP NS_FRAME_16K in
  let '(hL1, hR1, vad1, rL1, rR1, rHP1, oL1, oR1, lv1, rdy1) :=
    if ready rL && ready rR && ready rHP then
      let '(a, b, c, d, e, f, g, h, i) := run_frame st rL rR rHP hL hR in
      (a, b, c, d, e, f, g, h, i, true)
    else
      (Some hL, Some hR, _vadHandleRef st, rL, rR, rHP,
       aecOutRingL st, aecOutRingR st, levels st, aecOutputReady st) in
  if rdy1 && (0 <? writePos oL1)%Z then
    let consumeCount := Z.to_nat (minZ (Z.of_nat NS_FRAME_16K) (writePos oL1)) in
    let aecChunkL := take consumeCount (buf oL1) in
    let aecChunkR := take consumeCount (buf oR1) in
    let remaining := (writePos oL1 - Z.of_nat consumeCount)%Z in
    let shift (b : list float) :=
      if (0 <? remaining)%Z
      then memmove_front b consumeCount (Z.to_nat remaining) else b in
    let oL2 := {| buf := shift (buf oL1); writePos := remaining |} in
    let oR2 := {| buf := shift (buf oR1); writePos := remaining |} in
    let '(uL, veEstUp48kL) := Resampler.upsample3 (aecResUpL st) aecChunkL consumeCount in
    let '(uR, veEstUp48kR) := Resampler.upsample3 (aecResUpR st) aecChunkR consumeCount in
    let outCount := consumeCount * 3 in
    let n := Nat.min samplesRead outCount in
    (with_aec st hL1 hR1 vad1 rL1 rR1 rHP1 oL2 oR2 dL dR dHP uL uR rdy1 lv1,
     blend_block blend n floatL veEstUp48kL,
     blend_block blend n floatR veEstUp48kR)
  else
    (with_aec st hL1 hR1 vad1 rL1 rR1 rHP1 oL1 oR1 dL dR dHP
       (aecResUpL st) (aecResUpR st) rdy1 lv1,
     floatL, floatR).

(** [x -= blend * clamp(est, -|x|*maxAtt, |x|*maxAtt); if (isnan(x)) x = 0;] *)
Definition subtract_sample (blend maxAtt x est : float) : float :=
  let maxRem := mul (abs x) maxAtt in
  let rem := clamp est (opp maxRem) maxRem in
  let y := sub x (mul blend rem) in
  if is_nan y then zero else y.

Definition subtract_block (blend maxAtt : float) (count : nat) (x est : list float)
    : list float :=
  fold_left (fun b i => <[i := subtract_sample blend maxAtt (b !!! i) (est !!! i)]> b)
    (seq 0 count) x.

(** The per-sample NLMS loop over one 16 kHz frame. *)
Definition nlms_frame (f : Nlms.NlmsFilter) (step : float) (ref primary : list float)
    : Nlms.NlmsFilter * list float :=
  Nlms.process_all f
    (map (fun i => (ref !!! i, primary !!! i, step)) (seq 0 NS_FRAME_16K)).

(** The NLMS branch of step 7. *)
Definition nlms_branch (p : AudioEngineParams) (st : VeState)
    (nlL nlR : Nlms.NlmsFilter)
    (samplesRead : nat) (floatL floatR floatHP : list float)
    : VeState * list float * list float :=
  let '(dL, veDown16kL) := Resampler.downsample3 (veResDownL st) floatL NS_FRAME_16K in
  let '(dR, veDown16kR) := Resampler.downsample3 (veResDownR st) floatR NS_FRAME_16K in
  let '(dHP, veDown16kHP) := Resampler.downsample3 (veResDownHP st) floatHP NS_FRAME_16K in
  let '(nlL', veEst16kL) := nlms_frame nlL (veStepSize p) veDown16kHP veDown16kL in
  let '(nlR', veEst16kR) := nlms_frame nlR (veStepSize p) veDown16kHP veDown16kR in
  let '(uL, veEstUp48kL) := Resampler.upsample3 (veResUpL st) veEst16kL NS_FRAME_16K in
  let '(uR, veEstUp48kR) := Resampler.upsample3 (veResUpR st) veEst16kR NS_FRAME_16K in
  ({| _nlmsL := Some nlL'; _nlmsR := Some nlR';
      veResDownL := dL; veResDownR := dR; veResDownHP := dHP;
      veResUpL := uL; veResUpR := uR;
      _aecHandleL := _aecHandleL st; _aecHandleR := _aecHandleR st;
      _vadHandleRef := _vadHandleRef st;
      aecRingL := aecRingL st; aecRingR := aecRingR st; aecRingHP := aecRingHP st;
      aecOutRingL := aecOutRingL st; aecOutRingR := aecOutRingR st;
      aecResDownL := aecResDownL st; aecResDownR := aecResDownR st;
      aecResDownHP := aecResDownHP st;
      aecResUpL := aecResUpL st; aecResUpR := aecResUpR st;
      aecOutputReady := aecOutputReady st;
      prevVeAecActive := prevVeAecActive st;
      prevVeAecMode := prevVeAecMode st;
      prevVeAecFilterLen := prevVeAecFilterLen st;
      levels := levels st |},
   subtract_block (veBlend p) (veMaxAttenuation p) samplesRead floatL veEstUp48kL,
   subtract_block (veBlend p) (veMaxAttenuation p) samplesRead floatR veEstUp48kR).

(** Step 7 after the headphone probe: the two modes exclude each other,
    and the stage is skipped without headphone, when disabled, or on a
    short read. *)
Definition voice_exclusion (p : AudioEngineParams) (hpDetected : bool)
    (st : VeState) (samplesRead : nat) (floatL floatR floatHP : list float)
    : VeState * list float * list float :=
  if veEnabled p && hpDetected && (samplesRead =? BLOCK_SIZE) then
    match (veMode p =? 0)%Z, _nlmsL st, _nlmsR st with
    | true, Some nlL, Some nlR =>
        nlms_branch p st nlL nlR samplesRead floatL floatR floatHP
    | _, _, _ =>
        match (veMode p =? 1)%Z, _aecHandleL st, _aecHandleR st with
        | true, Some hL, Some hR =>
            aec_branch (veBlend p) st hL hR samplesRead floatL floatR floatHP
        | _, _, _ => (st, floatL, floatR)
        end
    end
  else (st, floatL, floatR).

(** The AEC part of the parameter update.  [created] is what the two
    [aec_create] calls of [createAecHandles] return; when one of them
    fails, both handles end up null. *)
Definition aec_reconfigure (p : AudioEngineParams) (st : VeState)
    (created : option AecHandle * option AecHandle) : VeState :=
  let aecWanted := veEnabled p && (veMode p =? 1)%Z in
  if negb (Bool.eqb aecWanted (prevVeAecActive st))
     || negb (veAecMode p =? prevVeAecMode st)%Z
     || negb (veAecFilterLen p =? prevVeAecFilterLen st)%Z
  then
    let st1 :=
      if aecWanted then
        let '(hL, hR) :=
          match created with
          | (Some l, Some r) => (Some l, Some r)
          | _ => (None, None)
          end in
        with_aec st hL hR (_vadHandleRef st)
          (reset (aecRingL st)) (reset (aecRingR st)) (reset (aecRingHP st))
          (reset (aecOutRingL st)) (reset (aecOutRingR st))
          (aecResDownL st) (aecResDownR st) (aecResDownHP st)
          (aecResUpL st) (aecResUpR st) false (levels st)
      else
        with_aec st None None (_vadHandleRef st)
          (aecRingL st) (aecRingR st) (aecRingHP st)
          (aecOutRingL st) (aecOutRingR st)
          (aecResDownL st) (aecResDownR st) (aecResDownHP st)
          (aecResUpL st) (aecResUpR st) (aecOutputReady st) (levels st) in
    {| _nlmsL := _nlmsL st1; _nlmsR := _nlmsR st1;
       veResDownL := veResDownL st1; veResDownR := veResDownR st1;
       veResDownHP := veResDownHP st1;
       veResUpL := veResUpL st1; veResUpR := veResUpR st1;
       _aecHandleL := _aecHandleL st1; _aecHandleR := _aecHandleR st1;
       _vadHandleRef := _vadHandleRef st1;
       aecRingL := aecRingL st1; aecRingR := aecRingR st1;
       aecRingHP := aecRingHP st1;
       aecOutRingL := aecOutRingL st1; aecOutRingR := aecOutRingR st1;
       aecResDownL := aecResDownL st1; aecResDownR := aecResDownR st1;
       aecResDownHP := aecResDownHP st1;
       aecResUpL := aecResUpL st1; aecResUpR := aecResUpR st1;
       aecOutputReady := aecOutputReady st1;
       prevVeAecActive := aecWanted;
       prevVeAecMode := veAecMode p;
       prevVeAecFilterLen := veAecFilterLen p;
       levels := levels st1 |}
  else st.

(** A run of consecutive blocks through step 7 with fixed parameters and
    headphone state; the blocks leaving the stage are returned in order. *)
Fixpoint run_blocks (p : AudioEngineParams) (hpDetected : bool) (st : VeState)
    (blocks : list (list float * list float * list float))
    : VeState * list (list float * list float) :=
  match blocks with
  | [] => (st, [])
  | (floatL, floatR, floatHP) :: rest =>
      let '(st1, outL, outR) :=
        voice_exclusion p hpDetected st (length floatL) floatL floatR floatHP in
      let '(st2, outs) := run_blocks p hpDetected st1 rest in
      (st2, (outL, outR) :: outs)
  end.

(** The state at the entry of the loop of [processLoop]: resamplers
    initialized, rings reset, no filter and no helper yet. *)
Definition initial_state : VeState :=
  {| _nlmsL := None; _nlmsR := None;
     veResDownL := Resampler.init true; veResDownR := Resampler.init true;
     veResDownHP := Resampler.init true;
     veResUpL := Resampler.init false; veResUpR := Resampler.init false;
     _aecHandleL := None; _aecHandleR := None; _vadHandleRef := None;
     aecRingL := reset {| buf := []; writePos := 0 |};
     aecRingR := reset {| buf := []; writePos := 0 |};
     aecRingHP := reset {| buf := []; writePos := 0 |};
     aecOutRingL := reset {| buf := []; writePos := 0 |};
     aecOutRingR := reset {| buf := []; writePos := 0 |};
     aecResDownL := Resampler.init true; aecResDownR := Resampler.init true;
     aecResDownHP := Resampler.init true;
     aecResUpL := Resampler.init false; aecResUpR := Resampler.init false;
     aecOutputReady := false;
     prevVeAecActive := false; prevVeAecMode := -1; prevVeAecFilterLen := -1;
     levels := default_levels |}.

(** The state after one full block with headphone present. *)
Definition after_block (p : AudioEngineParams) (st : VeState)
    (b : list float * list float * list float) : VeState :=
  fst (fst (voice_exclusion p true st (length (fst (fst b)))
              (fst (fst b)) (snd (fst b)) (snd b))).

(** The 16 kHz blocks a call of the AEC branch pushes into the three
    input rings. *)
Definition pushed_L (st : VeState) (floatL : list float) : list float :=
  snd (Resampler.downsample3 (aecResDownL st) floatL NS_FRAME_16K).
Definition pushed_R (st : VeState) (floatR : list float) : list float :=
  snd (Resampler.downsample3 (aecResDownR st) floatR NS_FRAME_16K).
Definition pushed_HP (st : VeState) (floatHP : list float) : list float :=
  snd (Resampler.downsample3 (aecResDownHP st) floatHP NS_FRAME_16K).

(** The three input rings hold [w] samples each. *)
Definition input_rings_at (w : Z) (st : VeState) : Prop :=
  well_formed (aecRingL st) /\ well_formed (aecRingR st) /\
  well_formed (aecRingHP st) /\
  writePos (aecRingL st) = w /\ writePos (aecRingR st) = w /\
  writePos (aecRingHP st) = w.

(** The AEC handles were (re)created by [aec_reconfigure] for [p]. *)
Definition recreates_aec (p : AudioEngineParams) (st : VeState) : Prop :=
  veEnabled p = true /\ veMode p = 1%Z /\
  (prevVeAecActive st = false \/ veAecMode p <> prevVeAecMode st \/
   veAecFilterLen p <> prevVeAecFilterLen st).
End Helpers.

Arguments initial_state {AecHandle VadHandle}.
Arguments _nlmsL {AecHandle VadHandle} _.
Arguments _nlmsR {AecHandle VadHandle} _.
Arguments veResDownL {AecHandle VadHandle} _.
Arguments veResDownR {AecHandle VadHandle} _.
Arguments veResDownHP {AecHandle VadHandle} _.
Arguments veResUpL {AecHandle VadHandle} _.
Arguments veResUpR {AecHandle VadHandle} _.
Arguments _aecHandleL {AecHandle VadHandle} _.
Arguments _aecHandleR {AecHandle VadHandle} _.
Arguments _vadHandleRef {AecHandle VadHandle} _.
Arguments aecRingL {AecHandle VadHandle} _.
Arguments aecRingR {AecHandle VadHandle} _.
Arguments aecRingHP {AecHandle VadHandle} _.
Arguments aecOutRingL {AecHandle VadHandle} _.
Arguments aecOutRingR {AecHandle VadHandle} _.
Arguments aecResDownL {AecHandle VadHandle} _.
Arguments aecResDownR {AecHandle VadHandle} _.
Arguments aecResDownHP {AecHandle VadHandle} _.
Arguments aecResUpL {AecHandle VadHandle} _.
Arguments aecResUpR {AecHandle VadHandle} _.
Arguments aecOutputReady {AecHandle VadHandle} _.
Arguments prevVeAecActive {AecHandle VadHandle} _.
Arguments prevVeAecMode {AecHandle VadHandle} _.
Arguments prevVeAecFilterLen {AecHandle VadHandle} _.
Arguments levels {AecHandle VadHandle} _.
Arguments pushed_L {AecHandle VadHandle} _ _.
Arguments pushed_R {AecHandle VadHandle} _ _.
Arguments pushed_HP {AecHandle VadHandle} _ _.
Arguments input_rings_at {AecHandle VadHandle} _ _.
Arguments recreates_aec {AecHandle VadHandle} _ _.
End VoiceExclusion.

(** ** Runs of the NLMS filter *)

Module NlmsRuns.
Import F32 Nlms.

(** The reference buffer of a filter object; [nullptr] reads as empty. *)
Definition refBuf_of (f : NlmsFilter) : list float := default [] (_refBuf f).

(** The reference samples of a sequence of calls, most recent first. *)
Definition recent_refs (calls : list (float * float * float)) : list float :=
  rev (map (fun c => fst (fst c)) calls).

(** The guard at the head of [process]:
    [!_weights || !_refBuf || _len <= 0]. *)
Definition without_taps (f : NlmsFilter) : Prop :=
  _weights f = None \/ _refBuf f = None \/ (_len f <= 0)%Z.

(** A working filter all of whose taps are NaN. *)
Definition poisoned (f : NlmsFilter) : Prop :=
  initialized f /\ Forall (fun w => is_nan w = true) (weights_of f).

(** A working filter whose taps are all zero and whose reference buffer
    holds numbers, as [init] and [reset] leave it. *)
Definition untrained (f : NlmsFilter) : Prop :=
  initialized f /\ Forall (fun w => is_zero w = true) (weights_of f) /\
  Forall (fun r => is_finite r = true) (refBuf_of f).
End NlmsRuns.

(** ** The convenience setters of [class AudioEngine] *)

Module Setters.
Import F32 Engine.

(** Assignments to the other members of [_params]. *)
Definition with_hpfEnabled (p : AudioEngineParams) (v : bool) : AudioEngineParams :=
  {| micGain := micGain p;
     hpfEnabled := v; hpfFrequency := hpfFrequency p;
     lpfEnabled := lpfEnabled p; lpfFrequency := lpfFrequency p;
     eqLowGain := eqLowGain p; eqMidGain := eqMidGain p; eqHighGain := eqHighGain p;
     nsEnabled := nsEnabled p; nsMode := nsMode p;
     agcEnabled := agcEnabled p; agcMode := agcMode p;
     agcCompressionGainDb := agcCompressionGainDb p;
     agcLimiterEnabled := agcLimiterEnabled p;
     agcTargetLevelDbfs := agcTargetLevelDbfs p;
     veEnabled := veEnabled p; veBlend := veBlend p; veStepSize := veStepSize p;
     veFilterLength := veFilterLength p; veMaxAttenuation := veMaxAttenuation p;
     veRefGain := veRefGain p; veRefHpf := veRefHpf p; veRefLpf := veRefLpf p;
     veMode := veMode p; veAecMode := veAecMode p; veAecFilterLen := veAecFilterLen p;
     veVadEnabled := veVadEnabled p; veVadMode := veVadMode p;
     veVadGateEnabled := veVadGateEnabled p; veVadGateAtten := veVadGateAtten p;
     outputGain := outputGain p; outputVolume := outputVolume p;
     outputMute := outputMute p; boostEnabled := boostEnabled p |}.

Definition with_hpfFrequency (p : AudioEngineParams) (v : float) : AudioEngineParams :=
  {| micGain := micGain p;
     hpfEnabled := hpfEnabled p; hpfFrequency := v;
     lpfEnabled := lpfEnabled p; lpfFrequency := lpfFrequency p;
     eqLowGain := eqLowGain p; eqMidGain := eqMidGain p; eqHighGain := eqHighGain p;
     nsEnabled := nsEnabled p; nsMode := nsMode p;
     agcEnabled := agcEnabled p; agcMode := agcMode p;
     agcCompressionGainDb := agcCompressionGainDb p;
     agcLimiterEnabled := agcLimiterEnabled p;
     agcTargetLevelDbfs := agcTargetLevelDbfs p;
     veEnabled := veEnabled p; veBlend := veBlend p; veStepSize := veStepSize p;
     veFilterLength := veFilterLength p; veMaxAttenuation := veMaxAttenuation p;
     veRefGain := veRefGain p; veRefHpf := veRefHpf p; veRefLpf := veRefLpf p;
     veMode := veMode p; veAecMode := veAecMode p; veAecFilterLen := veAecFilterLen p;
     veVadEnabled := veVadEnabled p; veVadMode := veVadMode p;
     veVadGateEnabled := veVadGateEnabled p; veVadGateAtten := veVadGateAtten p;
     outputGain := outputGain p; outputVolume := outputVolume p;
     outputMute := outputMute p; boostEnabled := boostEnabled p |}.

Definition with_lpfEnabled (p : AudioEngineParams) (v : bool) : AudioEngineParams :=
  {| micGain := micGain p;
     hpfEnabled := hpfEnabled p; hpfFrequency := hpfFrequency p;
     lpfEnabled := v; lpfFrequency := lpfFrequency p;
     eqLowGain := eqLowGain p; eqMidGain := eqMidGain p; eqHighGain := eqHighGain p;
     nsEnabled := nsEnabled p; nsMode := nsMode p;
     agcEnabled := agcEnabled p; agcMode := agcMode p;
     agcCompressionGainDb := agcCompressionGainDb p;
     agcLimiterEnabled := agcLimiterEnabled p;
     agcTargetLevelDbfs := agcTargetLevelDbfs p;
     veEnabled := veEnabled p; veBlend := veBlend p; veStepSize := veStepSize p;
     veFilterLength := veFilterLength p; veMaxAttenuation := veMaxAttenuation p;
     veRefGain := veRefGain p; veRefHpf := veRefHpf p; veRefLpf := veRefLpf p;
     veMode := veMode p; veAecMode := veAecMode p; veAecFilterLen := veAecFilterLen p;
     veVadEnabled := veVadEnabled p; veVadMode := veVadMode p;
     veVadGateEnabled := veVadGateEnabled p; veVadGateAtten := veVadGateAtten p;
     outputGain := outputGain p; outputVolume := outputVolume p;
     outputMute := outputMute p; boostEnabled := boostEnabled p |}.

Definition with_lpfFrequency (p : AudioEngineParams) (v : float) : AudioEngineParams :=
  {| micGain := micGain p;
     hpfEnabled := hpfEnabled p; hpfFrequency := hpfFrequency p;
     lpfEnabled := lpfEnabled p; lpfFrequency := v;
     eqLowGain := eqLowGain p; eqMidGain := eqMidGain p; eqHighGain := eqHighGain p;
     nsEnabled := nsEnabled p; nsMode := nsMode p;
     agcEnabled := agcEnabled p; agcMode := agcMode p;
     agcCompressionGainDb := agcCompressionGainDb p;
     agcLimiterEnabled := agcLimiterEnabled p;
     agcTargetLevelDbfs := agcTargetLevelDbfs p;
     veEnabled := veEnabled p; veBlend := veBlend p; veStepSize := veStepSize p;
     veFilterLength := veFilterLength p; veMaxAttenuation := veMaxAttenuation p;
     veRefGain := veRefGain p; veRefHpf := veRefHpf p; veRefLpf := veRefLpf p;
     veMode := veMode p; veAecMode := veAecMode p; veAecFilterLen := veAecFilterLen p;
     veVadEnabled := veVadEnabled p; veVadMode := veVadMode p;
     veVadGateEnabled := veVadGateEnabled p; veVadGateAtten := veVadGateAtten p;
     outputGain := outputGain p; outputVolume := outputVolume p;
     outputMute := outputMute p; boostEnabled := boostEnabled p |}.

Definition with_eqLowGain (p : AudioEngineParams) (v : float) : AudioEngineParams :=
  {| micGain := micGain p;
     hpfEnabled := hpfEnabled p; hpfFrequency := hpfFrequency p;
     lpfEnabled := lpfEnabled p; lpfFrequency := lpfFrequency p;
     eqLowGain := v; eqMidGain := eqMidGain p; eqHighGain := eqHighGain p;
     nsEnabled := nsEnabled p; nsMode := nsMode p;
     agcEnabled := agcEnabled p; agcMode := agcMode p;
     agcCompressionGainDb := agcCompressionGainDb p;
     agcLimiterEnabled := agcLimiterEnabled p;
     agcTargetLevelDbfs := agcTargetLevelDbfs p;
     veEnabled := veEnabled p; veBlend := veBlend p; veStepSize := veStepSize p;
     veFilterLength := veFilterLength p; veMaxAttenuation := veMaxAttenuation p;
     veRefGain := veRefGain p; veRefHpf := veRefHpf p; veRefLpf := veRefLpf p;
     veMode := veMode p; veAecMode := veAecMode p; veAecFilterLen := veAecFilterLen p;
     veVadEnabled := veVadEnabled p; veVadMode := veVadMode p;
     veVadGateEnabled := veVadGateEnabled p; veVadGateAtten := veVadGateAtten p;
     outputGain := outputGain p; outputVolume := outputVolume p;
     outputMute := outputMute p; boostEnabled := boostEnabled p |}.

Definition with_eqMidGain (p : AudioEngineParams) (v : float) : AudioEngineParams :=
  {| micGain := micGain p;
     hpfEnabled := hpfEnabled p; hpfFrequency := hpfFrequency p;
     lpfEnabled := lpfEnabled p; lpfFrequency := lpfFrequency p;
     eqLowGain := eqLowGain p; eqMidGain := v; eqHighGain := eqHighGain p;
     nsEnabled := nsEnabled p; nsMode := nsMode p;
     agcEnabled := agcEnabled p; agcMode := agcMode p;
     agcCompressionGainDb := agcCompressionGainDb p;
     agcLimiterEnabled := agcLimiterEnabled p;
     agcTargetLevelDbfs := agcTargetLevelDbfs p;
     veEnabled := veEnabled p; veBlend := veBlend p; veStepSize := veStepSize p;
     veFilterLength := veFilterLength p; veMaxAttenuation := veMaxAttenuation p;
     veRefGain := veRefGain p; veRefHpf := veRefHpf p; veRefLpf := veRefLpf p;
     veMode := veMode p; veAecMode := veAecMode p; veAecFilterLen := veAecFilterLen p;
     veVadEnabled := veVadEnabled p; veVadMode := veVadMode p;
     veVadGateEnabled := veVadGateEnabled p; veVadGateAtten := veVadGateAtten p;
     outputGain := outputGain p; outputVolume := outputVolume p;
     outputMute := outputMute p; boostEnabled := boostEnabled p |}.

Definition with_eqHighGain (p : AudioEngineParams) (v : float) : AudioEngineParams :=
  {| micGain := micGain p;
     hpfEnabled := hpfEnabled p; hpfFrequency := hpfFrequency p;
     lpfEnabled := lpfEnabled p; lpfFrequency := lpfFrequency p;
     eqLowGain := eqLowGain p; eqMidGain := eqMidGain p; eqHighGain := v;
     nsEnabled := nsEnabled p; nsMode := nsMode p;
     agcEnabled := agcEnabled p; agcMode := agcMode p;
     agcCompressionGainDb := agcCompressionGainDb p;
     agcLimiterEnabled := agcLimiterEnabled p;
     agcTargetLevelDbfs := agcTargetLevelDbfs p;
     veEnabled := veEnabled p; veBlend := veBlend p; veStepSize := veStepSize p;
     veFilterLength := veFilterLength p; veMaxAttenuation := veMaxAttenuation p;
     veRefGain := veRefGain p; veRefHpf := veRefHpf p; veRefLpf := veRefLpf p;
     veMode := veMode p; veAecMode := veAecMode p; veAecFilterLen := veAecFilterLen p;
     veVadEnabled := veVadEnabled p; veVadMode := veVadMode p;
     veVadGateEnabled := veVadGateEnabled p; veVadGateAtten := veVadGateAtten p;
     outputGain := outputGain p; outputVolume := outputVolume p;
     outputMute := outputMute p; boostEnabled := boostEnabled p |}.

Definition with_nsEnabled (p : AudioEngineParams) (v : bool) : AudioEngineParams :=
  {| micGain := micGain p;
     hpfEnabled := hpfEnabled p; hpfFrequency := hpfFrequency p;
     lpfEnabled := lpfEnabled p; lpfFrequency := lpfFrequency p;
     eqLowGain := eqLowGain p; eqMidGain := eqMidGain p; eqHighGain := eqHighGain p;
     nsEnabled := v; nsMode := nsMode p;
     agcEnabled := agcEnabled p; agcMode := agcMode p;
     agcCompressionGainDb := agcCompressionGainDb p;
     agcLimiterEnabled := agcLimiterEnabled p;
     agcTargetLevelDbfs := agcTargetLevelDbfs p;
     veEnabled := veEnabled p; veBlend := veBlend p; veStepSize := veStepSize p;
     veFilterLength := veFilterLength p; veMaxAttenuation := veMaxAttenuation p;
     veRefGain := veRefGain p; veRefHpf := veRefHpf p; veRefLpf := veRefLpf p;
     veMode := veMode p; veAecMode := veAecMode p; veAecFilterLen := veAecFilterLen p;
     veVadEnabled := veVadEnabled p; veVadMode := veVadMode p;
     veVadGateEnabled := veVadGateEnabled p; veVadGateAtten := veVadGateAtten p;
     outputGain := outputGain p; outputVolume := outputVolume p;
     outputMute := outputMute p; boostEnabled := boostEnabled p |}.

Definition with_nsMode (p : AudioEngineParams) (v : Z) : AudioEngineParams :=
  {| micGain := micGain p;
     hpfEnabled := hpfEnabled p; hpfFrequency := hpfFrequency p;
     lpfEnabled := lpfEnabled p; lpfFrequency := lpfFrequency p;
     eqLowGain := eqLowGain p; eqMidGain := eqMidGain p; eqHighGain := eqHighGain p;
     nsEnabled := nsEnabled p; nsMode := v;
     agcEnabled := agcEnabled p; agcMode := agcMode p;
     agcCompressionGainDb := agcCompressionGainDb p;
     agcLimiterEnabled := agcLimiterEnabled p;
     agcTargetLevelDbfs := agcTargetLevelDbfs p;
     veEnabled := veEnabled p; veBlend := veBlend p; veStepSize := veStepSize p;
     veFilterLength := veFilterLength p; veMaxAttenuation := veMaxAttenuation p;
     veRefGain := veRefGain p; veRefHpf := veRefHpf p; veRefLpf := veRefLpf p;
     veMode := veMode p; veAecMode := veAecMode p; veAecFilterLen := veAecFilterLen p;
     veVadEnabled := veVadEnabled p; veVadMode := veVadMode p;
     veVadGateEnabled := veVadGateEnabled p; veVadGateAtten := veVadGateAtten p;
     outputGain := outputGain p; outputVolume := outputVolume p;
     outputMute := outputMute p; boostEnabled := boostEnabled p |}.

Definition with_agcEnabled (p : AudioEngineParams) (v : bool) : AudioEngineParams :=
  {| micGain := micGain p;
     hpfEnabled := hpfEnabled p; hpfFrequency := hpfFrequency p;
     lpfEnabled := lpfEnabled p; lpfFrequency := lpfFrequency p;
     eqLowGain := eqLowGain p; eqMidGain := eqMidGain p; eqHighGain := eqHighGain p;
     nsEnabled := nsEnabled p; nsMode := nsMode p;
     agcEnabled := v; agcMode := agcMode p;
     agcCompressionGainDb := agcCompressionGainDb p;
     agcLimiterEnabled := agcLimiterEnabled p;
     agcTargetLevelDbfs := agcTargetLevelDbfs p;
     veEnabled := veEnabled p; veBlend := veBlend p; veStepSize := veStepSize p;
     veFilterLength := veFilterLength p; veMaxAttenuation := veMaxAttenuation p;
     veRefGain := veRefGain p; veRefHpf := veRefHpf p; veRefLpf := veRefLpf p;
     veMode := veMode p; veAecMode := veAecMode p; veAecFilterLen := veAecFilterLen p;
     veVadEnabled := veVadEnabled p; veVadMode := veVadMode p;
     veVadGateEnabled := veVadGateEnabled p; veVadGateAtten := veVadGateAtten p;
     outputGain := outputGain p; outputVolume := outputVolume p;
     outputMute := outputMute p; boostEnabled := boostEnabled p |}.

Definition with_agcMode (p : AudioEngineParams) (v : Z) : AudioEngineParams :=
  {| micGain := micGain p;
     hpfEnabled := hpfEnabled p; hpfFrequency := hpfFrequency p;
     lpfEnabled := lpfEnabled p; lpfFrequency := lpfFrequency p;
     eqLowGain := eqLowGain p; eqMidGain := eqMidGain p; eqHighGain := eqHighGain p;
     nsEnabled := nsEnabled p; nsMode := nsMode p;
     agcEnabled := agcEnabled p; agcMode := v;
     agcCompressionGainDb := agcCompressionGainDb p;
     agcLimiterEnabled := agcLimiterEnabled p;
     agcTargetLevelDbfs := agcTargetLevelDbfs p;
     veEnabled := veEnabled p; veBlend := veBlend p; veStepSize := veStepSize p;
     veFilterLength := veFilterLength p; veMaxAttenuation := veMaxAttenuation p;
     veRefGain := veRefGain p; veRefHpf := veRefHpf p; veRefLpf := veRefLpf p;
     veMode := veMode p; veAecMode := veAecMode p; veAecFilterLen := veAecFilterLen p;
     veVadEnabled := veVadEnabled p; veVadMode := veVadMode p;
     veVadGateEnabled := veVadGateEnabled p; veVadGateAtten := veVadGateAtten p;
     outputGain := outputGain p; outputVolume := outputVolume p;
     outputMute := outputMute p; boostEnabled := boostEnabled p |}.

Definition with_agcCompressionGainDb (p : AudioEngineParams) (v : Z) : AudioEngineParams :=
  {| micGain := micGain p;
     hpfEnabled := hpfEnabled p; hpfFrequency := hpfFrequency p;
     lpfEnabled := lpfEnabled p; lpfFrequency := lpfFrequency p;
     eqLowGain := eqLowGain p; eqMidGain := eqMidGain p; eqHighGain := eqHighGain p;
     nsEnabled := nsEnabled p; nsMode := nsMode p;
     agcEnabled := agcEnabled p; agcMode := agcMode p;
     agcCompressionGainDb := v;
     agcLimiterEnabled := agcLimiterEnabled p;
     agcTargetLevelDbfs := agcTargetLevelDbfs p;
     veEnabled := veEnabled p; veBlend := veBlend p; veStepSize := veStepSize p;
     veFilterLength := veFilterLength p; veMaxAttenuation := veMaxAttenuation p;
     veRefGain := veRefGain p; veRefHpf := veRefHpf p; veRefLpf := veRefLpf p;
     veMode := veMode p; veAecMode := veAecMode p; veAecFilterLen := veAecFilterLen p;
     veVadEnabled := veVadEnabled p; veVadMode := veVadMode p;
     veVadGateEnabled := veVadGateEnabled p; veVadGateAtten := veVadGateAtten p;
     outputGain := outputGain p; outputVolume := outputVolume p;
     outputMute := outputMute p; boostEnabled := boostEnabled p |}.

Definition with_agcLimiterEnabled (p : AudioEngineParams) (v : bool) : AudioEngineParams :=
  {| micGain := micGain p;
     hpfEnabled := hpfEnabled p; hpfFrequency := hpfFrequency p;
     lpfEnabled := lpfEnabled p; lpfFrequency := lpfFrequency p;
     eqLowGain := eqLowGain p; eqMidGain := eqMidGain p; eqHighGain := eqHighGain p;
     nsEnabled := nsEnabled p; nsMode := nsMode p;
     agcEnabled := agcEnabled p; agcMode := agcMode p;
     agcCompressionGainDb := agcCompressionGainDb p;
     agcLimiterEnabled := v;
     agcTargetLevelDbfs := agcTargetLevelDbfs p;
     veEnabled := veEnabled p; veBlend := veBlend p; veStepSize := veStepSize p;
     veFilterLength := veFilterLength p; veMaxAttenuation := veMaxAttenuation p;
     veRefGain := veRefGain p; veRefHpf := veRefHpf p; veRefLpf := veRefLpf p;
     veMode := veMode p; veAecMode := veAecMode p; veAecFilterLen := veAecFilterLen p;
     veVadEnabled := veVadEnabled p; veVadMode := veVadMode p;
     veVadGateEnabled := veVadGateEnabled p; veVadGateAtten := veVadGateAtten p;
     outputGain := outputGain p; outputVolume := outputVolume p;
     outputMute := outputMute p; boostEnabled := boostEnabled p |}.

Definition with_agcTargetLevelDbfs (p : AudioEngineParams) (v : Z) : AudioEngineParams :=
  {| micGain := micGain p;
     hpfEnabled := hpfEnabled p; hpfFrequency := hpfFrequency p;
     lpfEnabled := lpfEnabled p; lpfFrequency := lpfFrequency p;
     eqLowGain := eqLowGain p; eqMidGain := eqMidGain p; eqHighGain := eqHighGain p;
     nsEnabled := nsEnabled p; nsMode := nsMode p;
     agcEnabled := agcEnabled p; agcMode := agcMode p;
     agcCompressionGainDb := agcCompressionGainDb p;
     agcLimiterEnabled := agcLimiterEnabled p;
     agcTargetLevelDbfs := v;
     veEnabled := veEnabled p; veBlend := veBlend p; veStepSize := veStepSize p;
     veFilterLength := veFilterLength p; veMaxAttenuation := veMaxAttenuation p;
     veRefGain := veRefGain p; veRefHpf := veRefHpf p; veRefLpf := veRefLpf p;
     veMode := veMode p; veAecMode := veAecMode p; veAecFilterLen := veAecFilterLen p;
     veVadEnabled := veVadEnabled p; veVadMode := veVadMode p;
     veVadGateEnabled := veVadGateEnabled p; veVadGateAtten := veVadGateAtten p;
     outputGain := outputGain p; outputVolume := outputVolume p;
     outputMute := outputMute p; boostEnabled := boostEnabled p |}.

Definition with_veEnabled (p : AudioEngineParams) (v : bool) : AudioEngineParams :=
  {| micGain := micGain p;
     hpfEnabled := hpfEnabled p; hpfFrequency := hpfFrequency p;
     lpfEnabled := lpfEnabled p; lpfFrequency := lpfFrequency p;
     eqLowGain := eqLowGain p; eqMidGain := eqMidGain p; eqHighGain := eqHighGain p;
     nsEnabled := nsEnabled p; nsMode := nsMode p;
     agcEnabled := agcEnabled p; agcMode := agcMode p;
     agcCompressionGainDb := agcCompressionGainDb p;
     agcLimiterEnabled := agcLimiterEnabled p;
     agcTargetLevelDbfs := agcTargetLevelDbfs p;
     veEnabled := v; veBlend := veBlend p; veStepSize := veStepSize p;
     veFilterLength := veFilterLength p; veMaxAttenuation := veMaxAttenuation p;
     veRefGain := veRefGain p; veRefHpf := veRefHpf p; veRefLpf := veRefLpf p;
     veMode := veMode p; veAecMode := veAecMode p; veAecFilterLen := veAecFilterLen p;
     veVadEnabled := veVadEnabled p; veVadMode := veVadMode p;
     veVadGateEnabled := veVadGateEnabled p; veVadGateAtten := veVadGateAtten p;
     outputGain := outputGain p; outputVolume := outputVolume p;
     outputMute := outputMute p; boostEnabled := boostEnabled p |}.

Definition with_veBlend (p : AudioEngineParams) (v : float) : AudioEngineParams :=
  {| micGain := micGain p;
     hpfEnabled := hpfEnabled p; hpfFrequency := hpfFrequency p;
     lpfEnabled := lpfEnabled p; lpfFrequency := lpfFrequency p;
     eqLowGain := eqLowGain p; eqMidGain := eqMidGain p; eqHighGain := eqHighGain p;
     nsEnabled := nsEnabled p; nsMode := nsMode p;
     agcEnabled := agcEnabled p; agcMode := agcMode p;
     agcCompressionGainDb := agcCompressionGainDb p;
     agcLimiterEnabled := agcLimiterEnabled p;
     agcTargetLevelDbfs := agcTargetLevelDbfs p;
     veEnabled := veEnabled p; veBlend := v; veStepSize := veStepSize p;
     veFilterLength := veFilterLength p; veMaxAttenuation := veMaxAttenuation p;
     veRefGain := veRefGain p; veRefHpf := veRefHpf p; veRefLpf := veRefLpf p;
     veMode := veMode p; veAecMode := veAecMode p; veAecFilterLen := veAecFilterLen p;
     veVadEnabled := veVadEnabled p; veVadMode := veVadMode p;
     veVadGateEnabled := veVadGateEnabled p; veVadGateAtten := veVadGateAtten p;
     outputGain := outputGain p; outputVolume := outputVolume p;
     outputMute := outputMute p; boostEnabled := boostEnabled p |}.

Definition with_veStepSize (p : AudioEngineParams) (v : float) : AudioEngineParams :=
  {| micGain := micGain p;
     hpfEnabled := hpfEnabled p; hpfFrequency := hpfFrequency p;
     lpfEnabled := lpfEnabled p; lpfFrequency := lpfFrequency p;
     eqLowGain := eqLowGain p; eqMidGain := eqMidGain p; eqHighGain := eqHighGain p;
     nsEnabled := nsEnabled p; nsMode := nsMode p;
     agcEnabled := agcEnabled p; agcMode := agcMode p;
     agcCompressionGainDb := agcCompressionGainDb p;
     agcLimiterEnabled := agcLimiterEnabled p;
     agcTargetLevelDbfs := agcTargetLevelDbfs p;
     veEnabled := veEnabled p; veBlend := veBlend p; veStepSize := v;
     veFilterLength := veFilterLength p; veMaxAttenuation := veMaxAttenuation p;
     veRefGain := veRefGain p; veRefHpf := veRefHpf p; veRefLpf := veRefLpf p;
     veMode := veMode p; veAecMode := veAecMode p; veAecFilterLen := veAecFilterLen p;
     veVadEnabled := veVadEnabled p; veVadMode := veVadMode p;
     veVadGateEnabled := veVadGateEnabled p; veVadGateAtten := veVadGateAtten p;
     outputGain := outputGain p; outputVolume := outputVolume p;
     outputMute := outputMute p; boostEnabled := boostEnabled p |}.

Definition with_veFilterLength (p : AudioEngineParams) (v : Z) : AudioEngineParams :=
  {| micGain := micGain p;
     hpfEnabled := hpfEnabled p; hpfFrequency := hpfFrequency p;
     lpfEnabled := lpfEnabled p; lpfFrequency := lpfFrequency p;
     eqLowGain := eqLowGain p; eqMidGain := eqMidGain p; eqHighGain := eqHighGain p;
     nsEnabled := nsEnabled p; nsMode := nsMode p;
     agcEnabled := agcEnabled p; agcMode := agcMode p;
     agcCompressionGainDb := agcCompressionGainDb p;
     agcLimiterEnabled := agcLimiterEnabled p;
     agcTargetLevelDbfs := agcTargetLevelDbfs p;
     veEnabled := veEnabled p; veBlend := veBlend p; veStepSize := veStepSize p;
     veFilterLength := v; veMaxAttenuation := veMaxAttenuation p;
     veRefGain := veRefGain p; veRefHpf := veRefHpf p; veRefLpf := veRefLpf p;
     veMode := veMode p; veAecMode := veAecMode p; veAecFilterLen := veAecFilterLen p;
     veVadEnabled := veVadEnabled p; veVadMode := veVadMode p;
     veVadGateEnabled := veVadGateEnabled p; veVadGateAtten := veVadGateAtten p;
     outputGain := outputGain p; outputVolume := outputVolume p;
     outputMute := outputMute p; boostEnabled := boostEnabled p |}.

Definition with_veMaxAttenuation (p : AudioEngineParams) (v : float) : AudioEngineParams :=
  {| micGain := micGain p;
     hpfEnabled := hpfEnabled p; hpfFrequency := hpfFrequency p;
     lpfEnabled := lpfEnabled p; lpfFrequency := lpfFrequency p;
     eqLowGain := eqLowGain p; eqMidGain := eqMidGain p; eqHighGain := eqHighGain p;
     nsEnabled := nsEnabled p; nsMode := nsMode p;
     agcEnabled := agcEnabled p; agcMode := agcMode p;
     agcCompressionGainDb := agcCompressionGainDb p;
     agcLimiterEnabled := agcLimiterEnabled p;
     agcTargetLevelDbfs := agcTargetLevelDbfs p;
     veEnabled := veEnabled p; veBlend := veBlend p; veStepSize := veStepSize p;
     veFilterLength := veFilterLength p; veMaxAttenuation := v;
     veRefGain := veRefGain p; veRefHpf := veRefHpf p; veRefLpf := veRefLpf p;
     veMode := veMode p; veAecMode := veAecMode p; veAecFilterLen := veAecFilterLen p;
     veVadEnabled := veVadEnabled p; veVadMode := veVadMode p;
     veVadGateEnabled := veVadGateEnabled p; veVadGateAtten := veVadGateAtten p;
     outputGain := outputGain p; outputVolume := outputVolume p;
     outputMute := outputMute p; boostEnabled := boostEnabled p |}.

Definition with_veRefGain (p : AudioEngineParams) (v : float) : AudioEngineParams :=
  {| micGain := micGain p;
     hpfEnabled := hpfEnabled p; hpfFrequency := hpfFrequency p;
     lpfEnabled := lpfEnabled p; lpfFrequency := lpfFrequency p;
     eqLowGain := eqLowGain p; eqMidGain := eqMidGain p; eqHighGain := eqHighGain p;
     nsEnabled := nsEnabled p; nsMode := nsMode p;
     agcEnabled := agcEnabled p; agcMode := agcMode p;
     agcCompressionGainDb := agcCompressionGainDb p;
     agcLimiterEnabled := agcLimiterEnabled p;
     agcTargetLevelDbfs := agcTargetLevelDbfs p;
     veEnabled := veEnabled p; veBlend := veBlend p; veStepSize := veStepSize p;
     veFilterLength := veFilterLength p; veMaxAttenuation := veMaxAttenuation p;
     veRefGain := v; veRefHpf := veRefHpf p; veRefLpf := veRefLpf p;
     veMode := veMode p; veAecMode := veAecMode p; veAecFilterLen := veAecFilterLen p;
     veVadEnabled := veVadEnabled p; veVadMode := veVadMode p;
     veVadGateEnabled := veVadGateEnabled p; veVadGateAtten := veVadGateAtten p;
     outputGain := outputGain p; outputVolume := outputVolume p;
     outputMute := outputMute p; boostEnabled := boostEnabled p |}.

Definition with_veRefHpf (p : AudioEngineParams) (v : float) : AudioEngineParams :=
  {| micGain := micGain p;
     hpfEnabled := hpfEnabled p; hpfFrequency := hpfFrequency p;
     lpfEnabled := lpfEnabled p; lpfFrequency := lpfFrequency p;
     eqLowGain := eqLowGain p; eqMidGain := eqMidGain p; eqHighGain := eqHighGain p;
     nsEnabled := nsEnabled p; nsMode := nsMode p;
     agcEnabled := agcEnabled p; agcMode := agcMode p;
     agcCompressionGainDb := agcCompressionGainDb p;
     agcLimiterEnabled := agcLimiterEnabled p;
     agcTargetLevelDbfs := agcTargetLevelDbfs p;
     veEnabled := veEnabled p; veBlend := veBlend p; veStepSize := veStepSize p;
     veFilterLength := veFilterLength p; veMaxAttenuation := veMaxAttenuation p;
     veRefGain := veRefGain p; veRefHpf := v; veRefLpf := veRefLpf p;
     veMode := veMode p; veAecMode := veAecMode p; veAecFilterLen := veAecFilterLen p;
     veVadEnabled := veVadEnabled p; veVadMode := veVadMode p;
     veVadGateEnabled := veVadGateEnabled p; veVadGateAtten := veVadGateAtten p;
     outputGain := outputGain p; outputVolume := outputVolume p;
     outputMute := outputMute p; boostEnabled := boostEnabled p |}.

Definition with_veRefLpf (p : AudioEngineParams) (v : float) : AudioEngineParams :=
  {| micGain := micGain p;
     hpfEnabled := hpfEnabled p; hpfFrequency := hpfFrequency p;
     lpfEnabled := lpfEnabled p; lpfFrequency := lpfFrequency p;
     eqLowGain := eqLowGain p; eqMidGain := eqMidGain p; eqHighGain := eqHighGain p;
     nsEnabled := nsEnabled p; nsMode := nsMode p;
     agcEnabled := agcEnabled p; agcMode := agcMode p;
     agcCompressionGainDb := agcCompressionGainDb p;
     agcLimiterEnabled := agcLimiterEnabled p;
     agcTargetLevelDbfs := agcTargetLevelDbfs p;
     veEnabled := veEnabled p; veBlend := veBlend p; veStepSize := veStepSize p;
     veFilterLength := veFilterLength p; veMaxAttenuation := veMaxAttenuation p;
     veRefGain := veRefGain p; veRefHpf := veRefHpf p; veRefLpf := v;
     veMode := veMode p; veAecMode := veAecMode p; veAecFilterLen := veAecFilterLen p;
     veVadEnabled := veVadEnabled p; veVadMode := veVadMode p;
     veVadGateEnabled := veVadGateEnabled p; veVadGateAtten := veVadGateAtten p;
     outputGain := outputGain p; outputVolume := outputVolume p;
     outputMute := outputMute p; boostEnabled := boostEnabled p |}.

Definition with_veMode (p : AudioEngineParams) (v : Z) : AudioEngineParams :=
  {| micGain := micGain p;
     hpfEnabled := hpfEnabled p; hpfFrequency := hpfFrequency p;
     lpfEnabled := lpfEnabled p; lpfFrequency := lpfFrequency p;
     eqLowGain := eqLowGain p; eqMidGain := eqMidGain p; eqHighGain := eqHighGain p;
     nsEnabled := nsEnabled p; nsMode := nsMode p;
     agcEnabled := agcEnabled p; agcMode := agcMode p;
     agcCompressionGainDb := agcCompressionGainDb p;
     agcLimiterEnabled := agcLimiterEnabled p;
     agcTargetLevelDbfs := agcTargetLevelDbfs p;
     veEnabled := veEnabled p; veBlend := veBlend p; veStepSize := veStepSize p;
     veFilterLength := veFilterLength p; veMaxAttenuation := veMaxAttenuation p;
     veRefGain := veRefGain p; veRefHpf := veRefHpf p; veRefLpf := veRefLpf p;
     veMode := v; veAecMode := veAecMode p; veAecFilterLen := veAecFilterLen p;
     veVadEnabled := veVadEnabled p; veVadMode := veVadMode p;
     veVadGateEnabled := veVadGateEnabled p; veVadGateAtten := veVadGateAtten p;
     outputGain := outputGain p; outputVolume := outputVolume p;
     outputMute := outputMute p; boostEnabled := boostEnabled p |}.

Definition with_veAecMode (p : AudioEngineParams) (v : Z) : AudioEngineParams :=
  {| micGain := micGain p;
     hpfEnabled := hpfEnabled p; hpfFrequency := hpfFrequency p;
     lpfEnabled := lpfEnabled p; lpfFrequency := lpfFrequency p;
     eqLowGain := eqLowGain p; eqMidGain := eqMidGain p; eqHighGain := eqHighGain p;
     nsEnabled := nsEnabled p; nsMode := nsMode p;
     agcEnabled := agcEnabled p; agcMode := agcMode p;
     agcCompressionGainDb := agcCompressionGainDb p;
     agcLimiterEnabled := agcLimiterEnabled p;
     agcTargetLevelDbfs := agcTargetLevelDbfs p;
     veEnabled := veEnabled p; veBlend := veBlend p; veStepSize := veStepSize p;
     veFilterLength := veFilterLength p; veMaxAttenuation := veMaxAttenuation p;
     veRefGain := veRefGain p; veRefHpf := veRefHpf p; veRefLpf := veRefLpf p;
     veMode := veMode p; veAecMode := v; veAecFilterLen := veAecFilterLen p;
     veVadEnabled := veVadEnabled p; veVadMode := veVadMode p;
     veVadGateEnabled := veVadGateEnabled p; veVadGateAtten := veVadGateAtten p;
     outputGain := outputGain p; outputVolume := outputVolume p;
     outputMute := outputMute p; boostEnabled := boostEnabled p |}.

Definition with_veAecFilterLen (p : AudioEngineParams) (v : Z) : AudioEngineParams :=
  {| micGain := micGain p;
     hpfEnabled := hpfEnabled p; hpfFrequency := hpfFrequency p;
     lpfEnabled := lpfEnabled p; lpfFrequency := lpfFrequency p;
     eqLowGain := eqLowGain p; eqMidGain := eqMidGain p; eqHighGain := eqHighGain p;
     nsEnabled := nsEnabled p; nsMode := nsMode p;
     agcEnabled := agcEnabled p; agcMode := agcMode p;
     agcCompressionGainDb := agcCompressionGainDb p;
     agcLimiterEnabled := agcLimiterEnabled p;
     agcTargetLevelDbfs := agcTargetLevelDbfs p;
     veEnabled := veEnabled p; veBlend := veBlend p; veStepSize := veStepSize p;
     veFilterLength := veFilterLength p; veMaxAttenuation := veMaxAttenuation p;
     veRefGain := veRefGain p; veRefHpf := veRefHpf p; veRefLpf := veRefLpf p;
     veMode := veMode p; veAecMode := veAecMode p; veAecFilterLen := v;
     veVadEnabled := veVadEnabled p; veVadMode := veVadMode p;
     veVadGateEnabled := veVadGateEnabled p; veVadGateAtten := veVadGateAtten p;
     outputGain := outputGain p; outputVolume := outputVolume p;
     outputMute := outputMute p; boostEnabled := boostEnabled p |}.

Definition with_veVadEnabled (p : AudioEngineParams) (v : bool) : AudioEngineParams :=
  {| micGain := micGain p;
     hpfEnabled := hpfEnabled p; hpfFrequency := hpfFrequency p;
     lpfEnabled := lpfEnabled p; lpfFrequency := lpfFrequency p;
     eqLowGain := eqLowGain p; eqMidGain := eqMidGain p; eqHighGain := eqHighGain p;
     nsEnabled := nsEnabled p; nsMode := nsMode p;
     agcEnabled := agcEnabled p; agcMode := agcMode p;
     agcCompressionGainDb := agcCompressionGainDb p;
     agcLimiterEnabled := agcLimiterEnabled p;
     agcTargetLevelDbfs := agcTargetLevelDbfs p;
     veEnabled := veEnabled p; veBlend := veBlend p; veStepSize := veStepSize p;
     veFilterLength := veFilterLength p; veMaxAttenuation := veMaxAttenuation p;
     veRefGain := veRefGain p; veRefHpf := veRefHpf p; veRefLpf := veRefLpf p;
     veMode := veMode p; veAecMode := veAecMode p; veAecFilterLen := veAecFilterLen p;
     veVadEnabled := v; veVadMode := veVadMode p;
     veVadGateEnabled := veVadGateEnabled p; veVadGateAtten := veVadGateAtten p;
     outputGain := outputGain p; outputVolume := outputVolume p;
     outputMute := outputMute p; boostEnabled := boostEnabled p |}.

Definition with_veVadMode (p : AudioEngineParams) (v : Z) : AudioEngineParams :=
  {| micGain := micGain p;
     hpfEnabled := hpfEnabled p; hpfFrequency := hpfFrequency p;
     lpfEnabled := lpfEnabled p; lpfFrequency := lpfFrequency p;
     eqLowGain := eqLowGain p; eqMidGain := eqMidGain p; eqHighGain := eqHighGain p;
     nsEnabled := nsEnabled p; nsMode := nsMode p;
     agcEnabled := agcEnabled p; agcMode := agcMode p;
     agcCompressionGainDb := agcCompressionGainDb p;
     agcLimiterEnabled := agcLimiterEnabled p;
     agcTargetLevelDbfs := agcTargetLevelDbfs p;
     veEnabled := veEnabled p; veBlend := veBlend p; veStepSize := veStepSize p;
     veFilterLength := veFilterLength p; veMaxAttenuation := veMaxAttenuation p;
     veRefGain := veRefGain p; veRefHpf := veRefHpf p; veRefLpf := veRefLpf p;
     veMode := veMode p; veAecMode := veAecMode p; veAecFilterLen := veAecFilterLen p;
     veVadEnabled := veVadEnabled p; veVadMode := v;
     veVadGateEnabled := veVadGateEnabled p; veVadGateAtten := veVadGateAtten p;
     outputGain := outputGain p; outputVolume := outputVolume p;
     outputMute := outputMute p; boostEnabled := boostEnabled p |}.

Definition setHpf (e : AudioEngine) (enabled : bool) (freq : float) : AudioEngine :=
  update_params e
    (with_hpfFrequency (with_hpfEnabled (_params e) enabled)
       (clamp freq (of_Z 20) (of_Z 2000))).

Definition setLpf (e : AudioEngine) (enabled : bool) (freq : float) : AudioEngine :=
  update_params e
    (with_lpfFrequency (with_lpfEnabled (_params e) enabled)
       (clamp freq (of_Z 500) (of_Z 20000))).

Definition setEqLow (e : AudioEngine) (gainDb : float) : AudioEngine :=
  update_params e (with_eqLowGain (_params e) (clamp gainDb (of_Z (-12)) (of_Z 12))).

Definition setEqMid (e : AudioEngine) (gainDb : float) : AudioEngine :=
  update_params e (with_eqMidGain (_params e) (clamp gainDb (of_Z (-12)) (of_Z 12))).

Definition setEqHigh (e : AudioEngine) (gainDb : float) : AudioEngine :=
  update_params e (with_eqHighGain (_params e) (clamp gainDb (of_Z (-12)) (of_Z 12))).

Definition setNsEnabled (e : AudioEngine) (enabled : bool) : AudioEngine :=
  update_params e (with_nsEnabled (_params e) enabled).

Definition setNsMode (e : AudioEngine) (mode : Z) : AudioEngine :=
  update_params e (with_nsMode (_params e) (clampZ mode 0 2)).

Definition setAgcEnabled (e : AudioEngine) (enabled : bool) : AudioEngine :=
  update_params e (with_agcEnabled (_params e) enabled).

Definition setAgcMode (e : AudioEngine) (mode : Z) : AudioEngine :=
  update_params e (with_agcMode (_params e) (clampZ mode 0 3)).

Definition setAgcCompressionGain (e : AudioEngine) (gainDb : Z) : AudioEngine :=
  update_params e (with_agcCompressionGainDb (_params e) (clampZ gainDb 0 90)).

Definition setAgcLimiterEnabled (e : AudioEngine) (enabled : bool) : AudioEngine :=
  update_params e (with_agcLimiterEnabled (_params e) enabled).

Definition setAgcTargetLevel (e : AudioEngine) (levelDbfs : Z) : AudioEngine :=
  update_params e (with_agcTargetLevelDbfs (_params e) (clampZ levelDbfs (-31) 0)).

Definition setVeEnabled (e : AudioEngine) (enabled : bool) : AudioEngine :=
  update_params e (with_veEnabled (_params e) enabled).

Definition setVeBlend (e : AudioEngine) (blend : float) : AudioEngine :=
  update_params e (with_veBlend (_params e) (clamp blend zero one)).

Definition setVeStepSize (e : AudioEngine) (stepSize : float) : AudioEngine :=
  update_params e (with_veStepSize (_params e) (clamp stepSize (of_ratio 1 100) one)).

Definition setVeFilterLength (e : AudioEngine) (taps : Z) : AudioEngine :=
  update_params e (with_veFilterLength (_params e) (clampZ taps 16 512)).

Definition setVeMaxAttenuation (e : AudioEngine) (atten : float) : AudioEngine :=
  update_params e (with_veMaxAttenuation (_params e) (clamp atten zero one)).

Definition setVeRefGain (e : AudioEngine) (gain : float) : AudioEngine :=
  update_params e (with_veRefGain (_params e) (clamp gain (of_ratio 1 10) (of_Z 5))).

Definition setVeRefHpf (e : AudioEngine) (freq : float) : AudioEngine :=
  update_params e (with_veRefHpf (_params e) (clamp freq (of_Z 20) (of_Z 500))).

Definition setVeRefLpf (e : AudioEngine) (freq : float) : AudioEngine :=
  update_params e (with_veRefLpf (_params e) (clamp freq (of_Z 1000) (of_Z 8000))).

Definition setVeMode (e : AudioEngine) (mode : Z) : AudioEngine :=
  update_params e (with_veMode (_params e) (clampZ mode 0 1)).

(** The one integer setter without a clamp. *)
Definition setVeAecMode (e : AudioEngine) (mode : Z) : AudioEngine :=
  update_params e (with_veAecMode (_params e) mode).

Definition setVeAecFilterLen (e : AudioEngine) (len : Z) : AudioEngine :=
  update_params e (with_veAecFilterLen (_params e) (clampZ len 1 6)).

Definition setVeVadEnabled (e : AudioEngine) (enabled : bool) : AudioEngine :=
  update_params e (with_veVadEnabled (_params e) enabled).

Definition setVeVadMode (e : AudioEngine) (mode : Z) : AudioEngine :=
  update_params e (with_veVadMode (_params e) (clampZ mode 0 4)).

(** *** Calls of the setters

    One constructor per setter defined in [audio_engine.cpp], with its
    arguments; [call] runs it. *)
Inductive SetterCall :=
| CallSetMicGain (gain : float)
| CallSetHpf (enabled : bool) (freq : float)
| CallSetLpf (enabled : bool) (freq : float)
| CallSetEqLow (gainDb : float)
| CallSetEqMid (gainDb : float)
| CallSetEqHigh (gainDb : float)
| CallSetNsEnabled (enabled : bool)
| CallSetNsMode (mode : Z)
| CallSetAgcEnabled (enabled : bool)
| CallSetAgcMode (mode : Z)
| CallSetAgcCompressionGain (gainDb : Z)
| CallSetAgcLimiterEnabled (enabled : bool)
| CallSetAgcTargetLevel (levelDbfs : Z)
| CallSetVeEnabled (enabled : bool)
| CallSetVeBlend (blend : float)
| CallSetVeStepSize (stepSize : float)
| CallSetVeFilterLength (taps : Z)
| CallSetVeMaxAttenuation (atten : float)
| CallSetVeRefGain (gain : float)
| CallSetVeRefHpf (freq : float)
| CallSetVeRefLpf (freq : float)
| CallSetVeMode (mode : Z)
| CallSetVeAecMode (mode : Z)
| CallSetVeAecFilterLen (len : Z)
| CallSetVeVadEnabled (enabled : bool)
| CallSetVeVadMode (mode : Z)
| CallSetOutputGain (gain : float)
| CallSetOutputVolume (vol : Z)
| CallSetMute (mute : bool).

Definition call (e : AudioEngine) (c : SetterCall) : AudioEngine :=
  match c with
  | CallSetMicGain gain => setMicGain e gain
  | CallSetHpf enabled freq => setHpf e enabled freq
  | CallSetLpf enabled freq => setLpf e enabled freq
  | CallSetEqLow gainDb => setEqLow e gainDb
  | CallSetEqMid gainDb => setEqMid e gainDb
  | CallSetEqHigh gainDb => setEqHigh e gainDb
  | CallSetNsEnabled enabled => setNsEnabled e enabled
  | CallSetNsMode mode => setNsMode e mode
  | CallSetAgcEnabled enabled => setAgcEnabled e enabled
  | CallSetAgcMode mode => setAgcMode e mode
  | CallSetAgcCompressionGain gainDb => setAgcCompressionGain e gainDb
  | CallSetAgcLimiterEnabled enabled => setAgcLimiterEnabled e enabled
  | CallSetAgcTargetLevel levelDbfs => setAgcTargetLevel e levelDbfs
  | CallSetVeEnabled enabled => setVeEnabled e enabled
  | CallSetVeBlend blend => setVeBlend e blend
  | CallSetVeStepSize stepSize => setVeStepSize e stepSize
  | CallSetVeFilterLength taps => setVeFilterLength e taps
  | CallSetVeMaxAttenuation atten => setVeMaxAttenuation e atten
  | CallSetVeRefGain gain => setVeRefGain e gain
  | CallSetVeRefHpf freq => setVeRefHpf e freq
  | CallSetVeRefLpf freq => setVeRefLpf e freq
  | CallSetVeMode mode => setVeMode e mode
  | CallSetVeAecMode mode => setVeAecMode e mode
  | CallSetVeAecFilterLen len => setVeAecFilterLen e len
  | CallSetVeVadEnabled enabled => setVeVadEnabled e enabled
  | CallSetVeVadMode mode => setVeVadMode e mode
  | CallSetOutputGain gain => setOutputGain e gain
  | CallSetOutputVolume vol => setOutputVolume e vol
  | CallSetMute mute => setMute e mute
  end.

(** The [float] argument of a call, when it has one. *)
Definition float_arg (c : SetterCall) : option float :=
  match c with
  | CallSetMicGain v | CallSetHpf _ v | CallSetLpf _ v
  | CallSetEqLow v | CallSetEqMid v | CallSetEqHigh v
  | CallSetVeBlend v | CallSetVeStepSize v | CallSetVeMaxAttenuation v
  | CallSetVeRefGain v | CallSetVeRefHpf v | CallSetVeRefLpf v
  | CallSetOutputGain v => Some v
  | _ => None
  end.

Definition passes_number (c : SetterCall) : Prop :=
  match float_arg c with Some v => is_nan v = false | None => True end.

(** [lo <= v <= hi] on floats and on integers. *)
Definition within (v lo hi : float) : Prop :=
  leb lo v = true /\ leb v hi = true.

Definition withinZ (v lo hi : Z) : Prop := (lo <= v <= hi)%Z.

(** Every member that some setter clamps lies inside the bounds that
    setter uses. *)
Definition in_setter_ranges (p : AudioEngineParams) : Prop :=
  within (micGain p) zero (of_Z 240) /\
  within (hpfFrequency p) (of_Z 20) (of_Z 2000) /\
  within (lpfFrequency p) (of_Z 500) (of_Z 20000) /\
  within (eqLowGain p) (of_Z (-12)) (of_Z 12) /\
  within (eqMidGain p) (of_Z (-12)) (of_Z 12) /\
  within (eqHighGain p) (of_Z (-12)) (of_Z 12) /\
  withinZ (nsMode p) 0 2 /\
  withinZ (agcMode p) 0 3 /\
  withinZ (agcCompressionGainDb p) 0 90 /\
  withinZ (agcTargetLevelDbfs p) (-31) 0 /\
  within (veBlend p) zero one /\
  within (veStepSize p) (of_ratio 1 100) one /\
  withinZ (veFilterLength p) 16 512 /\
  within (veMaxAttenuation p) zero one /\
  within (veRefGain p) (of_ratio 1 10) (of_Z 5) /\
  within (veRefHpf p) (of_Z 20) (of_Z 500) /\
  within (veRefLpf p) (of_Z 1000) (of_Z 8000) /\
  withinZ (veMode p) 0 1 /\
  withinZ (veAecFilterLen p) 1 6 /\
  withinZ (veVadMode p) 0 4 /\
  within (outputGain p) zero (of_Z 4) /\
  withinZ (outputVolume p) 0 100.

(** The member a [float] setter writes. *)
Definition float_member (c : SetterCall) (p : AudioEngineParams) : option float :=
  match c with
  | CallSetMicGain _ => Some (micGain p)
  | CallSetHpf _ _ => Some (hpfFrequency p)
  | CallSetLpf _ _ => Some (lpfFrequency p)
  | CallSetEqLow _ => Some (eqLowGain p)
  | CallSetEqMid _ => Some (eqMidGain p)
  | CallSetEqHigh _ => Some (eqHighGain p)
  | CallSetVeBlend _ => Some (veBlend p)
  | CallSetVeStepSize _ => Some (veStepSize p)
  | CallSetVeMaxAttenuation _ => Some (veMaxAttenuation p)
  | CallSetVeRefGain _ => Some (veRefGain p)
  | CallSetVeRefHpf _ => Some (veRefHpf p)
  | CallSetVeRefLpf _ => Some (veRefLpf p)
  | CallSetOutputGain _ => Some (outputGain p)
  | _ => None
  end.

(** *** The worker's snapshot

    At the top of each iteration of [processLoop], under the mutex:
    [if (!_running) break; if (_paramsChanged) { localParams = _params;
    localParamsChanged = true; _paramsChanged = false; }].  [None] is the
    [break]. *)
Definition snapshot (e : AudioEngine) (localParams : AudioEngineParams)
    (localParamsChanged : bool)
    : option (AudioEngine * AudioEngineParams * bool) :=
  if negb (_running e) then None
  else if _paramsChanged e then
    Some ({| _params := _params e; _levels := _levels e; _running := _running e;
             _paramsChanged := false |},
          _params e, true)
  else Some (e, localParams, localParamsChanged).
End Setters.

(** ** The output side of the AEC bridge *)

Module AecSchedule.
Import F32 Engine AecRingBuf VoiceExclusion.

Section Helpers.
Variable AecHandle VadHandle : Type.
Variable aec_process : AecHandle -> list Z -> list Z -> AecHandle * list Z.
Variable vad_process : VadHandle -> list Z -> VadHandle * bool.
Variable cast_undefined : float -> Z.

(** The number of 16 kHz samples waiting in the output ring;
    [aecOutRingL.writePos] decides for both channels. *)
Definition out_level (st : VeState AecHandle VadHandle) : Z :=
  writePos (aecOutRingL st).

(** The two channels of a block as they leave step 7, headphone present. *)
Definition block_out (p : AudioEngineParams) (st : VeState AecHandle VadHandle)
    (b : list float * list float * list float) : list float * list float :=
  let res :=
    voice_exclusion AecHandle VadHandle aec_process vad_process cast_undefined
      p true st (length (fst (fst b))) (fst (fst b)) (snd (fst b)) (snd b) in
  (snd (fst res), snd res).

(** The state right after a block that completed an AEC frame: input
    rings empty, one output frame stored and its first 160 samples
    already taken. *)
Definition steady (st : VeState AecHandle VadHandle) : Prop :=
  input_rings_at 0 st /\ aecOutputReady st = true /\ out_level st = 352%Z /\
  is_Some (_aecHandleL st) /\ is_Some (_aecHandleR st).
End Helpers.

Arguments out_level {AecHandle VadHandle} _.
Arguments steady {AecHandle VadHandle} _.
End AecSchedule.

(** ** High-pass and low-pass coefficients and the filter bank *)

Module FilterBank.
Import F32 Engine.

Definition SAMPLE_RATE : float := of_Z 48000.

(** The twelve [Biquad] members of [class AudioEngine]. *)
Record FilterBank := {
  _hpfL : Biquad.Biquad; _hpfR : Biquad.Biquad;
  _lpfL : Biquad.Biquad; _lpfR : Biquad.Biquad;
  _eqLowL : Biquad.Biquad; _eqLowR : Biquad.Biquad;
  _eqMidL : Biquad.Biquad; _eqMidR : Biquad.Biquad;
  _eqHighL : Biquad.Biquad; _eqHighR : Biquad.Biquad;
  _veRefHpfBq : Biquad.Biquad;
  _veRefLpfBq : Biquad.Biquad
}.

(** The member initializers: twelve identity sections at rest. *)
Definition fresh : FilterBank :=
  {| _hpfL := Biquad.fresh; _hpfR := Biquad.fresh;
     _lpfL := Biquad.fresh; _lpfR := Biquad.fresh;
     _eqLowL := Biquad.fresh; _eqLowR := Biquad.fresh;
     _eqMidL := Biquad.fresh; _eqMidR := Biquad.fresh;
     _eqHighL := Biquad.fresh; _eqHighR := Biquad.fresh;
     _veRefHpfBq := Biquad.fresh; _veRefLpfBq := Biquad.fresh |}.

(** The filter resets of [start()]. *)
Definition reset_all (fb : FilterBank) : FilterBank :=
  {| _hpfL := Biquad.reset (_hpfL fb); _hpfR := Biquad.reset (_hpfR fb);
     _lpfL := Biquad.reset (_lpfL fb); _lpfR := Biquad.reset (_lpfR fb);
     _eqLowL := Biquad.reset (_eqLowL fb); _eqLowR := Biquad.reset (_eqLowR fb);
     _eqMidL := Biquad.reset (_eqMidL fb); _eqMidR := Biquad.reset (_eqMidR fb);
     _eqHighL := Biquad.reset (_eqHighL fb); _eqHighR := Biquad.reset (_eqHighR fb);
     _veRefHpfBq := Biquad.reset (_veRefHpfBq fb);
     _veRefLpfBq := Biquad.reset (_veRefLpfBq fb) |}.

Section Trig.
Variable cosf sinf : float -> float.
Variable powf : float -> float -> float.

(** [2.0f * 0.7071f], the denominator of [alpha] for Q = 0.7071. *)
Definition two_q : float := mul (of_Z 2) (of_ratio 7071 10000).

Definition calcHpfCoeffs (bq : Biquad.Biquad) (freq sampleRate : float)
    : Biquad.Biquad :=
  let w0 := Biquad.omega0 freq sampleRate in
  let cosw0 := cosf w0 in
  let sinw0 := sinf w0 in
  let alpha := div sinw0 two_q in
  let a0 := add one alpha in
  {| Biquad.b0 := div (div (add one cosw0) (of_Z 2)) a0;
     Biquad.b1 := div (opp (add one cosw0)) a0;
     Biquad.b2 := div (div (add one cosw0) (of_Z 2)) a0;
     Biquad.a1 := div (mul (of_Z (-2)) cosw0) a0;
     Biquad.a2 := div (sub one alpha) a0;
     Biquad.z1 := Biquad.z1 bq; Biquad.z2 := Biquad.z2 bq |}.

Definition calcLpfCoeffs (bq : Biquad.Biquad) (freq sampleRate : float)
    : Biquad.Biquad :=
  let w0 := Biquad.omega0 freq sampleRate in
  let cosw0 := cosf w0 in
  let sinw0 := sinf w0 in
  let alpha := div sinw0 two_q in
  let a0 := add one alpha in
  {| Biquad.b0 := div (div (sub one cosw0) (of_Z 2)) a0;
     Biquad.b1 := div (sub one cosw0) a0;
     Biquad.b2 := div (div (sub one cosw0) (of_Z 2)) a0;
     Biquad.a1 := div (mul (of_Z (-2)) cosw0) a0;
     Biquad.a2 := div (sub one alpha) a0;
     Biquad.z1 := Biquad.z1 bq; Biquad.z2 := Biquad.z2 bq |}.

(** [1.4f], the Q of the three EQ bands. *)
Definition eq_q : float := of_ratio 14 10.

(** [recalcAllCoeffs()] reads the member [_params], here [params]. *)
Definition recalcAllCoeffs (fb : FilterBank) (params : AudioEngineParams) : FilterBank :=
  let peak := Biquad.calcPeakEqCoeffs cosf sinf powf in
  {| _hpfL := calcHpfCoeffs (_hpfL fb) (hpfFrequency params) SAMPLE_RATE;
     _hpfR := calcHpfCoeffs (_hpfR fb) (hpfFrequency params) SAMPLE_RATE;
     _lpfL := calcLpfCoeffs (_lpfL fb) (lpfFrequency params) SAMPLE_RATE;
     _lpfR := calcLpfCoeffs (_lpfR fb) (lpfFrequency params) SAMPLE_RATE;
     _eqLowL := peak (_eqLowL fb) (of_Z 250) (eqLowGain params) eq_q SAMPLE_RATE;
     _eqLowR := peak (_eqLowR fb) (of_Z 250) (eqLowGain params) eq_q SAMPLE_RATE;
     _eqMidL := peak (_eqMidL fb) (of_Z 1000) (eqMidGain params) eq_q SAMPLE_RATE;
     _eqMidR := peak (_eqMidR fb) (of_Z 1000) (eqMidGain params) eq_q SAMPLE_RATE;
     _eqHighL := peak (_eqHighL fb) (of_Z 4000) (eqHighGain params) eq_q SAMPLE_RATE;
     _eqHighR := peak (_eqHighR fb) (of_Z 4000) (eqHighGain params) eq_q SAMPLE_RATE;
     _veRefHpfBq := calcHpfCoeffs (_veRefHpfBq fb) (veRefHpf params) SAMPLE_RATE;
     _veRefLpfBq := calcLpfCoeffs (_veRefLpfBq fb) (veRefLpf params) SAMPLE_RATE |}.
End Trig.

(** *** The filter loops of steps 3 to 6 *)

(** [floatL[i] = bqL.process(floatL[i]); floatR[i] = bqR.process(floatR[i]);] *)
Definition stereo_step (st : Biquad.Biquad * Biquad.Biquad * list float * list float)
    (i : nat) : Biquad.Biquad * Biquad.Biquad * list float * list float :=
  let '(bqL, bqR, fl, fr) := st in
  let '(bqL', yl) := Biquad.process bqL (fl !!! i) in
  let '(bqR', yr) := Biquad.process bqR (fr !!! i) in
  (bqL', bqR', <[i := yl]> fl, <[i := yr]> fr).

Definition stereo_filter (bqL bqR : Biquad.Biquad) (samplesRead : nat)
    (floatL floatR : list float)
    : Biquad.Biquad * Biquad.Biquad * list float * list float :=
  fold_left stereo_step (seq 0 samplesRead) (bqL, bqR, floatL, floatR).

(** [floatHP[i] = bq.process(floatHP[i]);] *)
Definition mono_step (st : Biquad.Biquad * list float) (i : nat)
    : Biquad.Biquad * list float :=
  let '(bq, buf) := st in
  let '(bq', y) := Biquad.process bq (buf !!! i) in
  (bq', <[i := y]> buf).

Definition mono_filter (bq : Biquad.Biquad) (samplesRead : nat) (buf : list float)
    : Biquad.Biquad * list float :=
  fold_left mono_step (seq 0 samplesRead) (bq, buf).

(** [floatHP[i] *= refGain;] *)
Definition scale_block (gain : float) (samplesRead : nat) (buf : list float)
    : list float :=
  fold_left (fun b i => <[i := mul (b !!! i) gain]> b) (seq 0 samplesRead) buf.

(** Steps 3, 4 and 5 on the two main channels. *)
Definition main_filters (fb : FilterBank) (localParams : AudioEngineParams)
    (samplesRead : nat) (floatL floatR : list float)
    : FilterBank * list float * list float :=
  let '(hL, hR, fl1, fr1) :=
    if hpfEnabled localParams
    then stereo_filter (_hpfL fb) (_hpfR fb) samplesRead floatL floatR
    else (_hpfL fb, _hpfR fb, floatL, floatR) in
  let '(lL, lR, fl2, fr2) :=
    if lpfEnabled localParams
    then stereo_filter (_lpfL fb) (_lpfR fb) samplesRead fl1 fr1
    else (_lpfL fb, _lpfR fb, fl1, fr1) in
  let '(eLL, eLR, fl3, fr3) :=
    stereo_filter (_eqLowL fb) (_eqLowR fb) samplesRead fl2 fr2 in
  let '(eML, eMR, fl4, fr4) :=
    stereo_filter (_eqMidL fb) (_eqMidR fb) samplesRead fl3 fr3 in
  let '(eHL, eHR, fl5, fr5) :=
    stereo_filter (_eqHighL fb) (_eqHighR fb) samplesRead fl4 fr4 in
  ({| _hpfL := hL; _hpfR := hR; _lpfL := lL; _lpfR := lR;
      _eqLowL := eLL; _eqLowR := eLR; _eqMidL := eML; _eqMidR := eMR;
      _eqHighL := eHL; _eqHighR := eHR;
      _veRefHpfBq := _veRefHpfBq fb; _veRefLpfBq := _veRefLpfBq fb |},
   fl5, fr5).

(** Step 6: gain, high-pass and low-pass on the reference channel. *)
Definition condition_reference (fb : FilterBank) (localParams : AudioEngineParams)
    (samplesRead : nat) (floatHP : list float) : FilterBank * list float :=
  let hp1 := scale_block (veRefGain localParams) samplesRead floatHP in
  let '(rH, hp2) := mono_filter (_veRefHpfBq fb) samplesRead hp1 in
  let '(rL, hp3) := mono_filter (_veRefLpfBq fb) samplesRead hp2 in
  ({| _hpfL := _hpfL fb; _hpfR := _hpfR fb; _lpfL := _lpfL fb; _lpfR := _lpfR fb;
      _eqLowL := _eqLowL fb; _eqLowR := _eqLowR fb;
      _eqMidL := _eqMidL fb; _eqMidR := _eqMidR fb;
      _eqHighL := _eqHighL fb; _eqHighR := _eqHighR fb;
      _veRefHpfBq := rH; _veRefLpfBq := rL |},
   hp3).
End FilterBank.

(** ** The worker: one iteration of the loop of [processLoop] *)

Module Worker.
Import F32 Engine Setters.
Import AecRingBuf.

Definition NUM_CHANNELS_IN : nat := 4.
Definition BLOCK_SIZE : nat := VoiceExclusion.BLOCK_SIZE.
Definition NS_FRAME_16K : nat := VoiceExclusion.NS_FRAME_16K.
Definition HP_DETECT_INTERVAL : Z := 48.

(** [constexpr float scale = 1.0f / 32768.0f;] *)
Definition scale : float := div one (of_Z 32768).

(** [int samplesRead = bytesRead / (NUM_CHANNELS_IN * sizeof(int16_t));]
    with [bytesRead] a [size_t]. *)
Definition samples_read (bytesRead : Z) : Z := (bytesRead / 8)%Z.

(** Step 2: MIC-L is channel 0, MIC-R channel 2, MIC-HP channel 3 of the
    four interleaved input channels. *)
Definition extract_step (inBuf : list Z)
    (bufs : list float * list float * list float) (i : nat)
    : list float * list float * list float :=
  let '(fl, fr, fhp) := bufs in
  (<[i := mul (of_Z (inBuf !!! (i * NUM_CHANNELS_IN + 0))) scale]> fl,
   <[i := mul (of_Z (inBuf !!! (i * NUM_CHANNELS_IN + 2))) scale]> fr,
   <[i := mul (of_Z (inBuf !!! (i * NUM_CHANNELS_IN + 3))) scale]> fhp).

Definition extract_channels (samplesRead : nat) (inBuf : list Z)
    (floatL floatR floatHP : list float)
    : list float * list float * list float :=
  fold_left (extract_step inBuf) (seq 0 samplesRead) (floatL, floatR, floatHP).

(** [if (++hpDetectCounter >= HP_DETECT_INTERVAL) { hpDetectCounter = 0;
    hpDetected = bsp_headphone_detect(); }]; [probe] is what the call
    returns when it is made. *)
Definition poll_headphone (hpDetectCounter : Z) (hpDetected : bool) (probe : bool)
    : Z * bool :=
  let c := (hpDetectCounter + 1)%Z in
  if (HP_DETECT_INTERVAL <=? c)%Z then (0%Z, probe) else (c, hpDetected).

(** [create...Handles]: when one of the two creations fails, the other
    handle is destroyed and both end up null. *)
Definition both_or_none {H : Type} (created : option H * option H)
    : option H * option H :=
  match created with
  | (Some l, Some r) => (Some l, Some r)
  | _ => (None, None)
  end.

(** A block written over the start of a buffer. *)
Definition write_block (buf data : list float) : list float :=
  data ++ drop (length data) buf.

(** What the iteration does to the codec. *)
Record CodecCalls := {
  set_in_gain : float;
  set_volume : Z;
  set_mute : bool
}.

Section Helpers.
(** The ESP-SR helpers and the C library are opaque.  A processing call
    returns the next state of its handle with the frame it wrote;
    [set_agc_config] returns the configured handle. *)
Variable NsHandle AgcHandle AecHandle VadHandle : Type.
Variable ns_process : NsHandle -> list Z -> NsHandle * list Z.
Variable agc_process : AgcHandle -> list Z -> AgcHandle * list Z.
Variable set_agc_config : AgcHandle -> Z -> Z -> Z -> AgcHandle.
Variable aec_process : AecHandle -> list Z -> list Z -> AecHandle * list Z.
Variable vad_process : VadHandle -> list Z -> VadHandle * bool.
Variable cast_undefined : float -> Z.
Variable cosf sinf : float -> float.
Variable powf : float -> float -> float.

Local Abbreviation VeState := (VoiceExclusion.VeState AecHandle VadHandle).

(** The engine members and the locals of [processLoop] that live across
    iterations.  [ve] holds those of step 7 and the AEC part of the
    parameter update. *)
Record Worker := {
  filters : FilterBank.FilterBank;
  ve : VeState;
  _nsHandleL : option NsHandle;
  _nsHandleR : option NsHandle;
  _agcHandleL : option AgcHandle;
  _agcHandleR : option AgcHandle;
  resamplerDownL : Resampler.Resampler;
  resamplerDownR : Resampler.Resampler;
  resamplerUpL : Resampler.Resampler;
  resamplerUpR : Resampler.Resampler;
  agcResDownL : Resampler.Resampler;
  agcResDownR : Resampler.Resampler;
  agcResUpL : Resampler.Resampler;
  agcResUpR : Resampler.Resampler;
  localParams : AudioEngineParams;
  localParamsChanged : bool;
  prevNsEnabled : bool;
  prevNsMode : Z;
  prevVeEnabled : bool;
  prevVeFilterLength : Z;
  prevAgcEnabled : bool;
  prevAgcMode : Z;
  prevAgcCompressionGainDb : Z;
  prevAgcLimiterEnabled : bool;
  prevAgcTargetLevelDbfs : Z;
  prevVeVadEnabled : bool;
  prevVeVadMode : Z;
  hpDetected : bool;
  hpDetectCounter : Z;
  floatL : list float;
  floatR : list float;
  floatHP : list float;
  outBuf : list Z
}.

(** What the outside does during one iteration: the handles the create
    calls return (when they are made), the setter calls of other threads
    between the snapshot and [recalcAllCoeffs], the input buffer after
    [i2s_read] with its byte count, and the answer of the headphone
    probe (when it is made). *)
Record Outside := {
  ns_created : option NsHandle * option NsHandle;
  agc_created : option AgcHandle * option AgcHandle;
  aec_created : option AecHandle * option AecHandle;
  vad_created : option VadHandle;
  racing_calls : list SetterCall;
  inBuf : list Z;
  bytesRead : Z;
  headphone : bool
}.

(** *** Assignments to parts of the step-7 state *)

Definition with_nlms (st : VeState) (nlL nlR : option Nlms.NlmsFilter) : VeState :=
  {| VoiceExclusion._nlmsL := nlL; VoiceExclusion._nlmsR := nlR;
     VoiceExclusion.veResDownL := VoiceExclusion.veResDownL st;
     VoiceExclusion.veResDownR := VoiceExclusion.veResDownR st;
     VoiceExclusion.veResDownHP := VoiceExclusion.veResDownHP st;
     VoiceExclusion.veResUpL := VoiceExclusion.veResUpL st;
     VoiceExclusion.veResUpR := VoiceExclusion.veResUpR st;
     VoiceExclusion._aecHandleL := VoiceExclusion._aecHandleL st;
     VoiceExclusion._aecHandleR := VoiceExclusion._aecHandleR st;
     VoiceExclusion._vadHandleRef := VoiceExclusion._vadHandleRef st;
     VoiceExclusion.aecRingL := VoiceExclusion.aecRingL st;
     VoiceExclusion.aecRingR := VoiceExclusion.aecRingR st;
     VoiceExclusion.aecRingHP := VoiceExclusion.aecRingHP st;
     VoiceExclusion.aecOutRingL := VoiceExclusion.aecOutRingL st;
     VoiceExclusion.aecOutRingR := VoiceExclusion.aecOutRingR st;
     VoiceExclusion.aecResDownL := VoiceExclusion.aecResDownL st;
     VoiceExclusion.aecResDownR := VoiceExclusion.aecResDownR st;
     VoiceExclusion.aecResDownHP := VoiceExclusion.aecResDownHP st;
     VoiceExclusion.aecResUpL := VoiceExclusion.aecResUpL st;
     VoiceExclusion.aecResUpR := VoiceExclusion.aecResUpR st;
     VoiceExclusion.aecOutputReady := VoiceExclusion.aecOutputReady st;
     VoiceExclusion.prevVeAecActive := VoiceExclusion.prevVeAecActive st;
     VoiceExclusion.prevVeAecMode := VoiceExclusion.prevVeAecMode st;
     VoiceExclusion.prevVeAecFilterLen := VoiceExclusion.prevVeAecFilterLen st;
     VoiceExclusion.levels := VoiceExclusion.levels st |}.

Definition with_vad (st : VeState) (vad : option VadHandle) : VeState :=
  {| VoiceExclusion._nlmsL := VoiceExclusion._nlmsL st;
     VoiceExclusion._nlmsR := VoiceExclusion._nlmsR st;
     VoiceExclusion.veResDownL := VoiceExclusion.veResDownL st;
     VoiceExclusion.veResDownR := VoiceExclusion.veResDownR st;
     VoiceExclusion.veResDownHP := VoiceExclusion.veResDownHP st;
     VoiceExclusion.veResUpL := VoiceExclusion.veResUpL st;
     VoiceExclusion.veResUpR := VoiceExclusion.veResUpR st;
     VoiceExclusion._aecHandleL := VoiceExclusion._aecHandleL st;
     VoiceExclusion._aecHandleR := VoiceExclusion._aecHandleR st;
     VoiceExclusion._vadHandleRef := vad;
     VoiceExclusion.aecRingL := VoiceExclusion.aecRingL st;
     VoiceExclusion.aecRingR := VoiceExclusion.aecRingR st;
     VoiceExclusion.aecRingHP := VoiceExclusion.aecRingHP st;
     VoiceExclusion.aecOutRingL := VoiceExclusion.aecOutRingL st;
     VoiceExclusion.aecOutRingR := VoiceExclusion.aecOutRingR st;
     VoiceExclusion.aecResDownL := VoiceExclusion.aecResDownL st;
     VoiceExclusion.aecResDownR := VoiceExclusion.aecResDownR st;
     VoiceExclusion.aecResDownHP := VoiceExclusion.aecResDownHP st;
     VoiceExclusion.aecResUpL := VoiceExclusion.aecResUpL st;
     VoiceExclusion.aecResUpR := VoiceExclusion.aecResUpR st;
     VoiceExclusion.aecOutputReady := VoiceExclusion.aecOutputReady st;
     VoiceExclusion.prevVeAecActive := VoiceExclusion.prevVeAecActive st;
     VoiceExclusion.prevVeAecMode := VoiceExclusion.prevVeAecMode st;
     VoiceExclusion.prevVeAecFilterLen := VoiceExclusion.prevVeAecFilterLen st;
     VoiceExclusion.levels := VoiceExclusion.levels st |}.

Definition with_levels (st : VeState) (lv : AudioLevels) : VeState :=
  {| VoiceExclusion._nlmsL := VoiceExclusion._nlmsL st;
     VoiceExclusion._nlmsR := VoiceExclusion._nlmsR st;
     VoiceExclusion.veResDownL := VoiceExclusion.veResDownL st;
     VoiceExclusion.veResDownR := VoiceExclusion.veResDownR st;
     VoiceExclusion.veResDownHP := VoiceExclusion.veResDownHP st;
     VoiceExclusion.veResUpL := VoiceExclusion.veResUpL st;
     VoiceExclusion.veResUpR := VoiceExclusion.veResUpR st;
     VoiceExclusion._aecHandleL := VoiceExclusion._aecHandleL st;
     VoiceExclusion._aecHandleR := VoiceExclusion._aecHandleR st;
     VoiceExclusion._vadHandleRef := VoiceExclusion._vadHandleRef st;
     VoiceExclusion.aecRingL := VoiceExclusion.aecRingL st;
     VoiceExclusion.aecRingR := VoiceExclusion.aecRingR st;
     VoiceExclusion.aecRingHP := VoiceExclusion.aecRingHP st;
     VoiceExclusion.aecOutRingL := VoiceExclusion.aecOutRingL st;
     VoiceExclusion.aecOutRingR := VoiceExclusion.aecOutRingR st;
     VoiceExclusion.aecResDownL := VoiceExclusion.aecResDownL st;
     VoiceExclusion.aecResDownR := VoiceExclusion.aecResDownR st;
     VoiceExclusion.aecResDownHP := VoiceExclusion.aecResDownHP st;
     VoiceExclusion.aecResUpL := VoiceExclusion.aecResUpL st;
     VoiceExclusion.aecResUpR := VoiceExclusion.aecResUpR st;
     VoiceExclusion.aecOutputReady := VoiceExclusion.aecOutputReady st;
     VoiceExclusion.prevVeAecActive := VoiceExclusion.prevVeAecActive st;
     VoiceExclusion.prevVeAecMode := VoiceExclusion.prevVeAecMode st;
     VoiceExclusion.prevVeAecFilterLen := VoiceExclusion.prevVeAecFilterLen st;
     VoiceExclusion.levels := lv |}.

(** *** The parameter update, handle by handle *)

(** NS: recreate on a change of [nsEnabled] or [nsMode]. *)
Definition ns_update (p : AudioEngineParams) (prevEnabled : bool) (prevMode : Z)
    (hL hR : option NsHandle) (created : option NsHandle * option NsHandle)
    : option NsHandle * option NsHandle * bool * Z :=
  if negb (Bool.eqb (nsEnabled p) prevEnabled) || negb (nsMode p =? prevMode)%Z then
    let '(l, r) := if nsEnabled p then both_or_none created else (None, None) in
    (l, r, nsEnabled p, nsMode p)
  else (hL, hR, prevEnabled, prevMode).

(** NLMS: new filters of [veFilterLength] taps on a change of
    [veEnabled] or [veFilterLength].  [NlmsFilter::init] allocates with
    [new float[_len]()], which throws [std::bad_array_new_length] for a
    negative length; nothing in [processLoop] or [audioTask] catches it,
    so the loop does not go on ([None]). *)
Definition nlms_update (p : AudioEngineParams) (prevEnabled : bool) (prevLength : Z)
    (nlL nlR : option Nlms.NlmsFilter)
    : option (option Nlms.NlmsFilter * option Nlms.NlmsFilter * bool * Z) :=
  if negb (Bool.eqb (veEnabled p) prevEnabled)
     || negb (veFilterLength p =? prevLength)%Z then
    if veEnabled p then
      if (veFilterLength p <? 0)%Z then None
      else
        Some (Some (Nlms.init (veFilterLength p)), Some (Nlms.init (veFilterLength p)),
              veEnabled p, veFilterLength p)
    else Some (None, None, veEnabled p, veFilterLength p)
  else Some (nlL, nlR, prevEnabled, prevLength).

(** VAD: one handle, wanted in AEC mode with [veVadEnabled]. *)
Definition vad_update (p : AudioEngineParams) (prevEnabled : bool) (prevMode : Z)
    (h : option VadHandle) (created : option VadHandle)
    : option VadHandle * bool * Z :=
  let vadWanted := veEnabled p && (veMode p =? 1)%Z && veVadEnabled p in
  if negb (Bool.eqb vadWanted prevEnabled) || negb (veVadMode p =? prevMode)%Z then
    ((if vadWanted then created else None), vadWanted, veVadMode p)
  else (h, prevEnabled, prevMode).

(** [set_agc_config(h, gain, limiter ? 1 : 0, target)] on a handle that
    exists. *)
Definition configure_agc (p : AudioEngineParams) (h : option AgcHandle)
    : option AgcHandle :=
  (fun a =>
     set_agc_config a (agcCompressionGainDb p)
       (if agcLimiterEnabled p then 1 else 0)%Z (agcTargetLevelDbfs p)) <$> h.

Definition agc_changed (p : AudioEngineParams) (w : Worker) : bool :=
  negb (Bool.eqb (agcEnabled p) (prevAgcEnabled w))
  || negb (agcMode p =? prevAgcMode w)%Z
  || negb (agcCompressionGainDb p =? prevAgcCompressionGainDb w)%Z
  || negb (Bool.eqb (agcLimiterEnabled p) (prevAgcLimiterEnabled w))
  || negb (agcTargetLevelDbfs p =? prevAgcTargetLevelDbfs w)%Z.

(** The block [if (localParamsChanged) { ... }]: codec settings, the five
    kinds of handles, and the coefficients, which [recalcAllCoeffs]
    computes from the member [_params] as it is at that moment
    ([shared]).  [None] when [NlmsFilter::init] throws. *)
Definition apply_params (w : Worker) (o : Outside) (shared : AudioEngineParams)
    : option (Worker * CodecCalls) :=
  let p := localParams w in
  let '(nsL, nsR, pNsE, pNsM) :=
    ns_update p (prevNsEnabled w) (prevNsMode w) (_nsHandleL w) (_nsHandleR w)
      (ns_created o) in
  match nlms_update p (prevVeEnabled w) (prevVeFilterLength w)
          (VoiceExclusion._nlmsL (ve w)) (VoiceExclusion._nlmsR (ve w)) with
  | None => None
  | Some (nlL, nlR, pVeE, pVeL) =>
  let ve1 := with_nlms (ve w) nlL nlR in
  let ve2 := VoiceExclusion.aec_reconfigure AecHandle VadHandle p ve1 (aec_created o) in
  let '(vad, pVadE, pVadM) :=
    vad_update p (prevVeVadEnabled w) (prevVeVadMode w)
      (VoiceExclusion._vadHandleRef ve2) (vad_created o) in
  let ve3 := with_vad ve2 vad in
  let '(agcL, agcR) :=
    if agc_changed p w then
      if agcEnabled p then
        let '(l, r) := both_or_none (agc_created o) in
        (configure_agc p l, configure_agc p r)
      else (None, None)
    else (_agcHandleL w, _agcHandleR w) in
  let changed := agc_changed p w in
  Some
  ({| filters := FilterBank.recalcAllCoeffs cosf sinf powf (filters w) shared;
      ve := ve3;
      _nsHandleL := nsL; _nsHandleR := nsR;
      _agcHandleL := agcL; _agcHandleR := agcR;
      resamplerDownL := resamplerDownL w; resamplerDownR := resamplerDownR w;
      resamplerUpL := resamplerUpL w; resamplerUpR := resamplerUpR w;
      agcResDownL := agcResDownL w; agcResDownR := agcResDownR w;
      agcResUpL := agcResUpL w; agcResUpR := agcResUpR w;
      localParams := p;
      localParamsChanged := false;
      prevNsEnabled := pNsE; prevNsMode := pNsM;
      prevVeEnabled := pVeE; prevVeFilterLength := pVeL;
      prevAgcEnabled := if changed then agcEnabled p else prevAgcEnabled w;
      prevAgcMode := if changed then agcMode p else prevAgcMode w;
      prevAgcCompressionGainDb :=
        if changed then agcCompressionGainDb p else prevAgcCompressionGainDb w;
      prevAgcLimiterEnabled :=
        if changed then agcLimiterEnabled p else prevAgcLimiterEnabled w;
      prevAgcTargetLevelDbfs :=
        if changed then agcTargetLevelDbfs p else prevAgcTargetLevelDbfs w;
      prevVeVadEnabled := pVadE; prevVeVadMode := pVadM;
      hpDetected := hpDetected w; hpDetectCounter := hpDetectCounter w;
      floatL := floatL w; floatR := floatR w; floatHP := floatHP w;
      outBuf := outBuf w |},
   {| set_in_gain := micGain p; set_volume := outputVolume p;
      set_mute := outputMute p |})
  end.

(** *** Steps 8 and 8b: a helper at 16 kHz between two resamplers *)

(** [static_cast<int16_t>(std::clamp(x, -1.0f, 1.0f) * 32767.0f)] for
    the 160 samples of a frame, and [(float)out[i] * scale] back. *)
Definition to_frame (samples : list float) : list Z :=
  map (fun i =>
         Output.to_int16 cast_undefined
           (mul (clamp (samples !!! i) Output.minus_one one) Output.full_scale))
      (seq 0 NS_FRAME_16K).

Definition of_frame (out : list Z) : list float :=
  map (fun i => mul (of_Z (out !!! i)) scale) (seq 0 NS_FRAME_16K).

(** Step 8 on a full block with both NS handles. *)
Definition ns_stage (w : Worker) (hL hR : NsHandle) (fl fr : list float)
    : Worker * list float * list float :=
  let '(dL, down16kL) := Resampler.downsample3 (resamplerDownL w) fl NS_FRAME_16K in
  let '(dR, down16kR) := Resampler.downsample3 (resamplerDownR w) fr NS_FRAME_16K in
  let '(hL', ns16kOutL) := ns_process hL (to_frame down16kL) in
  let '(hR', ns16kOutR) := ns_process hR (to_frame down16kR) in
  let '(uL, upL) := Resampler.upsample3 (resamplerUpL w) (of_frame ns16kOutL) NS_FRAME_16K in
  let '(uR, upR) := Resampler.upsample3 (resamplerUpR w) (of_frame ns16kOutR) NS_FRAME_16K in
  ({| filters := filters w; ve := ve w;
      _nsHandleL := Some hL'; _nsHandleR := Some hR';
      _agcHandleL := _agcHandleL w; _agcHandleR := _agcHandleR w;
      resamplerDownL := dL; resamplerDownR := dR;
      resamplerUpL := uL; resamplerUpR := uR;
      agcResDownL := agcResDownL w; agcResDownR := agcResDownR w;
      agcResUpL := agcResUpL w; agcResUpR := agcResUpR w;
      localParams := localParams w; localParamsChanged := localParamsChanged w;
      prevNsEnabled := prevNsEnabled w; prevNsMode := prevNsMode w;
      prevVeEnabled := prevVeEnabled w; prevVeFilterLength := prevVeFilterLength w;
      prevAgcEnabled := prevAgcEnabled w; prevAgcMode := prevAgcMode w;
      prevAgcCompressionGainDb := prevAgcCompressionGainDb w;
      prevAgcLimiterEnabled := prevAgcLimiterEnabled w;
      prevAgcTargetLevelDbfs := prevAgcTargetLevelDbfs w;
      prevVeVadEnabled := prevVeVadEnabled w; prevVeVadMode := prevVeVadMode w;
      hpDetected := hpDetected w; hpDetectCounter := hpDetectCounter w;
      floatL := floatL w; floatR := floatR w; floatHP := floatHP w;
      outBuf := outBuf w |},
   write_block fl upL, write_block fr upR).

(** Step 8b on a full block with both AGC handles. *)
Definition agc_stage (w : Worker) (hL hR : AgcHandle) (fl fr : list float)
    : Worker * list float * list float :=
  let '(dL, agcDown16kL) := Resampler.downsample3 (agcResDownL w) fl NS_FRAME_16K in
  let '(dR, agcDown16kR) := Resampler.downsample3 (agcResDownR w) fr NS_FRAME_16K in
  let '(hL', agc16kOutL) := agc_process hL (to_frame agcDown16kL) in
  let '(hR', agc16kOutR) := agc_process hR (to_frame agcDown16kR) in
  let '(uL, upL) := Resampler.upsample3 (agcResUpL w) (of_frame agc16kOutL) NS_FRAME_16K in
  let '(uR, upR) := Resampler.upsample3 (agcResUpR w) (of_frame agc16kOutR) NS_FRAME_16K in
  ({| filters := filters w; ve := ve w;
      _nsHandleL := _nsHandleL w; _nsHandleR := _nsHandleR w;
      _agcHandleL := Some hL'; _agcHandleR := Some hR';
      resamplerDownL := resamplerDownL w; resamplerDownR := resamplerDownR w;
      resamplerUpL := resamplerUpL w; resamplerUpR := resamplerUpR w;
      agcResDownL := dL; agcResDownR := dR;
      agcResUpL := uL; agcResUpR := uR;
      localParams := localParams w; localParamsChanged := localParamsChanged w;
      prevNsEnabled := prevNsEnabled w; prevNsMode := prevNsMode w;
      prevVeEnabled := prevVeEnabled w; prevVeFilterLength := prevVeFilterLength w;
      prevAgcEnabled := prevAgcEnabled w; prevAgcMode := prevAgcMode w;
      prevAgcCompressionGainDb := prevAgcCompressionGainDb w;
      prevAgcLimiterEnabled := prevAgcLimiterEnabled w;
      prevAgcTargetLevelDbfs := prevAgcTargetLevelDbfs w;
      prevVeVadEnabled := prevVeVadEnabled w; prevVeVadMode := prevVeVadMode w;
      hpDetected := hpDetected w; hpDetectCounter := hpDetectCounter w;
      floatL := floatL w; floatR := floatR w; floatHP := floatHP w;
      outBuf := outBuf w |},
   write_block fl upL, write_block fr upR).

(** The worker with new filters, step-7 state, headphone state and
    buffers, as steps 2 to 7 leave it. *)
Definition after_front (w : Worker) (fb : FilterBank.FilterBank) (st : VeState)
    (counter : Z) (detected : bool) : Worker :=
  {| filters := fb; ve := st;
     _nsHandleL := _nsHandleL w; _nsHandleR := _nsHandleR w;
     _agcHandleL := _agcHandleL w; _agcHandleR := _agcHandleR w;
     resamplerDownL := resamplerDownL w; resamplerDownR := resamplerDownR w;
     resamplerUpL := resamplerUpL w; resamplerUpR := resamplerUpR w;
     agcResDownL := agcResDownL w; agcResDownR := agcResDownR w;
     agcResUpL := agcResUpL w; agcResUpR := agcResUpR w;
     localParams := localParams w; localParamsChanged := localParamsChanged w;
     prevNsEnabled := prevNsEnabled w; prevNsMode := prevNsMode w;
     prevVeEnabled := prevVeEnabled w; prevVeFilterLength := prevVeFilterLength w;
     prevAgcEnabled := prevAgcEnabled w; prevAgcMode := prevAgcMode w;
     prevAgcCompressionGainDb := prevAgcCompressionGainDb w;
     prevAgcLimiterEnabled := prevAgcLimiterEnabled w;
     prevAgcTargetLevelDbfs := prevAgcTargetLevelDbfs w;
     prevVeVadEnabled := prevVeVadEnabled w; prevVeVadMode := prevVeVadMode w;
     hpDetected := detected; hpDetectCounter := counter;
     floatL := floatL w; floatR := floatR w; floatHP := floatHP w;
     outBuf := outBuf w |}.

Definition with_buffers (w : Worker) (fl fr fhp : list float) (ob : list Z) : Worker :=
  {| filters := filters w; ve := ve w;
     _nsHandleL := _nsHandleL w; _nsHandleR := _nsHandleR w;
     _agcHandleL := _agcHandleL w; _agcHandleR := _agcHandleR w;
     resamplerDownL := resamplerDownL w; resamplerDownR := resamplerDownR w;
     resamplerUpL := resamplerUpL w; resamplerUpR := resamplerUpR w;
     agcResDownL := agcResDownL w; agcResDownR := agcResDownR w;
     agcResUpL := agcResUpL w; agcResUpR := agcResUpR w;
     localParams := localParams w; localParamsChanged := localParamsChanged w;
     prevNsEnabled := prevNsEnabled w; prevNsMode := prevNsMode w;
     prevVeEnabled := prevVeEnabled w; prevVeFilterLength := prevVeFilterLength w;
     prevAgcEnabled := prevAgcEnabled w; prevAgcMode := prevAgcMode w;
     prevAgcCompressionGainDb := prevAgcCompressionGainDb w;
     prevAgcLimiterEnabled := prevAgcLimiterEnabled w;
     prevAgcTargetLevelDbfs := prevAgcTargetLevelDbfs w;
     prevVeVadEnabled := prevVeVadEnabled w; prevVeVadMode := prevVeVadMode w;
     hpDetected := hpDetected w; hpDetectCounter := hpDetectCounter w;
     floatL := fl; floatR := fr; floatHP := fhp;
     outBuf := ob |}.

Definition with_local (w : Worker) (p : AudioEngineParams) (changed : bool) : Worker :=
  {| filters := filters w; ve := ve w;
     _nsHandleL := _nsHandleL w; _nsHandleR := _nsHandleR w;
     _agcHandleL := _agcHandleL w; _agcHandleR := _agcHandleR w;
     resamplerDownL := resamplerDownL w; resamplerDownR := resamplerDownR w;
     resamplerUpL := resamplerUpL w; resamplerUpR := resamplerUpR w;
     agcResDownL := agcResDownL w; agcResDownR := agcResDownR w;
     agcResUpL := agcResUpL w; agcResUpR := agcResUpR w;
     localParams := p; localParamsChanged := changed;
     prevNsEnabled := prevNsEnabled w; prevNsMode := prevNsMode w;
     prevVeEnabled := prevVeEnabled w; prevVeFilterLength := prevVeFilterLength w;
     prevAgcEnabled := prevAgcEnabled w; prevAgcMode := prevAgcMode w;
     prevAgcCompressionGainDb := prevAgcCompressionGainDb w;
     prevAgcLimiterEnabled := prevAgcLimiterEnabled w;
     prevAgcTargetLevelDbfs := prevAgcTargetLevelDbfs w;
     prevVeVadEnabled := prevVeVadEnabled w; prevVeVadMode := prevVeVadMode w;
     hpDetected := hpDetected w; hpDetectCounter := hpDetectCounter w;
     floatL := floatL w; floatR := floatR w; floatHP := floatHP w;
     outBuf := outBuf w |}.

(** *** Steps 2 to 13 on the samples of one read *)

Record BlockResult := {
  blk_worker : Worker;
  blk_levels : AudioLevels;
  (** the samples handed to [i2s_write] *)
  blk_written : list Z
}.

Definition process_block (w : Worker) (lv : AudioLevels) (o : Outside)
    (samplesRead : nat) : BlockResult :=
  let p := localParams w in
  (* 2 *)
  let '(fl0, fr0, fhp0) :=
    extract_channels samplesRead (inBuf o) (floatL w) (floatR w) (floatHP w) in
  (* 3, 4, 5 *)
  let '(fb1, fl1, fr1) := FilterBank.main_filters (filters w) p samplesRead fl0 fr0 in
  (* 6 *)
  let '(fb2, fhp1) := FilterBank.condition_reference fb1 p samplesRead fhp0 in
  (* 6b *)
  let lv1 := Output.meter_hp lv samplesRead fhp1 in
  (* 7 *)
  let '(counter, detected) :=
    poll_headphone (hpDetectCounter w) (hpDetected w) (headphone o) in
  let '(st1, fl2, fr2) :=
    VoiceExclusion.voice_exclusion AecHandle VadHandle aec_process vad_process
      cast_undefined p detected (with_levels (ve w) lv1) samplesRead fl1 fr1 fhp1 in
  let w1 := after_front w fb2 st1 counter detected in
  (* 8 *)
  let '(w2, fl3, fr3) :=
    match nsEnabled p && (samplesRead =? BLOCK_SIZE), _nsHandleL w1, _nsHandleR w1 with
    | true, Some hL, Some hR => ns_stage w1 hL hR fl2 fr2
    | _, _, _ => (w1, fl2, fr2)
    end in
  (* 8b *)
  let '(w3, fl4, fr4) :=
    match agcEnabled p && (samplesRead =? BLOCK_SIZE), _agcHandleL w2, _agcHandleR w2 with
    | true, Some hL, Some hR => agc_stage w2 hL hR fl3 fr3
    | _, _, _ => (w2, fl3, fr3)
    end in
  (* 9 to 13 *)
  let r := Output.output_stage cast_undefined p (VoiceExclusion.levels st1)
             samplesRead fl4 fr4 (outBuf w3) in
  {| blk_worker :=
       with_buffers w3 (Output.res_floatL r) (Output.res_floatR r) fhp1
         (Output.res_outBuf r);
     blk_levels := Output.res_levels r;
     blk_written := Output.res_written r |}.

(** *** One iteration of the [while (true)] loop

    An iteration ends the loop at [if (!_running) break;], ends it with
    the exception of [NlmsFilter::init], or goes through: then the
    engine's guarded members and the worker after it, the codec settings
    when the parameter block ran, and the samples written ([None] when
    the read gave no sample and the iteration ended at [continue]). *)
Record Step := {
  step_engine : AudioEngine;
  step_worker : Worker;
  step_codec : option CodecCalls;
  step_written : option (list Z)
}.

Inductive Outcome :=
| Stopped
| Threw
| Done (s : Step).

Definition publish (e : AudioEngine) (lv : AudioLevels) : AudioEngine :=
  {| _params := _params e; _levels := lv; _running := _running e;
     _paramsChanged := _paramsChanged e |}.

(** Steps 1 to 13, after the parameter block. *)
Definition read_and_process (e2 : AudioEngine) (w2 : Worker)
    (codec : option CodecCalls) (o : Outside) : Step :=
  let samplesRead := samples_read (bytesRead o) in
  if (samplesRead <=? 0)%Z then
    {| step_engine := e2; step_worker := w2; step_codec := codec;
       step_written := None |}
  else
    let r := process_block w2 (_levels e2) o (Z.to_nat samplesRead) in
    {| step_engine := publish e2 (blk_levels r);
       step_worker := blk_worker r;
       step_codec := codec;
       step_written := Some (blk_written r) |}.

Definition iteration (e : AudioEngine) (w : Worker) (o : Outside) : Outcome :=
  match snapshot e (localParams w) (localParamsChanged w) with
  | None => Stopped
  | Some (e1, lp, changed) =>
      let w1 := with_local w lp changed in
      let e2 := fold_left call (racing_calls o) e1 in
      if changed then
        match apply_params w1 o (_params e2) with
        | None => Threw
        | Some (w2, c) => Done (read_and_process e2 w2 (Some c) o)
        end
      else Done (read_and_process e2 w1 None o)
  end.

(** The loop over a list of events: the setter calls other tasks make
    before an iteration, and what the iteration meets outside.  [None]
    when the loop was left on the way, at [break] or by the exception. *)
Fixpoint run (e : AudioEngine) (w : Worker) (events : list (list SetterCall * Outside))
    : option (AudioEngine * Worker) :=
  match events with
  | [] => Some (e, w)
  | (calls, o) :: rest =>
      match iteration (fold_left call calls e) w o with
      | Done s => run (step_engine s) (step_worker s) rest
      | _ => None
      end
  end.

(** The worker at the entry of the loop: [start()] has reset the filter
    state and created the NS and AGC handles the parameters ask for;
    [processLoop] has initialized its resamplers, rings and flags.  The
    sample buffers come from [new] without initializer and hold anything
    ([buffers]). *)
Definition at_entry (fb : FilterBank.FilterBank) (params : AudioEngineParams)
    (nsCreated : option NsHandle * option NsHandle)
    (agcCreated : option AgcHandle * option AgcHandle)
    (buffers : list float * list float * list float * list Z) : Worker :=
  let '(nsL, nsR) := if nsEnabled params then both_or_none nsCreated else (None, None) in
  let '(agcL, agcR) :=
    if agcEnabled params then both_or_none agcCreated else (None, None) in
  let '(fl, fr, fhp, ob) := buffers in
  {| filters := FilterBank.reset_all fb;
     ve := VoiceExclusion.initial_state;
     _nsHandleL := nsL; _nsHandleR := nsR;
     _agcHandleL := agcL; _agcHandleR := agcR;
     resamplerDownL := Resampler.init true; resamplerDownR := Resampler.init true;
     resamplerUpL := Resampler.init false; resamplerUpR := Resampler.init false;
     agcResDownL := Resampler.init true; agcResDownR := Resampler.init true;
     agcResUpL := Resampler.init false; agcResUpR := Resampler.init false;
     localParams := default_params;
     localParamsChanged := true;
     prevNsEnabled := false; prevNsMode := -1;
     prevVeEnabled := false; prevVeFilterLength := -1;
     prevAgcEnabled := false; prevAgcMode := -1;
     prevAgcCompressionGainDb := -1;
     prevAgcLimiterEnabled := true;
     prevAgcTargetLevelDbfs := -99;
     prevVeVadEnabled := false; prevVeVadMode := -1;
     hpDetected := false; hpDetectCounter := 0;
     floatL := fl; floatR := fr; floatHP := fhp; outBuf := ob |}.
End Helpers.

Arguments filters {NsHandle AgcHandle AecHandle VadHandle} _.
Arguments ve {NsHandle AgcHandle AecHandle VadHandle} _.
Arguments _nsHandleL {NsHandle AgcHandle AecHandle VadHandle} _.
Arguments _nsHandleR {NsHandle AgcHandle AecHandle VadHandle} _.
Arguments _agcHandleL {NsHandle AgcHandle AecHandle VadHandle} _.
Arguments _agcHandleR {NsHandle AgcHandle AecHandle VadHandle} _.
Arguments resamplerDownL {NsHandle AgcHandle AecHandle VadHandle} _.
Arguments resamplerDownR {NsHandle AgcHandle AecHandle VadHandle} _.
Arguments resamplerUpL {NsHandle AgcHandle AecHandle VadHandle} _.
Arguments resamplerUpR {NsHandle AgcHandle AecHandle VadHandle} _.
Arguments agcResDownL {NsHandle AgcHandle AecHandle VadHandle} _.
Arguments agcResDownR {NsHandle AgcHandle AecHandle VadHandle} _.
Arguments agcResUpL {NsHandle AgcHandle AecHandle VadHandle} _.
Arguments agcResUpR {NsHandle AgcHandle AecHandle VadHandle} _.
Arguments localParams {NsHandle AgcHandle AecHandle VadHandle} _.
Arguments localParamsChanged {NsHandle AgcHandle AecHandle VadHandle} _.
Arguments prevNsEnabled {NsHandle AgcHandle AecHandle VadHandle} _.
Arguments prevNsMode {NsHandle AgcHandle AecHandle VadHandle} _.
Arguments prevVeEnabled {NsHandle AgcHandle AecHandle VadHandle} _.
Arguments prevVeFilterLength {NsHandle AgcHandle AecHandle VadHandle} _.
Arguments prevAgcEnabled {NsHandle AgcHandle AecHandle VadHandle} _.
Arguments prevAgcMode {NsHandle AgcHandle AecHandle VadHandle} _.
Arguments prevAgcCompressionGainDb {NsHandle AgcHandle AecHandle VadHandle} _.
Arguments prevAgcLimiterEnabled {NsHandle AgcHandle AecHandle VadHandle} _.
Arguments prevAgcTargetLevelDbfs {NsHandle AgcHandle AecHandle VadHandle} _.
Arguments prevVeVadEnabled {NsHandle AgcHandle AecHandle VadHandle} _.
Arguments prevVeVadMode {NsHandle AgcHandle AecHandle VadHandle} _.
Arguments hpDetected {NsHandle AgcHandle AecHandle VadHandle} _.
Arguments hpDetectCounter {NsHandle AgcHandle AecHandle VadHandle} _.
Arguments floatL {NsHandle AgcHandle AecHandle VadHandle} _.
Arguments floatR {NsHandle AgcHandle AecHandle VadHandle} _.
Arguments floatHP {NsHandle AgcHandle AecHandle VadHandle} _.
Arguments outBuf {NsHandle AgcHandle AecHandle VadHandle} _.
Arguments ns_created {NsHandle AgcHandle AecHandle VadHandle} _.
Arguments agc_created {NsHandle AgcHandle AecHandle VadHandle} _.
Arguments aec_created {NsHandle AgcHandle AecHandle VadHandle} _.
Arguments vad_created {NsHandle AgcHandle AecHandle VadHandle} _.
Arguments racing_calls {NsHandle AgcHandle AecHandle VadHandle} _.
Arguments inBuf {NsHandle AgcHandle AecHandle VadHandle} _.
Arguments bytesRead {NsHandle AgcHandle AecHandle VadHandle} _.
Arguments headphone {NsHandle AgcHandle AecHandle VadHandle} _.
Arguments blk_worker {NsHandle AgcHandle AecHandle VadHandle} _.
Arguments blk_levels {NsHandle AgcHandle AecHandle VadHandle} _.
Arguments blk_written {NsHandle AgcHandle AecHandle VadHandle} _.
Arguments step_engine {NsHandle AgcHandle AecHandle VadHandle} _.
Arguments step_worker {NsHandle AgcHandle AecHandle VadHandle} _.
Arguments step_codec {NsHandle AgcHandle AecHandle VadHandle} _.
Arguments step_written {NsHandle AgcHandle AecHandle VadHandle} _.
Arguments Stopped {NsHandle AgcHandle AecHandle VadHandle}.
Arguments Threw {NsHandle AgcHandle AecHandle VadHandle}.
Arguments Done {NsHandle AgcHandle AecHandle VadHandle} s.
End Worker.

(** ** What the worker keeps *)

Module WorkerProps.
Import F32 Engine Setters Worker.

(** Two handles of a pair exist together or not at all. *)
Definition paired {A B : Type} (l : option A) (r : option B) : Prop :=
  is_Some l <-> is_Some r.

(** [z] moved one step toward zero. *)
Definition toward_zero (z : Z) : Z := (z - Z.sgn z)%Z.

(** A biquad section that is the identity and holds no signal. *)
Definition at_rest (bq : Biquad.Biquad) : Prop :=
  Biquad.identity_coeffs bq /\
  is_zero (Biquad.z1 bq) = true /\ is_zero (Biquad.z2 bq) = true.

Definition eq_at_rest (fb : FilterBank.FilterBank) : Prop :=
  at_rest (FilterBank._eqLowL fb) /\ at_rest (FilterBank._eqLowR fb) /\
  at_rest (FilterBank._eqMidL fb) /\ at_rest (FilterBank._eqMidR fb) /\
  at_rest (FilterBank._eqHighL fb) /\ at_rest (FilterBank._eqHighR fb).

(** Settings under which no stage changes the two main channels: filters,
    noise suppression, gain control and voice exclusion off, unity output
    gain, not muted. *)
Definition flat (p : AudioEngineParams) : Prop :=
  hpfEnabled p = false /\ lpfEnabled p = false /\
  nsEnabled p = false /\ agcEnabled p = false /\ veEnabled p = false /\
  outputGain p = one /\ outputMute p = false.

(** [f] holds on the [n] integers from [z] on. *)
Fixpoint all_from (f : Z -> bool) (z : Z) (n : nat) : bool :=
  match n with
  | O => true
  | S n' => f z && all_from f (z + 1) n'
  end.

Definition negative_zero (x : float) : bool :=
  match x with
  | S754_zero true => true
  | _ => false
  end.

(** A sample every identity stage hands back bit for bit. *)
Definition clean (x : float) : bool :=
  valid x && is_finite x && negb (negative_zero x).

(** The input sample [z] becomes a clean float in step 2 and, clamped
    and scaled in step 11, the integer one step closer to zero; the
    conversion is never left to the target (which would give 65536
    here). *)
Definition sample_check (z : Z) : bool :=
  let x := mul (of_Z z) scale in
  clean x &&
  (Output.to_int16 (fun _ => 65536%Z)
     (mul (clamp x Output.minus_one one) Output.full_scale) =? toward_zero z)%Z.

(** The five coefficients of a section, and those of the twelve sections
    of the engine. *)
Definition coeffs (bq : Biquad.Biquad) : float * float * float * float * float :=
  (Biquad.b0 bq, Biquad.b1 bq, Biquad.b2 bq, Biquad.a1 bq, Biquad.a2 bq).

Definition bank_coeffs (fb : FilterBank.FilterBank)
    : list (float * float * float * float * float) :=
  map coeffs
    [FilterBank._hpfL fb; FilterBank._hpfR fb; FilterBank._lpfL fb; FilterBank._lpfR fb;
     FilterBank._eqLowL fb; FilterBank._eqLowR fb; FilterBank._eqMidL fb;
     FilterBank._eqMidR fb; FilterBank._eqHighL fb; FilterBank._eqHighR fb;
     FilterBank._veRefHpfBq fb; FilterBank._veRefLpfBq fb].

(** A run of headphone polls, one per processed block. *)
Definition poll_run (probes : list bool) (start : Z * bool) : Z * bool :=
  fold_left (fun s probe => poll_headphone (fst s) (snd s) probe) probes start.

(** The samples of an input buffer are [int16_t] values. *)
Definition int16 (z : Z) : Prop := (-32768 <= z <= 32767)%Z.

Section Helpers.
Variable NsHandle AgcHandle AecHandle VadHandle : Type.

Local Abbreviation Worker := (Worker NsHandle AgcHandle AecHandle VadHandle).

(** A filter with [n] taps: both arrays are allocated with [n] elements
    and [_len] is [n]. *)
Definition has_taps (f : Nlms.NlmsFilter) (n : Z) : Prop :=
  exists w r,
    Nlms._weights f = Some w /\ Nlms._refBuf f = Some r /\
    Z.of_nat (length w) = n /\ Z.of_nat (length r) = n /\ Nlms._len f = n.

(** The helpers of the two channels exist together, and the NLMS filters
    exist exactly while voice exclusion was enabled at the last
    parameter update, with the number of taps configured then. *)
Definition handles_paired (w : Worker) : Prop :=
  paired (_nsHandleL w) (_nsHandleR w) /\
  paired (_agcHandleL w) (_agcHandleR w) /\
  paired (VoiceExclusion._aecHandleL (ve w)) (VoiceExclusion._aecHandleR (ve w)) /\
  paired (VoiceExclusion._nlmsL (ve w)) (VoiceExclusion._nlmsR (ve w)).

Definition nlms_as_configured (w : Worker) : Prop :=
  (is_Some (VoiceExclusion._nlmsL (ve w)) <-> prevVeEnabled w = true) /\
  forall f,
    VoiceExclusion._nlmsL (ve w) = Some f \/ VoiceExclusion._nlmsR (ve w) = Some f ->
    has_taps f (prevVeFilterLength w).

(** The NLMS part of the parameter block has run for the worker's
    current parameters. *)
Definition applied (w : Worker) : Prop :=
  prevVeEnabled w = veEnabled (localParams w) /\
  prevVeFilterLength w = veFilterLength (localParams w).

Definition worker_ok (w : Worker) : Prop :=
  handles_paired w /\ nlms_as_configured w /\
  (localParamsChanged w = false -> applied w).

(** The headphone probes of the iterations that process a block, in
    order: an iteration whose read gives no sample ends before the poll. *)
Definition probes_of (events : list (list SetterCall * Outside NsHandle AgcHandle AecHandle VadHandle))
    : list bool :=
  map (fun ev => headphone (snd ev))
    (List.filter (fun ev => 0 <? samples_read (bytesRead (snd ev)))%Z events).

(** The probe the worker holds after [probes]: none during the first 47
    blocks, then the one of the last block whose number is a multiple of
    48. *)
Definition held_probe (probes : list bool) : bool :=
  let k := Z.of_nat (length probes) in
  if (k <? HP_DETECT_INTERVAL)%Z then false
  else probes !!! Z.to_nat (HP_DETECT_INTERVAL * (k / HP_DETECT_INTERVAL) - 1).

(** The worker's copy of the parameters is the shared record whenever
    [_paramsChanged] is clear. *)
Definition coherent (e : AudioEngine) (w : Worker) : Prop :=
  _paramsChanged e = false -> localParams w = _params e.
End Helpers.

Arguments handles_paired {NsHandle AgcHandle AecHandle VadHandle} _.
Arguments nlms_as_configured {NsHandle AgcHandle AecHandle VadHandle} _.
Arguments coherent {NsHandle AgcHandle AecHandle VadHandle} _ _.
Arguments applied {NsHandle AgcHandle AecHandle VadHandle} _.
Arguments worker_ok {NsHandle AgcHandle AecHandle VadHandle} _.
Arguments probes_of {NsHandle AgcHandle AecHandle VadHandle} _.
End WorkerProps.

(** ** Concrete inputs used in the examples *)

Module Examples.
Import F32 Engine.

Definition half : float := of_ratio 1 2.
Definition default_step : float := of_ratio 8 100.
Definition quiet_reference : float := of_ratio 1 1000.

Definition some_samples : list float :=
  [of_ratio 1 2; opp (of_ratio 1 3); zero; of_ratio 1 32768; of_Z 1].

Definition unmuted_defaults : AudioEngineParams :=
  with_outputMute default_params false.

(** A peak register at 0.5, as one block leaves it. *)
Definition after_half_scale : AudioLevels :=
  Output.meter_lr default_levels 1 [of_ratio 1 2] [of_ratio 1 4].

(** Stand-ins for the opaque helpers: an AEC that returns its input and a
    VAD that never detects speech. *)
Definition echo_aec (h : unit) (inp ref : list Z) : unit * list Z := (h, inp).
Definition deaf_vad (v : unit) (ref : list Z) : unit * bool := (v, false).
Definition cast_to_zero (x : float) : Z := 0%Z.

Definition silent_block : list float * list float * list float :=
  (replicate 480 zero, replicate 480 zero, replicate 480 zero).

(** The state right after the parameter update that creates the AEC. *)
Definition created_state : VoiceExclusion.VeState unit unit :=
  VoiceExclusion.aec_reconfigure unit unit aec_params
    VoiceExclusion.initial_state (Some tt, Some tt).
End Examples.

(** ** More concrete inputs *)

Module MoreExamples.
Import F32 Engine Examples.

(** The guarded members right after [start()]. *)
Definition running_engine : AudioEngine :=
  {| _params := default_params; _levels := default_levels;
     _running := true; _paramsChanged := true |}.

(** A 16-tap filter after one NaN reference sample. *)
Definition poisoned_filter : Nlms.NlmsFilter :=
  fst (Nlms.process (Nlms.init 16) nan zero default_step).

(** The defaults with voice exclusion enabled (NLMS mode). *)
Definition nlms_params : AudioEngineParams := Setters.with_veEnabled default_params true.

(** The worker's state with the two NLMS filters in place. *)
Definition nlms_state (nlL nlR : Nlms.NlmsFilter) : VoiceExclusion.VeState unit unit :=
  let st := @VoiceExclusion.initial_state unit unit in
  {| VoiceExclusion._nlmsL := Some nlL; VoiceExclusion._nlmsR := Some nlR;
     VoiceExclusion.veResDownL := VoiceExclusion.veResDownL st;
     VoiceExclusion.veResDownR := VoiceExclusion.veResDownR st;
     VoiceExclusion.veResDownHP := VoiceExclusion.veResDownHP st;
     VoiceExclusion.veResUpL := VoiceExclusion.veResUpL st;
     VoiceExclusion.veResUpR := VoiceExclusion.veResUpR st;
     VoiceExclusion._aecHandleL := None; VoiceExclusion._aecHandleR := None;
     VoiceExclusion._vadHandleRef := None;
     VoiceExclusion.aecRingL := VoiceExclusion.aecRingL st;
     VoiceExclusion.aecRingR := VoiceExclusion.aecRingR st;
     VoiceExclusion.aecRingHP := VoiceExclusion.aecRingHP st;
     VoiceExclusion.aecOutRingL := VoiceExclusion.aecOutRingL st;
     VoiceExclusion.aecOutRingR := VoiceExclusion.aecOutRingR st;
     VoiceExclusion.aecResDownL := VoiceExclusion.aecResDownL st;
     VoiceExclusion.aecResDownR := VoiceExclusion.aecResDownR st;
     VoiceExclusion.aecResDownHP := VoiceExclusion.aecResDownHP st;
     VoiceExclusion.aecResUpL := VoiceExclusion.aecResUpL st;
     VoiceExclusion.aecResUpR := VoiceExclusion.aecResUpR st;
     VoiceExclusion.aecOutputReady := false;
     VoiceExclusion.prevVeAecActive := false;
     VoiceExclusion.prevVeAecMode := -1;
     VoiceExclusion.prevVeAecFilterLen := -1;
     VoiceExclusion.levels := default_levels |}.

(** A block of 480 samples at half scale on every channel. *)
Definition loud_block : list float * list float * list float :=
  (replicate 480 half, replicate 480 half, replicate 480 half).

(** A worker at the entry of the loop, with helpers that hand their
    input back. *)
Definition entry_worker : Worker.Worker unit unit unit unit :=
  Worker.at_entry unit unit unit unit FilterBank.fresh default_params
    (None, None) (None, None)
    (replicate 480 zero, replicate 480 zero, replicate 480 zero, replicate 960 0%Z).

Definition echo (h : unit) (frame : list Z) : unit * list Z := (h, frame).
Definition echo_near (h : unit) (near ref : list Z) : unit * list Z := (h, near).
Definition no_speech (h : unit) (frame : list Z) : unit * bool := (h, false).
Definition keep_config (h : unit) (gain limiter target : Z) : unit := h.
Definition cast_zero (x : float) : Z := 0%Z.
Definition same (x : float) : float := x.
Definition first_arg (x y : float) : float := x.

(** What an iteration meets: helpers that can be created, a read of
    [bytes] bytes from [samples], and the state of the headphone jack. *)
Definition outside (samples : list Z) (bytes : Z) (plugged : bool)
    : Worker.Outside unit unit unit unit :=
  {| Worker.ns_created := (Some tt, Some tt);
     Worker.agc_created := (Some tt, Some tt);
     Worker.aec_created := (Some tt, Some tt);
     Worker.vad_created := Some tt;
     Worker.racing_calls := [];
     Worker.inBuf := samples;
     Worker.bytesRead := bytes;
     Worker.headphone := plugged |}.

(** Flat settings: the defaults with the high-pass off, unity output gain
    and the mute released; a worker that holds them. *)
Definition flat_params : AudioEngineParams :=
  with_outputMute (with_outputGain (Setters.with_hpfEnabled default_params false) one)
    false.

Definition flat_worker : Worker.Worker unit unit unit unit :=
  Worker.with_local unit unit unit unit entry_worker flat_params false.

(** Two frames of four channels. *)
Definition two_frames : list Z := [100; 7; -200; 7; 32767; 7; -32768; 7]%Z.

(** The loop with these helpers. *)
Definition example_run :=
  Worker.run unit unit unit unit echo echo keep_config echo_near no_speech
    cast_zero same same first_arg.
End MoreExamples.

(* ===================================================================== *)
(** * Part II: facts about the model                                       *)
(* ===================================================================== *)

(** ** Comparison of binary32 values *)

Module F32Facts.
Import F32.

Lemma compare_antisym (x y : float) :
  SFcompare y x = option_map CompOpp (SFcompare x y).
Proof.
  destruct x as [sx|sx| |sx mx ex], y as [sy|sy| |sy my ey]; simpl;
    try reflexivity;
    try (destruct sx; reflexivity);
    try (destruct sy; reflexivity);
    try (destruct sx, sy; reflexivity).
  destruct sx, sy; simpl; try reflexivity;
    rewrite (Z.compare_antisym ey ex);
    destruct (ey ?= ex)%Z; simpl; try reflexivity.
  - rewrite CompOpp_involutive.
    exact (f_equal Some (Pos.compare_cont_antisym my mx Eq)).
  - rewrite <- (CompOpp_involutive (PosDef.Pos.compare_cont Eq my mx)).
    exact (f_equal (fun c => Some (CompOpp c)) (Pos.compare_cont_antisym my mx Eq)).
Qed.

Lemma compare_defined (x y : float) :
  is_nan x = false -> is_nan y = false -> exists c, SFcompare x y = Some c.
Proof.
  destruct x, y; simpl; intros; try discriminate; eauto.
Qed.

(** For numbers, "not greater" is "less or equal". *)
Lemma not_gtb_leb (x y : float) :
  is_nan x = false -> is_nan y = false -> gtb x y = false -> leb x y = true.
Proof.
  intros Hx Hy. unfold gtb, ltb, leb, SFltb, SFleb.
  rewrite (compare_antisym x y).
  destruct (compare_defined x y Hx Hy) as [c ->].
  destruct c; simpl; congruence.
Qed.

(** With a NaN on either side every comparison is false. *)
Lemma ltb_nan_l (y : float) : ltb nan y = false.
Proof. reflexivity. Qed.

Lemma ltb_nan_r (x : float) : ltb x nan = false.
Proof. destruct x; reflexivity. Qed.

Lemma abs_nan_iff (x : float) : is_nan (abs x) = is_nan x.
Proof. destruct x; reflexivity. Qed.

Lemma abs_nonneg (x : float) : is_nan x = false -> is_nonneg (abs x) = true.
Proof. destruct x; simpl; congruence. Qed.
End F32Facts.

(** ** NLMS: the loops against the per-tap formulas *)

Module NlmsFacts.
Import F32 Nlms.

(** Inside the buffer the truncating [%] of the code is the mathematical
    modulo of the design. *)
Lemma tap_index_mod (pos len : Z) (i : nat) :
  (0 <= pos < len)%Z -> (Z.of_nat i < len)%Z ->
  tap_index pos (Z.of_nat i) len = Z.to_nat ((pos - Z.of_nat i) mod len).
Proof.
  intros Hp Hi. unfold tap_index. f_equal.
  rewrite Z.rem_mod_nonneg by lia.
  rewrite <- (Z.mod_add (pos - Z.of_nat i) 1 len) by lia.
  f_equal. lia.
Qed.

Lemma tap_index_lt (pos len : Z) (i : nat) :
  (0 <= pos < len)%Z -> (Z.of_nat i < len)%Z ->
  tap_index pos (Z.of_nat i) len < Z.to_nat len.
Proof.
  intros Hp Hi. rewrite tap_index_mod by assumption.
  pose proof (Z.mod_pos_bound (pos - Z.of_nat i) len ltac:(lia)). lia.
Qed.

(** One pass of the second loop on an in-range tap writes the guarded
    update in place. *)
Lemma update_step_insert r pos len ns err (w : list float) (i : nat) :
  i < length w ->
  update_step r pos len ns err w i =
    <[i := reset_if_diverged
             (add (w !!! i) (mul (mul ns err) (r !!! tap_index pos (Z.of_nat i) len)))]> w.
Proof.
  intros Hi. unfold update_step, reset_if_diverged.
  rewrite list_lookup_total_insert_eq by assumption.
  destruct (gtb _ _); [apply list_insert_insert_eq | reflexivity].
Qed.

Lemma update_loop_length r pos len ns err (k : nat) (w : list float) :
  k <= length w ->
  length (fold_left (update_step r pos len ns err) (seq 0 k) w) = length w.
Proof.
  induction k as [|k IH]; intros Hk; [reflexivity|].
  rewrite seq_S, fold_left_app. simpl.
  rewrite update_step_insert by (rewrite IH; lia).
  rewrite length_insert. apply IH. lia.
Qed.

Lemma update_loop_lookup r pos len ns err (k : nat) (w : list float) (i : nat) :
  k <= length w ->
  fold_left (update_step r pos len ns err) (seq 0 k) w !!! i =
    if decide (i < k)
    then reset_if_diverged
           (add (w !!! i) (mul (mul ns err) (r !!! tap_index pos (Z.of_nat i) len)))
    else w !!! i.
Proof.
  induction k as [|k IH]; intros Hk.
  - simpl. destruct (decide (i < 0)); [lia | reflexivity].
  - rewrite seq_S, fold_left_app. simpl.
    rewrite update_step_insert by (rewrite update_loop_length; lia).
    destruct (decide (i = k)) as [->|Hne].
    + rewrite list_lookup_total_insert_eq by (rewrite update_loop_length; lia).
      rewrite IH by lia.
      destruct (decide (k < k)); [lia|]. destruct (decide (k < S k)); [reflexivity | lia].
    + rewrite list_lookup_total_insert_ne by congruence.
      rewrite IH by lia.
      destruct (decide (i < k)), (decide (i < S k)); try lia; reflexivity.
Qed.

(** The whole second loop is the indexed map of the guarded update. *)
Lemma update_loop_imap r pos len ns err (w : list float) :
  fold_left (update_step r pos len ns err) (seq 0 (length w)) w =
    imap (fun i wi =>
            reset_if_diverged
              (add wi (mul (mul ns err) (r !!! tap_index pos (Z.of_nat i) len)))) w.
Proof.
  apply (list_eq_same_length _ _ (length w)).
  - apply length_imap.
  - apply update_loop_length. lia.
  - intros i x y Hi Hx Hy.
    apply list_lookup_total_correct in Hx. rewrite update_loop_lookup in Hx by lia.
    destruct (decide (i < length w)); [|lia].
    rewrite list_lookup_imap in Hy.
    destruct (w !! i) as [wi|] eqn:Hwi; simpl in Hy; [|discriminate].
    apply list_lookup_total_correct in Hwi. congruence.
Qed.

(** The first loop computes two left-to-right sums. *)
Lemma dot_loop_sums (w r : list float) pos len (l : list nat) (acc : float * float) :
  fold_left (dot_step w r pos len) l acc =
    (fold_left add
       (map (fun i => mul (w !!! i) (r !!! tap_index pos (Z.of_nat i) len)) l)
       (fst acc),
     fold_left add
       (map (fun i => mul (r !!! tap_index pos (Z.of_nat i) len)
                          (r !!! tap_index pos (Z.of_nat i) len)) l)
       (snd acc)).
Proof.
  revert acc. induction l as [|i l IH]; intros [a b]; [reflexivity|].
  simpl. rewrite IH. reflexivity.
Qed.

Lemma imap_as_map {A B} `{!Inhabited A} (g : nat -> A -> B) (l : list A) :
  imap g l = map (fun i => g i (l !!! i)) (seq 0 (length l)).
Proof.
  apply (list_eq_same_length _ _ (length l)).
  - rewrite length_map, length_seq. reflexivity.
  - apply length_imap.
  - intros i x y Hi Hx Hy.
    rewrite list_lookup_imap in Hx.
    change (map ?f ?l) with (f <$> l) in Hy.
    rewrite list_lookup_fmap, lookup_seq_lt in Hy by assumption.
    simpl in Hy.
    destruct (l !! i) as [a|] eqn:Ha; simpl in Hx; [|discriminate].
    apply list_lookup_total_correct in Ha. congruence.
Qed.
End NlmsFacts.

Module NlmsTheorems.
Import F32 Nlms NlmsFacts Examples.

Lemma weight_limit_value : weight_limit = S754_finite false 10485760 (-20).
Proof. reflexivity. Qed.

Lemma reset_if_diverged_in_bounds (v : float) : tap_in_bounds (reset_if_diverged v).
Proof.
  unfold reset_if_diverged, tap_in_bounds.
  destruct (gtb (abs v) weight_limit) eqn:Hg.
  - split; [reflexivity | intros _; reflexivity].
  - split; [assumption|]. intros Hn.
    apply F32Facts.not_gtb_leb; [|reflexivity|assumption].
    rewrite F32Facts.abs_nan_iff. assumption.
Qed.

(** On an initialized filter the two loops of [process] compute the
    guarded step of the design. *)
Lemma process_guarded_eq (f : NlmsFilter) (x d mu : float) :
  initialized f -> process f x d mu = process_guarded f x d mu.
Proof.
  intros (w & r & Hw & Hr & Hlen & Hlw & Hlr & Hpos).
  unfold process, process_guarded, process_by_design, process_design.
  rewrite Hw, Hr.
  destruct (Z.leb_spec (_len f) 0) as [Hle|_]; [lia|].
  rewrite dot_loop_sums. cbn [fst snd].
  rewrite <- Hlw.
  set (r1 := <[Z.to_nat (_pos f) := x]> r).
  assert (Hmap1 :
    map (fun i => mul (w !!! i) (r1 !!! tap_index (_pos f) (Z.of_nat i) (_len f)))
        (seq 0 (length w)) =
    imap (fun i wi => mul wi (r1 !!! Z.to_nat ((_pos f - Z.of_nat i) mod _len f))) w).
  { rewrite imap_as_map. apply map_ext_in. intros i Hi.
    apply in_seq in Hi. rewrite tap_index_mod by lia. reflexivity. }
  assert (Hmap2 :
    map (fun i => mul (r1 !!! tap_index (_pos f) (Z.of_nat i) (_len f))
                      (r1 !!! tap_index (_pos f) (Z.of_nat i) (_len f)))
        (seq 0 (length w)) =
    imap (fun i (_ : float) =>
            mul (r1 !!! Z.to_nat ((_pos f - Z.of_nat i) mod _len f))
                (r1 !!! Z.to_nat ((_pos f - Z.of_nat i) mod _len f))) w).
  { rewrite imap_as_map. apply map_ext_in. intros i Hi.
    apply in_seq in Hi. rewrite tap_index_mod by lia. reflexivity. }
  rewrite Hmap1, Hmap2. unfold sum_f32.
  rewrite update_loop_imap.
  rewrite Z.rem_mod_nonneg by lia.
  f_equal. f_equal. f_equal.
  apply imap_ext. intros i wi Hi.
  apply lookup_lt_Some in Hi.
  rewrite tap_index_mod by lia. reflexivity.
Qed.

Lemma process_keeps_consistent (f : NlmsFilter) (x d mu : float) :
  consistent f -> consistent (fst (process f x d mu)).
Proof.
  intros Hc. unfold process.
  destruct (_weights f) as [w|] eqn:Hw; [|exact Hc].
  destruct (_refBuf f) as [r|] eqn:Hr; [|exact Hc].
  destruct (Z.leb_spec (_len f) 0) as [Hle|Hlt]; [exact Hc|].
  unfold consistent in Hc. rewrite Hw, Hr in Hc.
  destruct Hc as (H0 & Hlw & Hlr & Hp0 & Hp).
  rewrite dot_loop_sums. cbn [fst snd]. unfold consistent. cbn.
  rewrite <- Hlw. rewrite update_loop_imap, length_imap, length_insert.
  pose proof (Z.rem_bound_pos (_pos f + 1) (_len f) ltac:(lia) ltac:(lia)).
  repeat split; try assumption; lia.
Qed.

Lemma reachable_consistent (f : NlmsFilter) : reachable f -> consistent f.
Proof.
  induction 1 as [|f n _ _ Hn|f _ _|f _ IH|f x d mu _ IH].
  - exact I.
  - unfold consistent, init. cbn. rewrite !length_replicate. lia.
  - exact I.
  - unfold consistent, reset in *. cbn.
    destruct (_weights f), (_refBuf f); cbn; try assumption.
    destruct IH as (? & ? & ? & ? & ?). rewrite !length_replicate. lia.
  - apply process_keeps_consistent. assumption.
Qed.

Lemma process_taps_in_bounds (f : NlmsFilter) (x d mu : float) :
  consistent f -> Forall tap_in_bounds (weights_of f) ->
  Forall tap_in_bounds (weights_of (fst (process f x d mu))).
Proof.
  intros Hc Hall.
  destruct (_weights f) as [w|] eqn:Hw.
  2:{ unfold process. rewrite Hw. exact Hall. }
  destruct (_refBuf f) as [r|] eqn:Hr.
  2:{ unfold process. rewrite Hw, Hr. exact Hall. }
  destruct (Z.leb_spec (_len f) 0) as [Hle|Hlt].
  { unfold process. rewrite Hw, Hr.
    destruct (Z.leb_spec (_len f) 0); [exact Hall | lia]. }
  assert (Hinit : initialized f).
  { unfold consistent in Hc. rewrite Hw, Hr in Hc.
    destruct Hc as (H0 & Hlw & Hlr & Hp0 & Hp).
    exists w, r. repeat split; auto. }
  rewrite process_guarded_eq by assumption.
  unfold process_guarded, process_by_design, process_design. rewrite Hw, Hr.
  unfold weights_of. cbn.
  apply Forall_lookup_2. intros i v Hv.
  rewrite list_lookup_imap in Hv.
  destruct (w !! i); simpl in Hv; [|discriminate].
  injection Hv as <-. apply reset_if_diverged_in_bounds.
Qed.

(** C1, as the code has it: in every filter object that can exist, so in
    particular after each call of [process] in any sequence of calls, no
    weight has a magnitude above 10, and every weight that is a number
    (not NaN) has [|w| <= 10]; a tap that exceeds 10 during the update is
    reset to 0 in place. *)
Theorem weights_never_exceed_limit (f : NlmsFilter) :
  reachable f -> Forall tap_in_bounds (weights_of f).
Proof.
  intros Hr. induction Hr as [|f n Hf _ Hn|f Hf _|f Hf IH|f x d mu Hf IH].
  - constructor.
  - unfold weights_of, init. cbn.
    apply Forall_forall. intros v Hv. apply elem_of_replicate in Hv as [-> _].
    split; [reflexivity | intros _; reflexivity].
  - constructor.
  - unfold weights_of, reset. cbn.
    destruct (_weights f); cbn; [|constructor].
    apply Forall_forall. intros v Hv. apply elem_of_replicate in Hv as [-> _].
    split; [reflexivity | intros _; reflexivity].
  - apply process_taps_in_bounds; [apply reachable_consistent|]; assumption.
Qed.

Lemma weights_never_exceed_limit_witness :
  Forall tap_in_bounds
    (weights_of (fst (process (init 64) quiet_reference half default_step))).
Proof.
  apply weights_never_exceed_limit.
  apply reach_process. apply (reach_init null_filter); [apply reach_new | lia].
Defined.

(** C1 as stated fails: one NaN reference sample makes every weight NaN,
    the sanity check [fabsf(w) > 10.0f] is false on NaN, and NaN is not
    [<= 10]. *)
Lemma nan_reference_breaks_weight_bound :
  ~ Forall (fun w => leb (abs w) weight_limit = true)
      (weights_of (fst (process (init 64) nan half default_step))).
Proof.
  intros H. apply Forall_lookup_1 with (i := 0) (x := nan) in H.
  - discriminate H.
  - vm_compute. reflexivity.
Qed.

(** C2, as the code has it: on an initialized filter of length [L] with
    write position [p], [process(x, d, mu)] stores [r[p] = x], computes
    [y] and [P] over the taps [r[(p-i) mod L]], the unclamped error
    [e = d - y] and the step [mu / (P + 1e-6)], updates each tap by
    [w[i] += normStep * e * r[(p-i) mod L]] and then resets it to 0 when
    its magnitude exceeds 10, advances [p] to [(p+1) mod L] and returns
    [y]. *)
Theorem process_refines_design (f : NlmsFilter) (x d mu : float) :
  initialized f -> process f x d mu = process_guarded f x d mu.
Proof. apply process_guarded_eq. Qed.

Lemma init_initialized (n : Z) : (0 < n)%Z -> initialized (init n).
Proof.
  intros Hn. exists (replicate (Z.to_nat n) zero), (replicate (Z.to_nat n) zero).
  cbn. rewrite !length_replicate. repeat split; lia.
Qed.

Lemma process_refines_design_witness :
  process (init 64) quiet_reference half default_step =
  process_guarded (init 64) quiet_reference half default_step.
Proof. apply process_refines_design. apply init_initialized. lia. Defined.

(** C2 as stated fails: with a small reference sample the update leaves
    the first tap near 20, and the code resets it to 0 where the bare
    update [w[i] += ...] keeps it. *)
Lemma process_is_not_the_bare_update :
  process (init 64) quiet_reference half default_step <>
  process_unguarded (init 64) quiet_reference half default_step.
Proof.
  intros H.
  apply (f_equal (fun r => weights_of (fst r) !! 0)) in H.
  vm_compute in H. discriminate H.
Qed.
End NlmsTheorems.

(** ** Multiplication by [1.0f] and sums of zeros *)

Module F32Exact.
Import F32.

Lemma one_value : one = S754_finite false 8388608 (-23).
Proof. reflexivity. Qed.

Lemma digits2_shift (m : positive) :
  digits2_pos (8388608 * m) = (digits2_pos m + 23)%positive.
Proof.
  change (8388608 * m)%positive
    with (m~0~0~0~0~0~0~0~0~0~0~0~0~0~0~0~0~0~0~0~0~0~0~0)%positive.
  cbn [digits2_pos]. lia.
Qed.

Lemma shr_23 (m : positive) :
  SpecFloat.iter_pos shr_1 23%positive
    {| shr_m := Zpos (8388608 * m); shr_r := false; shr_s := false |}
  = {| shr_m := Zpos m; shr_r := false; shr_s := false |}.
Proof.
  change (8388608 * m)%positive
    with (m~0~0~0~0~0~0~0~0~0~0~0~0~0~0~0~0~0~0~0~0~0~0~0)%positive.
  reflexivity.
Qed.

(** The product of [1.0f] and a float is that float: the 47-bit product
    of the mantissas is shifted back by 23 bits without loss. *)
Lemma mul_one_l_finite (s : bool) (m : positive) (e : Z) :
  bounded prec emax m e = true ->
  mul one (S754_finite s m e) = S754_finite s m e.
Proof.
  intros Hb. unfold bounded, canonical_mantissa in Hb.
  apply andb_true_iff in Hb as [Hc He].
  apply Z.eqb_eq in Hc.
  rewrite one_value. unfold mul, SFmul. cbn [xorb].
  unfold binary_round_aux.
  unfold shr_fexp at 1.
  cbn [Zdigits2 shr_record_of_loc].
  rewrite digits2_shift.
  replace (Z.pos (digits2_pos m + 23) + (-23 + e))%Z
    with (Z.pos (digits2_pos m) + e)%Z by lia.
  rewrite Hc.
  replace (e - (-23 + e))%Z with 23%Z by lia.
  cbn [shr]. rewrite shr_23.
  cbn [shr_m loc_of_shr_record round_nearest_even].
  replace (-23 + e + 23)%Z with e by lia.
  unfold shr_fexp. cbn [Zdigits2 shr_record_of_loc].
  rewrite Hc. rewrite Z.sub_diag. cbn [shr shr_m].
  rewrite He. reflexivity.
Qed.

Lemma mul_zero_l_finite (x : float) :
  is_finite x = true -> is_zero (mul zero x) = true.
Proof. destruct x; simpl; intros; try discriminate; reflexivity. Qed.

Lemma add_zeros (a b : float) :
  is_zero a = true -> is_zero b = true -> is_zero (add a b) = true.
Proof.
  destruct a as [sa| | |], b as [sb| | |]; simpl; intros; try discriminate.
  destruct sa, sb; reflexivity.
Qed.

Lemma sub_zeros (a b : float) :
  is_zero a = true -> is_zero b = true -> is_zero (sub a b) = true.
Proof.
  destruct a as [sa| | |], b as [sb| | |]; simpl; intros; try discriminate.
  destruct sa, sb; reflexivity.
Qed.

Lemma is_zero_finite (x : float) : is_zero x = true -> is_finite x = true.
Proof. destruct x; simpl; congruence. Qed.
End F32Exact.

(** ** The bypassed peaking EQ *)

Module BiquadTheorems.
Import F32 Biquad F32Exact Examples.

Lemma identity_step (bq : Biquad) (x : float) :
  identity_coeffs bq -> is_zero (z1 bq) = true -> is_zero (z2 bq) = true ->
  valid x = true -> is_finite x = true ->
  let '(bq', y) := process bq x in
  identity_coeffs bq' /\ is_zero (z1 bq') = true /\ is_zero (z2 bq') = true /\
  same_bits_or_zero_sign x y.
Proof.
  intros (H0 & H1 & H2 & H3 & H4) Hz1 Hz2 Hv Hf.
  unfold process. rewrite H0, H1, H2, H3, H4.
  assert (Hout : same_bits_or_zero_sign x (add (mul one x) (z1 bq)) /\
                 is_finite (add (mul one x) (z1 bq)) = true).
  { destruct x as [sx| | |sx mx ex]; try discriminate Hf.
    - destruct (z1 bq) as [s1| | |]; try discriminate Hz1.
      unfold same_bits_or_zero_sign.
      destruct sx, s1; simpl; auto.
    - rewrite mul_one_l_finite by exact Hv.
      destruct (z1 bq) as [s1| | |]; try discriminate Hz1.
      split; [left|]; reflexivity. }
  destruct Hout as [Hsame Hfin].
  repeat split; cbn; try reflexivity; try assumption.
  - apply add_zeros; [|assumption].
    apply sub_zeros; apply mul_zero_l_finite; assumption.
  - apply sub_zeros; apply mul_zero_l_finite; assumption.
Qed.

Lemma identity_run (xs : list float) (bq : Biquad) :
  identity_coeffs bq -> is_zero (z1 bq) = true -> is_zero (z2 bq) = true ->
  Forall (fun x => valid x = true /\ is_finite x = true) xs ->
  Forall2 same_bits_or_zero_sign xs (snd (process_all bq xs)).
Proof.
  revert bq. induction xs as [|x xs IH]; intros bq Hid Hz1 Hz2 Hall.
  - constructor.
  - inversion Hall as [|? ? [Hv Hf] Hrest]; subst.
    pose proof (identity_step bq x Hid Hz1 Hz2 Hv Hf) as Hstep.
    cbn [process_all].
    destruct (process bq x) as [bq1 y].
    destruct Hstep as (Hid1 & Hz11 & Hz21 & Hsame).
    specialize (IH bq1 Hid1 Hz11 Hz21 Hrest).
    destruct (process_all bq1 xs) as [bq2 ys]. cbn [snd] in *.
    constructor; assumption.
Qed.

(** In both cases the sample that comes back compares equal to the one
    that went in. *)
Lemma same_bits_or_zero_sign_eqb (x y : float) :
  is_finite x = true -> same_bits_or_zero_sign x y -> eqb y x = true.
Proof.
  intros Hf [->|[-> ->]]; [|reflexivity].
  unfold eqb, SFeqb. destruct x as [s|s| |s m e]; try discriminate Hf; cbn.
  - reflexivity.
  - rewrite Z.compare_refl.
    change (PosDef.Pos.compare_cont Eq m m) with (Pos.compare m m).
    rewrite Pos.compare_refl. destruct s; reflexivity.
Qed.

Lemma same_bits_without_negative_zero (xs ys : list float) :
  Forall2 same_bits_or_zero_sign xs ys ->
  Forall (fun x => x <> S754_zero true) xs -> ys = xs.
Proof.
  induction 1 as [|x y xs ys Hxy _ IH]; intros Hall; [reflexivity|].
  inversion Hall as [|? ? Hx Hrest]; subst.
  f_equal; [|apply IH; assumption].
  destruct Hxy as [->|[-> _]]; [reflexivity | contradiction].
Qed.

Section Bypass.
Variable cosf sinf : float -> float.
Variable powf : float -> float -> float.

(** C6, as the code has it: below 0.1 dB the coefficients are those of
    the identity, and from the reset state every finite sample comes
    back bit for bit, except that [-0.0] may come back as [+0.0]; so
    every sample comes back equal in value, and a sequence without
    [-0.0] is returned unchanged. *)
Theorem peak_eq_bypass_is_identity
    (bq : Biquad) (freq gainDb Q sampleRate : float) (xs : list float) :
  ltb (abs gainDb) bypass_threshold = true ->
  Forall (fun x => valid x = true /\ is_finite x = true) xs ->
  let bq' := calcPeakEqCoeffs cosf sinf powf bq freq gainDb Q sampleRate in
  identity_coeffs bq' /\
  Forall2 same_bits_or_zero_sign xs (snd (process_all (reset bq') xs)) /\
  Forall2 (fun x y => eqb y x = true) xs (snd (process_all (reset bq') xs)) /\
  (Forall (fun x => x <> S754_zero true) xs ->
   snd (process_all (reset bq') xs) = xs).
Proof.
  intros Hg Hall bq'.
  assert (Hid : identity_coeffs bq').
  { unfold bq', calcPeakEqCoeffs. rewrite Hg. repeat split. }
  assert (Hrun : Forall2 same_bits_or_zero_sign xs
                   (snd (process_all (reset bq') xs))).
  { apply identity_run; try assumption; reflexivity. }
  split; [exact Hid|]. split; [exact Hrun|]. split.
  - clear Hid. induction Hrun as [|x y xs' ys' Hxy _ IH]; [constructor|].
    inversion Hall as [|? ? [_ Hf] Hrest]; subst.
    constructor; [apply same_bits_or_zero_sign_eqb; assumption | apply IH; assumption].
  - intros Hnz. apply same_bits_without_negative_zero; assumption.
Qed.
End Bypass.

Lemma peak_eq_bypass_is_identity_witness :
  let bq' := calcPeakEqCoeffs (fun x => x) (fun x => x) (fun x _ => x)
               fresh (of_Z 1000) zero (of_ratio 14 10) (of_Z 48000) in
  identity_coeffs bq' /\
  Forall2 same_bits_or_zero_sign some_samples
    (snd (process_all (reset bq') some_samples)) /\
  Forall2 (fun x y => eqb y x = true) some_samples
    (snd (process_all (reset bq') some_samples)) /\
  (Forall (fun x => x <> S754_zero true) some_samples ->
   snd (process_all (reset bq') some_samples) = some_samples).
Proof.
  apply (peak_eq_bypass_is_identity (fun x => x) (fun x => x) (fun x _ => x)).
  - reflexivity.
  - repeat constructor.
Defined.

(** C6 as stated fails on two kinds of samples: [-0.0] comes back as
    [+0.0], which has other bits, and after an infinite sample the state
    is NaN, so the next sample comes back as NaN. *)
Lemma bypass_is_not_bit_exact_on_all_samples :
  let bq := reset (calcPeakEqCoeffs (fun x => x) (fun x => x) (fun x _ => x)
                     fresh (of_Z 1000) zero (of_ratio 14 10) (of_Z 48000)) in
  snd (process_all bq [S754_zero true]) <> [S754_zero true] /\
  snd (process_all bq [infinity; one]) <> [infinity; one].
Proof. split; intros H; vm_compute in H; discriminate H. Qed.
End BiquadTheorems.

(** ** Sign of a rounded product *)

Module F32Sign.
Import F32.

Lemma iter_pos_invariant {A} (P : A -> Prop) (f : A -> A) :
  (forall x, P x -> P (f x)) ->
  forall (n : positive) (x : A), P x -> P (SpecFloat.iter_pos f n x).
Proof.
  intros Hf. induction n as [n IH|n IH|]; intros x Hx; cbn; auto.
Qed.

Lemma shr_1_nonneg (mrs : shr_record) :
  (0 <= shr_m mrs)%Z -> (0 <= shr_m (shr_1 mrs))%Z.
Proof.
  destruct mrs as [m r s]. cbn.
  destruct m as [|p|p]; [cbn; lia| |cbn; lia].
  destruct p; cbn; lia.
Qed.

Lemma shr_nonneg (mrs : shr_record) (e n : Z) :
  (0 <= shr_m mrs)%Z -> (0 <= shr_m (fst (shr mrs e n)))%Z.
Proof.
  intros H. destruct n as [|p|p]; cbn; try assumption.
  apply (iter_pos_invariant (fun mrs => (0 <= shr_m mrs)%Z)); [|assumption].
  apply shr_1_nonneg.
Qed.

Lemma shr_fexp_nonneg (m e : Z) (l : location) :
  (0 <= m)%Z -> (0 <= shr_m (fst (shr_fexp prec emax m e l)))%Z.
Proof.
  intros H. unfold shr_fexp. apply shr_nonneg.
  destruct l as [|[]]; cbn; assumption.
Qed.

Lemma round_nearest_even_nonneg (m : Z) (l : location) :
  (0 <= m)%Z -> (0 <= round_nearest_even m l)%Z.
Proof.
  intros H. destruct l as [|[]]; cbn; try assumption; try lia.
  destruct (Z.even m); lia.
Qed.

(** Rounding a non-negative mantissa keeps the sign that was asked for and
    never gives NaN. *)
Lemma binary_round_aux_sign (s : bool) (m e : Z) (l : location) :
  (0 <= m)%Z ->
  match binary_round_aux prec emax s m e l with
  | S754_zero s' | S754_infinity s' | S754_finite s' _ _ => s' = s
  | S754_nan => False
  end.
Proof.
  intros H. unfold binary_round_aux.
  pose proof (shr_fexp_nonneg m e l H) as H1.
  destruct (shr_fexp prec emax m e l) as [mrs' e'].
  cbn [fst] in H1.
  pose proof (shr_fexp_nonneg _ e' loc_Exact
                (round_nearest_even_nonneg _ (loc_of_shr_record mrs') H1)) as H2.
  destruct (shr_fexp prec emax (round_nearest_even _ _) e' loc_Exact) as [mrs'' e''].
  cbn [fst] in H2.
  destruct (shr_m mrs'') as [|p|p]; [reflexivity| |lia].
  destruct (e'' <=? emax - prec)%Z; reflexivity.
Qed.

(** The product of two values with clear sign bits, the second finite and
    not zero, has its sign bit clear. *)
Lemma mul_nonneg (x : float) (m : positive) (e : Z) :
  is_nonneg x = true -> is_nonneg (mul x (S754_finite false m e)) = true.
Proof.
  destruct x as [s|s| |s mx ex]; cbn; intros Hx; try discriminate.
  - destruct s; [discriminate | reflexivity].
  - destruct s; [discriminate | reflexivity].
  - destruct s; [discriminate|]. cbn [xorb].
    pose proof (binary_round_aux_sign false (Z.pos (mx * m)) (ex + e) loc_Exact
                  ltac:(lia)) as H.
    destruct (binary_round_aux prec emax false (Z.pos (mx * m)) (ex + e) loc_Exact);
      try contradiction; subst; reflexivity.
Qed.

(** Two values with clear sign bits that compare equal are the same
    value, bit for bit. *)
Lemma nonneg_compare_eq (x y : float) :
  is_nonneg x = true -> is_nonneg y = true ->
  ltb x y = false -> ltb y x = false -> x = y.
Proof.
  unfold ltb, SFltb.
  destruct x as [sx|sx| |sx mx ex], y as [sy|sy| |sy my ey]; cbn;
    intros Hx Hy H1 H2; try discriminate;
    destruct sx; try discriminate; destruct sy; try discriminate;
    try reflexivity.
  rewrite (Z.compare_antisym ex ey) in H2.
  destruct (Z.compare_spec ex ey) as [Heq|?|?]; cbn in H1, H2; try discriminate.
  subst ey.
  change (PosDef.Pos.compare_cont Eq mx my) with (Pos.compare mx my) in H1.
  change (PosDef.Pos.compare_cont Eq my mx) with (Pos.compare my mx) in H2.
  rewrite (Pos.compare_antisym mx my) in H2.
  destruct (Pos.compare_spec mx my) as [->|?|?]; cbn in H1, H2;
    try discriminate; reflexivity.
Qed.

Lemma max_nonneg (a b : float) :
  is_nonneg a = true -> is_nonneg b = true -> is_nonneg (max a b) = true.
Proof. unfold max. destruct (ltb a b); auto. Qed.

Lemma ltb_irrefl (a : float) : ltb a a = false.
Proof.
  unfold ltb, SFltb. destruct a as [s|s| |s m e]; cbn; try reflexivity.
  - destruct s; reflexivity.
  - rewrite Z.compare_refl.
    change (PosDef.Pos.compare_cont Eq m m) with (Pos.compare m m).
    rewrite Pos.compare_refl. destruct s; reflexivity.
Qed.

Lemma ltb_asym (a b : float) : ltb a b = true -> ltb b a = false.
Proof.
  unfold ltb, SFltb. rewrite (F32Facts.compare_antisym a b).
  destruct (SFcompare a b) as [[]|]; cbn; congruence.
Qed.

(** Among values with a clear sign bit, "not above" is transitive. *)
Lemma not_above_trans (a b c : float) :
  is_nonneg a = true -> is_nonneg b = true -> is_nonneg c = true ->
  gtb a b = false -> gtb b c = false -> gtb a c = false.
Proof.
  unfold gtb, ltb, SFltb.
  destruct a as [sa|sa| |sa ma ea], b as [sb|sb| |sb mb eb], c as [sc|sc| |sc mc ec];
    cbn; intros Ha Hb Hc; try discriminate;
    destruct sa; try discriminate; destruct sb; try discriminate;
    destruct sc; try discriminate; cbn; try congruence.
  change (PosDef.Pos.compare_cont Eq mb ma) with (Pos.compare mb ma).
  change (PosDef.Pos.compare_cont Eq mc mb) with (Pos.compare mc mb).
  change (PosDef.Pos.compare_cont Eq mc ma) with (Pos.compare mc ma).
  destruct (Z.compare_spec eb ea), (Z.compare_spec ec eb), (Z.compare_spec ec ea);
    try discriminate; try lia; try reflexivity; subst;
    destruct (Pos.compare_spec mb ma), (Pos.compare_spec mc mb), (Pos.compare_spec mc ma);
    try discriminate; try lia; reflexivity.
Qed.
End F32Sign.

(** ** Metering and the output stage *)

Module OutputFacts.
Import F32 Engine Output F32Sign.

(** *** The peak accumulator inside the two metering loops *)

Lemma block_peak_fold (n : nat) (xs : list float) :
  block_peak n xs = fold_left (peak_body xs) (seq 0 n) zero.
Proof. reflexivity. Qed.

Lemma hp_loop_peak (xs : list float) (l : list nat) (acc : float * float) :
  snd (fold_left (hp_meter_step xs) l acc) = fold_left (peak_body xs) l (snd acc).
Proof.
  revert acc. induction l as [|i l IH]; intros acc; [reflexivity|].
  cbn [fold_left]. rewrite IH. reflexivity.
Qed.

Lemma lr_loop_peaks (fl fr : list float) (l : list nat) (m : Meter) :
  pkL (fold_left (meter_step fl fr) l m) = fold_left (peak_body fl) l (pkL m) /\
  pkR (fold_left (meter_step fl fr) l m) = fold_left (peak_body fr) l (pkR m).
Proof.
  revert m. induction l as [|i l IH]; intros m; [split; reflexivity|].
  cbn [fold_left]. destruct (IH (meter_step fl fr m i)) as [H1 H2].
  rewrite H1, H2. split; reflexivity.
Qed.

Lemma gtb_true_not_nan (a b : float) : gtb a b = true -> is_nan a = false.
Proof.
  unfold gtb, ltb, SFltb. destruct b, a; cbn; intros; try discriminate; reflexivity.
Qed.

(** The accumulator keeps a clear sign bit, and it is its start value or
    the magnitude of one of the samples. *)
Lemma peak_loop_nonneg (xs : list float) (l : list nat) (pk : float) :
  is_nonneg pk = true -> is_nonneg (fold_left (peak_body xs) l pk) = true.
Proof.
  revert pk. induction l as [|i l IH]; intros pk Hpk; [assumption|].
  cbn [fold_left]. apply IH. unfold peak_body.
  destruct (gtb (abs (xs !!! i)) pk) eqn:Hg; [|assumption].
  apply F32Facts.abs_nonneg.
  apply gtb_true_not_nan in Hg. rewrite F32Facts.abs_nan_iff in Hg. assumption.
Qed.

Lemma peak_loop_origin (xs : list float) (l : list nat) (pk : float) :
  fold_left (peak_body xs) l pk = pk \/
  exists i, In i l /\ fold_left (peak_body xs) l pk = abs (xs !!! i).
Proof.
  revert pk. induction l as [|i l IH]; intros pk; [left; reflexivity|].
  cbn [fold_left].
  destruct (IH (peak_body xs pk i)) as [Heq|(j & Hj & Heq)].
  - rewrite Heq. unfold peak_body.
    destruct (gtb (abs (xs !!! i)) pk); [|left; reflexivity].
    right. exists i. split; [left; reflexivity | reflexivity].
  - right. exists j. split; [right; assumption | assumption].
Qed.

Lemma peak_body_nonneg (xs : list float) (pk : float) (i : nat) :
  is_nonneg pk = true -> is_nonneg (peak_body xs pk i) = true.
Proof. intros H. exact (peak_loop_nonneg xs [i] pk H). Qed.

(** The accumulator never decreases, and no sample it has seen is above
    its final value. *)
Lemma peak_loop_bounds (xs : list float) (l : list nat) (pk : float) :
  is_nonneg pk = true ->
  gtb pk (fold_left (peak_body xs) l pk) = false /\
  forall i, In i l -> gtb (abs (xs !!! i)) (fold_left (peak_body xs) l pk) = false.
Proof.
  revert pk. induction l as [|i l IH]; intros pk Hpk.
  - split; [apply ltb_irrefl | intros i []].
  - cbn [fold_left].
    pose proof (peak_body_nonneg xs pk i Hpk) as Hpk1.
    destruct (IH _ Hpk1) as [Hmono Hseen].
    pose proof (peak_loop_nonneg xs l _ Hpk1) as Hres.
    assert (Hstep : gtb pk (peak_body xs pk i) = false /\
                    gtb (abs (xs !!! i)) (peak_body xs pk i) = false).
    { unfold peak_body. destruct (gtb (abs (xs !!! i)) pk) eqn:Hg.
      - split; [apply ltb_asym; exact Hg | apply ltb_irrefl].
      - split; [apply ltb_irrefl | exact Hg]. }
    destruct Hstep as [Hpk_le Ha_le].
    split.
    + apply (not_above_trans pk (peak_body xs pk i)); assumption.
    + intros j [<-|Hj]; [|apply Hseen; assumption].
      destruct (is_nan (xs !!! i)) eqn:Hnan.
      * destruct (xs !!! i); try discriminate Hnan. apply F32Facts.ltb_nan_r.
      * apply (not_above_trans _ (peak_body xs pk i)); try assumption.
        apply F32Facts.abs_nonneg. assumption.
Qed.

(** [block_peak] is the largest magnitude of the block: no sample is above
    it, and it is the magnitude of one of them, or 0 when none is above 0. *)
Lemma block_peak_is_largest (n : nat) (xs : list float) :
  (forall i, i < n -> gtb (abs (xs !!! i)) (block_peak n xs) = false) /\
  (block_peak n xs = zero \/ exists i, i < n /\ block_peak n xs = abs (xs !!! i)).
Proof.
  split.
  - intros i Hi. apply (peak_loop_bounds xs (seq 0 n) zero eq_refl).
    apply in_seq. lia.
  - destruct (peak_loop_origin xs (seq 0 n) zero) as [H|(i & Hi & H)].
    + left. exact H.
    + right. exists i. apply in_seq in Hi. split; [lia | exact H].
Qed.

Lemma ltb_nonneg_zero (q : float) : is_nonneg q = true -> ltb q zero = false.
Proof. destruct q as [s|s| |s m e]; cbn; intros; try discriminate; destruct s; easy. Qed.

(** When no sample of the block exceeds the decayed register, the new
    register is the decayed register itself. *)
Lemma max_peak_is_decayed (n : nat) (xs : list float) (q : float) :
  is_nonneg q = true ->
  (forall i, i < n -> gtb (abs (xs !!! i)) q = false) ->
  max (block_peak n xs) q = q.
Proof.
  intros Hq Hall. unfold max.
  destruct (ltb (block_peak n xs) q) eqn:Hlt; [reflexivity|].
  apply nonneg_compare_eq; try assumption.
  - apply peak_loop_nonneg. reflexivity.
  - rewrite block_peak_fold.
    destruct (peak_loop_origin xs (seq 0 n) zero) as [->|(i & Hi & ->)].
    + apply ltb_nonneg_zero. assumption.
    + apply in_seq in Hi. apply Hall. lia.
Qed.

(** *** Peak registers of reachable levels have a clear sign bit *)

Lemma PEAK_DECAY_value : PEAK_DECAY = S754_finite false 16273900 (-24).
Proof. reflexivity. Qed.

Lemma decayed_nonneg (x : float) :
  is_nonneg x = true -> is_nonneg (mul x PEAK_DECAY) = true.
Proof. rewrite PEAK_DECAY_value. apply mul_nonneg. Qed.

Lemma meter_hp_peak (lv : AudioLevels) (n : nat) (xs : list float) :
  peakHP (meter_hp lv n xs) = max (block_peak n xs) (mul (peakHP lv) PEAK_DECAY).
Proof.
  unfold meter_hp.
  pose proof (hp_loop_peak xs (seq 0 n) (zero, zero)) as H.
  destruct (fold_left (hp_meter_step xs) (seq 0 n) (zero, zero)) as [s pk].
  cbn in *. rewrite H. reflexivity.
Qed.

Lemma meter_lr_peaks (lv : AudioLevels) (n : nat) (fl fr : list float) :
  peakLeft (meter_lr lv n fl fr) = max (block_peak n fl) (mul (peakLeft lv) PEAK_DECAY) /\
  peakRight (meter_lr lv n fl fr) = max (block_peak n fr) (mul (peakRight lv) PEAK_DECAY).
Proof.
  unfold meter_lr, meter_block. cbn.
  destruct (lr_loop_peaks fl fr (seq 0 n)
              {| sumL := zero; sumR := zero; pkL := zero; pkR := zero |}) as [H1 H2].
  rewrite H1, H2. split; reflexivity.
Qed.

Lemma block_peak_nonneg (n : nat) (xs : list float) : is_nonneg (block_peak n xs) = true.
Proof. apply peak_loop_nonneg. reflexivity. Qed.

Lemma reachable_peaks_nonneg (lv : AudioLevels) :
  reachable_levels lv ->
  is_nonneg (peakLeft lv) = true /\ is_nonneg (peakRight lv) = true /\
  is_nonneg (peakHP lv) = true.
Proof.
  induction 1 as [|lv n xs _ (HL & HR & HH)|lv n fl fr _ (HL & HR & HH)
                  |lv b _ (HL & HR & HH)].
  - repeat split.
  - repeat split; try (unfold meter_hp; destruct (fold_left _ _ _); assumption).
    rewrite meter_hp_peak. apply max_nonneg;
      [apply block_peak_nonneg | apply decayed_nonneg; assumption].
  - destruct (meter_lr_peaks lv n fl fr) as [-> ->].
    repeat split; try assumption;
      apply max_nonneg; try apply block_peak_nonneg; apply decayed_nonneg; assumption.
  - repeat split; assumption.
Qed.

(** *** The register after a block, without [max]

    With a decayed register [q] whose sign bit is clear, the new register
    is below no sample of the block and not below [q]; it is [q] or the
    magnitude of a sample, and the magnitude of a sample as soon as one
    of them is above [q]. *)
Lemma peak_register_spec (n : nat) (xs : list float) (q : float) :
  is_nonneg q = true ->
  (forall i, i < n -> gtb (abs (xs !!! i)) (max (block_peak n xs) q) = false) /\
  gtb q (max (block_peak n xs) q) = false /\
  (max (block_peak n xs) q = q \/
   exists j, j < n /\ max (block_peak n xs) q = abs (xs !!! j)) /\
  ((exists i, i < n /\ gtb (abs (xs !!! i)) q = true) ->
   exists j, j < n /\ max (block_peak n xs) q = abs (xs !!! j)).
Proof.
  intros Hq.
  destruct (block_peak_is_largest n xs) as [Hlargest Horigin].
  pose proof (block_peak_nonneg n xs) as Hbp.
  assert (Hbelow : ltb (block_peak n xs) q = true ->
                   forall i, i < n -> gtb (abs (xs !!! i)) q = false).
  { intros Hlt i Hi.
    destruct (is_nan (xs !!! i)) eqn:Hnan.
    - destruct (xs !!! i); try discriminate Hnan. apply F32Facts.ltb_nan_r.
    - apply (not_above_trans _ (block_peak n xs)); try assumption.
      + apply F32Facts.abs_nonneg. exact Hnan.
      + apply Hlargest. exact Hi.
      + apply ltb_asym. exact Hlt. }
  unfold max. destruct (ltb (block_peak n xs) q) eqn:Hlt.
  - split; [exact (Hbelow eq_refl)|]. split; [apply ltb_irrefl|].
    split; [left; reflexivity|].
    intros (i & Hi & Habove). rewrite (Hbelow eq_refl i Hi) in Habove.
    discriminate Habove.
  - split; [exact Hlargest|]. split; [exact Hlt|].
    destruct Horigin as [Hzero|Hsample].
    + assert (Hqz : block_peak n xs = q).
      { apply nonneg_compare_eq; try assumption.
        rewrite Hzero. apply ltb_nonneg_zero. exact Hq. }
      split; [left; exact Hqz|].
      intros (i & Hi & Habove). rewrite <- Hqz in Habove.
      rewrite (Hlargest i Hi) in Habove. discriminate Habove.
    + split; [right; exact Hsample | intros _; exact Hsample].
Qed.

(** *** The sums of squares inside the two metering loops *)

Lemma hp_loop_sum (xs : list float) (l : list nat) (acc : float * float) :
  fst (fold_left (hp_meter_step xs) l acc)
    = fold_left (fun s i => add s (mul (xs !!! i) (xs !!! i))) l (fst acc).
Proof.
  revert acc. induction l as [|i l IH]; intros acc; [reflexivity|].
  cbn [fold_left]. rewrite IH. reflexivity.
Qed.

Lemma lr_loop_sums (fl fr : list float) (l : list nat) (m : Meter) :
  sumL (fold_left (meter_step fl fr) l m)
    = fold_left (fun s i => add s (mul (fl !!! i) (fl !!! i))) l (sumL m) /\
  sumR (fold_left (meter_step fl fr) l m)
    = fold_left (fun s i => add s (mul (fr !!! i) (fr !!! i))) l (sumR m).
Proof.
  revert m. induction l as [|i l IH]; intros m; [split; reflexivity|].
  cbn [fold_left]. destruct (IH (meter_step fl fr m i)) as [H1 H2].
  rewrite H1, H2. split; reflexivity.
Qed.

Lemma meter_lr_rms (lv : AudioLevels) (n : nat) (fl fr : list float) :
  rmsLeft (meter_lr lv n fl fr)
    = sqrt (div (fold_left (fun s i => add s (mul (fl !!! i) (fl !!! i))) (seq 0 n) zero)
              (of_Z (Z.of_nat n))) /\
  rmsRight (meter_lr lv n fl fr)
    = sqrt (div (fold_left (fun s i => add s (mul (fr !!! i) (fr !!! i))) (seq 0 n) zero)
              (of_Z (Z.of_nat n))).
Proof.
  unfold meter_lr, meter_block. cbn [rmsLeft rmsRight].
  destruct (lr_loop_sums fl fr (seq 0 n)
              {| sumL := zero; sumR := zero; pkL := zero; pkR := zero |}) as [H1 H2].
  rewrite H1, H2. split; reflexivity.
Qed.

(** Two loop bodies that agree on the indices of the loop give the same
    result. *)
Lemma loop_bodies_agree {A} (f g : A -> nat -> A) (l : list nat) (a : A) :
  (forall x i, In i l -> f x i = g x i) -> fold_left f l a = fold_left g l a.
Proof.
  revert a. induction l as [|i l IH]; intros a H; [reflexivity|].
  cbn [fold_left]. rewrite (H a i) by (left; reflexivity).
  apply IH. intros x j Hj. apply H. right. exact Hj.
Qed.

(** *** Loops that write a buffer in place *)

Lemma gain_loop_lookup (gain : float) (n : nat) (fl fr : list float) :
  n <= length fl -> n <= length fr ->
  let r := apply_gain gain n fl fr in
  length (fst r) = length fl /\ length (snd r) = length fr /\
  forall i,
    fst r !!! i = (if decide (i < n) then mul (fl !!! i) gain else fl !!! i) /\
    snd r !!! i = (if decide (i < n) then mul (fr !!! i) gain else fr !!! i).
Proof.
  unfold apply_gain.
  induction n as [|n IH]; intros Hl Hr.
  - cbn. repeat split; destruct (decide (i < 0)); try lia; reflexivity.
  - rewrite seq_S, fold_left_app. cbn [fold_left].
    destruct (IH ltac:(lia) ltac:(lia)) as (IHl & IHr & IHi).
    destruct (fold_left (gain_step gain) (seq 0 n) (fl, fr)) as [bl br].
    cbn [fst snd] in *. unfold gain_step. cbn [fst snd Nat.add].
    rewrite !length_insert. repeat split; try assumption.
    + destruct (decide (i = n)) as [->|Hne].
      * rewrite list_lookup_total_insert_eq by lia.
        destruct (IHi n) as [-> _].
        destruct (decide (n < n)); [lia|]. destruct (decide (n < S n)); [reflexivity|lia].
      * rewrite list_lookup_total_insert_ne by congruence.
        destruct (IHi i) as [-> _].
        destruct (decide (i < n)), (decide (i < S n)); try lia; reflexivity.
    + destruct (decide (i = n)) as [->|Hne].
      * rewrite list_lookup_total_insert_eq by lia.
        destruct (IHi n) as [_ ->].
        destruct (decide (n < n)); [lia|]. destruct (decide (n < S n)); [reflexivity|lia].
      * rewrite list_lookup_total_insert_ne by congruence.
        destruct (IHi i) as [_ ->].
        destruct (decide (i < n)), (decide (i < S n)); try lia; reflexivity.
Qed.

Lemma convert_block_length cast (n : nat) (fl fr : list float) (ob : list Z) :
  length (convert_block cast n fl fr ob) = length ob.
Proof.
  unfold convert_block. generalize (seq 0 n) as l. intros l. revert ob.
  induction l as [|i l IH]; intros ob; [reflexivity|].
  cbn [fold_left]. rewrite IH. unfold convert_step. rewrite !length_insert. reflexivity.
Qed.

Lemma memset_zero_length (ob : list Z) (n : nat) : length (memset_zero ob n) = length ob.
Proof.
  unfold memset_zero. generalize (seq 0 n) as l. intros l. revert ob.
  induction l as [|i l IH]; intros ob; [reflexivity|].
  cbn [fold_left]. rewrite IH, length_insert. reflexivity.
Qed.

Lemma memset_zero_lookup (ob : list Z) (n i : nat) :
  n <= length ob -> i < n -> memset_zero ob n !! i = Some 0%Z.
Proof.
  unfold memset_zero. induction n as [|n IH]; intros Hn Hi; [lia|].
  rewrite seq_S, fold_left_app. cbn [fold_left Nat.add].
  destruct (decide (i = n)) as [->|Hne].
  - apply list_lookup_insert_eq. fold (memset_zero ob n). rewrite memset_zero_length. lia.
  - rewrite list_lookup_insert_ne by congruence. apply IH; lia.
Qed.

Lemma memset_zero_prefix (ob : list Z) (n : nat) :
  n <= length ob -> take n (memset_zero ob n) = replicate n 0%Z.
Proof.
  intros Hn. apply (list_eq_same_length _ _ n).
  - apply length_replicate.
  - rewrite length_take, memset_zero_length. lia.
  - intros i x y Hi Hx Hy.
    rewrite lookup_take_lt, memset_zero_lookup in Hx by lia.
    rewrite lookup_replicate_2 in Hy by lia. congruence.
Qed.
End OutputFacts.

Module OutputTheorems.
Import F32 Engine Output OutputFacts Examples.

Section Stage.
Variable cast_undefined : float -> Z.

(** C3: in every block processed with [outputMute] set, of any number
    of samples the buffers hold, every sample handed to the codec is 0,
    while the published levels come from the samples after the output
    gain, before the clamp and before the zeroing: each RMS is the
    square root of the mean of their squares, each peak register is
    below none of them and is the magnitude of one of them or the
    decayed previous register; they are the levels the same block
    publishes unmuted. *)
Theorem mute_zeroes_block_after_metering
    (p : AudioEngineParams) (lv : AudioLevels) (samplesRead : nat)
    (floatL floatR : list float) (outBuf : list Z) :
  outputMute p = true ->
  reachable_levels lv ->
  samplesRead <= length floatL -> samplesRead <= length floatR ->
  samplesRead * NUM_CHANNELS_OUT <= length outBuf ->
  let r := output_stage cast_undefined p lv samplesRead floatL floatR outBuf in
  let gained (xs : list float) (i : nat) := mul (xs !!! i) (outputGain p) in
  let energy (xs : list float) :=
    fold_left (fun s i => add s (mul (gained xs i) (gained xs i)))
      (seq 0 samplesRead) zero in
  res_written r = replicate (samplesRead * NUM_CHANNELS_OUT) 0%Z /\
  rmsLeft (res_levels r) = sqrt (div (energy floatL) (of_Z (Z.of_nat samplesRead))) /\
  rmsRight (res_levels r) = sqrt (div (energy floatR) (of_Z (Z.of_nat samplesRead))) /\
  (forall i, i < samplesRead ->
     gtb (abs (gained floatL i)) (peakLeft (res_levels r)) = false /\
     gtb (abs (gained floatR i)) (peakRight (res_levels r)) = false) /\
  (peakLeft (res_levels r) = mul (peakLeft lv) PEAK_DECAY \/
   exists j, j < samplesRead /\ peakLeft (res_levels r) = abs (gained floatL j)) /\
  (peakRight (res_levels r) = mul (peakRight lv) PEAK_DECAY \/
   exists j, j < samplesRead /\ peakRight (res_levels r) = abs (gained floatR j)) /\
  res_levels r =
    res_levels (output_stage cast_undefined (with_outputMute p false) lv
                  samplesRead floatL floatR outBuf).
Proof.
  intros Hmute Hreach HlenL HlenR Hob. cbn zeta.
  destruct (reachable_peaks_nonneg lv Hreach) as (HpL & HpR & _).
  unfold output_stage. cbn [outputGain with_outputMute outputMute]. rewrite Hmute.
  destruct (gain_loop_lookup (outputGain p) samplesRead floatL floatR HlenL HlenR)
    as (_ & _ & Hgain).
  destruct (apply_gain (outputGain p) samplesRead floatL floatR) as [fl fr].
  cbn [fst snd] in Hgain. cbn [res_written res_levels].
  assert (HgL : forall i, i < samplesRead -> fl !!! i = mul (floatL !!! i) (outputGain p)).
  { intros i Hi. destruct (Hgain i) as [-> _].
    destruct (decide (i < samplesRead)); [reflexivity | lia]. }
  assert (HgR : forall i, i < samplesRead -> fr !!! i = mul (floatR !!! i) (outputGain p)).
  { intros i Hi. destruct (Hgain i) as [_ ->].
    destruct (decide (i < samplesRead)); [reflexivity | lia]. }
  destruct (meter_lr_rms lv samplesRead fl fr) as [HrL HrR].
  destruct (meter_lr_peaks lv samplesRead fl fr) as [HkL HkR].
  destruct (peak_register_spec samplesRead fl _ (decayed_nonneg _ HpL))
    as (HaboveL & _ & HoriginL & _).
  destruct (peak_register_spec samplesRead fr _ (decayed_nonneg _ HpR))
    as (HaboveR & _ & HoriginR & _).
  rewrite <- HkL in HaboveL, HoriginL. rewrite <- HkR in HaboveR, HoriginR.
  split.
  { apply memset_zero_prefix. rewrite convert_block_length. exact Hob. }
  split.
  { rewrite HrL. do 2 f_equal. apply loop_bodies_agree.
    intros x i Hi. apply in_seq in Hi. rewrite HgL by lia. reflexivity. }
  split.
  { rewrite HrR. do 2 f_equal. apply loop_bodies_agree.
    intros x i Hi. apply in_seq in Hi. rewrite HgR by lia. reflexivity. }
  split.
  { intros i Hi. rewrite <- (HgL i Hi), <- (HgR i Hi).
    split; [apply HaboveL | apply HaboveR]; exact Hi. }
  split.
  { destruct HoriginL as [H|(j & Hj & H)]; [left; exact H|].
    right. exists j. split; [exact Hj|]. rewrite H, (HgL j Hj). reflexivity. }
  split; [|reflexivity].
  destruct HoriginR as [H|(j & Hj & H)]; [left; exact H|].
  right. exists j. split; [exact Hj|]. rewrite H, (HgR j Hj). reflexivity.
Qed.

(** The stage never reads [boostEnabled]. *)
Lemma boost_flag_is_ignored
    (p : AudioEngineParams) (b : bool) (lv : AudioLevels) (n : nat)
    (floatL floatR : list float) (outBuf : list Z) :
  output_stage cast_undefined (with_boostEnabled p b) lv n floatL floatR outBuf =
  output_stage cast_undefined p lv n floatL floatR outBuf.
Proof. reflexivity. Qed.
End Stage.

Lemma mute_zeroes_block_after_metering_witness :
  let fl := [of_ratio 1 2; opp (of_ratio 1 4); of_ratio 1 8] in
  let fr := [of_ratio 1 8; of_ratio 3 4; of_ratio 1 2] in
  let r := output_stage (fun _ => 0%Z) default_params default_levels 2 fl fr
             (replicate 960 0%Z) in
  let gained (xs : list float) (i : nat) := mul (xs !!! i) (outputGain default_params) in
  let energy (xs : list float) :=
    fold_left (fun s i => add s (mul (gained xs i) (gained xs i))) (seq 0 2) zero in
  res_written r = replicate (2 * NUM_CHANNELS_OUT) 0%Z /\
  rmsLeft (res_levels r) = sqrt (div (energy fl) (of_Z (Z.of_nat 2))) /\
  rmsRight (res_levels r) = sqrt (div (energy fr) (of_Z (Z.of_nat 2))) /\
  (forall i, i < 2 ->
     gtb (abs (gained fl i)) (peakLeft (res_levels r)) = false /\
     gtb (abs (gained fr i)) (peakRight (res_levels r)) = false) /\
  (peakLeft (res_levels r) = mul (peakLeft default_levels) PEAK_DECAY \/
   exists j, j < 2 /\ peakLeft (res_levels r) = abs (gained fl j)) /\
  (peakRight (res_levels r) = mul (peakRight default_levels) PEAK_DECAY \/
   exists j, j < 2 /\ peakRight (res_levels r) = abs (gained fr j)) /\
  res_levels r =
    res_levels (output_stage (fun _ => 0%Z) (with_outputMute default_params false)
                  default_levels 2 fl fr (replicate 960 0%Z)).
Proof.
  apply (mute_zeroes_block_after_metering (fun _ => 0%Z) default_params default_levels 2
           [of_ratio 1 2; opp (of_ratio 1 4); of_ratio 1 8]
           [of_ratio 1 8; of_ratio 3 4; of_ratio 1 2]
           (replicate 960 0%Z)).
  - reflexivity.
  - exact reach_default.
  - simpl. lia.
  - simpl. lia.
  - vm_compute. lia.
Defined.

(** C4, the code at gain 3.0 with boost on: the samples 0.3, 0.4 and 0.5
    leave the stage as 29490, 32767 and 32767, which is the hard limit at
    full scale, and the very samples the stage writes with boost off. *)
Theorem boost_output_is_hard_limited :
  let boosted :=
    with_boostEnabled (with_outputGain unmuted_defaults (of_Z 3)) true in
  let plain :=
    with_boostEnabled (with_outputGain unmuted_defaults (of_Z 3)) false in
  let fl := [of_ratio 3 10; of_ratio 4 10; of_ratio 5 10] in
  let fr := [opp (of_ratio 3 10); opp (of_ratio 4 10); opp (of_ratio 5 10)] in
  res_written (output_stage (fun _ => 0%Z) boosted default_levels 3 fl fr
                 (replicate 960 0%Z))
    = [29490; -29490; 32767; -32767; 32767; -32767]%Z /\
  res_written (output_stage (fun _ => 0%Z) plain default_levels 3 fl fr
                 (replicate 960 0%Z))
    = [29490; -29490; 32767; -32767; 32767; -32767]%Z.
Proof. split; vm_compute; reflexivity. Qed.

(** C8: each peak register becomes the larger of the block's peak
    magnitude and 0.97 times its previous value, where the block's peak is
    the largest [fabsf] among its samples.  After the block the register
    is below no sample of the block and not below the decayed value; when
    a sample of the block exceeds the decayed value, the register is the
    magnitude of a sample of the block (the new peak is taken); when no
    sample exceeds it, the register is exactly the decayed value. *)
Theorem peak_hold_decays
    (lv : AudioLevels) (n : nat) (floatHP floatL floatR : list float) :
  reachable_levels lv ->
  (forall xs,
     (forall i, i < n -> gtb (abs (xs !!! i)) (block_peak n xs) = false) /\
     (block_peak n xs = zero \/ exists i, i < n /\ block_peak n xs = abs (xs !!! i))) /\
  (peakHP (meter_hp lv n floatHP)
     = max (block_peak n floatHP) (mul (peakHP lv) PEAK_DECAY) /\
   peakLeft (meter_lr lv n floatL floatR)
     = max (block_peak n floatL) (mul (peakLeft lv) PEAK_DECAY) /\
   peakRight (meter_lr lv n floatL floatR)
     = max (block_peak n floatR) (mul (peakRight lv) PEAK_DECAY)) /\
  ((forall i, i < n -> gtb (abs (floatHP !!! i)) (mul (peakHP lv) PEAK_DECAY) = false) ->
   peakHP (meter_hp lv n floatHP) = mul (peakHP lv) PEAK_DECAY) /\
  ((forall i, i < n -> gtb (abs (floatL !!! i)) (mul (peakLeft lv) PEAK_DECAY) = false) ->
   peakLeft (meter_lr lv n floatL floatR) = mul (peakLeft lv) PEAK_DECAY) /\
  ((forall i, i < n -> gtb (abs (floatR !!! i)) (mul (peakRight lv) PEAK_DECAY) = false) ->
   peakRight (meter_lr lv n floatL floatR) = mul (peakRight lv) PEAK_DECAY) /\
  ((forall i, i < n ->
      gtb (abs (floatHP !!! i)) (peakHP (meter_hp lv n floatHP)) = false) /\
   gtb (mul (peakHP lv) PEAK_DECAY) (peakHP (meter_hp lv n floatHP)) = false /\
   ((exists i, i < n /\
       gtb (abs (floatHP !!! i)) (mul (peakHP lv) PEAK_DECAY) = true) ->
    exists j, j < n /\ peakHP (meter_hp lv n floatHP) = abs (floatHP !!! j))) /\
  ((forall i, i < n ->
      gtb (abs (floatL !!! i)) (peakLeft (meter_lr lv n floatL floatR)) = false) /\
   gtb (mul (peakLeft lv) PEAK_DECAY) (peakLeft (meter_lr lv n floatL floatR)) = false /\
   ((exists i, i < n /\
       gtb (abs (floatL !!! i)) (mul (peakLeft lv) PEAK_DECAY) = true) ->
    exists j, j < n /\ peakLeft (meter_lr lv n floatL floatR) = abs (floatL !!! j))) /\
  ((forall i, i < n ->
      gtb (abs (floatR !!! i)) (peakRight (meter_lr lv n floatL floatR)) = false) /\
   gtb (mul (peakRight lv) PEAK_DECAY) (peakRight (meter_lr lv n floatL floatR)) = false /\
   ((exists i, i < n /\
       gtb (abs (floatR !!! i)) (mul (peakRight lv) PEAK_DECAY) = true) ->
    exists j, j < n /\ peakRight (meter_lr lv n floatL floatR) = abs (floatR !!! j))).
Proof.
  intros Hreach.
  destruct (reachable_peaks_nonneg lv Hreach) as (HL & HR & HH).
  destruct (meter_lr_peaks lv n floatL floatR) as [EL ER].
  pose proof (meter_hp_peak lv n floatHP) as EH.
  destruct (peak_register_spec n floatHP _ (decayed_nonneg _ HH)) as (AH & BH & _ & CH).
  destruct (peak_register_spec n floatL _ (decayed_nonneg _ HL)) as (AL & BL & _ & CL).
  destruct (peak_register_spec n floatR _ (decayed_nonneg _ HR)) as (AR & BR & _ & CR).
  rewrite <- EH in AH, BH, CH. rewrite <- EL in AL, BL, CL. rewrite <- ER in AR, BR, CR.
  split; [intros xs; apply block_peak_is_largest|].
  split; [split; [exact EH | split; [exact EL | exact ER]]|].
  split.
  { intros Hall. rewrite EH. apply max_peak_is_decayed; [apply decayed_nonneg|]; assumption. }
  split.
  { intros Hall. rewrite EL. apply max_peak_is_decayed; [apply decayed_nonneg|]; assumption. }
  split.
  { intros Hall. rewrite ER. apply max_peak_is_decayed; [apply decayed_nonneg|]; assumption. }
  split; [split; [exact AH | split; [exact BH | exact CH]]|].
  split; [split; [exact AL | split; [exact BL | exact CL]]|].
  split; [exact AR | split; [exact BR | exact CR]].
Qed.
End OutputTheorems.

(** ** The AEC ring buffer *)

Module RingFacts.
Import F32 AecRingBuf.

Lemma reset_well_formed (rb : AecRingBuf) : well_formed (reset rb).
Proof. split; cbn; [rewrite length_replicate; reflexivity | unfold CAPACITY; lia]. Qed.

(** [push_loop] stores the pending samples that fit and drops the rest. *)
Lemma push_loop_stores_prefix (pending : list float) (rb : AecRingBuf) :
  well_formed rb ->
  let wp := Z.to_nat (writePos rb) in
  let room := Z.to_nat CAPACITY - wp in
  let stored := Nat.min (length pending) room in
  writePos (push_loop rb pending) = (writePos rb + Z.of_nat stored)%Z /\
  buf (push_loop rb pending) =
    take wp (buf rb) ++ take stored pending ++ drop (wp + stored) (buf rb).
Proof.
  revert rb. induction pending as [|x rest IH]; intros rb [Hlen Hwp]; cbn zeta.
  - cbn. rewrite Nat.add_0_r, take_drop. split; [lia | reflexivity].
  - cbn [push_loop].
    destruct (Z.ltb_spec (writePos rb) CAPACITY) as [Hlt|Hge].
    + set (rb1 := {| buf := <[Z.to_nat (writePos rb) := x]> (buf rb);
                     writePos := writePos rb + 1 |}).
      assert (Hwf1 : well_formed rb1).
      { split; cbn; [rewrite length_insert; assumption | lia]. }
      destruct (IH rb1 Hwf1) as [Hw Hb]. cbn zeta in Hw, Hb.
      rewrite Hw, Hb. subst rb1. cbn [buf writePos length].
      replace (Z.to_nat (writePos rb + 1)) with (S (Z.to_nat (writePos rb))) by lia.
      set (wp := Z.to_nat (writePos rb)) in *.
      assert (Hwplt : wp < length (buf rb)) by (unfold CAPACITY in *; lia).
      replace (Nat.min (S (length rest)) (Z.to_nat CAPACITY - wp))
        with (S (Nat.min (length rest) (Z.to_nat CAPACITY - S wp)))
        by (unfold CAPACITY in *; lia).
      split; [lia|].
      rewrite (take_S_r _ wp x) by (apply list_lookup_insert_eq; assumption).
      rewrite take_insert_ge by lia.
      rewrite <- app_assoc. cbn [app take]. f_equal. f_equal. f_equal.
      rewrite drop_insert_lt by lia. f_equal. lia.
    + assert (writePos rb = CAPACITY) as Heq by lia.
      replace (Z.to_nat CAPACITY - Z.to_nat (writePos rb)) with 0 by lia.
      rewrite Nat.min_0_r, Nat.add_0_r. cbn [take app].
      rewrite take_drop. split; [lia | reflexivity].
Qed.

Lemma push_well_formed (rb : AecRingBuf) (data : list float) (count : nat) :
  well_formed rb -> well_formed (push rb data count).
Proof.
  intros Hwf. pose proof (push_loop_stores_prefix (take count data) rb Hwf) as [Hw Hb].
  cbn zeta in Hw, Hb. destruct Hwf as [Hlen Hwp].
  unfold push. split.
  - rewrite Hb, !length_app, length_take, length_take, length_take, length_drop.
    unfold CAPACITY in *. lia.
  - rewrite Hw. unfold CAPACITY in *. lia.
Qed.

(** A full block of [count] samples pushed into a ring with that much room
    is stored whole. *)
Lemma push_fits (rb : AecRingBuf) (data : list float) (count : nat) :
  well_formed rb -> length data = count ->
  (writePos rb + Z.of_nat count <= CAPACITY)%Z ->
  writePos (push rb data count) = (writePos rb + Z.of_nat count)%Z /\
  buf (push rb data count) =
    take (Z.to_nat (writePos rb)) (buf rb) ++ data ++
    drop (Z.to_nat (writePos rb) + count) (buf rb).
Proof.
  intros Hwf Hlen Hroom. unfold push. rewrite (take_ge data count) by lia.
  pose proof (push_loop_stores_prefix data rb Hwf) as [Hw Hb].
  cbn zeta in Hw, Hb. destruct Hwf as [Hl Hwp].
  replace (Nat.min (length data)
             (Z.to_nat CAPACITY - Z.to_nat (writePos rb))) with count in Hw, Hb by lia.
  rewrite (take_ge data count) in Hb by lia.
  split; assumption.
Qed.

(** A block pushed into a ring with less room is cut: only the samples
    that fit are stored, the ring is full, the others are gone. *)
Lemma push_overflows (rb : AecRingBuf) (data : list float) (count : nat) :
  well_formed rb -> length data = count ->
  (CAPACITY <= writePos rb + Z.of_nat count)%Z ->
  let room := Z.to_nat CAPACITY - Z.to_nat (writePos rb) in
  writePos (push rb data count) = CAPACITY /\
  buf (push rb data count) =
    take (Z.to_nat (writePos rb)) (buf rb) ++ take room data.
Proof.
  intros Hwf Hlen Hroom. unfold push. rewrite (take_ge data count) by lia.
  pose proof (push_loop_stores_prefix data rb Hwf) as [Hw Hb].
  cbn zeta in Hw, Hb. destruct Hwf as [Hl Hwp].
  replace (Nat.min (length data)
             (Z.to_nat CAPACITY - Z.to_nat (writePos rb)))
    with (Z.to_nat CAPACITY - Z.to_nat (writePos rb)) in Hw, Hb by lia.
  cbn zeta. split; [lia|].
  rewrite Hb.
  replace (Z.to_nat (writePos rb) + (Z.to_nat CAPACITY - Z.to_nat (writePos rb)))
    with (length (buf rb)) by lia.
  rewrite drop_all, app_nil_r. reflexivity.
Qed.
End RingFacts.

(** ** The AEC branch, block by block *)

Module BridgeFacts.
Import F32 Engine AecRingBuf VoiceExclusion RingFacts.

Section Helpers.
Variable AecHandle VadHandle : Type.
Variable aec_process : AecHandle -> list Z -> list Z -> AecHandle * list Z.
Variable vad_process : VadHandle -> list Z -> VadHandle * bool.
Variable cast_undefined : float -> Z.

Local Abbreviation VeState := (VeState AecHandle VadHandle).
Local Abbreviation aec_branch := (aec_branch AecHandle VadHandle aec_process vad_process cast_undefined).
Local Abbreviation frame_of := (frame_of cast_undefined).

Lemma downsample3_length (rs : Resampler.Resampler) (inp : list float) (n : nat) :
  length (snd (Resampler.downsample3 rs inp n)) = n.
Proof. cbn. rewrite length_map, length_seq. reflexivity. Qed.

(** While one of the input rings is not full after the push, the branch
    only accumulates: no helper is called, and without an earlier output
    frame the block leaves as it came. *)
Lemma aec_branch_accumulating (blend : float) (st : VeState) (hL hR : AecHandle)
    (n : nat) (floatL floatR floatHP : list float) :
  let rL := push (aecRingL st) (pushed_L st floatL) NS_FRAME_16K in
  let rR := push (aecRingR st) (pushed_R st floatR) NS_FRAME_16K in
  let rHP := push (aecRingHP st) (pushed_HP st floatHP) NS_FRAME_16K in
  ready rL && ready rR && ready rHP = false ->
  let res := aec_branch blend st hL hR n floatL floatR floatHP in
  let st' := fst (fst res) in
  aecRingL st' = rL /\ aecRingR st' = rR /\ aecRingHP st' = rHP /\
  _aecHandleL st' = Some hL /\ _aecHandleR st' = Some hR /\
  aecResDownL st' = fst (Resampler.downsample3 (aecResDownL st) floatL NS_FRAME_16K) /\
  aecResDownR st' = fst (Resampler.downsample3 (aecResDownR st) floatR NS_FRAME_16K) /\
  aecResDownHP st' = fst (Resampler.downsample3 (aecResDownHP st) floatHP NS_FRAME_16K) /\
  aecOutputReady st' = aecOutputReady st /\
  _nlmsL st' = _nlmsL st /\ _nlmsR st' = _nlmsR st /\
  (aecOutputReady st = false ->
   snd (fst res) = floatL /\ snd res = floatR).
Proof.
  intros rL rR rHP Hnot res st'. subst res st'.
  unfold aec_branch. unfold pushed_L, pushed_R, pushed_HP in *.
  destruct (Resampler.downsample3 (aecResDownL st) floatL NS_FRAME_16K) as [dL bL].
  destruct (Resampler.downsample3 (aecResDownR st) floatR NS_FRAME_16K) as [dR bR].
  destruct (Resampler.downsample3 (aecResDownHP st) floatHP NS_FRAME_16K) as [dHP bHP].
  cbn [fst snd] in *. subst rL rR rHP. rewrite Hnot.
  destruct (aecOutputReady st) eqn:Hrdy; cbn [andb].
  - destruct (0 <? writePos (aecOutRingL st))%Z.
    + destruct (Resampler.upsample3 _ _ _) as [uL upL].
      destruct (Resampler.upsample3 _ _ _) as [uR upR].
      cbn. repeat split; try reflexivity; discriminate.
    + cbn. repeat split; try reflexivity; discriminate.
  - cbn. repeat split; reflexivity.
Qed.

(** When the three input rings are full after the push, one frame of
    each ring goes to the helpers and the rings are consumed. *)
Lemma aec_branch_frame (blend : float) (st : VeState) (hL hR : AecHandle)
    (n : nat) (floatL floatR floatHP : list float) :
  let rL := push (aecRingL st) (pushed_L st floatL) NS_FRAME_16K in
  let rR := push (aecRingR st) (pushed_R st floatR) NS_FRAME_16K in
  let rHP := push (aecRingHP st) (pushed_HP st floatHP) NS_FRAME_16K in
  ready rL && ready rR && ready rHP = true ->
  let st' := fst (fst (aec_branch blend st hL hR n floatL floatR floatHP)) in
  aecRingL st' = consume rL /\ aecRingR st' = consume rR /\
  aecRingHP st' = consume rHP /\
  _aecHandleL st' = Some (fst (aec_process hL (frame_of rL) (frame_of rHP))) /\
  _aecHandleR st' = Some (fst (aec_process hR (frame_of rR) (frame_of rHP))) /\
  aecOutputReady st' = true.
Proof.
  intros rL rR rHP Hrdy st'. subst st'.
  unfold aec_branch. unfold pushed_L, pushed_R, pushed_HP in *.
  destruct (Resampler.downsample3 (aecResDownL st) floatL NS_FRAME_16K) as [dL bL].
  destruct (Resampler.downsample3 (aecResDownR st) floatR NS_FRAME_16K) as [dR bR].
  destruct (Resampler.downsample3 (aecResDownHP st) floatHP NS_FRAME_16K) as [dHP bHP].
  cbn [fst snd] in *. subst rL rR rHP. rewrite Hrdy.
  unfold run_frame.
  destruct (_vadHandleRef st) as [v|].
  - destruct (vad_process v _) as [v' speech].
    destruct (aec_process hL _ _) as [hL' oL].
    destruct (aec_process hR _ _) as [hR' oR].
    cbn [andb store_frame writePos].
    change (0 <? Z.of_nat AEC_FRAME_16K)%Z with true. cbn iota.
    destruct (Resampler.upsample3 _ _ _) as [uL upL].
    destruct (Resampler.upsample3 _ _ _) as [uR upR].
    cbn. repeat split; reflexivity.
  - destruct (aec_process hL _ _) as [hL' oL].
    destruct (aec_process hR _ _) as [hR' oR].
    cbn [andb store_frame writePos].
    change (0 <? Z.of_nat AEC_FRAME_16K)%Z with true. cbn iota.
    destruct (Resampler.upsample3 _ _ _) as [uL upL].
    destruct (Resampler.upsample3 _ _ _) as [uR upR].
    cbn. repeat split; reflexivity.
Qed.

Lemma ready_iff (rb : AecRingBuf) : ready rb = true <-> (CAPACITY <= writePos rb)%Z.
Proof. unfold ready. apply Z.leb_le. Qed.

Lemma not_ready_iff (rb : AecRingBuf) : ready rb = false <-> (writePos rb < CAPACITY)%Z.
Proof. unfold ready. apply Z.leb_gt. Qed.

(** In AEC mode with both handles, step 7 on a full block is the AEC
    branch. *)
Lemma voice_exclusion_aec (p : AudioEngineParams) (st : VeState) (hL hR : AecHandle)
    (floatL floatR floatHP : list float) :
  veEnabled p = true -> veMode p = 1%Z ->
  _aecHandleL st = Some hL -> _aecHandleR st = Some hR ->
  length floatL = BLOCK_SIZE ->
  voice_exclusion AecHandle VadHandle aec_process vad_process cast_undefined
    p true st (length floatL) floatL floatR floatHP =
  aec_branch (veBlend p) st hL hR (length floatL) floatL floatR floatHP.
Proof.
  intros Hen Hmode HhL HhR Hlen. unfold voice_exclusion.
  rewrite Hen, Hmode, HhL, HhR, Hlen. reflexivity.
Qed.

(** Whatever the mode's guards decide, step 7 in AEC mode either leaves
    state and block alone or runs the AEC branch. *)
Lemma voice_exclusion_in_aec_mode (p : AudioEngineParams) (hp : bool) (st : VeState)
    (floatL floatR floatHP : list float) :
  veMode p = 1%Z ->
  let res := voice_exclusion AecHandle VadHandle aec_process vad_process cast_undefined
               p hp st (length floatL) floatL floatR floatHP in
  res = (st, floatL, floatR) \/
  exists hL hR,
    _aecHandleL st = Some hL /\ _aecHandleR st = Some hR /\
    res = aec_branch (veBlend p) st hL hR (length floatL) floatL floatR floatHP.
Proof.
  intros Hmode. cbn zeta. unfold voice_exclusion. rewrite Hmode.
  destruct (veEnabled p && hp && (length floatL =? BLOCK_SIZE)); [|left; reflexivity].
  cbn [Z.eqb Pos.eqb].
  destruct (_aecHandleL st) as [hL|]; [|left; reflexivity].
  destruct (_aecHandleR st) as [hR|]; [|left; reflexivity].
  right. exists hL, hR. repeat split.
Qed.

(** While the rings cannot fill, any number of blocks passes unchanged. *)
Lemma blocks_pass_while_accumulating (p : AudioEngineParams) (hp : bool)
    (blocks : list (list float * list float * list float)) (st : VeState) (w : Z) :
  veMode p = 1%Z ->
  input_rings_at w st -> aecOutputReady st = false ->
  (w + Z.of_nat NS_FRAME_16K * Z.of_nat (length blocks) < CAPACITY)%Z ->
  snd (run_blocks AecHandle VadHandle aec_process vad_process cast_undefined
         p hp st blocks) = map fst blocks.
Proof.
  intros Hmode. revert st w.
  induction blocks as [|[[fl fr] fhp] rest IH]; intros st w Hrings Hout Hroom;
    [reflexivity|].
  cbn [run_blocks length map fst].
  destruct (voice_exclusion_in_aec_mode p hp st fl fr fhp Hmode) as [Heq|(hL & hR & _ & _ & Heq)];
    cbn zeta in Heq; rewrite Heq.
  - specialize (IH st w Hrings Hout ltac:(cbn [length] in Hroom; lia)).
    destruct (run_blocks _ _ _ _ _ _ _ st rest) as [st2 outs].
    cbn [snd] in *. rewrite IH. reflexivity.
  - destruct Hrings as (WL & WR & WHP & EL & ER & EHP).
    destruct (push_fits (aecRingL st) (pushed_L st fl) NS_FRAME_16K WL
                (downsample3_length _ _ _)
                ltac:(cbn [length] in Hroom; unfold NS_FRAME_16K in *; lia)) as [PL _].
    destruct (push_fits (aecRingR st) (pushed_R st fr) NS_FRAME_16K WR
                (downsample3_length _ _ _)
                ltac:(cbn [length] in Hroom; unfold NS_FRAME_16K in *; lia)) as [PR _].
    destruct (push_fits (aecRingHP st) (pushed_HP st fhp) NS_FRAME_16K WHP
                (downsample3_length _ _ _)
                ltac:(cbn [length] in Hroom; unfold NS_FRAME_16K in *; lia)) as [PHP _].
    assert (Hnot : ready (push (aecRingL st) (pushed_L st fl) NS_FRAME_16K)
                   && ready (push (aecRingR st) (pushed_R st fr) NS_FRAME_16K)
                   && ready (push (aecRingHP st) (pushed_HP st fhp) NS_FRAME_16K) = false).
    { replace (ready (push (aecRingL st) (pushed_L st fl) NS_FRAME_16K)) with false;
        [reflexivity|].
      symmetry. apply not_ready_iff. rewrite PL.
      cbn [length] in Hroom. unfold NS_FRAME_16K in *. lia. }
    pose proof (aec_branch_accumulating (veBlend p) st hL hR (length fl) fl fr fhp Hnot)
      as (RL & RR & RHP & _ & _ & _ & _ & _ & Hrdy & _ & _ & Hsame).
    cbn zeta in *.
    destruct (aec_branch (veBlend p) st hL hR (length fl) fl fr fhp) as [[st1 oL] oR].
    cbn [fst snd] in *.
    destruct (Hsame Hout) as [-> ->].
    assert (Hrings1 : input_rings_at (w + Z.of_nat NS_FRAME_16K) st1).
    { unfold input_rings_at. rewrite RL, RR, RHP, PL, PR, PHP.
      repeat split; try (apply push_well_formed; assumption); lia. }
    specialize (IH st1 _ Hrings1 ltac:(congruence)
                  ltac:(cbn [length] in Hroom; lia)).
    destruct (run_blocks _ _ _ _ _ _ _ st1 rest) as [st2 outs].
    cbn [snd] in *. rewrite IH. reflexivity.
Qed.

(** What [aec_reconfigure] leaves when it (re)creates the handles. *)
Lemma reconfigure_resets_bridge (p : AudioEngineParams) (st : VeState)
    (created : option AecHandle * option AecHandle) :
  recreates_aec p st ->
  let st' := aec_reconfigure AecHandle VadHandle p st created in
  input_rings_at 0 st' /\ aecOutputReady st' = false.
Proof.
  intros (Hen & Hmode & Hchange). cbn zeta. unfold aec_reconfigure.
  rewrite Hen, Hmode. cbn [andb Z.eqb Pos.eqb].
  assert (Htrig :
    negb (Bool.eqb true (prevVeAecActive st))
    || negb (veAecMode p =? prevVeAecMode st)%Z
    || negb (veAecFilterLen p =? prevVeAecFilterLen st)%Z = true).
  { destruct Hchange as [->|[Hne|Hne]].
    - reflexivity.
    - apply Z.eqb_neq in Hne. rewrite Hne. cbn [negb].
      rewrite orb_true_r. reflexivity.
    - apply Z.eqb_neq in Hne. rewrite Hne. cbn [negb]. apply orb_true_r. }
  rewrite Htrig.
  destruct created as [[l|] [r|]]; cbn;
    (split; [repeat split; cbn; try rewrite length_replicate; unfold CAPACITY; lia
            | reflexivity]).
Qed.
End Helpers.
End BridgeFacts.

Module BridgeTheorems.
Import F32 Engine AecRingBuf VoiceExclusion RingFacts BridgeFacts.

(** *** Rings as a stored prefix followed by stale slots *)

Lemma push_extends_prefix (rb : AecRingBuf) (pre rest data : list float) (count : nat) :
  well_formed rb -> buf rb = pre ++ rest -> length pre = Z.to_nat (writePos rb) ->
  length data = count -> (writePos rb + Z.of_nat count <= CAPACITY)%Z ->
  buf (push rb data count) = (pre ++ data) ++ drop count rest /\
  length (pre ++ data) = Z.to_nat (writePos (push rb data count)) /\
  writePos (push rb data count) = (writePos rb + Z.of_nat count)%Z.
Proof.
  intros Hwf Hbuf Hpre Hlen Hroom.
  destruct (push_fits rb data count Hwf Hlen Hroom) as [Hw Hb].
  rewrite Hb, Hw, Hbuf, <- Hpre.
  rewrite take_app_length, drop_app_add, length_app.
  destruct Hwf as [_ Hwp].
  repeat split; [rewrite <- app_assoc; reflexivity | lia].
Qed.

Lemma push_cuts_block (rb : AecRingBuf) (pre rest data : list float) (count : nat) :
  well_formed rb -> buf rb = pre ++ rest -> length pre = Z.to_nat (writePos rb) ->
  length data = count -> (CAPACITY <= writePos rb + Z.of_nat count)%Z ->
  buf (push rb data count) = pre ++ take (Z.to_nat CAPACITY - length pre) data /\
  writePos (push rb data count) = CAPACITY.
Proof.
  intros Hwf Hbuf Hpre Hlen Hroom.
  destruct (push_overflows rb data count Hwf Hlen Hroom) as [Hw Hb].
  rewrite Hb, Hw, Hbuf, <- Hpre, take_app_length. split; reflexivity.
Qed.

(** Four blocks of 160 samples pushed into an empty ring: the ring is
    full only after the fourth push, and of that block only the first 32
    samples are stored. *)
Lemma four_pushes (rb : AecRingBuf) (d1 d2 d3 d4 : list float) :
  well_formed rb -> writePos rb = 0%Z ->
  length d1 = NS_FRAME_16K -> length d2 = NS_FRAME_16K ->
  length d3 = NS_FRAME_16K -> length d4 = NS_FRAME_16K ->
  let r1 := push rb d1 NS_FRAME_16K in
  let r2 := push r1 d2 NS_FRAME_16K in
  let r3 := push r2 d3 NS_FRAME_16K in
  let r4 := push r3 d4 NS_FRAME_16K in
  (writePos r1 = 160 /\ writePos r2 = 320 /\ writePos r3 = 480 /\ writePos r4 = 512)%Z /\
  buf r4 = d1 ++ d2 ++ d3 ++ take 32 d4.
Proof.
  intros Hwf H0 L1 L2 L3 L4 r1 r2 r3 r4.
  unfold NS_FRAME_16K in *.
  destruct (push_extends_prefix rb [] (buf rb) d1 160 Hwf eq_refl
              ltac:(rewrite H0; reflexivity) L1
              ltac:(rewrite H0; unfold CAPACITY; lia)) as (B1 & P1 & W1).
  fold r1 in B1, P1, W1.
  assert (Hwf1 : well_formed r1) by (apply push_well_formed; assumption).
  destruct (push_extends_prefix r1 _ _ d2 160 Hwf1 B1 P1 L2
              ltac:(rewrite W1, H0; unfold CAPACITY; lia)) as (B2 & P2 & W2).
  fold r2 in B2, P2, W2.
  assert (Hwf2 : well_formed r2) by (apply push_well_formed; assumption).
  destruct (push_extends_prefix r2 _ _ d3 160 Hwf2 B2 P2 L3
              ltac:(rewrite W2, W1, H0; unfold CAPACITY; lia)) as (B3 & P3 & W3).
  fold r3 in B3, P3, W3.
  assert (Hwf3 : well_formed r3) by (apply push_well_formed; assumption).
  destruct (push_cuts_block r3 _ _ d4 160 Hwf3 B3 P3 L4
              ltac:(rewrite W3, W2, W1, H0; unfold CAPACITY; lia)) as (B4 & W4).
  fold r4 in B4, W4.
  repeat split; try lia.
  - rewrite W4. reflexivity.
  - rewrite B4. rewrite !length_app. cbn [length].
    replace (Z.to_nat CAPACITY - (0 + length d1 + length d2 + length d3)) with 32
      by (unfold CAPACITY; lia).
    cbn [app]. rewrite <- !app_assoc. reflexivity.
Qed.

Section Cycle.
Variable AecHandle VadHandle : Type.
Variable aec_process : AecHandle -> list Z -> list Z -> AecHandle * list Z.
Variable vad_process : VadHandle -> list Z -> VadHandle * bool.
Variable cast_undefined : float -> Z.

Local Abbreviation VeState := (VeState AecHandle VadHandle).
Local Abbreviation after_block :=
  (after_block AecHandle VadHandle aec_process vad_process cast_undefined).
Local Abbreviation run_blocks :=
  (run_blocks AecHandle VadHandle aec_process vad_process cast_undefined).
Local Abbreviation frame_of_samples := (frame_of_samples cast_undefined).

Lemma cycle_accumulate (p : AudioEngineParams) (st : VeState) (hL hR : AecHandle)
    (b : list float * list float * list float) (w : Z) :
  veEnabled p = true -> veMode p = 1%Z ->
  _aecHandleL st = Some hL -> _aecHandleR st = Some hR ->
  length (fst (fst b)) = BLOCK_SIZE ->
  input_rings_at w st -> (w + Z.of_nat NS_FRAME_16K < CAPACITY)%Z ->
  let st' := after_block p st b in
  aecRingL st' = push (aecRingL st) (pushed_L st (fst (fst b))) NS_FRAME_16K /\
  aecRingR st' = push (aecRingR st) (pushed_R st (snd (fst b))) NS_FRAME_16K /\
  aecRingHP st' = push (aecRingHP st) (pushed_HP st (snd b)) NS_FRAME_16K /\
  _aecHandleL st' = Some hL /\ _aecHandleR st' = Some hR /\
  input_rings_at (w + Z.of_nat NS_FRAME_16K) st'.
Proof.
  intros Hen Hmode HhL HhR Hlen (WL & WR & WHP & EL & ER & EHP) Hroom st'.
  destruct b as [[fl fr] fhp]. cbn [fst snd] in *. subst st'.
  unfold VoiceExclusion.after_block. cbn [fst snd].
  rewrite (voice_exclusion_aec _ _ aec_process vad_process cast_undefined
             p st hL hR fl fr fhp Hen Hmode HhL HhR Hlen).
  destruct (push_fits (aecRingL st) (pushed_L st fl) NS_FRAME_16K WL
              (downsample3_length _ _ _)) as [PL _]; [lia|].
  destruct (push_fits (aecRingR st) (pushed_R st fr) NS_FRAME_16K WR
              (downsample3_length _ _ _)) as [PR _]; [lia|].
  destruct (push_fits (aecRingHP st) (pushed_HP st fhp) NS_FRAME_16K WHP
              (downsample3_length _ _ _)) as [PHP _]; [lia|].
  assert (Hnot : ready (push (aecRingL st) (pushed_L st fl) NS_FRAME_16K)
                 && ready (push (aecRingR st) (pushed_R st fr) NS_FRAME_16K)
                 && ready (push (aecRingHP st) (pushed_HP st fhp) NS_FRAME_16K) = false).
  { replace (ready (push (aecRingL st) (pushed_L st fl) NS_FRAME_16K)) with false;
      [reflexivity|].
    symmetry. apply not_ready_iff. rewrite PL. lia. }
  pose proof (aec_branch_accumulating _ _ aec_process vad_process cast_undefined
                (veBlend p) st hL hR (length fl) fl fr fhp Hnot)
    as (RL & RR & RHP & HL' & HR' & _).
  cbn zeta in *. unfold input_rings_at. rewrite RL, RR, RHP, HL', HR'.
  do 5 (split; [reflexivity|]).
  split; [apply push_well_formed; assumption|].
  split; [apply push_well_formed; assumption|].
  split; [apply push_well_formed; assumption|].
  rewrite PL, PR, PHP. lia.
Qed.

Lemma cycle_frame (p : AudioEngineParams) (st : VeState) (hL hR : AecHandle)
    (b : list float * list float * list float) (w : Z) :
  veEnabled p = true -> veMode p = 1%Z ->
  _aecHandleL st = Some hL -> _aecHandleR st = Some hR ->
  length (fst (fst b)) = BLOCK_SIZE ->
  input_rings_at w st -> (CAPACITY <= w + Z.of_nat NS_FRAME_16K)%Z ->
  let st' := after_block p st b in
  let rL := push (aecRingL st) (pushed_L st (fst (fst b))) NS_FRAME_16K in
  let rR := push (aecRingR st) (pushed_R st (snd (fst b))) NS_FRAME_16K in
  let rHP := push (aecRingHP st) (pushed_HP st (snd b)) NS_FRAME_16K in
  _aecHandleL st' =
    Some (fst (aec_process hL (frame_of_samples (buf rL)) (frame_of_samples (buf rHP)))) /\
  _aecHandleR st' =
    Some (fst (aec_process hR (frame_of_samples (buf rR)) (frame_of_samples (buf rHP)))) /\
  input_rings_at 0 st'.
Proof.
  intros Hen Hmode HhL HhR Hlen (WL & WR & WHP & EL & ER & EHP) Hroom st' rL rR rHP.
  destruct b as [[fl fr] fhp]. cbn [fst snd] in *. subst st'.
  unfold VoiceExclusion.after_block. cbn [fst snd].
  rewrite (voice_exclusion_aec _ _ aec_process vad_process cast_undefined
             p st hL hR fl fr fhp Hen Hmode HhL HhR Hlen).
  destruct (push_overflows (aecRingL st) (pushed_L st fl) NS_FRAME_16K WL
              (downsample3_length _ _ _)) as [PL _]; [lia|].
  destruct (push_overflows (aecRingR st) (pushed_R st fr) NS_FRAME_16K WR
              (downsample3_length _ _ _)) as [PR _]; [lia|].
  destruct (push_overflows (aecRingHP st) (pushed_HP st fhp) NS_FRAME_16K WHP
              (downsample3_length _ _ _)) as [PHP _]; [lia|].
  fold rL in PL. fold rR in PR. fold rHP in PHP.
  assert (Hrdy : ready rL && ready rR && ready rHP = true).
  { unfold ready. rewrite PL, PR, PHP. reflexivity. }
  pose proof (aec_branch_frame _ _ aec_process vad_process cast_undefined
                (veBlend p) st hL hR (length fl) fl fr fhp Hrdy)
    as (RL & RR & RHP & HL' & HR' & _).
  cbn zeta in *. unfold input_rings_at. rewrite RL, RR, RHP, HL', HR'.
  assert (Hw : forall rb, well_formed rb -> well_formed (consume rb)).
  { intros rb [Hl _]. split; [exact Hl | cbn; unfold CAPACITY; lia]. }
  do 2 (split; [reflexivity|]).
  split; [apply Hw, push_well_formed; assumption|].
  split; [apply Hw, push_well_formed; assumption|].
  split; [apply Hw, push_well_formed; assumption|].
  repeat split; reflexivity.
Qed.

(** C9: after a parameter update that (re)creates the AEC, the first
    blocks, up to three of them, leave step 7 exactly as they entered
    it: the input rings hold fewer than 512 samples and no output frame
    exists yet. *)
Theorem aec_bridge_passes_first_blocks_unchanged
    (p : AudioEngineParams) (hp : bool) (st : VeState)
    (created : option AecHandle * option AecHandle)
    (blocks : list (list float * list float * list float)) :
  recreates_aec p st ->
  length blocks <= 3 ->
  snd (run_blocks p hp (aec_reconfigure AecHandle VadHandle p st created) blocks)
    = map fst blocks.
Proof.
  intros Hre Hlen.
  destruct (reconfigure_resets_bridge AecHandle VadHandle p st created Hre)
    as [Hrings Hout].
  destruct Hre as (_ & Hmode & _).
  apply (blocks_pass_while_accumulating AecHandle VadHandle aec_process vad_process
           cast_undefined p hp blocks _ 0 Hmode Hrings Hout).
  unfold NS_FRAME_16K, CAPACITY. lia.
Qed.

(** C10: [push] stores nothing once the ring holds 512 samples, and what
    it does not store is gone.  Starting from empty input rings, three
    blocks of 160 samples are accumulated without any call of the AEC;
    the fourth push fills the ring with its first 32 samples only, and
    the one frame the AEC then receives per channel is the first 512 of
    the 640 samples.  The rings restart from 0, so the other 128 samples
    of the fourth block are never presented. *)
Theorem aec_cycle_drops_tail_of_fourth_block
    (p : AudioEngineParams) (st : VeState) (hL hR : AecHandle)
    (b1 b2 b3 b4 : list float * list float * list float) :
  veEnabled p = true -> veMode p = 1%Z ->
  _aecHandleL st = Some hL -> _aecHandleR st = Some hR ->
  input_rings_at 0 st ->
  length (fst (fst b1)) = BLOCK_SIZE -> length (fst (fst b2)) = BLOCK_SIZE ->
  length (fst (fst b3)) = BLOCK_SIZE -> length (fst (fst b4)) = BLOCK_SIZE ->
  let st1 := after_block p st b1 in
  let st2 := after_block p st1 b2 in
  let st3 := after_block p st2 b3 in
  let st4 := after_block p st3 b4 in
  let kept (d1 d2 d3 d4 : list float) := d1 ++ d2 ++ d3 ++ take 32 d4 in
  let keptL := kept (pushed_L st (fst (fst b1))) (pushed_L st1 (fst (fst b2)))
                 (pushed_L st2 (fst (fst b3))) (pushed_L st3 (fst (fst b4))) in
  let keptR := kept (pushed_R st (snd (fst b1))) (pushed_R st1 (snd (fst b2)))
                 (pushed_R st2 (snd (fst b3))) (pushed_R st3 (snd (fst b4))) in
  let keptHP := kept (pushed_HP st (snd b1)) (pushed_HP st1 (snd b2))
                  (pushed_HP st2 (snd b3)) (pushed_HP st3 (snd b4)) in
  let full := push (aecRingL st3) (pushed_L st3 (fst (fst b4))) NS_FRAME_16K in
  (writePos (aecRingL st1) = 160 /\ writePos (aecRingL st2) = 320 /\
   writePos (aecRingL st3) = 480)%Z /\
  (_aecHandleL st3 = Some hL /\ _aecHandleR st3 = Some hR) /\
  (writePos full = 512%Z /\ buf full = keptL /\
   length (drop 32 (pushed_L st3 (fst (fst b4)))) = 128) /\
  _aecHandleL st4 =
    Some (fst (aec_process hL (frame_of_samples keptL) (frame_of_samples keptHP))) /\
  _aecHandleR st4 =
    Some (fst (aec_process hR (frame_of_samples keptR) (frame_of_samples keptHP))) /\
  input_rings_at 0 st4.
Proof.
  intros Hen Hmode HhL HhR Hr0 L1 L2 L3 L4 st1 st2 st3 st4 kept keptL keptR keptHP full.
  destruct (cycle_accumulate p st hL hR b1 0 Hen Hmode HhL HhR L1 Hr0)
    as (RL1 & RR1 & RHP1 & HL1 & HR1 & Hr1);
    [unfold NS_FRAME_16K, CAPACITY; lia|].
  fold st1 in RL1, RR1, RHP1, HL1, HR1, Hr1.
  destruct (cycle_accumulate p st1 hL hR b2 _ Hen Hmode HL1 HR1 L2 Hr1)
    as (RL2 & RR2 & RHP2 & HL2 & HR2 & Hr2);
    [unfold NS_FRAME_16K, CAPACITY; lia|].
  fold st2 in RL2, RR2, RHP2, HL2, HR2, Hr2.
  destruct (cycle_accumulate p st2 hL hR b3 _ Hen Hmode HL2 HR2 L3 Hr2)
    as (RL3 & RR3 & RHP3 & HL3 & HR3 & Hr3);
    [unfold NS_FRAME_16K, CAPACITY; lia|].
  fold st3 in RL3, RR3, RHP3, HL3, HR3, Hr3.
  destruct (cycle_frame p st3 hL hR b4 _ Hen Hmode HL3 HR3 L4 Hr3)
    as (HL4 & HR4 & Hr4); [unfold NS_FRAME_16K, CAPACITY; lia|].
  fold st4 in HL4, HR4, Hr4. cbn zeta in HL4, HR4.
  destruct Hr0 as (WL & WR & WHP & EL & ER & EHP).
  destruct (four_pushes (aecRingL st) (pushed_L st (fst (fst b1)))
              (pushed_L st1 (fst (fst b2))) (pushed_L st2 (fst (fst b3)))
              (pushed_L st3 (fst (fst b4))) WL EL
              (downsample3_length _ _ _) (downsample3_length _ _ _)
              (downsample3_length _ _ _) (downsample3_length _ _ _))
    as ((W1 & W2 & W3 & W4) & BL).
  destruct (four_pushes (aecRingR st) (pushed_R st (snd (fst b1)))
              (pushed_R st1 (snd (fst b2))) (pushed_R st2 (snd (fst b3)))
              (pushed_R st3 (snd (fst b4))) WR ER
              (downsample3_length _ _ _) (downsample3_length _ _ _)
              (downsample3_length _ _ _) (downsample3_length _ _ _))
    as (_ & BR).
  destruct (four_pushes (aecRingHP st) (pushed_HP st (snd b1))
              (pushed_HP st1 (snd b2)) (pushed_HP st2 (snd b3))
              (pushed_HP st3 (snd b4)) WHP EHP
              (downsample3_length _ _ _) (downsample3_length _ _ _)
              (downsample3_length _ _ _) (downsample3_length _ _ _))
    as (_ & BHP).
  cbn zeta in W1, W2, W3, W4, BL, BR, BHP.
  rewrite <- RL1 in W1. rewrite <- RL1, <- RL2 in W2.
  rewrite <- RL1, <- RL2, <- RL3 in W3, W4, BL.
  rewrite <- RR1, <- RR2, <- RR3 in BR.
  rewrite <- RHP1, <- RHP2, <- RHP3 in BHP.
  rewrite BL, BHP in HL4. rewrite BR, BHP in HR4.
  subst full keptL keptR keptHP kept. cbn beta.
  split; [repeat split; assumption|].
  split; [split; assumption|].
  split.
  { split; [assumption|]. split; [assumption|].
    rewrite length_drop. unfold pushed_L. rewrite downsample3_length. reflexivity. }
  split; [assumption|]. split; [assumption|]. exact Hr4.
Qed.
End Cycle.
End BridgeTheorems.

(** ** The bridge on concrete helpers *)

Module BridgeExamples.
Import F32 Engine AecRingBuf VoiceExclusion BridgeTheorems Examples.

Lemma aec_bridge_passes_first_blocks_unchanged_witness :
  snd (run_blocks unit unit echo_aec deaf_vad cast_to_zero aec_params true
         created_state [silent_block; silent_block; silent_block])
  = map fst [silent_block; silent_block; silent_block].
Proof.
  apply (aec_bridge_passes_first_blocks_unchanged unit unit echo_aec deaf_vad
           cast_to_zero aec_params true initial_state (Some tt, Some tt)).
  - split; [reflexivity|]. split; [reflexivity|]. left. reflexivity.
  - cbn. lia.
Defined.

Lemma aec_cycle_drops_tail_of_fourth_block_witness :
  let step := after_block unit unit echo_aec deaf_vad cast_to_zero aec_params in
  input_rings_at 0 (step (step (step (step created_state silent_block) silent_block)
                            silent_block) silent_block).
Proof.
  pose proof (aec_cycle_drops_tail_of_fourth_block unit unit echo_aec deaf_vad
                cast_to_zero aec_params created_state tt tt
                silent_block silent_block silent_block silent_block
                eq_refl eq_refl eq_refl eq_refl) as H.
  cbn zeta in *. apply H; try reflexivity.
  repeat split; cbn; try reflexivity; unfold CAPACITY; lia.
Defined.
End BridgeExamples.

(** ** Parameter exchange *)

Module EngineTheorems.
Import F32 Engine.

Lemma setOutputGain_stores_clamp (e : AudioEngine) (gain : float) :
  outputGain (getParams (setOutputGain e gain)) = clamp gain zero (of_Z 4).
Proof. reflexivity. Qed.

(** C5, the code at 5.0: the declared range [[0, 6]] keeps 5.0, the
    setter stores 4.0. *)
Theorem setOutputGain_caps_at_four :
  outputGain (getParams (setOutputGain fresh (of_Z 5))) = of_Z 4 /\
  clamp (of_Z 5) zero declared_gain_max = of_Z 5.
Proof. split; reflexivity. Qed.

Lemma getParams_setParams (e : AudioEngine) (p : AudioEngineParams) :
  getParams (setParams e p) = p.
Proof. reflexivity. Qed.

(** C7, the code on a record with [micGain = 300]: [getParams] returns the
    record as it was given, with 300, where the clamp to the declared
    range gives 240 and [setMicGain(300)] stores 240. *)
Theorem setParams_keeps_out_of_range_value :
  let p := with_micGain default_params (of_Z 300) in
  getParams (setParams fresh p) = p /\
  micGain (getParams (setParams fresh p)) = of_Z 300 /\
  micGain (clamp_to_declared_ranges p) = of_Z 240 /\
  micGain (getParams (setMicGain fresh (of_Z 300))) = of_Z 240.
Proof. repeat split. Qed.
End EngineTheorems.

Module OutputExamples.
Import F32 Engine Output OutputTheorems Examples.

Lemma peak_hold_decays_witness :
  peakLeft (meter_lr after_half_scale 1 [of_ratio 3 4] [zero]) = of_ratio 3 4 /\
  peakRight (meter_lr after_half_scale 1 [of_ratio 3 4] [zero])
    = mul (of_ratio 1 4) (of_ratio 97 100).
Proof.
  pose proof (peak_hold_decays after_half_scale 1 [] [of_ratio 3 4] [zero]
                (reach_lr _ _ _ _ reach_default))
    as (_ & _ & _ & _ & HR & _ & (_ & _ & HL) & _).
  split.
  - destruct HL as (j & Hj & ->).
    + exists 0. split; [lia | reflexivity].
    + destruct j as [|j]; [reflexivity | lia].
  - change (mul (of_ratio 1 4) (of_ratio 97 100))
      with (mul (peakRight after_half_scale) PEAK_DECAY).
    apply HR. intros i Hi. destruct i as [|i]; [reflexivity | lia].
Defined.
End OutputExamples.

(** ** Runs of the NLMS filter *)

Module NlmsRunFacts.
Import F32 Nlms NlmsFacts NlmsRuns.

Lemma process_all_app (f : NlmsFilter) (l1 l2 : list (float * float * float)) :
  process_all f (l1 ++ l2) =
    (fst (process_all (fst (process_all f l1)) l2),
     snd (process_all f l1) ++ snd (process_all (fst (process_all f l1)) l2)).
Proof.
  revert f. induction l1 as [|[[x d] mu] l1 IH]; intros f.
  - cbn. destruct (process_all f l2). reflexivity.
  - cbn [app process_all]. destruct (process f x d mu) as [f1 y].
    rewrite IH. destruct (process_all f1 l1) as [f2 ys].
    cbn [fst snd]. destruct (process_all f2 l2). reflexivity.
Qed.

Lemma process_all_length (f : NlmsFilter) (calls : list (float * float * float)) :
  length (snd (process_all f calls)) = length calls.
Proof.
  revert f. induction calls as [|[[x d] mu] calls IH]; intros f; [reflexivity|].
  cbn [process_all]. destruct (process f x d mu) as [f1 y].
  specialize (IH f1). destruct (process_all f1 calls) as [f2 ys].
  cbn in *. rewrite IH. reflexivity.
Qed.

(** What one call does to the bookkeeping of a working filter. *)
Lemma process_shape (f : NlmsFilter) (x d mu : float) :
  initialized f ->
  let f1 := fst (process f x d mu) in
  initialized f1 /\ _len f1 = _len f /\
  _pos f1 = ((_pos f + 1) mod _len f)%Z /\
  refBuf_of f1 = <[Z.to_nat (_pos f) := x]> (refBuf_of f).
Proof.
  intros Hinit. pose proof Hinit as (w & r & Hw & Hr & Hlen & Hlw & Hlr & Hpos).
  cbn zeta. rewrite NlmsTheorems.process_guarded_eq by assumption.
  unfold process_guarded, process_by_design, process_design, refBuf_of.
  rewrite Hw, Hr. cbn.
  pose proof (Z.mod_pos_bound (_pos f + 1) (_len f) ltac:(lia)).
  repeat split; try reflexivity.
  eexists _, _. cbn. repeat split; try reflexivity;
    rewrite ?length_imap, ?length_insert; lia.
Qed.

Lemma add_nan_r (a : float) : add a nan = nan.
Proof. destruct a; reflexivity. Qed.

Lemma mul_nan_r (a : float) : mul a nan = nan.
Proof. destruct a; reflexivity. Qed.

Lemma mul_nan_l_any (a : float) : mul nan a = nan.
Proof. reflexivity. Qed.

Lemma sub_nan_r (a : float) : sub a nan = nan.
Proof. destruct a; reflexivity. Qed.

Lemma is_nan_eq (a : float) : is_nan a = true -> a = nan.
Proof. destruct a; cbn; intros H; try discriminate H; reflexivity. Qed.

Lemma sum_from_nan (xs : list float) : fold_left add xs nan = nan.
Proof. induction xs as [|x xs IH]; [reflexivity | exact IH]. Qed.

(** One NaN product is enough: the estimate is NaN and every tap becomes
    NaN, the sanity check letting NaN through. *)
Lemma process_poisons (f : NlmsFilter) (x d mu : float) :
  initialized f ->
  is_nan x = true \/ Forall (fun w => is_nan w = true) (weights_of f) ->
  snd (process f x d mu) = nan /\ poisoned (fst (process f x d mu)).
Proof.
  intros Hinit Hsrc.
  destruct (process_shape f x d mu Hinit) as (Hinit1 & _).
  pose proof Hinit as (w & r & Hw & Hr & Hlen & Hlw & Hlr & Hpos).
  assert (Hy : snd (process f x d mu) = nan).
  { rewrite NlmsTheorems.process_guarded_eq by assumption.
    unfold process_guarded, process_by_design, process_design.
    rewrite Hw, Hr. cbn [snd].
    destruct w as [|w0 ws]; [cbn in Hlw; lia|].
    unfold sum_f32. cbn [imap fold_left].
    assert (Hfirst : mul w0 (<[Z.to_nat (_pos f) := x]> r
                        !!! Z.to_nat ((_pos f - Z.of_nat 0) mod _len f)) = nan).
    { destruct Hsrc as [Hx|Hall].
      - replace ((_pos f - Z.of_nat 0) mod _len f)%Z with (_pos f)
          by (rewrite Z.sub_0_r, Z.mod_small; lia).
        rewrite list_lookup_total_insert_eq by lia.
        rewrite (is_nan_eq x Hx). apply mul_nan_r.
      - unfold weights_of in Hall. rewrite Hw in Hall. cbn in Hall.
        inversion Hall as [|? ? Hw0 _]; subst.
        rewrite (is_nan_eq w0 Hw0). reflexivity. }
    rewrite Hfirst. cbn. apply sum_from_nan. }
  split; [exact Hy|]. split; [exact Hinit1|].
  rewrite NlmsTheorems.process_guarded_eq in Hy |- * by assumption.
  unfold process_guarded, process_by_design, process_design in Hy |- *.
  rewrite Hw, Hr in Hy |- *. cbn [fst snd] in Hy |- *.
  unfold weights_of. cbn. rewrite Hy.
  apply Forall_lookup_2. intros i v Hv.
  rewrite list_lookup_imap in Hv.
  destruct (w !! i); cbn in Hv; [|discriminate].
  injection Hv as <-.
  rewrite sub_nan_r, mul_nan_r. cbn [mul SFmul]. rewrite add_nan_r. reflexivity.
Qed.

Lemma process_all_poisoned (calls : list (float * float * float)) (f : NlmsFilter) :
  poisoned f ->
  Forall (fun y => y = nan) (snd (process_all f calls)) /\
  poisoned (fst (process_all f calls)).
Proof.
  revert f. induction calls as [|[[x d] mu] calls IH]; intros f Hp.
  - split; [constructor | exact Hp].
  - cbn [process_all].
    destruct Hp as [Hinit Hall].
    destruct (process_poisons f x d mu Hinit (or_intror Hall)) as [Hy Hp1].
    destruct (process f x d mu) as [f1 y]. cbn [fst snd] in *.
    destruct (IH f1 Hp1) as [Hys Hp2].
    destruct (process_all f1 calls) as [f2 ys]. cbn [fst snd] in *.
    split; [constructor; assumption | exact Hp2].
Qed.
End NlmsRunFacts.

Module NlmsRunTheorems.
Import F32 Nlms NlmsFacts NlmsRuns NlmsRunFacts Examples.

(** X1: a filter that was never initialized, was destroyed, or has length
    zero answers every call of [process] with [0.0f] and is left exactly
    as it was, for any number of calls. *)
Theorem process_without_taps_returns_zero
    (f : NlmsFilter) (calls : list (float * float * float)) :
  without_taps f ->
  process_all f calls = (f, replicate (length calls) zero).
Proof.
  intros Hno.
  assert (Hstep : forall x d mu, process f x d mu = (f, zero)).
  { intros x d mu. unfold process.
    destruct Hno as [Hw|[Hr|Hlen]].
    - rewrite Hw. reflexivity.
    - rewrite Hr. destruct (_weights f); reflexivity.
    - destruct (_weights f), (_refBuf f); try reflexivity.
      destruct (Z.leb_spec (_len f) 0); [reflexivity | lia]. }
  induction calls as [|[[x d] mu] calls IH]; [reflexivity|].
  cbn [process_all length replicate]. rewrite Hstep, IH. reflexivity.
Qed.

Lemma process_without_taps_returns_zero_witness :
  process_all (destroy (init 64)) [(half, half, default_step); (half, half, default_step)]
    = (destroy (init 64), [zero; zero]).
Proof.
  apply (process_without_taps_returns_zero (destroy (init 64))
           [(half, half, default_step); (half, half, default_step)]).
  left. reflexivity.
Defined.

(** X2: on a working filter of length [L], [n] calls of [process] keep
    the length, move the write position to [(p + n) mod L], and leave the
    reference buffer as a sliding window: the sample passed [i] calls ago
    ([i < n], [i < L]) sits at index [(p' - 1 - i) mod L]. *)
Theorem reference_buffer_is_sliding_window
    (f : NlmsFilter) (calls : list (float * float * float)) :
  initialized f ->
  let f' := fst (process_all f calls) in
  initialized f' /\ _len f' = _len f /\
  _pos f' = ((_pos f + Z.of_nat (length calls)) mod _len f)%Z /\
  forall i, i < length calls -> (Z.of_nat i < _len f)%Z ->
    refBuf_of f' !!! Z.to_nat ((_pos f' - 1 - Z.of_nat i) mod _len f)
      = recent_refs calls !!! i.
Proof.
  intros Hinit. cbn zeta.
  induction calls as [|[[x d] mu] calls IH] using rev_ind.
  - cbn. pose proof Hinit as (w & r & _ & _ & Hlen & _ & _ & Hpos).
    repeat split; try assumption.
    + rewrite Z.add_0_r, Z.mod_small; lia.
    + intros i Hi. lia.
  - destruct IH as (Hinit1 & Hlen1 & Hpos1 & Hwin).
    rewrite process_all_app. cbn [fst].
    set (f1 := fst (process_all f calls)) in *.
    cbn [process_all]. destruct (process_shape f1 x d mu Hinit1) as (Hinit2 & Hlen2 & Hpos2 & Hbuf2).
    destruct (process f1 x d mu) as [f2 y]. cbn [fst] in *.
    pose proof Hinit1 as (w1 & r1 & _ & Hr1 & HL & _ & Hlr1 & Hp1).
    assert (Hbuflen : length (refBuf_of f1) = Z.to_nat (_len f1)).
    { unfold refBuf_of. rewrite Hr1. exact Hlr1. }
    rewrite Hlen1 in *.
    split; [exact Hinit2|]. split; [exact Hlen2|].
    assert (Hpos' : _pos f2 = ((_pos f + Z.of_nat (length (calls ++ [(x, d, mu)]))) mod _len f)%Z).
    { rewrite Hpos2, Hpos1, length_app. cbn [length].
      rewrite Nat2Z.inj_add. change (Z.of_nat 1) with 1%Z.
      rewrite Z.add_mod_idemp_l by lia. f_equal. lia. }
    split; [exact Hpos'|].
    intros i Hi HiL. unfold recent_refs. rewrite map_app, rev_app_distr. cbn [map rev app fst].
    rewrite Hbuf2.
    assert (Hidx : ((_pos f2 - 1 - Z.of_nat i) mod _len f = (_pos f1 - Z.of_nat i) mod _len f)%Z).
    { rewrite Hpos2.
      replace ((_pos f1 + 1) mod _len f - 1 - Z.of_nat i)%Z
        with ((_pos f1 + 1) mod _len f - (1 + Z.of_nat i))%Z by lia.
      rewrite Zminus_mod_idemp_l. f_equal. lia. }
    rewrite Hidx.
    destruct i as [|i].
    + cbn [Z.of_nat]. rewrite Z.sub_0_r, Z.mod_small by lia.
      rewrite list_lookup_total_insert_eq by lia. reflexivity.
    + rewrite length_app in Hi. cbn [length] in Hi.
      assert (Hne : Z.to_nat (_pos f1) <> Z.to_nat ((_pos f1 - Z.of_nat (S i)) mod _len f)).
      { intros Heq.
        pose proof (Z.mod_pos_bound (_pos f1 - Z.of_nat (S i)) (_len f) ltac:(lia)) as Hb.
        apply Z2Nat.inj in Heq; try lia.
        destruct (Z_lt_le_dec (_pos f1 - Z.of_nat (S i)) 0) as [Hneg|Hnn].
        - rewrite <- (Z.mod_add _ 1 (_len f)) in Heq by lia.
          rewrite Z.mod_small in Heq by lia. lia.
        - rewrite Z.mod_small in Heq by lia. lia. }
      rewrite list_lookup_total_insert_ne by exact Hne.
      specialize (Hwin i ltac:(lia) ltac:(lia)).
      transitivity (recent_refs calls !!! i); [|reflexivity].
      rewrite <- Hwin. f_equal. f_equal. f_equal. lia.
Qed.

Lemma reference_buffer_is_sliding_window_witness :
  refBuf_of (fst (process_all (init 4)
               [(half, zero, default_step); (quiet_reference, zero, default_step)]))
    !!! 0 = half.
Proof.
  pose proof (reference_buffer_is_sliding_window (init 4)
                [(half, zero, default_step); (quiet_reference, zero, default_step)]
                (NlmsTheorems.init_initialized 4 ltac:(lia))) as (_ & _ & _ & H).
  exact (H 1 ltac:(cbn; lia) ltac:(cbn; lia)).
Defined.

(** X3: one NaN reference sample poisons a working filter for good: the
    estimate of that call and of every later call is NaN, and all taps
    are NaN afterwards, whatever the later inputs are; the sanity check
    [fabsf(w) > 10.0f] never fires on NaN. *)
Theorem nan_reference_poisons_filter
    (f : NlmsFilter) (d mu : float) (calls : list (float * float * float)) :
  initialized f ->
  Forall (fun y => y = nan) (snd (process_all f ((nan, d, mu) :: calls))) /\
  poisoned (fst (process_all f ((nan, d, mu) :: calls))).
Proof.
  intros Hinit. cbn [process_all].
  destruct (process_poisons f nan d mu Hinit (or_introl eq_refl)) as [Hy Hp].
  destruct (process f nan d mu) as [f1 y]. cbn [fst snd] in *.
  destruct (process_all_poisoned calls f1 Hp) as [Hys Hp2].
  destruct (process_all f1 calls) as [f2 ys]. cbn [fst snd] in *.
  split; [constructor; assumption | exact Hp2].
Qed.

Lemma nan_reference_poisons_filter_witness :
  Forall (fun y => y = nan)
    (snd (process_all (init 4) [(nan, half, default_step); (half, half, default_step)])).
Proof.
  apply (nan_reference_poisons_filter (init 4) half default_step
           [(half, half, default_step)]).
  apply NlmsTheorems.init_initialized. lia.
Defined.

Lemma mul_zeros (a x : float) :
  is_zero a = true -> is_finite x = true -> is_zero (mul a x) = true.
Proof.
  destruct a as [sa| | |], x as [sx| | |sx mx ex]; cbn; intros; try discriminate;
    reflexivity.
Qed.

Lemma sum_of_zeros (xs : list float) :
  Forall (fun v => is_zero v = true) xs -> fold_left add xs zero = zero.
Proof.
  induction 1 as [|v xs Hv _ IH]; [reflexivity|].
  cbn [fold_left].
  replace (add zero v) with zero; [exact IH|].
  destruct v as [s| | |]; try discriminate Hv. destruct s; reflexivity.
Qed.

Lemma init_untrained (n : Z) : (0 < n)%Z -> untrained (init n).
Proof.
  intros Hn. split; [apply NlmsTheorems.init_initialized; exact Hn|].
  split; apply Forall_forall; intros v Hv;
    apply elem_of_replicate in Hv as [-> _]; reflexivity.
Qed.

Lemma untrained_estimate (f : NlmsFilter) (x d mu : float) :
  untrained f -> is_finite x = true -> snd (process f x d mu) = zero.
Proof.
  intros (Hinit & Hw0 & Hr0) Hx.
  pose proof Hinit as (w & r & Hw & Hr & Hlen & Hlw & Hlr & Hpos).
  rewrite NlmsTheorems.process_guarded_eq by assumption.
  unfold process_guarded, process_by_design, process_design.
  rewrite Hw, Hr. cbn [snd]. unfold sum_f32.
  unfold weights_of in Hw0. unfold refBuf_of in Hr0. rewrite Hw in Hw0. rewrite Hr in Hr0.
  cbn in Hw0, Hr0.
  apply sum_of_zeros. apply Forall_lookup_2. intros i v Hv.
  rewrite list_lookup_imap in Hv.
  destruct (w !! i) as [wi|] eqn:Hwi; cbn in Hv; [|discriminate].
  injection Hv as <-.
  apply mul_zeros.
  - exact (Forall_lookup_1 _ _ _ _ Hw0 Hwi).
  - set (k := Z.to_nat ((_pos f - Z.of_nat i) mod _len f)).
    assert (Hk : k < length (<[Z.to_nat (_pos f) := x]> r)).
    { rewrite length_insert. subst k.
      pose proof (Z.mod_pos_bound (_pos f - Z.of_nat i) (_len f) ltac:(lia)). lia. }
    destruct (lookup_lt_is_Some_2 _ _ Hk) as [v Hv].
    rewrite (list_lookup_total_correct _ _ _ Hv).
    destruct (decide (k = Z.to_nat (_pos f))) as [Heq|Hne].
    + rewrite Heq, list_lookup_insert_eq in Hv by lia. congruence.
    + rewrite list_lookup_insert_ne in Hv by congruence.
      exact (Forall_lookup_1 _ _ _ _ Hr0 Hv).
Qed.

(** X4: on a working filter [reset] gives the very state [init] gives for
    the same length, all that was learnt is gone, and the first estimate
    after it is exactly [0.0f] for every finite reference sample. *)
Theorem reset_forgets_everything (f : NlmsFilter) (x d mu : float) :
  initialized f -> is_finite x = true ->
  reset f = init (_len f) /\ snd (process (reset f) x d mu) = zero.
Proof.
  intros Hinit Hx.
  pose proof Hinit as (w & r & Hw & Hr & Hlen & _).
  assert (Heq : reset f = init (_len f)).
  { unfold reset, init. rewrite Hw, Hr. reflexivity. }
  split; [exact Heq|].
  rewrite Heq. apply untrained_estimate; [apply init_untrained|]; assumption.
Qed.

Lemma reset_forgets_everything_witness :
  let f := fst (process (init 8) half half default_step) in
  reset f = init (_len f) /\ snd (process (reset f) half half default_step) = zero.
Proof.
  apply (reset_forgets_everything (fst (process (init 8) half half default_step))
           half half default_step).
  - apply (process_shape (init 8) half half default_step).
    apply NlmsTheorems.init_initialized. lia.
  - reflexivity.
Defined.
End NlmsRunTheorems.

(** ** Voice exclusion: NaN, failed helpers and the output ring *)

Module LoopFacts.
Import F32.

(** A loop that rewrites [b[i]] from [b[i]] alone, for [i] from 0 to
    [n - 1], is an indexed map over the first [n] elements. *)
Lemma inplace_loop (g : nat -> float -> float) (n : nat) (x : list float) :
  n <= length x ->
  let r := fold_left (fun b i => <[i := g i (b !!! i)]> b) (seq 0 n) x in
  length r = length x /\
  forall i, r !!! i = if decide (i < n) then g i (x !!! i) else x !!! i.
Proof.
  cbn zeta. induction n as [|n IH]; intros Hn.
  - cbn. split; [reflexivity|]. intros i. destruct (decide (i < 0)); [lia | reflexivity].
  - rewrite seq_S, fold_left_app. cbn [fold_left Nat.add].
    destruct (IH ltac:(lia)) as [Hlen Hlook].
    set (b := fold_left _ (seq 0 n) x) in *.
    rewrite length_insert. split; [exact Hlen|].
    intros i. destruct (decide (i = n)) as [->|Hne].
    + rewrite list_lookup_total_insert_eq by lia. rewrite Hlook.
      destruct (decide (n < n)); [lia|]. destruct (decide (n < S n)); [reflexivity | lia].
    + rewrite list_lookup_total_insert_ne by congruence. rewrite Hlook.
      destruct (decide (i < n)), (decide (i < S n)); try lia; reflexivity.
Qed.

Lemma inplace_loop_tail (g : nat -> float -> float) (n : nat) (x : list float) :
  n <= length x ->
  drop n (fold_left (fun b i => <[i := g i (b !!! i)]> b) (seq 0 n) x) = drop n x.
Proof.
  intros Hn. destruct (inplace_loop g n x Hn) as [Hlen Hlook]. cbn zeta in *.
  apply (list_eq_same_length _ _ (length x - n)).
  - rewrite length_drop. reflexivity.
  - rewrite length_drop, Hlen. reflexivity.
  - intros i a b Hi Ha Hb. rewrite lookup_drop in Ha, Hb.
    apply list_lookup_total_correct in Ha, Hb.
    rewrite Hlook in Ha. destruct (decide (n + i < n)); [lia | congruence].
Qed.

Lemma lookups_replicate (n : nat) (v : float) (l : list float) :
  length l = n -> (forall i, i < n -> l !!! i = v) -> l = replicate n v.
Proof.
  intros Hlen Hall. apply (list_eq_same_length _ _ n).
  - apply length_replicate.
  - exact Hlen.
  - intros i a b Hi Ha Hb. apply lookup_replicate in Hb as [-> _].
    apply list_lookup_total_correct in Ha. rewrite <- Ha. apply Hall. exact Hi.
Qed.

Lemma flat_map_length_3 {A B} (f : A -> list B) (l : list A) :
  (forall a, length (f a) = 3) -> length (flat_map f l) = 3 * length l.
Proof.
  intros Hf. induction l as [|a l IH]; [reflexivity|].
  cbn [flat_map length]. rewrite length_app, Hf, IH. lia.
Qed.
End LoopFacts.

Module ResamplerNaN.
Import F32 Resampler NlmsRunFacts LoopFacts.

Lemma up_tap_from_nan (rs : Resampler) (inp : list float) (inFrames i : Z)
    (phase t : nat) :
  up_tap rs inp inFrames i phase nan t = nan.
Proof. unfold up_tap. destruct (_ <? _); reflexivity. Qed.

(** The centre tap of every output sample reads the input sample itself. *)
Lemma up_sum_nan (rs : Resampler) (inp : list float) (inFrames i phase : nat) :
  i < inFrames -> phase < 3 -> inp !!! i = nan ->
  fold_left (up_tap rs inp (Z.of_nat inFrames) (Z.of_nat i) phase) (seq 0 7) zero = nan.
Proof.
  intros Hi Hph Hnan.
  change (seq 0 7) with ([0; 1; 2] ++ 3 :: [4; 5; 6]).
  rewrite fold_left_app. cbn [fold_left].
  set (s := up_tap rs inp _ _ phase (up_tap rs inp _ _ phase (up_tap rs inp _ _ phase zero 0) 1) 2).
  assert (Hmid : up_tap rs inp (Z.of_nat inFrames) (Z.of_nat i) phase s 3 = nan).
  { unfold up_tap, tap_sample.
    replace (Z.of_nat i - 3 + Z.of_nat 3)%Z with (Z.of_nat i) by lia.
    destruct (Z.ltb_spec (Z.of_nat i) 0); [lia|].
    destruct (Z.ltb_spec (Z.of_nat i) (Z.of_nat inFrames)); [|lia].
    rewrite Nat2Z.id, Hnan.
    destruct (Nat.ltb_spec (3 * 3 + phase) FILTER_TAPS) as [_|Hge];
      [|unfold FILTER_TAPS in Hge; lia].
    rewrite mul_nan_l_any. apply add_nan_r. }
  rewrite Hmid. rewrite !up_tap_from_nan. reflexivity.
Qed.

Lemma upsample3_nan (rs : Resampler) (inp : list float) (n : nat) :
  (forall i, i < n -> inp !!! i = nan) ->
  length (snd (upsample3 rs inp n)) = 3 * n /\
  forall j, j < 3 * n -> snd (upsample3 rs inp n) !!! j = nan.
Proof.
  intros Hall. unfold upsample3. cbn [snd].
  set (out := flat_map _ (seq 0 n)).
  assert (Hlen : length out = 3 * n).
  { subst out. rewrite flat_map_length_3, length_seq; [reflexivity|].
    intros a. rewrite length_map. reflexivity. }
  split; [exact Hlen|].
  assert (HF : Forall (fun v => v = nan) out).
  { subst out. apply Forall_flat_map. apply Forall_forall. intros i Hi.
    apply elem_of_seq in Hi.
    apply Forall_forall. intros v Hv.
    apply list_elem_of_In, in_map_iff in Hv as (phase & <- & Hph).
    apply in_seq in Hph.
    rewrite up_sum_nan by (try lia; apply Hall; lia). reflexivity. }
  intros j Hj.
  destruct (lookup_lt_is_Some_2 out j ltac:(lia)) as [v Hv].
  rewrite (list_lookup_total_correct _ _ _ Hv).
  exact (Forall_lookup_1 _ _ _ _ HF Hv).
Qed.
End ResamplerNaN.

Module VeFacts.
Import F32 Engine Nlms AecRingBuf VoiceExclusion NlmsRuns NlmsRunFacts LoopFacts ResamplerNaN.

Lemma subtract_sample_nan (blend maxAtt x : float) :
  subtract_sample blend maxAtt x nan = zero.
Proof.
  unfold subtract_sample, clamp.
  rewrite F32Facts.ltb_nan_l, F32Facts.ltb_nan_r, mul_nan_r, sub_nan_r. reflexivity.
Qed.

Lemma subtract_block_nan (blend maxAtt : float) (x est : list float) :
  (forall i, i < length x -> est !!! i = nan) ->
  subtract_block blend maxAtt (length x) x est = replicate (length x) zero.
Proof.
  intros Hest. unfold subtract_block.
  destruct (inplace_loop (fun i v => subtract_sample blend maxAtt v (est !!! i))
              (length x) x ltac:(lia)) as [Hlen Hlook].
  cbn zeta in Hlen, Hlook.
  apply lookups_replicate; [exact Hlen|].
  intros i Hi. rewrite Hlook. destruct (decide (i < length x)); [|lia].
  rewrite Hest by exact Hi. apply subtract_sample_nan.
Qed.

(** A poisoned filter turns a whole 16 kHz frame into NaN estimates. *)
Lemma nlms_frame_poisoned (f : NlmsFilter) (step : float) (ref primary : list float) :
  poisoned f ->
  poisoned (fst (nlms_frame f step ref primary)) /\
  length (snd (nlms_frame f step ref primary)) = NS_FRAME_16K /\
  forall i, i < NS_FRAME_16K -> snd (nlms_frame f step ref primary) !!! i = nan.
Proof.
  intros Hp. unfold nlms_frame.
  set (calls := map _ (seq 0 NS_FRAME_16K)).
  destruct (process_all_poisoned calls f Hp) as [Hys Hp'].
  pose proof (process_all_length f calls) as Hlen.
  assert (Hcalls : length calls = NS_FRAME_16K).
  { subst calls. rewrite length_map, length_seq. reflexivity. }
  split; [exact Hp'|]. split; [congruence|].
  intros i Hi.
  destruct (lookup_lt_is_Some_2 (snd (process_all f calls)) i ltac:(lia)) as [v Hv].
  rewrite (list_lookup_total_correct _ _ _ Hv).
  exact (Forall_lookup_1 _ _ _ _ Hys Hv).
Qed.
End VeFacts.

Module VeTheorems.
Import F32 Engine Nlms AecRingBuf VoiceExclusion NlmsRuns NlmsRunFacts LoopFacts.
Import ResamplerNaN VeFacts.

Section Helpers.
Variable AecHandle VadHandle : Type.
Variable aec_process : AecHandle -> list Z -> list Z -> AecHandle * list Z.
Variable vad_process : VadHandle -> list Z -> VadHandle * bool.
Variable cast_undefined : float -> Z.

Local Abbreviation VeState := (VeState AecHandle VadHandle).
Local Abbreviation voice_exclusion :=
  (voice_exclusion AecHandle VadHandle aec_process vad_process cast_undefined).
Local Abbreviation run_blocks :=
  (run_blocks AecHandle VadHandle aec_process vad_process cast_undefined).

(** X5: in NLMS mode with both filters poisoned (all taps NaN), a full
    block leaves step 7 as 480 samples of [0.0f] on both channels,
    whatever the input, the blend and the attenuation limit are: each
    NaN result is replaced by zero.  The filters are still poisoned after
    the block, so the output stays silent block after block. *)
Theorem poisoned_filters_silence_the_output
    (p : AudioEngineParams) (st : VeState) (nlL nlR : NlmsFilter)
    (floatL floatR floatHP : list float) :
  veEnabled p = true -> veMode p = 0%Z ->
  _nlmsL st = Some nlL -> _nlmsR st = Some nlR ->
  poisoned nlL -> poisoned nlR ->
  length floatL = BLOCK_SIZE -> length floatR = BLOCK_SIZE ->
  let res := voice_exclusion p true st (length floatL) floatL floatR floatHP in
  snd (fst res) = replicate BLOCK_SIZE zero /\
  snd res = replicate BLOCK_SIZE zero /\
  exists nlL' nlR',
    _nlmsL (fst (fst res)) = Some nlL' /\ _nlmsR (fst (fst res)) = Some nlR' /\
    poisoned nlL' /\ poisoned nlR'.
Proof.
  intros Hen Hmode HL HR HpL HpR HlenL HlenR. cbn zeta.
  unfold VoiceExclusion.voice_exclusion.
  rewrite Hen, Hmode, HL, HR. cbn [andb Z.eqb].
  replace (length floatL =? BLOCK_SIZE) with true by (rewrite HlenL; reflexivity).
  cbn iota. unfold nlms_branch.
  destruct (Resampler.downsample3 (veResDownL st) floatL NS_FRAME_16K) as [dL dnL].
  destruct (Resampler.downsample3 (veResDownR st) floatR NS_FRAME_16K) as [dR dnR].
  destruct (Resampler.downsample3 (veResDownHP st) floatHP NS_FRAME_16K) as [dHP dnHP].
  destruct (nlms_frame_poisoned nlL (veStepSize p) dnHP dnL HpL) as (HpL' & _ & HnanL).
  destruct (nlms_frame_poisoned nlR (veStepSize p) dnHP dnR HpR) as (HpR' & _ & HnanR).
  destruct (nlms_frame nlL (veStepSize p) dnHP dnL) as [nlL' estL].
  destruct (nlms_frame nlR (veStepSize p) dnHP dnR) as [nlR' estR].
  cbn [fst snd] in *.
  destruct (upsample3_nan (veResUpL st) estL NS_FRAME_16K HnanL) as [_ HupL].
  destruct (upsample3_nan (veResUpR st) estR NS_FRAME_16K HnanR) as [_ HupR].
  destruct (Resampler.upsample3 (veResUpL st) estL NS_FRAME_16K) as [uL upL].
  destruct (Resampler.upsample3 (veResUpR st) estR NS_FRAME_16K) as [uR upR].
  cbn [fst snd] in *.
  assert (EL : subtract_block (veBlend p) (veMaxAttenuation p) (length floatL) floatL upL
               = replicate BLOCK_SIZE zero).
  { rewrite subtract_block_nan; [rewrite HlenL; reflexivity|].
    intros i Hi. apply HupL. rewrite HlenL in Hi. unfold BLOCK_SIZE, NS_FRAME_16K in *. lia. }
  assert (ER : subtract_block (veBlend p) (veMaxAttenuation p) (length floatL) floatR upR
               = replicate BLOCK_SIZE zero).
  { replace (length floatL) with (length floatR) by congruence.
    rewrite subtract_block_nan; [rewrite HlenR; reflexivity|].
    intros i Hi. apply HupR. rewrite HlenR in Hi. unfold BLOCK_SIZE, NS_FRAME_16K in *. lia. }
  rewrite EL, ER.
  split; [reflexivity|]. split; [reflexivity|].
  exists nlL', nlR'.
  split; [reflexivity|]. split; [reflexivity|]. split; assumption.
Qed.

Lemma voice_exclusion_without_aec (p : AudioEngineParams) (hp : bool) (st : VeState)
    (n : nat) (floatL floatR floatHP : list float) :
  veMode p = 1%Z -> _aecHandleL st = None \/ _aecHandleR st = None ->
  voice_exclusion p hp st n floatL floatR floatHP = (st, floatL, floatR).
Proof.
  intros Hmode Hnone. unfold VoiceExclusion.voice_exclusion. rewrite Hmode.
  destruct (veEnabled p && hp && (n =? BLOCK_SIZE)); [|reflexivity].
  cbn [Z.eqb]. cbn iota.
  destruct Hnone as [-> | ->]; [reflexivity|].
  destruct (_aecHandleL st); reflexivity.
Qed.

(** X9: when one of the two [aec_create] calls fails, both handles end up
    null; the same parameters applied again do not retry the creation;
    and every block, of any size, leaves step 7 as it entered it with the
    state untouched, so voice exclusion is silently off until the AEC
    settings change. *)
Theorem failed_aec_creation_disables_voice_exclusion
    (p : AudioEngineParams) (st : VeState)
    (created : option AecHandle * option AecHandle) (hp : bool)
    (blocks : list (list float * list float * list float)) :
  recreates_aec p st ->
  fst created = None \/ snd created = None ->
  let st' := aec_reconfigure AecHandle VadHandle p st created in
  _aecHandleL st' = None /\ _aecHandleR st' = None /\
  (forall created', aec_reconfigure AecHandle VadHandle p st' created' = st') /\
  run_blocks p hp st' blocks = (st', map fst blocks).
Proof.
  intros (Hen & Hmode & Hchange) Hfail st'.
  assert (Htrig :
    negb (Bool.eqb true (prevVeAecActive st))
    || negb (veAecMode p =? prevVeAecMode st)%Z
    || negb (veAecFilterLen p =? prevVeAecFilterLen st)%Z = true).
  { destruct Hchange as [->|[Hne|Hne]].
    - reflexivity.
    - apply Z.eqb_neq in Hne. rewrite Hne. cbn [negb].
      rewrite orb_true_r. reflexivity.
    - apply Z.eqb_neq in Hne. rewrite Hne. cbn [negb]. apply orb_true_r. }
  assert (HL : _aecHandleL st' = None /\ _aecHandleR st' = None /\
               prevVeAecActive st' = true /\ prevVeAecMode st' = veAecMode p /\
               prevVeAecFilterLen st' = veAecFilterLen p).
  { subst st'. unfold aec_reconfigure. rewrite Hen, Hmode. cbn [andb Z.eqb Pos.eqb].
    rewrite Htrig.
    destruct created as [[l|] [r|]]; cbn in Hfail;
      try (destruct Hfail; discriminate); repeat split. }
  destruct HL as (HhL & HhR & Hact & Hm & Hf).
  split; [exact HhL|]. split; [exact HhR|]. split.
  - intros created'. unfold aec_reconfigure at 1.
    rewrite Hen, Hmode, Hact, Hm, Hf, !Z.eqb_refl. reflexivity.
  - clearbody st'. clear Htrig Hact Hm Hf.
    induction blocks as [|[[fl fr] fhp] rest IH]; [reflexivity|].
    cbn [VoiceExclusion.run_blocks map fst].
    rewrite voice_exclusion_without_aec by (try assumption; left; assumption).
    rewrite IH. reflexivity.
Qed.
End Helpers.

Lemma poisoned_filters_silence_the_output_witness :
  let res :=
    voice_exclusion unit unit Examples.echo_aec Examples.deaf_vad Examples.cast_to_zero
      MoreExamples.nlms_params true
      (MoreExamples.nlms_state MoreExamples.poisoned_filter MoreExamples.poisoned_filter)
      (length (replicate 480 Examples.half))
      (replicate 480 Examples.half) (replicate 480 Examples.half)
      (replicate 480 Examples.half) in
  snd (fst res) = replicate BLOCK_SIZE zero /\ snd res = replicate BLOCK_SIZE zero.
Proof.
  assert (Hp : poisoned MoreExamples.poisoned_filter).
  { apply (process_poisons (init 16) nan zero Examples.default_step).
    - apply NlmsTheorems.init_initialized. lia.
    - left. reflexivity. }
  destruct (poisoned_filters_silence_the_output unit unit Examples.echo_aec
              Examples.deaf_vad Examples.cast_to_zero MoreExamples.nlms_params
              (MoreExamples.nlms_state MoreExamples.poisoned_filter
                 MoreExamples.poisoned_filter)
              MoreExamples.poisoned_filter MoreExamples.poisoned_filter
              (replicate 480 Examples.half) (replicate 480 Examples.half)
              (replicate 480 Examples.half)
              eq_refl eq_refl eq_refl eq_refl Hp Hp eq_refl eq_refl)
    as (HL & HR & _).
  split; [exact HL | exact HR].
Defined.

Lemma failed_aec_creation_disables_voice_exclusion_witness :
  let st' := aec_reconfigure unit unit aec_params initial_state (Some tt, None) in
  run_blocks unit unit Examples.echo_aec Examples.deaf_vad Examples.cast_to_zero
    aec_params true st' [MoreExamples.loud_block; MoreExamples.loud_block]
  = (st', map fst [MoreExamples.loud_block; MoreExamples.loud_block]).
Proof.
  apply (failed_aec_creation_disables_voice_exclusion unit unit Examples.echo_aec
           Examples.deaf_vad Examples.cast_to_zero aec_params initial_state
           (Some tt, None) true [MoreExamples.loud_block; MoreExamples.loud_block]).
  - split; [reflexivity|]. split; [reflexivity|]. left. reflexivity.
  - right. reflexivity.
Defined.
End VeTheorems.

(** ** The setters and the worker's snapshot *)

Module SetterFacts.
Import F32 Engine Setters.

Lemma leb_refl (x : float) : is_nan x = false -> leb x x = true.
Proof.
  intros Hx. apply F32Facts.not_gtb_leb; try assumption. apply F32Sign.ltb_irrefl.
Qed.

Lemma leb_not_nan (a b : float) : leb a b = true -> is_nan a = false /\ is_nan b = false.
Proof. unfold leb, SFleb. destruct a, b; cbn; intros H; try discriminate H; auto. Qed.

Lemma leb_not_ltb (a b : float) : leb a b = true -> ltb b a = false.
Proof.
  unfold leb, ltb, SFleb, SFltb. rewrite (F32Facts.compare_antisym a b).
  destruct (SFcompare a b) as [[]|]; cbn; congruence.
Qed.

(** [std::clamp] on numbers lands inside the bounds. *)
Lemma clamp_within (v lo hi : float) :
  is_nan v = false -> leb lo hi = true -> within (clamp v lo hi) lo hi.
Proof.
  intros Hv Hlh. destruct (leb_not_nan lo hi Hlh) as [Hlo Hhi].
  unfold clamp, within.
  destruct (ltb v lo) eqn:H1.
  - split; [apply leb_refl; assumption | assumption].
  - destruct (ltb hi v) eqn:H2.
    + split; [assumption | apply leb_refl; assumption].
    + split; apply F32Facts.not_gtb_leb; assumption.
Qed.

(** Inside the bounds [std::clamp] changes nothing. *)
Lemma clamp_fixed (v lo hi : float) : within v lo hi -> clamp v lo hi = v.
Proof.
  intros [H1 H2]. unfold clamp.
  rewrite (leb_not_ltb lo v H1), (leb_not_ltb v hi H2). reflexivity.
Qed.

Lemma clampZ_within (v lo hi : Z) : (lo <= hi)%Z -> withinZ (clampZ v lo hi) lo hi.
Proof.
  intros Hlh. unfold clampZ, withinZ.
  destruct (Z.ltb_spec v lo); [lia|]. destruct (Z.ltb_spec hi v); lia.
Qed.

Lemma defaults_in_ranges : in_setter_ranges default_params.
Proof.
  unfold in_setter_ranges, within, withinZ. cbn [default_params
    micGain hpfFrequency lpfFrequency eqLowGain eqMidGain eqHighGain nsMode agcMode
    agcCompressionGainDb agcTargetLevelDbfs veBlend veStepSize veFilterLength
    veMaxAttenuation veRefGain veRefHpf veRefLpf veMode veAecFilterLen veVadMode
    outputGain outputVolume].
  repeat split; try lia; vm_compute; reflexivity.
Qed.

Lemma call_keeps_ranges (e : AudioEngine) (c : SetterCall) :
  in_setter_ranges (getParams e) -> passes_number c ->
  in_setter_ranges (getParams (call e c)).
Proof.
  unfold in_setter_ranges.
  intros (H1 & H2 & H3 & H4 & H5 & H6 & H7 & H8 & H9 & H10 & H11 & H12 & H13 & H14
          & H15 & H16 & H17 & H18 & H19 & H20 & H21 & H22) Hnum.
  destruct c; cbn in Hnum |- *;
    repeat (split; [first [assumption
                          | apply clamp_within; [assumption | vm_compute; reflexivity]
                          | apply clampZ_within; lia]|]);
    first [assumption
          | apply clamp_within; [assumption | vm_compute; reflexivity]
          | apply clampZ_within; lia].
Qed.

Lemma call_flags (e : AudioEngine) (c : SetterCall) :
  _running (call e c) = _running e /\ _paramsChanged (call e c) = true.
Proof. destruct c; split; reflexivity. Qed.

Lemma calls_flags (calls : list SetterCall) (e : AudioEngine) :
  _running (fold_left call calls e) = _running e /\
  (calls <> [] -> _paramsChanged (fold_left call calls e) = true).
Proof.
  revert e. induction calls as [|c calls IH]; intros e.
  - split; [reflexivity | congruence].
  - cbn [fold_left]. destruct (IH (call e c)) as [Hr Hc].
    destruct (call_flags e c) as [Hr1 Hc1].
    split; [congruence|]. intros _.
    destruct calls as [|c' calls']; [exact Hc1 | apply Hc; discriminate].
Qed.
End SetterFacts.

Module SetterTheorems.
Import F32 Engine Setters SetterFacts.

(** X6: starting from the default parameters, any sequence of calls of
    the convenience setters whose [float] arguments are numbers leaves
    every clamped member inside the bounds its setter uses (micGain in
    [[0, 240]], hpfFrequency in [[20, 2000]], outputGain in [[0, 4]], and
    so on for the 22 clamped members). *)
Theorem setters_keep_parameters_in_range (calls : list SetterCall) :
  Forall passes_number calls ->
  in_setter_ranges (getParams (fold_left call calls fresh)).
Proof.
  intros Hall.
  assert (Hgen : forall e, in_setter_ranges (getParams e) ->
                   in_setter_ranges (getParams (fold_left call calls e))).
  { induction Hall as [|c calls Hc _ IH]; intros e He; [exact He|].
    cbn [fold_left]. apply IH. apply call_keeps_ranges; assumption. }
  apply Hgen. exact defaults_in_ranges.
Qed.

Lemma setters_keep_parameters_in_range_witness :
  in_setter_ranges
    (getParams (fold_left call
                  [CallSetOutputGain (of_Z 9); CallSetHpf true (of_Z 5);
                   CallSetVeFilterLength 4096; CallSetMute false] fresh)).
Proof.
  apply (setters_keep_parameters_in_range
           [CallSetOutputGain (of_Z 9); CallSetHpf true (of_Z 5);
            CallSetVeFilterLength 4096; CallSetMute false]).
  repeat constructor.
Defined.

(** X7: none of the thirteen [float] setters rejects NaN: [std::clamp]
    compares with [<], every comparison with NaN is false, and the member
    the setter writes holds NaN afterwards. *)
Theorem float_setters_store_nan (e : AudioEngine) (c : SetterCall) :
  float_arg c = Some nan ->
  float_member c (getParams (call e c)) = Some nan.
Proof.
  destruct c; cbn [float_arg]; intros Harg; try discriminate Harg;
    injection Harg as ->; reflexivity.
Qed.

Lemma float_setters_store_nan_witness :
  float_member (CallSetVeRefGain nan) (getParams (call fresh (CallSetVeRefGain nan)))
    = Some nan.
Proof. apply (float_setters_store_nan fresh (CallSetVeRefGain nan)). reflexivity. Defined.

(** X8: while the engine runs, the worker's snapshot after any non-empty
    burst of setter calls hands over the parameters as the last call left
    them, flags them as changed and clears [_paramsChanged]; a second
    snapshot with no call in between hands over nothing new. *)
Theorem snapshot_delivers_last_write
    (e : AudioEngine) (calls : list SetterCall)
    (localParams : AudioEngineParams) (localParamsChanged : bool) :
  _running e = true -> calls <> [] ->
  let written := fold_left call calls e in
  exists e',
    snapshot written localParams localParamsChanged
      = Some (e', getParams written, true) /\
    getParams e' = getParams written /\ _paramsChanged e' = false /\
    forall lp ch, snapshot e' lp ch = Some (e', lp, ch).
Proof.
  intros Hrun Hne written.
  destruct (calls_flags calls e) as [Hr Hc]. specialize (Hc Hne).
  fold written in Hr, Hc.
  unfold snapshot. rewrite Hr, Hrun, Hc. cbn [negb].
  eexists. split; [reflexivity|]. split; [reflexivity|]. split; [reflexivity|].
  intros lp ch. reflexivity.
Qed.

Lemma snapshot_delivers_last_write_witness :
  exists e',
    snapshot (fold_left call [CallSetMute false] MoreExamples.running_engine)
      default_params false
      = Some (e', getParams (fold_left call [CallSetMute false]
                               MoreExamples.running_engine), true) /\
    getParams e' = getParams (fold_left call [CallSetMute false]
                                MoreExamples.running_engine) /\
    _paramsChanged e' = false /\
    forall lp ch, snapshot e' lp ch = Some (e', lp, ch).
Proof.
  apply (snapshot_delivers_last_write MoreExamples.running_engine [CallSetMute false]
           default_params false).
  - reflexivity.
  - discriminate.
Defined.
End SetterTheorems.

(** ** The output ring of the AEC bridge, block by block *)

Module ScheduleFacts.
Import F32 Engine AecRingBuf VoiceExclusion RingFacts BridgeFacts LoopFacts AecSchedule.

Section Helpers.
Variable AecHandle VadHandle : Type.
Variable aec_process : AecHandle -> list Z -> list Z -> AecHandle * list Z.
Variable vad_process : VadHandle -> list Z -> VadHandle * bool.
Variable cast_undefined : float -> Z.

Local Abbreviation VeState := (VeState AecHandle VadHandle).
Local Abbreviation aec_branch :=
  (aec_branch AecHandle VadHandle aec_process vad_process cast_undefined).

Lemma blend_block_tail (blend : float) (n : nat) (x up : list float) :
  n <= length x -> drop n (blend_block blend n x up) = drop n x.
Proof.
  intros Hn. unfold blend_block.
  apply (inplace_loop_tail (fun i v => blend_sample blend v (up !!! i))). exact Hn.
Qed.

(** While the input rings only accumulate and an output frame is
    waiting, the branch takes up to 160 samples from the output ring and
    blends three times as many samples of the block. *)
Lemma aec_branch_drain (blend : float) (st : VeState) (hL hR : AecHandle)
    (n : nat) (floatL floatR floatHP : list float) :
  let rL := push (aecRingL st) (pushed_L st floatL) NS_FRAME_16K in
  let rR := push (aecRingR st) (pushed_R st floatR) NS_FRAME_16K in
  let rHP := push (aecRingHP st) (pushed_HP st floatHP) NS_FRAME_16K in
  ready rL && ready rR && ready rHP = false ->
  aecOutputReady st = true -> (0 < out_level st)%Z ->
  n <= length floatL -> n <= length floatR ->
  let cc := Z.to_nat (minZ (Z.of_nat NS_FRAME_16K) (out_level st)) in
  let res := aec_branch blend st hL hR n floatL floatR floatHP in
  out_level (fst (fst res)) = (out_level st - Z.of_nat cc)%Z /\
  aecOutputReady (fst (fst res)) = true /\
  drop (Nat.min n (cc * 3)) (snd (fst res)) = drop (Nat.min n (cc * 3)) floatL /\
  drop (Nat.min n (cc * 3)) (snd res) = drop (Nat.min n (cc * 3)) floatR.
Proof.
  intros rL rR rHP Hnot Hrdy Hpos HnL HnR cc res. subst res.
  unfold VoiceExclusion.aec_branch. unfold pushed_L, pushed_R, pushed_HP in *.
  destruct (Resampler.downsample3 (aecResDownL st) floatL NS_FRAME_16K) as [dL bL].
  destruct (Resampler.downsample3 (aecResDownR st) floatR NS_FRAME_16K) as [dR bR].
  destruct (Resampler.downsample3 (aecResDownHP st) floatHP NS_FRAME_16K) as [dHP bHP].
  cbn [fst snd] in *. subst rL rR rHP. rewrite Hnot, Hrdy.
  unfold out_level in *. cbn [andb].
  destruct (Z.ltb_spec 0 (writePos (aecOutRingL st))) as [_|Hle]; [|lia].
  destruct (Resampler.upsample3 (aecResUpL st) _ _) as [uL upL].
  destruct (Resampler.upsample3 (aecResUpR st) _ _) as [uR upR].
  cbn [fst snd with_aec aecOutRingL aecOutputReady writePos].
  fold cc.
  split; [reflexivity|]. split; [reflexivity|].
  split; apply blend_block_tail; lia.
Qed.

(** With nothing waiting in the output ring the block is not touched. *)
Lemma aec_branch_dry (blend : float) (st : VeState) (hL hR : AecHandle)
    (n : nat) (floatL floatR floatHP : list float) :
  let rL := push (aecRingL st) (pushed_L st floatL) NS_FRAME_16K in
  let rR := push (aecRingR st) (pushed_R st floatR) NS_FRAME_16K in
  let rHP := push (aecRingHP st) (pushed_HP st floatHP) NS_FRAME_16K in
  ready rL && ready rR && ready rHP = false ->
  out_level st = 0%Z ->
  let res := aec_branch blend st hL hR n floatL floatR floatHP in
  out_level (fst (fst res)) = 0%Z /\ snd (fst res) = floatL /\ snd res = floatR.
Proof.
  intros rL rR rHP Hnot Hzero res. subst res.
  unfold VoiceExclusion.aec_branch. unfold pushed_L, pushed_R, pushed_HP in *.
  destruct (Resampler.downsample3 (aecResDownL st) floatL NS_FRAME_16K) as [dL bL].
  destruct (Resampler.downsample3 (aecResDownR st) floatR NS_FRAME_16K) as [dR bR].
  destruct (Resampler.downsample3 (aecResDownHP st) floatHP NS_FRAME_16K) as [dHP bHP].
  cbn [fst snd] in *. subst rL rR rHP. rewrite Hnot.
  unfold out_level in *. rewrite Hzero. cbn [Z.ltb Z.compare]. rewrite andb_false_r.
  cbn. repeat split; assumption.
Qed.

(** The block that completes an input frame stores 512 output samples
    and takes the first 160 of them at once. *)
Lemma aec_branch_frame_out (blend : float) (st : VeState) (hL hR : AecHandle)
    (n : nat) (floatL floatR floatHP : list float) :
  let rL := push (aecRingL st) (pushed_L st floatL) NS_FRAME_16K in
  let rR := push (aecRingR st) (pushed_R st floatR) NS_FRAME_16K in
  let rHP := push (aecRingHP st) (pushed_HP st floatHP) NS_FRAME_16K in
  ready rL && ready rR && ready rHP = true ->
  let st' := fst (fst (aec_branch blend st hL hR n floatL floatR floatHP)) in
  out_level st' = 352%Z /\ aecOutputReady st' = true.
Proof.
  intros rL rR rHP Hrdy st'. subst st'.
  unfold VoiceExclusion.aec_branch. unfold pushed_L, pushed_R, pushed_HP in *.
  destruct (Resampler.downsample3 (aecResDownL st) floatL NS_FRAME_16K) as [dL bL].
  destruct (Resampler.downsample3 (aecResDownR st) floatR NS_FRAME_16K) as [dR bR].
  destruct (Resampler.downsample3 (aecResDownHP st) floatHP NS_FRAME_16K) as [dHP bHP].
  cbn [fst snd] in *. subst rL rR rHP. rewrite Hrdy.
  unfold run_frame, out_level.
  destruct (_vadHandleRef st) as [v|].
  - destruct (vad_process v _) as [v' speech].
    destruct (aec_process hL _ _) as [hL' oL].
    destruct (aec_process hR _ _) as [hR' oR].
    cbn [andb store_frame writePos].
    change (0 <? Z.of_nat AEC_FRAME_16K)%Z with true. cbn iota.
    destruct (Resampler.upsample3 _ _ _) as [uL upL].
    destruct (Resampler.upsample3 _ _ _) as [uR upR].
    cbn. split; reflexivity.
  - destruct (aec_process hL _ _) as [hL' oL].
    destruct (aec_process hR _ _) as [hR' oR].
    cbn [andb store_frame writePos].
    change (0 <? Z.of_nat AEC_FRAME_16K)%Z with true. cbn iota.
    destruct (Resampler.upsample3 _ _ _) as [uL upL].
    destruct (Resampler.upsample3 _ _ _) as [uR upR].
    cbn. split; reflexivity.
Qed.
End Helpers.
End ScheduleFacts.

Module ScheduleTheorems.
Import F32 Engine AecRingBuf VoiceExclusion RingFacts BridgeFacts BridgeTheorems.
Import LoopFacts AecSchedule ScheduleFacts.

Section Cycle.
Variable AecHandle VadHandle : Type.
Variable aec_process : AecHandle -> list Z -> list Z -> AecHandle * list Z.
Variable vad_process : VadHandle -> list Z -> VadHandle * bool.
Variable cast_undefined : float -> Z.

Local Abbreviation VeState := (VeState AecHandle VadHandle).
Local Abbreviation after_block :=
  (after_block AecHandle VadHandle aec_process vad_process cast_undefined).
Local Abbreviation block_out :=
  (block_out AecHandle VadHandle aec_process vad_process cast_undefined).
Local Abbreviation aec_branch :=
  (aec_branch AecHandle VadHandle aec_process vad_process cast_undefined).

Lemma accumulating_not_ready (st : VeState) (fl fr fhp : list float) (w : Z) :
  input_rings_at w st -> (w + Z.of_nat NS_FRAME_16K < CAPACITY)%Z ->
  ready (push (aecRingL st) (pushed_L st fl) NS_FRAME_16K)
  && ready (push (aecRingR st) (pushed_R st fr) NS_FRAME_16K)
  && ready (push (aecRingHP st) (pushed_HP st fhp) NS_FRAME_16K) = false.
Proof.
  intros (WL & _ & _ & EL & _ & _) Hroom.
  destruct (push_fits (aecRingL st) (pushed_L st fl) NS_FRAME_16K WL
              (downsample3_length _ _ _)) as [PL _]; [lia|].
  replace (ready (push (aecRingL st) (pushed_L st fl) NS_FRAME_16K)) with false;
    [reflexivity|].
  symmetry. apply not_ready_iff. rewrite PL. lia.
Qed.

Lemma filling_ready (st : VeState) (fl fr fhp : list float) (w : Z) :
  input_rings_at w st -> (CAPACITY <= w + Z.of_nat NS_FRAME_16K)%Z ->
  ready (push (aecRingL st) (pushed_L st fl) NS_FRAME_16K)
  && ready (push (aecRingR st) (pushed_R st fr) NS_FRAME_16K)
  && ready (push (aecRingHP st) (pushed_HP st fhp) NS_FRAME_16K) = true.
Proof.
  intros (WL & WR & WHP & EL & ER & EHP) Hroom.
  destruct (push_overflows (aecRingL st) (pushed_L st fl) NS_FRAME_16K WL
              (downsample3_length _ _ _)) as [PL _]; [lia|].
  destruct (push_overflows (aecRingR st) (pushed_R st fr) NS_FRAME_16K WR
              (downsample3_length _ _ _)) as [PR _]; [lia|].
  destruct (push_overflows (aecRingHP st) (pushed_HP st fhp) NS_FRAME_16K WHP
              (downsample3_length _ _ _)) as [PHP _]; [lia|].
  unfold ready. rewrite PL, PR, PHP. reflexivity.
Qed.

(** One block while the input rings accumulate and output is waiting. *)
Lemma drain_block (p : AudioEngineParams) (st : VeState) (hL hR : AecHandle)
    (b : list float * list float * list float) (w wo : Z) :
  veEnabled p = true -> veMode p = 1%Z ->
  _aecHandleL st = Some hL -> _aecHandleR st = Some hR ->
  length (fst (fst b)) = BLOCK_SIZE -> length (snd (fst b)) = BLOCK_SIZE ->
  input_rings_at w st -> (w + Z.of_nat NS_FRAME_16K < CAPACITY)%Z ->
  aecOutputReady st = true -> out_level st = wo -> (0 < wo)%Z ->
  let st' := after_block p st b in
  let cc := Z.to_nat (minZ (Z.of_nat NS_FRAME_16K) wo) in
  let k := Nat.min BLOCK_SIZE (cc * 3) in
  input_rings_at (w + Z.of_nat NS_FRAME_16K) st' /\
  _aecHandleL st' = Some hL /\ _aecHandleR st' = Some hR /\
  aecOutputReady st' = true /\ out_level st' = (wo - Z.of_nat cc)%Z /\
  drop k (fst (block_out p st b)) = drop k (fst (fst b)) /\
  drop k (snd (block_out p st b)) = drop k (snd (fst b)).
Proof.
  intros Hen Hmode HhL HhR HlenL HlenR Hrings Hroom Hrdy Hout Hpos st' cc k.
  destruct (cycle_accumulate AecHandle VadHandle aec_process vad_process cast_undefined
              p st hL hR b w Hen Hmode HhL HhR HlenL Hrings Hroom)
    as (_ & _ & _ & HL' & HR' & Hrings').
  fold st' in HL', HR', Hrings'.
  split; [exact Hrings'|]. split; [exact HL'|]. split; [exact HR'|].
  subst st'. unfold AecSchedule.block_out, VoiceExclusion.after_block.
  destruct b as [[fl fr] fhp]. cbn [fst snd] in *.
  rewrite (voice_exclusion_aec _ _ aec_process vad_process cast_undefined
             p st hL hR fl fr fhp Hen Hmode HhL HhR HlenL).
  pose proof (accumulating_not_ready st fl fr fhp w Hrings Hroom) as Hnot.
  destruct (aec_branch_drain AecHandle VadHandle aec_process vad_process cast_undefined
              (veBlend p) st hL hR (length fl) fl fr fhp Hnot Hrdy
              ltac:(lia) ltac:(lia) ltac:(lia)) as (Ho & Hr & HdL & HdR).
  rewrite Hout in Ho, HdL, HdR. fold cc in Ho, HdL, HdR.
  rewrite HlenL in Ho, Hr, HdL, HdR |- *. fold k in HdL, HdR.
  repeat split; assumption.
Qed.

(** The block that completes the input frame. *)
Lemma frame_block (p : AudioEngineParams) (st : VeState) (hL hR : AecHandle)
    (b : list float * list float * list float) (w : Z) :
  veEnabled p = true -> veMode p = 1%Z ->
  _aecHandleL st = Some hL -> _aecHandleR st = Some hR ->
  length (fst (fst b)) = BLOCK_SIZE ->
  input_rings_at w st -> (CAPACITY <= w + Z.of_nat NS_FRAME_16K)%Z ->
  steady (after_block p st b).
Proof.
  intros Hen Hmode HhL HhR HlenL Hrings Hroom.
  destruct (cycle_frame AecHandle VadHandle aec_process vad_process cast_undefined
              p st hL hR b w Hen Hmode HhL HhR HlenL Hrings Hroom)
    as (HL' & HR' & Hrings').
  cbn zeta in HL', HR'.
  unfold steady. split; [exact Hrings'|].
  rewrite HL', HR'.
  unfold VoiceExclusion.after_block.
  destruct b as [[fl fr] fhp]. cbn [fst snd] in *.
  rewrite (voice_exclusion_aec _ _ aec_process vad_process cast_undefined
             p st hL hR fl fr fhp Hen Hmode HhL HhR HlenL).
  pose proof (filling_ready st fl fr fhp w Hrings Hroom) as Hready.
  destruct (aec_branch_frame_out AecHandle VadHandle aec_process vad_process
              cast_undefined (veBlend p) st hL hR (length fl) fl fr fhp Hready)
    as [Ho Hr].
  cbn zeta in Ho, Hr.
  split; [exact Hr|]. split; [exact Ho|]. split; eexists; reflexivity.
Qed.

(** Four blocks from empty input rings end in the steady state, whatever
    the output side was before. *)
Lemma cycle_reaches_steady (p : AudioEngineParams) (st : VeState) (hL hR : AecHandle)
    (b1 b2 b3 b4 : list float * list float * list float) :
  veEnabled p = true -> veMode p = 1%Z ->
  _aecHandleL st = Some hL -> _aecHandleR st = Some hR ->
  input_rings_at 0 st ->
  length (fst (fst b1)) = BLOCK_SIZE -> length (fst (fst b2)) = BLOCK_SIZE ->
  length (fst (fst b3)) = BLOCK_SIZE -> length (fst (fst b4)) = BLOCK_SIZE ->
  steady (after_block p (after_block p (after_block p (after_block p st b1) b2) b3) b4).
Proof.
  intros Hen Hmode HhL HhR Hr0 L1 L2 L3 L4.
  destruct (cycle_accumulate AecHandle VadHandle aec_process vad_process cast_undefined
              p st hL hR b1 0 Hen Hmode HhL HhR L1 Hr0)
    as (_ & _ & _ & HL1 & HR1 & Hr1); [unfold NS_FRAME_16K, CAPACITY; lia|].
  destruct (cycle_accumulate AecHandle VadHandle aec_process vad_process cast_undefined
              p _ hL hR b2 _ Hen Hmode HL1 HR1 L2 Hr1)
    as (_ & _ & _ & HL2 & HR2 & Hr2); [unfold NS_FRAME_16K, CAPACITY; lia|].
  destruct (cycle_accumulate AecHandle VadHandle aec_process vad_process cast_undefined
              p _ hL hR b3 _ Hen Hmode HL2 HR2 L3 Hr2)
    as (_ & _ & _ & HL3 & HR3 & Hr3); [unfold NS_FRAME_16K, CAPACITY; lia|].
  apply (frame_block p _ hL hR b4 _ Hen Hmode HL3 HR3 L4 Hr3).
  unfold NS_FRAME_16K, CAPACITY. lia.
Qed.

(** X10: in AEC mode the output ring runs dry once per cycle.  From the
    state a frame-completing block leaves (352 output samples waiting),
    the next two blocks take 160 samples each, the third finds only 32:
    just its first 96 samples are blended with AEC output and the other
    384 leave step 7 exactly as they came; the fourth block completes the
    next frame and the cycle starts over. *)
Theorem aec_output_runs_dry_every_fourth_block
    (p : AudioEngineParams) (st : VeState)
    (b1 b2 b3 b4 : list float * list float * list float) :
  veEnabled p = true -> veMode p = 1%Z -> steady st ->
  Forall (fun b => length (fst (fst b)) = BLOCK_SIZE /\
                   length (snd (fst b)) = BLOCK_SIZE) [b1; b2; b3; b4] ->
  let st1 := after_block p st b1 in
  let st2 := after_block p st1 b2 in
  let st3 := after_block p st2 b3 in
  let st4 := after_block p st3 b4 in
  (out_level st1 = 192 /\ out_level st2 = 32 /\ out_level st3 = 0)%Z /\
  drop 96 (fst (block_out p st2 b3)) = drop 96 (fst (fst b3)) /\
  drop 96 (snd (block_out p st2 b3)) = drop 96 (snd (fst b3)) /\
  steady st4.
Proof.
  intros Hen Hmode (Hr0 & Hrdy & Hout & [hL HhL] & [hR HhR]) Hlens
    st1 st2 st3 st4.
  apply Forall_cons in Hlens as [[L1 R1] Hlens].
  apply Forall_cons in Hlens as [[L2 R2] Hlens].
  apply Forall_cons in Hlens as [[L3 R3] Hlens].
  apply Forall_cons in Hlens as [[L4 R4] _].
  destruct (drain_block p st hL hR b1 0 352 Hen Hmode HhL HhR L1 R1 Hr0
              ltac:(unfold NS_FRAME_16K, CAPACITY; lia) Hrdy Hout ltac:(lia))
    as (Hr1 & HL1 & HR1 & Hrdy1 & Ho1 & _).
  fold st1 in Hr1, HL1, HR1, Hrdy1, Ho1.
  change (Z.to_nat (minZ (Z.of_nat NS_FRAME_16K) 352)) with 160 in Ho1.
  destruct (drain_block p st1 hL hR b2 _ 192 Hen Hmode HL1 HR1 L2 R2 Hr1
              ltac:(unfold NS_FRAME_16K, CAPACITY; lia) Hrdy1 ltac:(lia) ltac:(lia))
    as (Hr2 & HL2 & HR2 & Hrdy2 & Ho2 & _).
  fold st2 in Hr2, HL2, HR2, Hrdy2, Ho2.
  change (Z.to_nat (minZ (Z.of_nat NS_FRAME_16K) 192)) with 160 in Ho2.
  destruct (drain_block p st2 hL hR b3 _ 32 Hen Hmode HL2 HR2 L3 R3 Hr2
              ltac:(unfold NS_FRAME_16K, CAPACITY; lia) Hrdy2 ltac:(lia) ltac:(lia))
    as (Hr3 & HL3 & HR3 & Hrdy3 & Ho3 & HdL & HdR).
  fold st3 in Hr3, HL3, HR3, Hrdy3, Ho3.
  change (Z.to_nat (minZ (Z.of_nat NS_FRAME_16K) 32)) with 32 in Ho3, HdL, HdR.
  change (Nat.min BLOCK_SIZE (32 * 3)) with 96 in HdL, HdR.
  split; [repeat split; lia|].
  split; [exact HdL|]. split; [exact HdR|].
  apply (frame_block p st3 hL hR b4 _ Hen Hmode HL3 HR3 L4 Hr3).
  unfold NS_FRAME_16K, CAPACITY. lia.
Qed.
End Cycle.

Lemma aec_output_runs_dry_every_fourth_block_witness :
  let step := VoiceExclusion.after_block unit unit Examples.echo_aec Examples.deaf_vad
                Examples.cast_to_zero aec_params in
  let warm := step (step (step (step Examples.created_state Examples.silent_block)
                Examples.silent_block) Examples.silent_block) Examples.silent_block in
  let st2 := step (step warm MoreExamples.loud_block) MoreExamples.loud_block in
  drop 96 (fst (AecSchedule.block_out unit unit Examples.echo_aec Examples.deaf_vad
                  Examples.cast_to_zero aec_params st2 MoreExamples.loud_block))
    = drop 96 (fst (fst MoreExamples.loud_block)).
Proof.
  intros step warm st2.
  assert (Hwarm : steady warm).
  { apply (cycle_reaches_steady unit unit Examples.echo_aec Examples.deaf_vad
             Examples.cast_to_zero aec_params Examples.created_state tt tt);
      try reflexivity.
    repeat split; cbn; try reflexivity; unfold CAPACITY; lia. }
  destruct (aec_output_runs_dry_every_fourth_block unit unit Examples.echo_aec
              Examples.deaf_vad Examples.cast_to_zero aec_params warm
              MoreExamples.loud_block MoreExamples.loud_block MoreExamples.loud_block
              MoreExamples.loud_block eq_refl eq_refl Hwarm)
    as (_ & H & _).
  - repeat constructor.
  - exact H.
Defined.
End ScheduleTheorems.

(** ** The resampler across block boundaries *)

Module ResamplerFacts.
Import F32 Resampler LoopFacts.

(** The saved tail of a block: its last [n] samples. *)
Lemma save_tail_spec (hist inp : list float) (inFrames n : Z) :
  length hist = Z.to_nat n -> (0 <= n <= inFrames)%Z ->
  Z.to_nat inFrames <= length inp ->
  save_tail hist inp inFrames n = take (Z.to_nat n) (drop (Z.to_nat (inFrames - n)) inp).
Proof.
  intros Hh Hn Hinp. unfold save_tail.
  destruct (Z.leb_spec n inFrames) as [_|Hlt]; [|lia].
  destruct (inplace_loop (fun i _ => inp !!! Z.to_nat (inFrames - n + Z.of_nat i))
              (Z.to_nat n) hist ltac:(lia)) as [Hlen Hlook].
  cbn zeta in Hlen, Hlook.
  apply (list_eq_same_length _ _ (Z.to_nat n)).
  - rewrite length_take, length_drop. lia.
  - rewrite Hlen. exact Hh.
  - intros i a b Hi Ha Hb.
    apply list_lookup_total_correct in Ha. rewrite Hlook in Ha.
    destruct (decide (i < Z.to_nat n)); [|lia].
    rewrite lookup_take_lt, lookup_drop in Hb by lia.
    apply list_lookup_total_correct in Hb.
    rewrite <- Ha, <- Hb. f_equal. lia.
Qed.

Lemma save_tail_short (hist inp : list float) (inFrames n : Z) :
  (inFrames < n)%Z -> save_tail hist inp inFrames n = hist.
Proof. intros H. unfold save_tail. destruct (Z.leb_spec n inFrames); [lia | reflexivity]. Qed.

Lemma fold_left_agree {A B} (f g : A -> B -> A) (l : list B) (a : A) :
  (forall x b, In b l -> f x b = g x b) -> fold_left f l a = fold_left g l a.
Proof.
  revert a. induction l as [|b l IH]; intros a H; [reflexivity|].
  cbn [fold_left]. rewrite (H a b) by (left; reflexivity).
  apply IH. intros x b' Hb'. apply H. right. exact Hb'.
Qed.

Lemma flat_map_map {A B C} (f : B -> list C) (g : A -> B) (l : list A) :
  flat_map f (map g l) = flat_map (fun x => f (g x)) l.
Proof. induction l as [|a l IH]; [reflexivity|]. cbn. rewrite IH. reflexivity. Qed.

Lemma lookup_total_app_l (l1 l2 : list float) (i : nat) :
  i < length l1 -> (l1 ++ l2) !!! i = l1 !!! i.
Proof.
  intros Hi. rewrite !list_lookup_total_alt, lookup_app_l by exact Hi. reflexivity.
Qed.

Lemma lookup_total_app_r (l1 l2 : list float) (i : nat) :
  (l1 ++ l2) !!! (length l1 + i) = l2 !!! i.
Proof.
  rewrite !list_lookup_total_alt, lookup_app_r by lia.
  replace (length l1 + i - length l1) with i by lia. reflexivity.
Qed.

Lemma lookup_total_tail (l : list float) (k m i : nat) :
  i < m -> k + m <= length l -> take m (drop k l) !!! i = l !!! (k + i).
Proof.
  intros Hi Hk. rewrite !list_lookup_total_alt.
  rewrite lookup_take_lt, lookup_drop by lia. reflexivity.
Qed.

(** A tap of the second of two consecutive blocks reads what the same tap
    reads when the two blocks are processed as one: the saved tail stands
    for the end of the first block. *)
Lemma tap_sample_continues (hist0 b1 b2 : list float) (h F s : Z) :
  (0 < h <= F)%Z -> length b1 = Z.to_nat F -> (- h <= s)%Z ->
  Z.to_nat F <= length b2 ->
  tap_sample (take (Z.to_nat h) (drop (Z.to_nat (F - h)) b1)) b2 h F s
  = tap_sample hist0 (b1 ++ b2) h (2 * F) (F + s).
Proof.
  intros Hh Hb1 Hs Hb2. unfold tap_sample.
  destruct (Z.ltb_spec (F + s) 0) as [Hneg|_]; [lia|].
  destruct (Z.ltb_spec s 0) as [Hs0|Hs0].
  - destruct (Z.leb_spec 0 (h + s)) as [_|Hneg]; [|lia].
    destruct (Z.ltb_spec (F + s) (2 * F)) as [_|Hbig]; [|lia].
    rewrite lookup_total_tail by lia.
    rewrite lookup_total_app_l by lia. f_equal. lia.
  - destruct (Z.ltb_spec s F) as [Hin|Hout].
    + destruct (Z.ltb_spec (F + s) (2 * F)) as [_|Hbig]; [|lia].
      replace (Z.to_nat (F + s)) with (length b1 + Z.to_nat s) by lia.
      rewrite lookup_total_app_r. reflexivity.
    + destruct (Z.ltb_spec (F + s) (2 * F)) as [Hbig|_]; [lia | reflexivity].
Qed.
End ResamplerFacts.

Module ResamplerTheorems.
Import F32 Resampler LoopFacts ResamplerFacts.

(** X11: [downsample3] and [upsample3] carry the past across a block
    boundary.  Processing two consecutive blocks in two calls gives, for
    the second block, exactly the samples that one call on the
    concatenation gives for its second half, and leaves the same
    resampler state; the saved tail (10 input samples, or 3) stands for
    the end of the first block.  The blocks must be at least that long
    (4 output frames, or 3 input frames). *)
Theorem resampler_continues_across_blocks
    (rs : Resampler) (b1 b2 : list float) (n : nat) :
  length (_history rs) = 10 -> length (_upHistory rs) = 3 ->
  (4 <= n ->
   length b1 = 3 * n -> length b2 = 3 * n ->
   let first := downsample3 rs b1 n in
   downsample3 (fst first) b2 n =
     (fst (downsample3 rs (b1 ++ b2) (2 * n)),
      drop n (snd (downsample3 rs (b1 ++ b2) (2 * n))))) /\
  (3 <= n ->
   length b1 = n -> length b2 = n ->
   let first := upsample3 rs b1 n in
   upsample3 (fst first) b2 n =
     (fst (upsample3 rs (b1 ++ b2) (2 * n)),
      drop (3 * n) (snd (upsample3 rs (b1 ++ b2) (2 * n))))).
Proof.
  intros Hhist Huph. split.
  - intros Hn Hb1 Hb2. cbn zeta.
    unfold downsample3. cbn [fst snd _history _coeffs _downsample _upHistory].
    f_equal.
    + f_equal.
      rewrite (save_tail_spec (_history rs) b1 _ HALF_TAPS)
        by (unfold HALF_TAPS; lia).
      rewrite (save_tail_spec _ b2 _ HALF_TAPS)
        by (unfold HALF_TAPS; rewrite ?length_take, ?length_drop; lia).
      rewrite (save_tail_spec (_history rs) (b1 ++ b2) _ HALF_TAPS)
        by (unfold HALF_TAPS; rewrite ?length_app; lia).
      unfold HALF_TAPS.
      replace (Z.to_nat (Z.of_nat (2 * n) * 3 - 10))
        with (length b1 + Z.to_nat (Z.of_nat n * 3 - 10)) by lia.
      rewrite <- drop_drop, drop_app_length. reflexivity.
    + replace (2 * n) with (n + n) by lia.
      rewrite seq_app, map_app, drop_app_length'
        by (rewrite length_map, length_seq; reflexivity).
      cbn [Nat.add].
      replace (seq n n) with (Nat.add n <$> seq 0 n)
        by (rewrite fmap_add_seq; f_equal; lia).
      change (map ?f (?g <$> ?l)) with (map f (map g l)). rewrite map_map.
      apply map_ext_in. intros i Hi. apply in_seq in Hi.
      apply fold_left_agree. intros sum t Ht. apply in_seq in Ht.
      unfold down_tap. cbn [_history _coeffs]. f_equal. f_equal.
      rewrite (save_tail_spec (_history rs) b1 _ HALF_TAPS)
        by (unfold HALF_TAPS; lia).
      unfold HALF_TAPS in *.
      rewrite (tap_sample_continues (_history rs) b1 b2 10 (Z.of_nat n * 3)) by lia.
      f_equal; lia.
  - intros Hn Hb1 Hb2. cbn zeta.
    unfold upsample3. cbn [fst snd _history _coeffs _downsample _upHistory].
    f_equal.
    + f_equal.
      rewrite (save_tail_spec (_upHistory rs) b1 _ 3) by lia.
      rewrite (save_tail_spec _ b2 _ 3)
        by (rewrite ?length_take, ?length_drop; lia).
      rewrite (save_tail_spec (_upHistory rs) (b1 ++ b2) _ 3)
        by (rewrite ?length_app; lia).
      replace (Z.to_nat (Z.of_nat (2 * n) - 3))
        with (length b1 + Z.to_nat (Z.of_nat n - 3)) by lia.
      rewrite <- drop_drop, drop_app_length. reflexivity.
    + replace (2 * n) with (n + n) by lia.
      rewrite seq_app, flat_map_app. cbn [Nat.add].
      rewrite drop_app_length'
        by (rewrite flat_map_length_3, length_seq;
            [reflexivity | intros a; rewrite length_map; reflexivity]).
      replace (seq n n) with (Nat.add n <$> seq 0 n)
        by (rewrite fmap_add_seq; f_equal; lia).
      change (flat_map ?f (?g <$> ?l)) with (flat_map f (map g l)).
      rewrite flat_map_map.
      apply flat_map_ext. intros i.
      apply map_ext. intros phase. f_equal.
      apply fold_left_agree. intros sum t Ht. apply in_seq in Ht.
      unfold up_tap. cbn [_upHistory _coeffs].
      rewrite (save_tail_spec (_upHistory rs) b1 _ 3) by lia.
      rewrite (tap_sample_continues (_upHistory rs) b1 b2 3 (Z.of_nat n)) by lia.
      replace (2 * Z.of_nat n)%Z with (Z.of_nat (n + n)) by lia.
      replace (Z.of_nat n + (Z.of_nat i - 3 + Z.of_nat t))%Z
        with (Z.of_nat (n + i) - 3 + Z.of_nat t)%Z by lia.
      reflexivity.
Qed.

Lemma resampler_continues_across_blocks_witness :
  let b1 := map of_Z [1; 2; 3; 4; 5; 6; 7; 8; 9; 10; 11; 12]%Z in
  let b2 := map of_Z [13; 14; 15; 16; 17; 18; 19; 20; 21; 22; 23; 24]%Z in
  downsample3 (fst (downsample3 (init true) b1 4)) b2 4 =
    (fst (downsample3 (init true) (b1 ++ b2) 8),
     drop 4 (snd (downsample3 (init true) (b1 ++ b2) 8))).
Proof.
  intros b1 b2.
  destruct (resampler_continues_across_blocks (init true) b1 b2 4 eq_refl eq_refl)
    as [H _].
  apply H; [lia | reflexivity | reflexivity].
Defined.
End ResamplerTheorems.

Module SilenceFacts.
Import F32 Resampler LoopFacts ResamplerFacts.

Lemma lookup_total_zeros (n i : nat) : replicate n zero !!! i = zero.
Proof.
  rewrite list_lookup_total_alt.
  destruct (replicate n zero !! i) as [v|] eqn:Hv; [|reflexivity].
  apply lookup_replicate in Hv as [-> _]. reflexivity.
Qed.

Lemma tap_sample_zeros (k m : nat) (h F s : Z) :
  tap_sample (replicate k zero) (replicate m zero) h F s = zero.
Proof.
  unfold tap_sample.
  destruct (s <? 0)%Z; [destruct (0 <=? h + s)%Z|destruct (s <? F)%Z];
    try reflexivity; apply lookup_total_zeros.
Qed.

Lemma coeffs_finite (t : nat) : is_finite (lpf_coeffs !!! t) = true.
Proof.
  assert (H : forallb is_finite lpf_coeffs = true) by (vm_compute; reflexivity).
  rewrite forallb_forall in H.
  rewrite list_lookup_total_alt.
  destruct (lpf_coeffs !! t) as [c|] eqn:Hc; [|reflexivity].
  apply H. apply list_elem_of_In. eapply list_elem_of_lookup_2. exact Hc.
Qed.

(** Accumulating a product with a zero sample leaves a sum of [+0.0]. *)
Lemma add_zero_product (c : float) :
  is_finite c = true -> add zero (mul zero c) = zero.
Proof.
  intros Hc. destruct c as [s| | |s m e]; try discriminate Hc; destruct s; reflexivity.
Qed.

Lemma down_sum_zero (b : bool) (m : nat) (F inIdx : Z) (l : list nat) :
  fold_left (down_tap (init b) (replicate m zero) F inIdx) l zero = zero.
Proof.
  induction l as [|t l IH]; [reflexivity|].
  cbn [fold_left]. unfold down_tap at 2. cbn [init _history _coeffs].
  rewrite tap_sample_zeros, add_zero_product by apply coeffs_finite. exact IH.
Qed.

Lemma up_sum_zero (b : bool) (m : nat) (F i : Z) (phase : nat) (l : list nat) :
  fold_left (up_tap (init b) (replicate m zero) F i phase) l zero = zero.
Proof.
  induction l as [|t l IH]; [reflexivity|].
  cbn [fold_left]. unfold up_tap at 2. cbn [init _upHistory _coeffs].
  destruct (_ <? _); [|exact IH].
  rewrite tap_sample_zeros, add_zero_product by apply coeffs_finite. exact IH.
Qed.

Lemma save_tail_zeros (k m : nat) (F n : Z) :
  k = Z.to_nat n -> (0 <= n)%Z -> Z.to_nat F <= m ->
  save_tail (replicate k zero) (replicate m zero) F n = replicate k zero.
Proof.
  intros Hk Hn HF. destruct (Z_le_gt_dec n F) as [Hle|Hgt].
  - rewrite save_tail_spec by (rewrite ?length_replicate; lia).
    rewrite drop_replicate, take_replicate. f_equal. lia.
  - apply save_tail_short. lia.
Qed.

Lemma map_const_replicate {A B} (v : B) (l : list A) :
  map (fun _ => v) l = replicate (length l) v.
Proof. induction l as [|a l IH]; [reflexivity|]. cbn. rewrite IH. reflexivity. Qed.

Lemma flat_map_const_3 {A} (v : float) (l : list A) :
  flat_map (fun _ => [v; v; v]) l = replicate (3 * length l) v.
Proof.
  induction l as [|a l IH]; [reflexivity|].
  cbn [flat_map length]. rewrite IH.
  replace (3 * S (length l)) with (S (S (S (3 * length l)))) by lia. reflexivity.
Qed.
End SilenceFacts.

Module SilenceTheorems.
Import F32 Resampler LoopFacts ResamplerFacts SilenceFacts.

(** X12: digital silence passes both resamplers as digital silence.  A
    freshly initialized resampler turns a block of [+0.0] samples into a
    block of [+0.0] samples (no rounding residue, no [-0.0]) and is left
    in its initial state, so this holds for any run of silent blocks. *)
Theorem resampler_keeps_silence (b : bool) (n : nat) :
  downsample3 (init b) (replicate (3 * n) zero) n = (init b, replicate n zero) /\
  upsample3 (init b) (replicate n zero) n = (init b, replicate (3 * n) zero).
Proof.
  split.
  - unfold downsample3. f_equal.
    + unfold init at 2 3 4 5. cbn [_downsample _coeffs _history _upHistory].
      unfold init. f_equal.
      apply save_tail_zeros; unfold HALF_TAPS; lia.
    + rewrite (map_ext _ (fun _ => zero)) by (intros i; apply down_sum_zero).
      rewrite map_const_replicate, length_seq. reflexivity.
  - unfold upsample3. f_equal.
    + unfold init at 2 3 4 5. cbn [_downsample _coeffs _history _upHistory].
      unfold init. f_equal.
      apply save_tail_zeros; lia.
    + rewrite (flat_map_ext _ (fun _ => [zero; zero; zero])).
      * rewrite flat_map_const_3, length_seq. reflexivity.
      * intros i. cbn [seq map]. rewrite !up_sum_zero. reflexivity.
Qed.
End SilenceTheorems.

(** ** The ring buffer in closed form; NaN in the meters *)

Module RingTheorems.
Import F32 AecRingBuf RingFacts.

(** X13: [push] never writes outside the 512 slots and never moves
    [writePos] past 512.  It stores the first
    [min(count, 512 - writePos)] samples of [data] behind the samples
    already there, leaves every other slot alone and drops the rest; on a
    full ring it changes nothing at all. *)
Theorem push_stores_what_fits (rb : AecRingBuf) (data : list float) (count : nat) :
  well_formed rb -> count <= length data ->
  let wp := Z.to_nat (writePos rb) in
  let stored := Nat.min count (Z.to_nat CAPACITY - wp) in
  well_formed (push rb data count) /\
  writePos (push rb data count) = (writePos rb + Z.of_nat stored)%Z /\
  buf (push rb data count) =
    take wp (buf rb) ++ take stored data ++ drop (wp + stored) (buf rb) /\
  (ready rb = true -> push rb data count = rb).
Proof.
  intros Hwf Hcount wp stored.
  pose proof (push_loop_stores_prefix (take count data) rb Hwf) as [Hw Hb].
  cbn zeta in Hw, Hb. rewrite length_take in Hw, Hb.
  replace (Nat.min (Nat.min count (length data))
             (Z.to_nat CAPACITY - Z.to_nat (writePos rb))) with stored in Hw, Hb
    by (subst stored wp; lia).
  rewrite take_take in Hb.
  replace (Nat.min stored count) with stored in Hb by (subst stored; lia).
  split; [apply push_well_formed; exact Hwf|].
  split; [exact Hw|]. split; [exact Hb|].
  intros Hfull. unfold ready in Hfull. apply Z.leb_le in Hfull.
  unfold push. destruct (take count data) as [|x rest]; [reflexivity|].
  cbn [push_loop]. destruct (Z.ltb_spec (writePos rb) CAPACITY); [lia | reflexivity].
Qed.

Lemma push_stores_what_fits_witness :
  let rb := push (reset {| buf := []; writePos := 0 |}) (replicate 500 one) 500 in
  writePos (push rb (replicate 160 zero) 160) = 512%Z.
Proof.
  intros rb.
  destruct (push_stores_what_fits rb (replicate 160 zero) 160) as (_ & H & _).
  - apply push_well_formed, reset_well_formed.
  - rewrite length_replicate. lia.
  - rewrite H. vm_compute. reflexivity.
Defined.
End RingTheorems.

Module MeterFacts.
Import F32 Engine Output OutputFacts NlmsRunFacts.

Lemma add_nan_l (a : float) : add nan a = nan.
Proof. reflexivity. Qed.

(** A sum of squares that has met a NaN sample is NaN. *)
Lemma squares_from_nan (xs : list float) (l : list nat) :
  fold_left (fun s i => add s (mul (xs !!! i) (xs !!! i))) l nan = nan.
Proof. induction l as [|i l IH]; [reflexivity | exact IH]. Qed.

Lemma squares_meet_nan (xs : list float) (n i : nat) (s : float) :
  i < n -> is_nan (xs !!! i) = true ->
  fold_left (fun s i => add s (mul (xs !!! i) (xs !!! i))) (seq 0 n) s = nan.
Proof.
  intros Hi Hnan.
  replace n with (i + S (n - S i)) by lia.
  rewrite seq_app, fold_left_app. cbn [seq fold_left Nat.add].
  rewrite (is_nan_eq _ Hnan). cbn [mul SFmul]. rewrite add_nan_r.
  apply squares_from_nan.
Qed.
End MeterFacts.

Module MeterTheorems.
Import F32 Engine Output OutputFacts NlmsRunFacts MeterFacts.

(** X14: the two meters treat NaN differently.  One NaN sample in a
    block makes the published RMS of its channel NaN; the peak registers
    are never NaN and never negative, because the peak loop compares with
    [>] and NaN never wins the comparison. *)
Theorem nan_sample_reaches_rms_not_peak
    (lv : AudioLevels) (n : nat) (floatL floatR floatHP : list float) :
  reachable_levels lv ->
  ((exists i, i < n /\ is_nan (floatL !!! i) = true) ->
   rmsLeft (meter_lr lv n floatL floatR) = nan) /\
  ((exists i, i < n /\ is_nan (floatR !!! i) = true) ->
   rmsRight (meter_lr lv n floatL floatR) = nan) /\
  ((exists i, i < n /\ is_nan (floatHP !!! i) = true) ->
   rmsHP (meter_hp lv n floatHP) = nan) /\
  is_nonneg (peakLeft (meter_lr lv n floatL floatR)) = true /\
  is_nonneg (peakRight (meter_lr lv n floatL floatR)) = true /\
  is_nonneg (peakHP (meter_hp lv n floatHP)) = true.
Proof.
  intros Hreach.
  destruct (lr_loop_sums floatL floatR (seq 0 n)
              {| sumL := zero; sumR := zero; pkL := zero; pkR := zero |}) as [HsL HsR].
  pose proof (hp_loop_sum floatHP (seq 0 n) (zero, zero)) as HsH.
  split; [|split; [|split]].
  - intros (i & Hi & Hnan). unfold meter_lr, meter_block. cbn [rmsLeft].
    rewrite HsL. cbn [sumL]. rewrite (squares_meet_nan floatL n i) by assumption.
    reflexivity.
  - intros (i & Hi & Hnan). unfold meter_lr, meter_block. cbn [rmsRight].
    rewrite HsR. cbn [sumR]. rewrite (squares_meet_nan floatR n i) by assumption.
    reflexivity.
  - intros (i & Hi & Hnan). unfold meter_hp.
    destruct (fold_left (hp_meter_step floatHP) (seq 0 n) (zero, zero)) as [s pk].
    cbn [fst] in HsH. cbn [rmsHP]. rewrite HsH.
    rewrite (squares_meet_nan floatHP n i) by assumption. reflexivity.
  - destruct (reachable_peaks_nonneg _ (reach_lr lv n floatL floatR Hreach))
      as (HL & HR & _).
    destruct (reachable_peaks_nonneg _ (reach_hp lv n floatHP Hreach)) as (_ & _ & HH).
    repeat split; assumption.
Qed.

Lemma nan_sample_reaches_rms_not_peak_witness :
  rmsLeft (meter_lr default_levels 2 [Examples.half; nan] [zero; zero]) = nan /\
  is_nonneg (peakLeft (meter_lr default_levels 2 [Examples.half; nan] [zero; zero])) = true.
Proof.
  destruct (nan_sample_reaches_rms_not_peak default_levels 2 [Examples.half; nan]
              [zero; zero] [] reach_default) as (H1 & _ & _ & H2 & _).
  split; [apply H1; exists 1; split; [lia | reflexivity] | exact H2].
Defined.
End MeterTheorems.

(** ** The worker loop *)

Module WorkerFacts.
Import F32 Engine Setters Worker WorkerProps SetterFacts.

Section Helpers.
Variable NsHandle AgcHandle AecHandle VadHandle : Type.
Variable ns_process : NsHandle -> list Z -> NsHandle * list Z.
Variable agc_process : AgcHandle -> list Z -> AgcHandle * list Z.
Variable set_agc_config : AgcHandle -> Z -> Z -> Z -> AgcHandle.
Variable aec_process : AecHandle -> list Z -> list Z -> AecHandle * list Z.
Variable vad_process : VadHandle -> list Z -> VadHandle * bool.
Variable cast_undefined : float -> Z.
Variable cosf sinf : float -> float.
Variable powf : float -> float -> float.

Local Abbreviation Worker := (Worker NsHandle AgcHandle AecHandle VadHandle).
Local Abbreviation Outside := (Outside NsHandle AgcHandle AecHandle VadHandle).
Local Abbreviation process_block :=
  (process_block NsHandle AgcHandle AecHandle VadHandle ns_process agc_process
     aec_process vad_process cast_undefined).
Local Abbreviation ns_stage :=
  (ns_stage NsHandle AgcHandle AecHandle VadHandle ns_process cast_undefined).
Local Abbreviation agc_stage :=
  (agc_stage NsHandle AgcHandle AecHandle VadHandle agc_process cast_undefined).
Local Abbreviation voice_exclusion :=
  (VoiceExclusion.voice_exclusion AecHandle VadHandle aec_process vad_process
     cast_undefined).

(** What step 8, step 8b and the buffer update leave alone. *)
Lemma ns_stage_frame (w : Worker) (hL hR : NsHandle) (fl fr : list float) :
  let w' := fst (fst (ns_stage w hL hR fl fr)) in
  ve w' = ve w /\ filters w' = filters w /\
  _agcHandleL w' = _agcHandleL w /\ _agcHandleR w' = _agcHandleR w /\
  is_Some (_nsHandleL w') /\ is_Some (_nsHandleR w') /\
  localParams w' = localParams w /\
  prevVeEnabled w' = prevVeEnabled w /\ prevVeFilterLength w' = prevVeFilterLength w /\
  hpDetected w' = hpDetected w /\ hpDetectCounter w' = hpDetectCounter w.
Proof.
  unfold Worker.ns_stage.
  destruct (Resampler.downsample3 (resamplerDownL w) fl NS_FRAME_16K) as [dL down16kL].
  destruct (Resampler.downsample3 (resamplerDownR w) fr NS_FRAME_16K) as [dR down16kR].
  destruct (ns_process hL _) as [hL' outL]. destruct (ns_process hR _) as [hR' outR].
  destruct (Resampler.upsample3 (resamplerUpL w) _ _) as [uL upL].
  destruct (Resampler.upsample3 (resamplerUpR w) _ _) as [uR upR].
  cbn. repeat split; try reflexivity; eexists; reflexivity.
Qed.

Lemma agc_stage_frame (w : Worker) (hL hR : AgcHandle) (fl fr : list float) :
  let w' := fst (fst (agc_stage w hL hR fl fr)) in
  ve w' = ve w /\ filters w' = filters w /\
  _nsHandleL w' = _nsHandleL w /\ _nsHandleR w' = _nsHandleR w /\
  is_Some (_agcHandleL w') /\ is_Some (_agcHandleR w') /\
  localParams w' = localParams w /\
  prevVeEnabled w' = prevVeEnabled w /\ prevVeFilterLength w' = prevVeFilterLength w /\
  hpDetected w' = hpDetected w /\ hpDetectCounter w' = hpDetectCounter w.
Proof.
  unfold Worker.agc_stage.
  destruct (Resampler.downsample3 (agcResDownL w) fl NS_FRAME_16K) as [dL down16kL].
  destruct (Resampler.downsample3 (agcResDownR w) fr NS_FRAME_16K) as [dR down16kR].
  destruct (agc_process hL _) as [hL' outL]. destruct (agc_process hR _) as [hR' outR].
  destruct (Resampler.upsample3 (agcResUpL w) _ _) as [uL upL].
  destruct (Resampler.upsample3 (agcResUpR w) _ _) as [uR upR].
  cbn. repeat split; try reflexivity; eexists; reflexivity.
Qed.

(** The shape of a processed block: the step-7 state comes from
    [voice_exclusion] on the conditioned channels, the headphone state
    from one poll, the settings are untouched, and steps 8 and 8b leave
    each pair of handles as it was or replace both. *)
Lemma process_block_shape (w : Worker) (lv : AudioLevels) (o : Outside) (n : nat) :
  let w' := blk_worker (process_block w lv o n) in
  let polled := poll_headphone (hpDetectCounter w) (hpDetected w) (headphone o) in
  (exists fl fr fhp lv1,
     ve w' = fst (fst (voice_exclusion (localParams w) (snd polled)
                         (with_levels _ _ (ve w) lv1) n fl fr fhp))) /\
  (hpDetectCounter w', hpDetected w') = polled /\
  localParams w' = localParams w /\
  prevVeEnabled w' = prevVeEnabled w /\ prevVeFilterLength w' = prevVeFilterLength w /\
  (paired (_nsHandleL w) (_nsHandleR w) -> paired (_nsHandleL w') (_nsHandleR w')) /\
  (paired (_agcHandleL w) (_agcHandleR w) -> paired (_agcHandleL w') (_agcHandleR w')).
Proof.
  cbn zeta. unfold Worker.process_block.
  destruct (extract_channels n (inBuf o) (floatL w) (floatR w) (floatHP w))
    as [[fl0 fr0] fhp0].
  destruct (FilterBank.main_filters (filters w) (localParams w) n fl0 fr0)
    as [[fb1 fl1] fr1].
  destruct (FilterBank.condition_reference fb1 (localParams w) n fhp0) as [fb2 fhp1].
  destruct (poll_headphone (hpDetectCounter w) (hpDetected w) (headphone o))
    as [counter detected] eqn:Hpoll.
  set (lv1 := Output.meter_hp lv n fhp1).
  destruct (voice_exclusion (localParams w) detected (with_levels _ _ (ve w) lv1)
              n fl1 fr1 fhp1) as [[st1 fl2] fr2] eqn:Hve.
  set (w1 := after_front _ _ _ _ w fb2 st1 counter detected).
  assert (Hstage1 :
    exists w2 fl3 fr3,
      match nsEnabled (localParams w) && (n =? BLOCK_SIZE), _nsHandleL w1, _nsHandleR w1 with
      | true, Some hL, Some hR => ns_stage w1 hL hR fl2 fr2
      | _, _, _ => (w1, fl2, fr2)
      end = (w2, fl3, fr3) /\
      ve w2 = st1 /\ localParams w2 = localParams w /\
      prevVeEnabled w2 = prevVeEnabled w /\ prevVeFilterLength w2 = prevVeFilterLength w /\
      hpDetected w2 = detected /\ hpDetectCounter w2 = counter /\
      (paired (_nsHandleL w) (_nsHandleR w) -> paired (_nsHandleL w2) (_nsHandleR w2)) /\
      _agcHandleL w2 = _agcHandleL w /\ _agcHandleR w2 = _agcHandleR w).
  { assert (Hsame : ve w1 = st1 /\ localParams w1 = localParams w /\
      prevVeEnabled w1 = prevVeEnabled w /\ prevVeFilterLength w1 = prevVeFilterLength w /\
      hpDetected w1 = detected /\ hpDetectCounter w1 = counter /\
      (paired (_nsHandleL w) (_nsHandleR w) -> paired (_nsHandleL w1) (_nsHandleR w1)) /\
      _agcHandleL w1 = _agcHandleL w /\ _agcHandleR w1 = _agcHandleR w).
    { subst w1. cbn. unfold paired. repeat split; try reflexivity; tauto. }
    destruct (nsEnabled (localParams w) && (n =? BLOCK_SIZE)).
    2:{ destruct (_nsHandleL w1) eqn:HL; destruct (_nsHandleR w1) eqn:HR;
        exists w1, fl2, fr2; rewrite ?HL, ?HR; (split; [reflexivity | exact Hsame]). }
    destruct (_nsHandleL w1) as [hL|] eqn:HL.
    2:{ exists w1, fl2, fr2. rewrite ?HL. split; [reflexivity | exact Hsame]. }
    destruct (_nsHandleR w1) as [hR|] eqn:HR.
    2:{ exists w1, fl2, fr2. rewrite ?HL, ?HR. split; [reflexivity | exact Hsame]. }
    pose proof (ns_stage_frame w1 hL hR fl2 fr2)
      as (H1 & _ & H3 & H4 & H5 & H6 & H7 & H8 & H9 & H10 & H11).
    cbn zeta in *.
    destruct (ns_stage w1 hL hR fl2 fr2) as [[w2 fl3] fr3]. cbn [fst snd] in *.
    destruct Hsame as (S1 & S2 & S3 & S4 & S5 & S6 & _ & S8 & S9).
    exists w2, fl3, fr3. split; [reflexivity|].
    repeat split; try congruence; intros; assumption. }
  destruct Hstage1 as (w2 & fl3 & fr3 & -> & Hve2 & Hlp2 & Hpe2 & Hpl2 & Hd2 & Hc2 & Hns2
                       & HaL2 & HaR2).
  assert (Hstage2 :
    exists w3 fl4 fr4,
      match agcEnabled (localParams w) && (n =? BLOCK_SIZE), _agcHandleL w2, _agcHandleR w2 with
      | true, Some hL, Some hR => agc_stage w2 hL hR fl3 fr3
      | _, _, _ => (w2, fl3, fr3)
      end = (w3, fl4, fr4) /\
      ve w3 = st1 /\ localParams w3 = localParams w /\
      prevVeEnabled w3 = prevVeEnabled w /\ prevVeFilterLength w3 = prevVeFilterLength w /\
      hpDetected w3 = detected /\ hpDetectCounter w3 = counter /\
      (paired (_nsHandleL w) (_nsHandleR w) -> paired (_nsHandleL w3) (_nsHandleR w3)) /\
      (paired (_agcHandleL w) (_agcHandleR w) -> paired (_agcHandleL w3) (_agcHandleR w3))).
  { assert (Hsame : ve w2 = st1 /\ localParams w2 = localParams w /\
      prevVeEnabled w2 = prevVeEnabled w /\ prevVeFilterLength w2 = prevVeFilterLength w /\
      hpDetected w2 = detected /\ hpDetectCounter w2 = counter /\
      (paired (_nsHandleL w) (_nsHandleR w) -> paired (_nsHandleL w2) (_nsHandleR w2)) /\
      (paired (_agcHandleL w) (_agcHandleR w) -> paired (_agcHandleL w2) (_agcHandleR w2))).
    { rewrite HaL2, HaR2. unfold paired in *. repeat split; try assumption; tauto. }
    destruct (agcEnabled (localParams w) && (n =? BLOCK_SIZE)).
    2:{ destruct (_agcHandleL w2) eqn:HL; destruct (_agcHandleR w2) eqn:HR;
        exists w2, fl3, fr3; rewrite ?HL, ?HR; (split; [reflexivity | exact Hsame]). }
    destruct (_agcHandleL w2) as [hL|] eqn:HL.
    2:{ exists w2, fl3, fr3. rewrite ?HL. split; [reflexivity | exact Hsame]. }
    destruct (_agcHandleR w2) as [hR|] eqn:HR.
    2:{ exists w2, fl3, fr3. rewrite ?HL, ?HR. split; [reflexivity | exact Hsame]. }
    pose proof (agc_stage_frame w2 hL hR fl3 fr3)
      as (H1 & _ & H3 & H4 & H5 & H6 & H7 & H8 & H9 & H10 & H11).
    cbn zeta in *.
    destruct (agc_stage w2 hL hR fl3 fr3) as [[w3 fl4] fr4]. cbn [fst snd] in *.
    destruct Hsame as (S1 & S2 & S3 & S4 & S5 & S6 & S7 & _).
    exists w3, fl4, fr4. split; [reflexivity|].
    rewrite H3, H4.
    repeat split; try congruence; intros; try assumption; apply S7; assumption. }
  destruct Hstage2 as (w3 & fl4 & fr4 & -> & Hve3 & Hlp3 & Hpe3 & Hpl3 & Hd3 & Hc3 & Hns3
                       & Hagc3).
  cbn [blk_worker with_buffers ve hpDetectCounter hpDetected localParams prevVeEnabled
       prevVeFilterLength _nsHandleL _nsHandleR _agcHandleL _agcHandleR fst snd].
  split.
  { exists fl1, fr1, fhp1, lv1. rewrite Hve3, Hve. reflexivity. }
  rewrite Hc3, Hd3.
  split; [reflexivity|]. split; [exact Hlp3|]. split; [exact Hpe3|].
  split; [exact Hpl3|]. split; [exact Hns3 | exact Hagc3].
Qed.

(** No step of a block touches the worker's change flag. *)
Lemma ns_step_keeps_flag (b : bool) (w : Worker) (fl fr : list float) :
  localParamsChanged
    (fst (fst match b, _nsHandleL w, _nsHandleR w with
              | true, Some hL, Some hR => ns_stage w hL hR fl fr
              | _, _, _ => (w, fl, fr)
              end)) = localParamsChanged w.
Proof.
  destruct b; [|destruct (_nsHandleL w), (_nsHandleR w); reflexivity].
  destruct (_nsHandleL w) as [hL|]; [|reflexivity].
  destruct (_nsHandleR w) as [hR|]; [|reflexivity].
  unfold Worker.ns_stage.
  destruct (Resampler.downsample3 (resamplerDownL w) fl NS_FRAME_16K) as [dL down16kL].
  destruct (Resampler.downsample3 (resamplerDownR w) fr NS_FRAME_16K) as [dR down16kR].
  destruct (ns_process hL _) as [hL' outL]. destruct (ns_process hR _) as [hR' outR].
  destruct (Resampler.upsample3 (resamplerUpL w) _ _) as [uL upL].
  destruct (Resampler.upsample3 (resamplerUpR w) _ _) as [uR upR].
  reflexivity.
Qed.

Lemma agc_step_keeps_flag (b : bool) (w : Worker) (fl fr : list float) :
  localParamsChanged
    (fst (fst match b, _agcHandleL w, _agcHandleR w with
              | true, Some hL, Some hR => agc_stage w hL hR fl fr
              | _, _, _ => (w, fl, fr)
              end)) = localParamsChanged w.
Proof.
  destruct b; [|destruct (_agcHandleL w), (_agcHandleR w); reflexivity].
  destruct (_agcHandleL w) as [hL|]; [|reflexivity].
  destruct (_agcHandleR w) as [hR|]; [|reflexivity].
  unfold Worker.agc_stage.
  destruct (Resampler.downsample3 (agcResDownL w) fl NS_FRAME_16K) as [dL down16kL].
  destruct (Resampler.downsample3 (agcResDownR w) fr NS_FRAME_16K) as [dR down16kR].
  destruct (agc_process hL _) as [hL' outL]. destruct (agc_process hR _) as [hR' outR].
  destruct (Resampler.upsample3 (agcResUpL w) _ _) as [uL upL].
  destruct (Resampler.upsample3 (agcResUpR w) _ _) as [uR upR].
  reflexivity.
Qed.

Lemma process_block_keeps_flag (w : Worker) (lv : AudioLevels) (o : Outside) (n : nat) :
  localParamsChanged (blk_worker (process_block w lv o n)) = localParamsChanged w.
Proof.
  unfold Worker.process_block.
  destruct (extract_channels n (inBuf o) (floatL w) (floatR w) (floatHP w))
    as [[fl0 fr0] fhp0].
  destruct (FilterBank.main_filters (filters w) (localParams w) n fl0 fr0)
    as [[fb1 fl1] fr1].
  destruct (FilterBank.condition_reference fb1 (localParams w) n fhp0) as [fb2 fhp1].
  destruct (poll_headphone (hpDetectCounter w) (hpDetected w) (headphone o))
    as [counter detected].
  destruct (voice_exclusion (localParams w) detected _ n fl1 fr1 fhp1) as [[st1 fl2] fr2].
  set (w1 := after_front _ _ _ _ w fb2 st1 counter detected).
  assert (H1 : localParamsChanged w1 = localParamsChanged w) by reflexivity.
  pose proof (ns_step_keeps_flag (nsEnabled (localParams w) && (n =? BLOCK_SIZE))
                w1 fl2 fr2) as H2.
  match type of H2 with
  | context [fst (fst ?M)] => destruct M as [[w2 fl3] fr3]
  end.
  pose proof (agc_step_keeps_flag (agcEnabled (localParams w) && (n =? BLOCK_SIZE))
                w2 fl3 fr3) as H3.
  match type of H3 with
  | context [fst (fst ?M)] => destruct M as [[w3 fl4] fr4]
  end.
  cbn [fst] in H2, H3. cbn [blk_worker with_buffers localParamsChanged].
  congruence.
Qed.

(** [process] keeps the number of taps. *)
Lemma process_keeps_taps (f : Nlms.NlmsFilter) (x d mu : float) (k : Z) :
  has_taps f k -> has_taps (fst (Nlms.process f x d mu)) k.
Proof.
  intros (w & r & Hw & Hr & Lw & Lr & Hlen).
  unfold Nlms.process. rewrite Hw, Hr.
  destruct (Nlms._len f <=? 0)%Z.
  - exists w, r. split; [exact Hw|]. split; [exact Hr|].
    split; [exact Lw|]. split; [exact Lr | exact Hlen].
  - destruct (fold_left _ _ (zero, zero)) as [estimate power]. cbn [fst].
    eexists _, _. split; [reflexivity|]. split; [reflexivity|].
    split; [|split; [|exact Hlen]].
    + rewrite NlmsFacts.update_loop_length by lia. exact Lw.
    + rewrite length_insert. exact Lr.
Qed.

Lemma process_all_keeps_taps (calls : list (float * float * float)) :
  forall (f : Nlms.NlmsFilter) (k : Z),
    has_taps f k -> has_taps (fst (Nlms.process_all f calls)) k.
Proof.
  induction calls as [|[[x d] mu] calls IH]; intros f k Hk; [exact Hk|].
  cbn [Nlms.process_all]. pose proof (process_keeps_taps f x d mu k Hk) as H1.
  destruct (Nlms.process f x d mu) as [f1 y]. cbn [fst] in H1.
  specialize (IH f1 k H1). destruct (Nlms.process_all f1 calls) as [f2 ys].
  exact IH.
Qed.

(** Step 7 keeps the pairs and the number of taps of the filters. *)
Lemma voice_exclusion_keeps_handles (p : AudioEngineParams) (hp : bool)
    (st : VoiceExclusion.VeState AecHandle VadHandle) (n : nat)
    (fl fr fhp : list float) :
  let st' := fst (fst (voice_exclusion p hp st n fl fr fhp)) in
  (paired (VoiceExclusion._aecHandleL st) (VoiceExclusion._aecHandleR st) ->
   paired (VoiceExclusion._aecHandleL st') (VoiceExclusion._aecHandleR st')) /\
  (is_Some (VoiceExclusion._nlmsL st') <-> is_Some (VoiceExclusion._nlmsL st)) /\
  (is_Some (VoiceExclusion._nlmsR st') <-> is_Some (VoiceExclusion._nlmsR st)) /\
  (forall f', VoiceExclusion._nlmsL st' = Some f' ->
     exists f, VoiceExclusion._nlmsL st = Some f /\ (forall k, has_taps f k -> has_taps f' k)) /\
  (forall f', VoiceExclusion._nlmsR st' = Some f' ->
     exists f, VoiceExclusion._nlmsR st = Some f /\ (forall k, has_taps f k -> has_taps f' k)).
Proof.
  cbn zeta.
  assert (Hsame :
    (paired (VoiceExclusion._aecHandleL st) (VoiceExclusion._aecHandleR st) ->
     paired (VoiceExclusion._aecHandleL st) (VoiceExclusion._aecHandleR st)) /\
    (is_Some (VoiceExclusion._nlmsL st) <-> is_Some (VoiceExclusion._nlmsL st)) /\
    (is_Some (VoiceExclusion._nlmsR st) <-> is_Some (VoiceExclusion._nlmsR st)) /\
    (forall f', VoiceExclusion._nlmsL st = Some f' ->
       exists f, VoiceExclusion._nlmsL st = Some f /\ (forall k, has_taps f k -> has_taps f' k)) /\
    (forall f', VoiceExclusion._nlmsR st = Some f' ->
       exists f, VoiceExclusion._nlmsR st = Some f /\ (forall k, has_taps f k -> has_taps f' k))).
  { split; [tauto|]. split; [tauto|]. split; [tauto|].
    split; intros f' Hf'; exists f'; (split; [assumption | intros k Hk; exact Hk]). }
  unfold VoiceExclusion.voice_exclusion.
  destruct (veEnabled p && hp && (n =? VoiceExclusion.BLOCK_SIZE)); [|exact Hsame].
  assert (Haec :
    forall hL hR,
      let st' := fst (fst (VoiceExclusion.aec_branch AecHandle VadHandle aec_process
                             vad_process cast_undefined (veBlend p) st hL hR n fl fr fhp)) in
      is_Some (VoiceExclusion._aecHandleL st') /\ is_Some (VoiceExclusion._aecHandleR st') /\
      VoiceExclusion._nlmsL st' = VoiceExclusion._nlmsL st /\
      VoiceExclusion._nlmsR st' = VoiceExclusion._nlmsR st).
  { intros hL hR. cbn zeta. unfold VoiceExclusion.aec_branch.
    destruct (Resampler.downsample3 (VoiceExclusion.aecResDownL st) fl _) as [dL bL].
    destruct (Resampler.downsample3 (VoiceExclusion.aecResDownR st) fr _) as [dR bR].
    destruct (Resampler.downsample3 (VoiceExclusion.aecResDownHP st) fhp _) as [dHP bHP].
    destruct (_ && _ && _).
    - unfold VoiceExclusion.run_frame.
      destruct (VoiceExclusion._vadHandleRef st) as [v|];
        [destruct (vad_process v _) as [v' speech]|];
        destruct (aec_process hL _ _) as [hL' oL];
        destruct (aec_process hR _ _) as [hR' oR];
        cbn [andb VoiceExclusion.store_frame AecRingBuf.writePos];
        change (0 <? Z.of_nat VoiceExclusion.AEC_FRAME_16K)%Z with true; cbn iota;
        destruct (Resampler.upsample3 _ _ _) as [uL upL];
        destruct (Resampler.upsample3 _ _ _) as [uR upR];
        cbn; repeat split; eexists; reflexivity.
    - destruct (VoiceExclusion.aecOutputReady st && _).
      + destruct (Resampler.upsample3 _ _ _) as [uL upL].
        destruct (Resampler.upsample3 _ _ _) as [uR upR].
        cbn. repeat split; eexists; reflexivity.
      + cbn. repeat split; eexists; reflexivity. }
  assert (Haec' :
    match (veMode p =? 1)%Z, VoiceExclusion._aecHandleL st, VoiceExclusion._aecHandleR st with
    | true, Some hL, Some hR =>
        VoiceExclusion.aec_branch AecHandle VadHandle aec_process vad_process
          cast_undefined (veBlend p) st hL hR n fl fr fhp
    | _, _, _ => (st, fl, fr)
    end = (st, fl, fr) \/
    exists hL hR,
      match (veMode p =? 1)%Z, VoiceExclusion._aecHandleL st, VoiceExclusion._aecHandleR st with
      | true, Some hL, Some hR =>
          VoiceExclusion.aec_branch AecHandle VadHandle aec_process vad_process
            cast_undefined (veBlend p) st hL hR n fl fr fhp
      | _, _, _ => (st, fl, fr)
      end = VoiceExclusion.aec_branch AecHandle VadHandle aec_process vad_process
              cast_undefined (veBlend p) st hL hR n fl fr fhp).
  { destruct (veMode p =? 1)%Z; [|left; reflexivity].
    destruct (VoiceExclusion._aecHandleL st) as [hL|]; [|left; reflexivity].
    destruct (VoiceExclusion._aecHandleR st) as [hR|]; [|left; reflexivity].
    right. exists hL, hR. reflexivity. }
  assert (Hskip_or_aec :
    let st' := fst (fst
      match (veMode p =? 1)%Z, VoiceExclusion._aecHandleL st, VoiceExclusion._aecHandleR st with
      | true, Some hL, Some hR =>
          VoiceExclusion.aec_branch AecHandle VadHandle aec_process vad_process
            cast_undefined (veBlend p) st hL hR n fl fr fhp
      | _, _, _ => (st, fl, fr)
      end) in
    (paired (VoiceExclusion._aecHandleL st) (VoiceExclusion._aecHandleR st) ->
     paired (VoiceExclusion._aecHandleL st') (VoiceExclusion._aecHandleR st')) /\
    (is_Some (VoiceExclusion._nlmsL st') <-> is_Some (VoiceExclusion._nlmsL st)) /\
    (is_Some (VoiceExclusion._nlmsR st') <-> is_Some (VoiceExclusion._nlmsR st)) /\
    (forall f', VoiceExclusion._nlmsL st' = Some f' ->
       exists f, VoiceExclusion._nlmsL st = Some f /\ (forall k, has_taps f k -> has_taps f' k)) /\
    (forall f', VoiceExclusion._nlmsR st' = Some f' ->
       exists f, VoiceExclusion._nlmsR st = Some f /\ (forall k, has_taps f k -> has_taps f' k))).
  { cbn zeta. destruct Haec' as [->|(hL & hR & ->)]; [exact Hsame|].
    destruct (Haec hL hR) as (HL & HR & HnL & HnR). cbn zeta in *.
    rewrite HnL, HnR. unfold paired.
    split; [tauto|]. split; [tauto|]. split; [tauto|].
    split; intros f' Hf'; exists f'; (split; [assumption | intros k Hk; exact Hk]). }
  destruct (veMode p =? 0)%Z; [|exact Hskip_or_aec].
  destruct (VoiceExclusion._nlmsL st) as [nlL|] eqn:HnL; [|exact Hskip_or_aec].
  destruct (VoiceExclusion._nlmsR st) as [nlR|] eqn:HnR; [|exact Hskip_or_aec].
  clear Hskip_or_aec Haec Haec' Hsame.
  unfold VoiceExclusion.nlms_branch.
  destruct (Resampler.downsample3 (VoiceExclusion.veResDownL st) fl _) as [dL dnL].
  destruct (Resampler.downsample3 (VoiceExclusion.veResDownR st) fr _) as [dR dnR].
  destruct (Resampler.downsample3 (VoiceExclusion.veResDownHP st) fhp _) as [dHP dnHP].
  unfold VoiceExclusion.nlms_frame.
  pose proof (process_all_keeps_taps
                (map (fun i => (dnHP !!! i, dnL !!! i, veStepSize p))
                   (seq 0 VoiceExclusion.NS_FRAME_16K)) nlL) as HlenL.
  pose proof (process_all_keeps_taps
                (map (fun i => (dnHP !!! i, dnR !!! i, veStepSize p))
                   (seq 0 VoiceExclusion.NS_FRAME_16K)) nlR) as HlenR.
  destruct (Nlms.process_all nlL _) as [nlL' estL].
  destruct (Nlms.process_all nlR _) as [nlR' estR].
  destruct (Resampler.upsample3 _ estL _) as [uL upL].
  destruct (Resampler.upsample3 _ estR _) as [uR upR].
  cbn [fst snd VoiceExclusion._nlmsL VoiceExclusion._nlmsR VoiceExclusion._aecHandleL
       VoiceExclusion._aecHandleR] in *.
  split; [auto|]. split; [split; intros _; eexists; reflexivity|].
  split; [split; intros _; eexists; reflexivity|].
  split; intros f' [= <-]; eexists; (split; [reflexivity | assumption]).
Qed.

(** *** The parameter block *)

Local Abbreviation apply_params :=
  (apply_params NsHandle AgcHandle AecHandle VadHandle set_agc_config cosf sinf powf).
Local Abbreviation iteration :=
  (iteration NsHandle AgcHandle AecHandle VadHandle ns_process agc_process
     set_agc_config aec_process vad_process cast_undefined cosf sinf powf).
Local Abbreviation run :=
  (run NsHandle AgcHandle AecHandle VadHandle ns_process agc_process
     set_agc_config aec_process vad_process cast_undefined cosf sinf powf).
Local Abbreviation at_entry := (at_entry NsHandle AgcHandle AecHandle VadHandle).

Lemma paired_none {A B : Type} : paired (@None A) (@None B).
Proof. unfold paired. split; intros [x Hx]; discriminate Hx. Qed.

Lemma both_or_none_paired {H : Type} (created : option H * option H) :
  paired (fst (both_or_none created)) (snd (both_or_none created)).
Proof.
  destruct created as [[l|] [r|]]; cbn; try exact paired_none.
  unfold paired. split; intros _; eexists; reflexivity.
Qed.

Lemma ns_update_paired (p : AudioEngineParams) (pe : bool) (pm : Z)
    (hL hR : option NsHandle) (created : option NsHandle * option NsHandle) :
  paired hL hR ->
  paired (fst (fst (fst (ns_update NsHandle p pe pm hL hR created))))
         (snd (fst (fst (ns_update NsHandle p pe pm hL hR created)))).
Proof.
  intros Hp. unfold ns_update.
  destruct (negb (Bool.eqb (nsEnabled p) pe) || negb (nsMode p =? pm)%Z); [|exact Hp].
  destruct (nsEnabled p); [|exact paired_none].
  pose proof (both_or_none_paired created) as H.
  destruct (both_or_none created) as [l r]. exact H.
Qed.

Lemma init_has_taps (n : Z) : (0 <= n)%Z -> has_taps (Nlms.init n) n.
Proof.
  intros Hn. eexists _, _. split; [reflexivity|]. split; [reflexivity|].
  rewrite length_replicate. split; [lia|]. split; [lia | reflexivity].
Qed.

(** The NLMS update either throws, for a negative length, or leaves the
    two filters as the parameters ask. *)
Lemma nlms_update_ok (p : AudioEngineParams) (pe : bool) (pl : Z)
    (nlL nlR : option Nlms.NlmsFilter) :
  paired nlL nlR -> (is_Some nlL <-> pe = true) ->
  (forall f, nlL = Some f \/ nlR = Some f -> has_taps f pl) ->
  match nlms_update p pe pl nlL nlR with
  | None => veEnabled p = true /\ (veFilterLength p < 0)%Z
  | Some (l, r, e, len) =>
      e = veEnabled p /\ len = veFilterLength p /\
      paired l r /\ (is_Some l <-> veEnabled p = true) /\
      (forall f, l = Some f \/ r = Some f -> has_taps f (veFilterLength p))
  end.
Proof.
  intros Hp He Hl. unfold nlms_update.
  destruct (negb (Bool.eqb (veEnabled p) pe) || negb (veFilterLength p =? pl)%Z) eqn:C.
  - destruct (veEnabled p).
    + destruct (veFilterLength p <? 0)%Z eqn:Hneg.
      * apply Z.ltb_lt in Hneg. split; [reflexivity | exact Hneg].
      * apply Z.ltb_ge in Hneg.
        split; [reflexivity|]. split; [reflexivity|]. split.
        { unfold paired. split; intros _; eexists; reflexivity. }
        split; [split; [reflexivity | intros _; eexists; reflexivity]|].
        intros f [[= <-]|[= <-]]; apply init_has_taps; exact Hneg.
    + split; [reflexivity|]. split; [reflexivity|]. split; [exact paired_none|].
      split; [split; [intros [x Hx]; discriminate Hx | discriminate]|].
      intros f [Hf|Hf]; discriminate Hf.
  - apply Bool.orb_false_iff in C as [C1 C2].
    apply Bool.negb_false_iff in C1, C2.
    apply Bool.eqb_prop in C1. apply Z.eqb_eq in C2.
    rewrite C1, C2. split; [reflexivity|]. split; [reflexivity|].
    split; [exact Hp|]. split; assumption.
Qed.

Lemma aec_reconfigure_ok (p : AudioEngineParams)
    (st : VoiceExclusion.VeState AecHandle VadHandle)
    (created : option AecHandle * option AecHandle) :
  let st' := VoiceExclusion.aec_reconfigure AecHandle VadHandle p st created in
  (paired (VoiceExclusion._aecHandleL st) (VoiceExclusion._aecHandleR st) ->
   paired (VoiceExclusion._aecHandleL st') (VoiceExclusion._aecHandleR st')) /\
  VoiceExclusion._nlmsL st' = VoiceExclusion._nlmsL st /\
  VoiceExclusion._nlmsR st' = VoiceExclusion._nlmsR st.
Proof.
  cbn zeta. unfold VoiceExclusion.aec_reconfigure.
  destruct (_ || _ || _); [|split; [intros H; exact H | split; reflexivity]].
  destruct (veEnabled p && (veMode p =? 1)%Z).
  - destruct created as [[l|] [r|]]; cbn; (split; [intros _|split; reflexivity]);
      try exact paired_none.
    unfold paired. split; intros _; eexists; reflexivity.
  - cbn. split; [intros _; exact paired_none | split; reflexivity].
Qed.

Lemma configure_agc_is_Some (p : AudioEngineParams) (h : option AgcHandle) :
  is_Some (configure_agc AgcHandle set_agc_config p h) <-> is_Some h.
Proof. unfold configure_agc. apply fmap_is_Some. Qed.

(** The parameter block leaves the handles in pairs, the NLMS filters as
    the worker's parameters ask, and the change flag clear. *)
Lemma apply_params_ok (w : Worker) (o : Outside) (shared : AudioEngineParams) :
  handles_paired w -> nlms_as_configured w ->
  match apply_params w o shared with
  | None => veEnabled (localParams w) = true /\ (veFilterLength (localParams w) < 0)%Z
  | Some (w', _) =>
      handles_paired w' /\ nlms_as_configured w' /\ applied w' /\
      localParamsChanged w' = false /\ localParams w' = localParams w /\
      hpDetected w' = hpDetected w /\ hpDetectCounter w' = hpDetectCounter w
  end.
Proof.
  intros (Hns & Hagc & Haec & Hnl) (Hcfg1 & Hcfg2).
  unfold Worker.apply_params.
  pose proof (ns_update_paired (localParams w) (prevNsEnabled w) (prevNsMode w)
                (_nsHandleL w) (_nsHandleR w) (ns_created o) Hns) as Hns'.
  destruct (ns_update NsHandle (localParams w) (prevNsEnabled w) (prevNsMode w)
              (_nsHandleL w) (_nsHandleR w) (ns_created o)) as [[[nsL nsR] pNsE] pNsM].
  cbn [fst snd] in Hns'.
  pose proof (nlms_update_ok (localParams w) (prevVeEnabled w) (prevVeFilterLength w)
                (VoiceExclusion._nlmsL (ve w)) (VoiceExclusion._nlmsR (ve w))
                Hnl Hcfg1 Hcfg2) as Hupd.
  destruct (nlms_update (localParams w) (prevVeEnabled w) (prevVeFilterLength w)
              (VoiceExclusion._nlmsL (ve w)) (VoiceExclusion._nlmsR (ve w)))
    as [[[[nlL nlR] pVeE] pVeL]|]; [|exact Hupd].
  destruct Hupd as (-> & -> & Hnl' & Hen' & Hlen').
  pose proof (aec_reconfigure_ok (localParams w)
                (with_nlms AecHandle VadHandle (ve w) nlL nlR) (aec_created o))
    as (Haec' & HkL & HkR).
  cbn zeta in Haec', HkL, HkR.
  set (ve2 := VoiceExclusion.aec_reconfigure AecHandle VadHandle (localParams w)
                (with_nlms AecHandle VadHandle (ve w) nlL nlR) (aec_created o)) in *.
  cbn [with_nlms VoiceExclusion._nlmsL VoiceExclusion._nlmsR VoiceExclusion._aecHandleL
       VoiceExclusion._aecHandleR] in Haec', HkL, HkR.
  specialize (Haec' Haec).
  destruct (vad_update VadHandle (localParams w) (prevVeVadEnabled w) (prevVeVadMode w)
              (VoiceExclusion._vadHandleRef ve2) (vad_created o)) as [[vad pVadE] pVadM].
  assert (Hagc' :
    paired
      (fst (if agc_changed _ _ _ _ (localParams w) w then
              if agcEnabled (localParams w) then
                let '(l, r) := both_or_none (agc_created o) in
                (configure_agc AgcHandle set_agc_config (localParams w) l,
                 configure_agc AgcHandle set_agc_config (localParams w) r)
              else (None, None)
            else (_agcHandleL w, _agcHandleR w)))
      (snd (if agc_changed _ _ _ _ (localParams w) w then
              if agcEnabled (localParams w) then
                let '(l, r) := both_or_none (agc_created o) in
                (configure_agc AgcHandle set_agc_config (localParams w) l,
                 configure_agc AgcHandle set_agc_config (localParams w) r)
              else (None, None)
            else (_agcHandleL w, _agcHandleR w)))).
  { destruct (agc_changed _ _ _ _ (localParams w) w); [|exact Hagc].
    destruct (agcEnabled (localParams w)); [|exact paired_none].
    pose proof (both_or_none_paired (agc_created o)) as H.
    destruct (both_or_none (agc_created o)) as [l r]. cbn [fst snd] in *.
    unfold paired in *. rewrite !configure_agc_is_Some. exact H. }
  match type of Hagc' with
  | paired (fst ?T) _ => destruct T as [agcL agcR]
  end.
  cbn [fst snd] in Hagc'.
  cbn [fst handles_paired nlms_as_configured applied localParamsChanged localParams
       hpDetected hpDetectCounter ve _nsHandleL _nsHandleR _agcHandleL _agcHandleR
       prevVeEnabled prevVeFilterLength with_vad VoiceExclusion._nlmsL
       VoiceExclusion._nlmsR VoiceExclusion._aecHandleL VoiceExclusion._aecHandleR].
  unfold handles_paired, nlms_as_configured, applied.
  cbn [localParamsChanged localParams
       hpDetected hpDetectCounter ve _nsHandleL _nsHandleR _agcHandleL _agcHandleR
       prevVeEnabled prevVeFilterLength with_vad VoiceExclusion._nlmsL
       VoiceExclusion._nlmsR VoiceExclusion._aecHandleL VoiceExclusion._aecHandleR].
  rewrite HkL, HkR.
  split; [split; [exact Hns'|]; split; [exact Hagc'|]; split; [exact Haec' | exact Hnl']|].
  split; [split; [exact Hen' | exact Hlen']|].
  split; [split; reflexivity|].
  split; [reflexivity|]. split; [reflexivity|]. split; reflexivity.
Qed.

(** *** One iteration *)

Lemma snapshot_cases (e e1 : AudioEngine) (lp lp' : AudioEngineParams) (ch ch' : bool) :
  snapshot e lp ch = Some (e1, lp', ch') ->
  _running e = true /\ _running e1 = true /\ _params e1 = _params e /\
  ((_paramsChanged e = true /\ lp' = _params e /\ ch' = true /\
    _paramsChanged e1 = false) \/
   (_paramsChanged e = false /\ lp' = lp /\ ch' = ch /\ e1 = e)).
Proof.
  unfold snapshot. destruct (_running e) eqn:Hr; [|discriminate]. cbn [negb].
  destruct (_paramsChanged e) eqn:Hc; intros [= <- <- <-].
  - cbn. split; [reflexivity|]. split; [reflexivity|]. split; [reflexivity|].
    left. split; [reflexivity|]. split; [reflexivity|]. split; reflexivity.
  - split; [reflexivity|]. split; [exact Hr|]. split; [reflexivity|].
    right. split; [reflexivity|]. split; [reflexivity|]. split; reflexivity.
Qed.

(** An iteration that goes through: the worker [w2] after the parameter
    block (which ran and did not throw, or was skipped), then the end at
    [continue] or after a processed block. *)
Lemma iteration_cases (e : AudioEngine) (w : Worker) (o : Outside) (s : Step _ _ _ _) :
  iteration e w o = Done s ->
  exists e1 lp ch w2,
    snapshot e (localParams w) (localParamsChanged w) = Some (e1, lp, ch) /\
    let e2 := fold_left call (racing_calls o) e1 in
    let w1 := with_local _ _ _ _ w lp ch in
    ((ch = true /\ exists c, apply_params w1 o (_params e2) = Some (w2, c)) \/
     (ch = false /\ w2 = w1)) /\
    (((samples_read (bytesRead o) <= 0)%Z /\
      step_worker s = w2 /\ step_engine s = e2 /\ step_written s = None) \/
     ((0 < samples_read (bytesRead o))%Z /\
      let r := process_block w2 (_levels e2) o (Z.to_nat (samples_read (bytesRead o))) in
      step_worker s = blk_worker r /\ step_engine s = publish e2 (blk_levels r) /\
      step_written s = Some (blk_written r))).
Proof.
  unfold Worker.iteration.
  destruct (snapshot e (localParams w) (localParamsChanged w)) as [[[e1 lp] ch]|];
    [|discriminate].
  assert (Hread : forall e2 w2 codec,
    ((samples_read (bytesRead o) <= 0)%Z /\
      step_worker (read_and_process _ _ _ _ ns_process agc_process aec_process
                     vad_process cast_undefined e2 w2 codec o) = w2 /\
      step_engine (read_and_process _ _ _ _ ns_process agc_process aec_process
                     vad_process cast_undefined e2 w2 codec o) = e2 /\
      step_written (read_and_process _ _ _ _ ns_process agc_process aec_process
                      vad_process cast_undefined e2 w2 codec o) = None) \/
     ((0 < samples_read (bytesRead o))%Z /\
      let r := process_block w2 (_levels e2) o (Z.to_nat (samples_read (bytesRead o))) in
      step_worker (read_and_process _ _ _ _ ns_process agc_process aec_process
                     vad_process cast_undefined e2 w2 codec o) = blk_worker r /\
      step_engine (read_and_process _ _ _ _ ns_process agc_process aec_process
                     vad_process cast_undefined e2 w2 codec o) = publish e2 (blk_levels r) /\
      step_written (read_and_process _ _ _ _ ns_process agc_process aec_process
                      vad_process cast_undefined e2 w2 codec o) = Some (blk_written r))).
  { intros e2 w2 codec. unfold read_and_process.
    destruct (samples_read (bytesRead o) <=? 0)%Z eqn:Hn.
    - left. apply Z.leb_le in Hn. cbn. tauto.
    - right. apply Z.leb_gt in Hn. cbn. tauto. }
  cbn zeta. destruct ch.
  - destruct (apply_params _ o _) as [[w2 c]|] eqn:Happly; [|discriminate].
    intros [= <-]. exists e1, lp, true, w2. split; [reflexivity|].
    split; [left; split; [reflexivity | exists c; exact Happly]|]. apply Hread.
  - intros [= <-]. exists e1, lp, false, (with_local _ _ _ _ w lp false).
    split; [reflexivity|]. split; [right; split; reflexivity|]. apply Hread.
Qed.

Lemma process_block_ok (w : Worker) (lv : AudioLevels) (o : Outside) (n : nat) :
  worker_ok w -> worker_ok (blk_worker (process_block w lv o n)).
Proof.
  intros ((Hns & Hagc & Haec & Hnl) & (Hcfg1 & Hcfg2) & Happ).
  pose proof (process_block_shape w lv o n) as Hshape. cbn zeta in Hshape.
  destruct Hshape as ((fl & fr & fhp & lv1 & Hve) & _ & Hlp & Hpe & Hpl & Hns' & Hagc').
  pose proof (process_block_keeps_flag w lv o n) as Hflag.
  pose proof (voice_exclusion_keeps_handles (localParams w)
                (snd (poll_headphone (hpDetectCounter w) (hpDetected w) (headphone o)))
                (with_levels _ _ (ve w) lv1) n fl fr fhp) as Hk.
  cbn zeta in Hk. rewrite <- Hve in Hk.
  cbn [with_levels VoiceExclusion._nlmsL VoiceExclusion._nlmsR
       VoiceExclusion._aecHandleL VoiceExclusion._aecHandleR] in Hk.
  destruct Hk as (Haec' & HsL & HsR & HlL & HlR).
  set (w' := blk_worker (process_block w lv o n)) in *.
  unfold worker_ok, handles_paired, nlms_as_configured, applied.
  rewrite Hlp, Hpe, Hpl, Hflag.
  split.
  { split; [exact (Hns' Hns)|]. split; [exact (Hagc' Hagc)|].
    split; [exact (Haec' Haec)|]. unfold paired in *. rewrite HsL, HsR. exact Hnl. }
  split; [|exact Happ].
  split; [rewrite HsL; exact Hcfg1|].
  intros f [Hf|Hf].
  - destruct (HlL f Hf) as (f0 & Hf0 & Hk). apply Hk, Hcfg2. left. exact Hf0.
  - destruct (HlR f Hf) as (f0 & Hf0 & Hk). apply Hk, Hcfg2. right. exact Hf0.
Qed.

Lemma with_local_ok (w : Worker) (lp : AudioEngineParams) (ch : bool) :
  handles_paired w -> nlms_as_configured w ->
  handles_paired (with_local _ _ _ _ w lp ch) /\
  nlms_as_configured (with_local _ _ _ _ w lp ch).
Proof. intros H1 H2. split; [exact H1 | exact H2]. Qed.

(** The worker after the parameter block, whether it ran or not. *)
Lemma params_stage (w w2 : Worker) (lp : AudioEngineParams) (ch : bool) (o : Outside)
    (shared : AudioEngineParams) :
  handles_paired w -> nlms_as_configured w ->
  (ch = true /\ exists c, apply_params (with_local _ _ _ _ w lp ch) o shared = Some (w2, c)) \/
  (ch = false /\ w2 = with_local _ _ _ _ w lp ch) ->
  handles_paired w2 /\ nlms_as_configured w2 /\ localParams w2 = lp /\
  hpDetected w2 = hpDetected w /\ hpDetectCounter w2 = hpDetectCounter w /\
  localParamsChanged w2 = false /\
  (ch = true -> applied w2) /\
  (ch = false ->
   prevVeEnabled w2 = prevVeEnabled w /\ prevVeFilterLength w2 = prevVeFilterLength w).
Proof.
  intros Hp Hc Hw2.
  destruct (with_local_ok w lp ch Hp Hc) as [Hp1 Hc1].
  destruct Hw2 as [(-> & c & Happly)|(-> & ->)].
  - pose proof (apply_params_ok _ o shared Hp1 Hc1) as H. rewrite Happly in H.
    destruct H as (A & B & C & D & E & F & G).
    split; [exact A|]. split; [exact B|]. split; [exact E|]. split; [exact F|].
    split; [exact G|]. split; [exact D|]. split; [intros _; exact C | discriminate].
  - split; [exact Hp1|]. split; [exact Hc1|]. split; [reflexivity|].
    split; [reflexivity|]. split; [reflexivity|]. split; [reflexivity|].
    split; [discriminate | intros _; split; reflexivity].
Qed.

(** An iteration keeps the handles in pairs and the NLMS filters as the
    worker's parameters ask, and ends with the change flag clear. *)
Lemma iteration_ok (e : AudioEngine) (w : Worker) (o : Outside) (s : Step _ _ _ _) :
  worker_ok w -> iteration e w o = Done s ->
  worker_ok (step_worker s) /\ localParamsChanged (step_worker s) = false.
Proof.
  intros (Hp & Hc & Happ) Hit.
  destruct (iteration_cases e w o s Hit) as (e1 & lp & ch & w2 & Hsnap & Hw2 & Hcases).
  cbn zeta in Hw2, Hcases.
  apply snapshot_cases in Hsnap as (_ & _ & _ & Hsnap).
  destruct (params_stage w w2 lp ch o _ Hp Hc Hw2)
    as (Hp2 & Hc2 & Hlp & _ & _ & Hfl & Hran & Hskipped).
  assert (Hok : worker_ok w2).
  { split; [exact Hp2|]. split; [exact Hc2|]. intros _.
    destruct ch; [apply Hran; reflexivity|].
    destruct (Hskipped eq_refl) as [He Hl].
    destruct Hsnap as [(_ & _ & Hx & _)|(_ & Hlp' & Hch & _)]; [discriminate Hx|].
    symmetry in Hch. destruct (Happ Hch) as [Ae Al].
    unfold applied. rewrite He, Hl, Hlp, Hlp'. split; assumption. }
  destruct Hcases as [(_ & -> & _)|(_ & Hr)].
  - split; assumption.
  - cbn zeta in Hr. destruct Hr as (-> & _). split.
    + apply process_block_ok. exact Hok.
    + rewrite process_block_keeps_flag. exact Hfl.
Qed.

Lemma at_entry_ok (fb : FilterBank.FilterBank) (params : AudioEngineParams)
    (nsCreated : option NsHandle * option NsHandle)
    (agcCreated : option AgcHandle * option AgcHandle)
    (buffers : list float * list float * list float * list Z) :
  worker_ok (at_entry fb params nsCreated agcCreated buffers) /\
  localParamsChanged (at_entry fb params nsCreated agcCreated buffers) = true.
Proof.
  unfold Worker.at_entry.
  assert (Hns : paired (fst (if nsEnabled params then both_or_none nsCreated
                             else (None, None)))
                       (snd (if nsEnabled params then both_or_none nsCreated
                             else (None, None)))).
  { destruct (nsEnabled params); [apply both_or_none_paired | exact paired_none]. }
  assert (Hagc : paired (fst (if agcEnabled params then both_or_none agcCreated
                              else (None, None)))
                        (snd (if agcEnabled params then both_or_none agcCreated
                              else (None, None)))).
  { destruct (agcEnabled params); [apply both_or_none_paired | exact paired_none]. }
  destruct (if nsEnabled params then both_or_none nsCreated else (None, None))
    as [nsL nsR].
  destruct (if agcEnabled params then both_or_none agcCreated else (None, None))
    as [agcL agcR].
  destruct buffers as [[[fl fr] fhp] ob]. cbn [fst snd] in *.
  split; [|reflexivity].
  split; [|split].
  - split; [exact Hns|]. split; [exact Hagc|]. split; exact paired_none.
  - split.
    + cbn. split; [intros [x Hx]; discriminate Hx | discriminate].
    + cbn. intros f [Hf|Hf]; discriminate Hf.
  - cbn. discriminate.
Qed.

Lemma run_ok (events : list (list SetterCall * Outside)) :
  forall (e : AudioEngine) (w : Worker) e' w',
    worker_ok w -> run e w events = Some (e', w') ->
    worker_ok w' /\ (events <> [] -> localParamsChanged w' = false).
Proof.
  induction events as [|[calls o] rest IH]; intros e w e' w' Hok Hrun.
  - injection Hrun as <- <-. split; [exact Hok | intros H; contradiction].
  - cbn [Worker.run] in Hrun.
    destruct (iteration (fold_left call calls e) w o) as [| |s] eqn:Hit;
      try discriminate Hrun.
    destruct (iteration_ok _ w o s Hok Hit) as [Hok1 Hfl1].
    destruct (IH _ _ _ _ Hok1 Hrun) as [Hok' Hfl'].
    split; [exact Hok'|]. intros _.
    destruct rest as [|ev rest'].
    + injection Hrun as <- <-. exact Hfl1.
    + apply Hfl'. discriminate.
Qed.

(** *** The worker's copy of the parameters *)

Lemma calls_coherent (calls : list SetterCall) (e : AudioEngine) (w : Worker) :
  coherent e w -> coherent (fold_left call calls e) w.
Proof.
  intros Hco. destruct calls as [|c calls]; [exact Hco|].
  destruct (calls_flags (c :: calls) e) as [_ Hc].
  unfold coherent. rewrite Hc by discriminate. discriminate.
Qed.

Lemma iteration_coherent (e : AudioEngine) (w : Worker) (o : Outside) (s : Step _ _ _ _) :
  worker_ok w -> coherent e w -> iteration e w o = Done s ->
  coherent (step_engine s) (step_worker s).
Proof.
  intros (Hp & Hc & _) Hco Hit.
  destruct (iteration_cases e w o s Hit) as (e1 & lp & ch & w2 & Hsnap & Hw2 & Hcases).
  cbn zeta in Hw2, Hcases.
  apply snapshot_cases in Hsnap as (_ & _ & Hpar & Hsnap).
  set (e2 := fold_left call (racing_calls o) e1) in *.
  destruct (params_stage w w2 lp ch o _ Hp Hc Hw2) as (_ & _ & Hlp & _).
  assert (H1 : _paramsChanged e1 = false -> lp = _params e1).
  { destruct Hsnap as [(_ & -> & _)|(Hc0 & -> & _ & ->)].
    - intros _. symmetry. exact Hpar.
    - exact Hco. }
  assert (H2 : _paramsChanged e2 = false -> lp = _params e2).
  { subst e2. destruct (racing_calls o) as [|c calls]; [exact H1|].
    destruct (calls_flags (c :: calls) e1) as [_ Hc2].
    rewrite Hc2 by discriminate. discriminate. }
  unfold coherent.
  destruct Hcases as [(_ & -> & -> & _)|(_ & Hr)].
  - rewrite Hlp. exact H2.
  - cbn zeta in Hr. destruct Hr as (-> & -> & _).
    pose proof (process_block_shape w2 (_levels e2) o
                  (Z.to_nat (samples_read (bytesRead o)))) as Hshape.
    cbn zeta in Hshape. destruct Hshape as (_ & _ & Hsame & _).
    rewrite Hsame, Hlp. exact H2.
Qed.

Lemma run_coherent (events : list (list SetterCall * Outside)) :
  forall (e : AudioEngine) (w : Worker) e' w',
    worker_ok w -> coherent e w -> run e w events = Some (e', w') -> coherent e' w'.
Proof.
  induction events as [|[calls o] rest IH]; intros e w e' w' Hok Hco Hrun.
  - injection Hrun as <- <-. exact Hco.
  - cbn [Worker.run] in Hrun.
    destruct (iteration (fold_left call calls e) w o) as [| |s] eqn:Hit;
      try discriminate Hrun.
    destruct (iteration_ok _ w o s Hok Hit) as [Hok1 _].
    apply (IH _ _ _ _ Hok1 (iteration_coherent _ w o s Hok (calls_coherent calls e w Hco) Hit)
             Hrun).
Qed.

(** *** The headphone poll *)

Lemma iteration_poll (e : AudioEngine) (w : Worker) (o : Outside) (s : Step _ _ _ _) :
  worker_ok w -> iteration e w o = Done s ->
  (hpDetectCounter (step_worker s), hpDetected (step_worker s)) =
    if (0 <? samples_read (bytesRead o))%Z
    then poll_headphone (hpDetectCounter w) (hpDetected w) (headphone o)
    else (hpDetectCounter w, hpDetected w).
Proof.
  intros (Hp & Hc & _) Hit.
  destruct (iteration_cases e w o s Hit) as (e1 & lp & ch & w2 & _ & Hw2 & Hcases).
  cbn zeta in Hw2, Hcases.
  set (e2 := fold_left call (racing_calls o) e1) in *.
  destruct (params_stage w w2 lp ch o _ Hp Hc Hw2) as (_ & _ & _ & Hdet & Hcnt & _).
  destruct Hcases as [(Hn & -> & _)|(Hn & Hr)].
  - apply Z.ltb_ge in Hn. rewrite Hn, Hcnt, Hdet. reflexivity.
  - apply Z.ltb_lt in Hn. rewrite Hn. cbn zeta in Hr. destruct Hr as (-> & _).
    pose proof (process_block_shape w2 (_levels e2) o
                  (Z.to_nat (samples_read (bytesRead o)))) as Hshape.
    cbn zeta in Hshape. destruct Hshape as (_ & Hpoll & _).
    rewrite Hpoll, Hcnt, Hdet. reflexivity.
Qed.

Lemma run_poll (events : list (list SetterCall * Outside)) :
  forall (e : AudioEngine) (w : Worker) e' w',
    worker_ok w -> run e w events = Some (e', w') ->
    (hpDetectCounter w', hpDetected w') =
      poll_run (probes_of events) (hpDetectCounter w, hpDetected w).
Proof.
  induction events as [|[calls o] rest IH]; intros e w e' w' Hok Hrun.
  - injection Hrun as <- <-. reflexivity.
  - cbn [Worker.run] in Hrun.
    destruct (iteration (fold_left call calls e) w o) as [| |s] eqn:Hit;
      try discriminate Hrun.
    destruct (iteration_ok _ w o s Hok Hit) as [Hok1 _].
    rewrite (IH _ _ _ _ Hok1 Hrun), (iteration_poll _ w o s Hok Hit).
    unfold probes_of, poll_run. cbn [List.filter snd].
    destruct (0 <? samples_read (bytesRead o))%Z; reflexivity.
Qed.

Lemma poll_run_snoc (probes : list bool) (probe : bool) (start : Z * bool) :
  poll_run (probes ++ [probe]) start =
    poll_headphone (fst (poll_run probes start)) (snd (poll_run probes start)) probe.
Proof. unfold poll_run. rewrite fold_left_app. reflexivity. Qed.

(** From the start of the loop, the counter is the number of blocks
    modulo 48 and the flag is the probe of the last 48th block. *)
Lemma poll_run_closed (probes : list bool) :
  poll_run probes (0%Z, false) =
    ((Z.of_nat (length probes) mod HP_DETECT_INTERVAL)%Z, held_probe probes).
Proof.
  induction probes as [|probe probes IH] using rev_ind; [reflexivity|].
  rewrite poll_run_snoc, IH. cbn [fst snd]. unfold poll_headphone, held_probe.
  rewrite length_app. cbn [length].
  change HP_DETECT_INTERVAL with 48%Z.
  set (k := Z.of_nat (length probes)).
  replace (Z.of_nat (length probes + 1)) with (k + 1)%Z by lia.
  assert (Hk : (0 <= k)%Z) by lia.
  destruct (48 <=? k mod 48 + 1)%Z eqn:Hwrap.
  - apply Z.leb_le in Hwrap.
    assert (Hmod : ((k + 1) mod 48 = 0)%Z) by (apply Z.mod_divide; [lia|];
      exists (k / 48 + 1)%Z; pose proof (Z.div_mod k 48); pose proof (Z.mod_pos_bound k 48);
      lia).
    rewrite Hmod.
    assert (Hlarge : (k + 1 <? 48)%Z = false).
    { apply Z.ltb_ge. pose proof (Z.mod_le k 48). pose proof (Z.mod_pos_bound k 48). lia. }
    rewrite Hlarge. f_equal.
    assert (Hidx : Z.to_nat (48 * ((k + 1) / 48) - 1) = length probes).
    { pose proof (Z.div_mod (k + 1) 48). lia. }
    rewrite Hidx.
    rewrite list_lookup_total_middle by reflexivity. reflexivity.
  - apply Z.leb_gt in Hwrap.
    assert (Hmod : ((k + 1) mod 48 = k mod 48 + 1)%Z).
    { pose proof (Z.mod_pos_bound k 48).
      symmetry. apply (Z.mod_unique_pos (k + 1) 48 (k / 48)); [lia|].
      pose proof (Z.div_mod k 48). lia. }
    rewrite Hmod. f_equal.
    assert (Hdiv : ((k + 1) / 48 = k / 48)%Z).
    { pose proof (Z.mod_pos_bound k 48).
      symmetry. apply (Z.div_unique_pos (k + 1) 48 (k / 48) (k mod 48 + 1)); [lia|].
      pose proof (Z.div_mod k 48). lia. }
    rewrite Hdiv.
    destruct (k + 1 <? 48)%Z eqn:Hsmall.
    + apply Z.ltb_lt in Hsmall.
      replace (k <? 48)%Z with true by (symmetry; apply Z.ltb_lt; lia). reflexivity.
    + apply Z.ltb_ge in Hsmall.
      assert (Hge : (48 <= k)%Z).
      { destruct (Z.eq_dec k 47%Z) as [E|]; [|lia]. rewrite E in Hwrap.
        discriminate Hwrap. }
      replace (k <? 48)%Z with false by (symmetry; apply Z.ltb_ge; lia).
      assert (Hin : (Z.to_nat (48 * (k / 48) - 1) < length probes)%nat).
      { pose proof (Z.div_mod k 48). pose proof (Z.mod_pos_bound k 48).
        assert (1 <= k / 48)%Z by (apply Z.div_le_lower_bound; lia). lia. }
      rewrite lookup_total_app_l by exact Hin. reflexivity.
Qed.
End Helpers.
End WorkerFacts.

Module WorkerTheorems.
Import F32 Engine Setters Worker WorkerProps SetterFacts WorkerFacts.

Section Helpers.
Variable NsHandle AgcHandle AecHandle VadHandle : Type.
Variable ns_process : NsHandle -> list Z -> NsHandle * list Z.
Variable agc_process : AgcHandle -> list Z -> AgcHandle * list Z.
Variable set_agc_config : AgcHandle -> Z -> Z -> Z -> AgcHandle.
Variable aec_process : AecHandle -> list Z -> list Z -> AecHandle * list Z.
Variable vad_process : VadHandle -> list Z -> VadHandle * bool.
Variable cast_undefined : float -> Z.
Variable cosf sinf : float -> float.
Variable powf : float -> float -> float.

Local Abbreviation Worker := (Worker NsHandle AgcHandle AecHandle VadHandle).
Local Abbreviation Outside := (Outside NsHandle AgcHandle AecHandle VadHandle).
Local Abbreviation run :=
  (run NsHandle AgcHandle AecHandle VadHandle ns_process agc_process
     set_agc_config aec_process vad_process cast_undefined cosf sinf powf).
Local Abbreviation at_entry := (at_entry NsHandle AgcHandle AecHandle VadHandle).

(** X15: after any number of iterations of the worker loop (at least
    one) that the loop went through, with any setter calls in between
    and whatever the creation calls return, the NS, AGC, AEC and NLMS
    helpers of the two channels exist together or not at all, and the
    NLMS filters exist exactly when [veEnabled] is set in the worker's
    parameters, each with [veFilterLength] taps: both of its arrays are
    allocated with that many elements.  (A run in which [init] is reached
    with a negative length ends there, with its exception.) *)
Theorem helpers_stay_paired_and_nlms_follows_settings
    (fb : FilterBank.FilterBank) (params : AudioEngineParams)
    (nsCreated : option NsHandle * option NsHandle)
    (agcCreated : option AgcHandle * option AgcHandle)
    (buffers : list float * list float * list float * list Z)
    (e : AudioEngine) (events : list (list SetterCall * Outside))
    (e' : AudioEngine) (w' : Worker) :
  events <> [] ->
  run e (at_entry fb params nsCreated agcCreated buffers) events = Some (e', w') ->
  handles_paired w' /\
  (is_Some (VoiceExclusion._nlmsL (ve w')) <-> veEnabled (localParams w') = true) /\
  forall f,
    VoiceExclusion._nlmsL (ve w') = Some f \/ VoiceExclusion._nlmsR (ve w') = Some f ->
    exists taps refs,
      Nlms._weights f = Some taps /\ Nlms._refBuf f = Some refs /\
      Z.of_nat (length taps) = veFilterLength (localParams w') /\
      Z.of_nat (length refs) = veFilterLength (localParams w') /\
      Nlms._len f = veFilterLength (localParams w').
Proof.
  intros Hne Hrun.
  destruct (at_entry_ok NsHandle AgcHandle AecHandle VadHandle fb params nsCreated
              agcCreated buffers) as [Hok _].
  destruct (run_ok _ _ _ _ ns_process agc_process set_agc_config aec_process
              vad_process cast_undefined cosf sinf powf events _ _ _ _ Hok Hrun)
    as [(Hp & (Hc1 & Hc2) & Happ) Hfl].
  destruct (Happ (Hfl Hne)) as [He Hl].
  split; [exact Hp|]. rewrite <- He, <- Hl. split; [exact Hc1 | exact Hc2].
Qed.

(** X16: a parameter written by a setter is never lost: after any run of
    the loop, either [_paramsChanged] is still set, or the worker's copy
    of the parameters is the shared record [_params]. *)
Theorem worker_parameters_never_stale
    (fb : FilterBank.FilterBank) (params : AudioEngineParams)
    (nsCreated : option NsHandle * option NsHandle)
    (agcCreated : option AgcHandle * option AgcHandle)
    (buffers : list float * list float * list float * list Z)
    (e : AudioEngine) (events : list (list SetterCall * Outside))
    (e' : AudioEngine) (w' : Worker) :
  _paramsChanged e = true ->
  run e (at_entry fb params nsCreated agcCreated buffers) events = Some (e', w') ->
  _paramsChanged e' = true \/ localParams w' = getParams e'.
Proof.
  intros Hflag Hrun.
  destruct (at_entry_ok NsHandle AgcHandle AecHandle VadHandle fb params nsCreated
              agcCreated buffers) as [Hok _].
  assert (Hco : coherent e (at_entry fb params nsCreated agcCreated buffers)).
  { unfold coherent. rewrite Hflag. discriminate. }
  pose proof (run_coherent _ _ _ _ ns_process agc_process set_agc_config aec_process
                vad_process cast_undefined cosf sinf powf events _ _ _ _ Hok Hco Hrun)
    as Hco'.
  unfold coherent in Hco'.
  destruct (_paramsChanged e'); [left; reflexivity | right; apply Hco'; reflexivity].
Qed.

(** X17: the headphone jack is probed on every 48th processed block
    only.  After a run of the loop from its entry, the counter is the
    number of processed blocks modulo 48, and the worker's [hpDetected]
    is false during the first 47 blocks and afterwards the probe of the
    last block whose number is a multiple of 48; iterations whose read
    gave no sample do not count. *)
Theorem headphone_probed_every_48th_block
    (fb : FilterBank.FilterBank) (params : AudioEngineParams)
    (nsCreated : option NsHandle * option NsHandle)
    (agcCreated : option AgcHandle * option AgcHandle)
    (buffers : list float * list float * list float * list Z)
    (e : AudioEngine) (events : list (list SetterCall * Outside))
    (e' : AudioEngine) (w' : Worker) :
  run e (at_entry fb params nsCreated agcCreated buffers) events = Some (e', w') ->
  hpDetectCounter w' = (Z.of_nat (length (probes_of events)) mod HP_DETECT_INTERVAL)%Z /\
  hpDetected w' = held_probe (probes_of events).
Proof.
  intros Hrun.
  destruct (at_entry_ok NsHandle AgcHandle AecHandle VadHandle fb params nsCreated
              agcCreated buffers) as [Hok _].
  pose proof (run_poll _ _ _ _ ns_process agc_process set_agc_config aec_process
                vad_process cast_undefined cosf sinf powf events _ _ _ _ Hok Hrun)
    as Hpoll.
  assert (Hstart : (hpDetectCounter (at_entry fb params nsCreated agcCreated buffers),
                    hpDetected (at_entry fb params nsCreated agcCreated buffers))
                   = (0%Z, false)).
  { unfold Worker.at_entry.
    destruct (if nsEnabled params then _ else _) as [nsL nsR].
    destruct (if agcEnabled params then _ else _) as [agcL agcR].
    destruct buffers as [[[fl fr] fhp] ob]. reflexivity. }
  rewrite Hstart, poll_run_closed in Hpoll.
  injection Hpoll as H1 H2. split; assumption.
Qed.

(** X20: noise suppression, gain control and voice exclusion run on full
    blocks only.  A read of any other length is filtered, metered and
    written, but the helper handles, the eight resamplers of steps 8 and
    8b and the step-7 state (its level registers apart) stay as they
    were, even with all three stages enabled. *)
Theorem short_block_bypasses_helpers
    (w : Worker) (lv : AudioLevels) (o : Outside) (n : nat) :
  n <> BLOCK_SIZE ->
  let r := process_block NsHandle AgcHandle AecHandle VadHandle ns_process agc_process
             aec_process vad_process cast_undefined w lv o n in
  let w' := blk_worker r in
  let ex := extract_channels n (inBuf o) (floatL w) (floatR w) (floatHP w) in
  let mf := FilterBank.main_filters (filters w) (localParams w) n
              (fst (fst ex)) (snd (fst ex)) in
  (_nsHandleL w', _nsHandleR w', _agcHandleL w', _agcHandleR w')
    = (_nsHandleL w, _nsHandleR w, _agcHandleL w, _agcHandleR w) /\
  (resamplerDownL w', resamplerDownR w', resamplerUpL w', resamplerUpR w')
    = (resamplerDownL w, resamplerDownR w, resamplerUpL w, resamplerUpR w) /\
  (agcResDownL w', agcResDownR w', agcResUpL w', agcResUpR w')
    = (agcResDownL w, agcResDownR w, agcResUpL w, agcResUpR w) /\
  (exists lv1, ve w' = with_levels _ _ (ve w) lv1) /\
  blk_written r =
    Output.res_written
      (Output.output_stage cast_undefined (localParams w) lv n (snd (fst mf)) (snd mf)
         (outBuf w)).
Proof.
  intros Hn. cbn zeta.
  assert (Hneq : (n =? BLOCK_SIZE) = false) by (apply Nat.eqb_neq; exact Hn).
  unfold Worker.process_block.
  destruct (extract_channels n (inBuf o) (floatL w) (floatR w) (floatHP w))
    as [[fl0 fr0] fhp0].
  cbn [fst snd].
  destruct (FilterBank.main_filters (filters w) (localParams w) n fl0 fr0)
    as [[fb1 fl1] fr1].
  destruct (FilterBank.condition_reference fb1 (localParams w) n fhp0) as [fb2 fhp1].
  destruct (poll_headphone (hpDetectCounter w) (hpDetected w) (headphone o))
    as [counter detected].
  unfold VoiceExclusion.voice_exclusion.
  change VoiceExclusion.BLOCK_SIZE with BLOCK_SIZE.
  rewrite Hneq, !andb_false_r. cbn beta iota zeta.
  cbn [blk_worker blk_written with_buffers after_front _nsHandleL _nsHandleR
       _agcHandleL _agcHandleR resamplerDownL resamplerDownR resamplerUpL resamplerUpR
       agcResDownL agcResDownR agcResUpL agcResUpR ve outBuf].
  split; [reflexivity|]. split; [reflexivity|]. split; [reflexivity|].
  split; [eexists; reflexivity|].
  unfold Output.output_stage. cbn [fst snd].
  destruct (Output.apply_gain (outputGain (localParams w)) n fl1 fr1) as [fl fr].
  reflexivity.
Qed.
End Helpers.

Lemma short_block_bypasses_helpers_witness :
  let w := MoreExamples.entry_worker in
  let o := MoreExamples.outside MoreExamples.two_frames 16 true in
  let r := process_block unit unit unit unit MoreExamples.echo MoreExamples.echo
             MoreExamples.echo_near MoreExamples.no_speech MoreExamples.cast_zero
             w default_levels o 2 in
  let w' := blk_worker r in
  let ex := extract_channels 2 (inBuf o) (floatL w) (floatR w) (floatHP w) in
  let mf := FilterBank.main_filters (filters w) (localParams w) 2
              (fst (fst ex)) (snd (fst ex)) in
  (_nsHandleL w', _nsHandleR w', _agcHandleL w', _agcHandleR w')
    = (_nsHandleL w, _nsHandleR w, _agcHandleL w, _agcHandleR w) /\
  (resamplerDownL w', resamplerDownR w', resamplerUpL w', resamplerUpR w')
    = (resamplerDownL w, resamplerDownR w, resamplerUpL w, resamplerUpR w) /\
  (agcResDownL w', agcResDownR w', agcResUpL w', agcResUpR w')
    = (agcResDownL w, agcResDownR w, agcResUpL w, agcResUpR w) /\
  (exists lv1, ve w' = with_levels _ _ (ve w) lv1) /\
  blk_written r =
    Output.res_written
      (Output.output_stage MoreExamples.cast_zero (localParams w) default_levels 2
         (snd (fst mf)) (snd mf) (outBuf w)).
Proof.
  apply (short_block_bypasses_helpers unit unit unit unit MoreExamples.echo
           MoreExamples.echo MoreExamples.echo_near MoreExamples.no_speech
           MoreExamples.cast_zero MoreExamples.entry_worker default_levels
           (MoreExamples.outside MoreExamples.two_frames 16 true) 2).
  vm_compute. lia.
Defined.

Lemma worker_parameters_never_stale_witness :
  exists e' w',
    MoreExamples.example_run MoreExamples.running_engine MoreExamples.entry_worker
      [([CallSetVeEnabled true], MoreExamples.outside (replicate 1920 100%Z) 0 true)]
      = Some (e', w') /\
    (_paramsChanged e' = true \/ localParams w' = getParams e').
Proof.
  eexists _, _.
  refine ((fun H => conj H
    (worker_parameters_never_stale unit unit unit unit
       MoreExamples.echo MoreExamples.echo MoreExamples.keep_config MoreExamples.echo_near
       MoreExamples.no_speech MoreExamples.cast_zero MoreExamples.same MoreExamples.same
       MoreExamples.first_arg FilterBank.fresh default_params (None, None) (None, None)
       (replicate 480 zero, replicate 480 zero, replicate 480 zero, replicate 960 0%Z)
       MoreExamples.running_engine
       [([CallSetVeEnabled true], MoreExamples.outside (replicate 1920 100%Z) 0 true)]
       _ _ eq_refl H)) _).
  vm_compute. reflexivity.
Defined.

Lemma headphone_probed_every_48th_block_witness :
  exists e' w',
    MoreExamples.example_run MoreExamples.running_engine MoreExamples.entry_worker
      [([], MoreExamples.outside (replicate 1920 100%Z) 8 true);
       ([], MoreExamples.outside (replicate 1920 100%Z) 0 true);
       ([], MoreExamples.outside (replicate 1920 100%Z) 8 true)]
      = Some (e', w') /\
    hpDetectCounter w' = 2%Z /\ hpDetected w' = false.
Proof.
  eexists _, _.
  refine ((fun H => conj H
    (headphone_probed_every_48th_block unit unit unit unit
       MoreExamples.echo MoreExamples.echo MoreExamples.keep_config MoreExamples.echo_near
       MoreExamples.no_speech MoreExamples.cast_zero MoreExamples.same MoreExamples.same
       MoreExamples.first_arg FilterBank.fresh default_params (None, None) (None, None)
       (replicate 480 zero, replicate 480 zero, replicate 480 zero, replicate 960 0%Z)
       MoreExamples.running_engine
       [([], MoreExamples.outside (replicate 1920 100%Z) 8 true);
        ([], MoreExamples.outside (replicate 1920 100%Z) 0 true);
        ([], MoreExamples.outside (replicate 1920 100%Z) 8 true)]
       _ _ H)) _).
  vm_compute. reflexivity.
Defined.

Lemma helpers_stay_paired_and_nlms_follows_settings_witness :
  exists e' w',
    MoreExamples.example_run MoreExamples.running_engine MoreExamples.entry_worker
      [([CallSetVeEnabled true], MoreExamples.outside (replicate 1920 100%Z) 3840 true)]
      = Some (e', w') /\
    handles_paired w' /\
    (is_Some (VoiceExclusion._nlmsL (ve w')) <-> veEnabled (localParams w') = true) /\
    forall f,
      VoiceExclusion._nlmsL (ve w') = Some f \/ VoiceExclusion._nlmsR (ve w') = Some f ->
      exists taps refs,
        Nlms._weights f = Some taps /\ Nlms._refBuf f = Some refs /\
        Z.of_nat (length taps) = veFilterLength (localParams w') /\
        Z.of_nat (length refs) = veFilterLength (localParams w') /\
        Nlms._len f = veFilterLength (localParams w').
Proof.
  eexists _, _.
  refine ((fun H => conj H
    (helpers_stay_paired_and_nlms_follows_settings unit unit unit unit
       MoreExamples.echo MoreExamples.echo MoreExamples.keep_config MoreExamples.echo_near
       MoreExamples.no_speech MoreExamples.cast_zero MoreExamples.same MoreExamples.same
       MoreExamples.first_arg FilterBank.fresh default_params (None, None) (None, None)
       (replicate 480 zero, replicate 480 zero, replicate 480 zero, replicate 960 0%Z)
       MoreExamples.running_engine
       [([CallSetVeEnabled true], MoreExamples.outside (replicate 1920 100%Z) 3840 true)]
       _ _ ltac:(discriminate) H)) _).
  vm_compute. reflexivity.
Defined.
End WorkerTheorems.


(** ** The pipeline at flat settings *)

Module TransparencyFacts.
Import F32 Engine Worker WorkerProps F32Exact BiquadTheorems OutputFacts.

Lemma all_from_spec (f : Z -> bool) (n : nat) :
  forall z, all_from f z n = true ->
  forall k, (z <= k < z + Z.of_nat n)%Z -> f k = true.
Proof.
  induction n as [|n IH]; intros z Hall k Hk; [lia|].
  cbn [all_from] in Hall. apply andb_true_iff in Hall as [Hz Hrest].
  destruct (Z.eq_dec k z) as [->|Hne]; [exact Hz|].
  apply (IH (z + 1)%Z Hrest). lia.
Qed.

Lemma int16_sample_check (z : Z) : int16 z -> sample_check z = true.
Proof.
  intros [Hlo Hhi].
  apply (all_from_spec sample_check (Z.to_nat 65536) (-32768)%Z).
  - vm_compute. reflexivity.
  - lia.
Qed.

Lemma mul_comm (x y : float) : mul x y = mul y x.
Proof.
  destruct x as [sx|sx| |sx mx ex], y as [sy|sy| |sy my ey]; cbn;
    rewrite ?(xorb_comm sx sy); try reflexivity.
  rewrite (Pos.mul_comm mx my), (Z.add_comm ex ey). reflexivity.
Qed.

Lemma mul_one_r (x : float) : clean x = true -> mul x one = x.
Proof.
  unfold clean. intros H. apply andb_true_iff in H as [H Hnz].
  apply andb_true_iff in H as [Hv Hf].
  destruct x as [s| | |s m e]; try discriminate Hf.
  - destruct s; [discriminate Hnz | reflexivity].
  - rewrite mul_comm. apply mul_one_l_finite. exact Hv.
Qed.

(** A conversion that gives a 16-bit value with one target gives it with
    every target. *)
Lemma to_int16_defined (cast : float -> Z) (x : float) (r : Z) :
  Output.to_int16 (fun _ => 65536%Z) x = r -> r <> 65536%Z ->
  Output.to_int16 cast x = r.
Proof.
  unfold Output.to_int16. destruct (trunc x) as [z|].
  - destruct ((-32768 <=? z) && (z <=? 32767))%Z; [tauto | congruence].
  - congruence.
Qed.

Lemma unity_sample (cast : float -> Z) (z : Z) :
  int16 z ->
  clean (mul (of_Z z) scale) = true /\
  Output.to_int16 cast
    (mul (clamp (mul (of_Z z) scale) Output.minus_one one) Output.full_scale)
  = toward_zero z.
Proof.
  intros Hz. pose proof (int16_sample_check z Hz) as Hc.
  unfold sample_check in Hc. cbn zeta in Hc.
  apply andb_true_iff in Hc as [Hclean Heq]. apply Z.eqb_eq in Heq.
  split; [exact Hclean|].
  apply to_int16_defined; [exact Heq|].
  unfold toward_zero. destruct Hz as [Hlo Hhi]. lia.
Qed.

Lemma insert_same (l : list float) (i : nat) : <[i := l !!! i]> l = l.
Proof.
  destruct (l !! i) as [x|] eqn:Hx.
  - rewrite (list_lookup_total_correct l i x Hx). apply list_insert_id. exact Hx.
  - apply list_insert_ge. apply lookup_ge_None. exact Hx.
Qed.

(** A section at rest hands a clean sample back and stays at rest. *)
Lemma process_at_rest (bq : Biquad.Biquad) (x : float) :
  at_rest bq -> clean x = true ->
  exists bq', Biquad.process bq x = (bq', x) /\ at_rest bq'.
Proof.
  intros (Hid & Hz1 & Hz2) Hx. unfold clean in Hx.
  apply andb_true_iff in Hx as [Hx Hnz]. apply andb_true_iff in Hx as [Hv Hf].
  pose proof (identity_step bq x Hid Hz1 Hz2 Hv Hf) as Hstep.
  destruct (Biquad.process bq x) as [bq' y].
  destruct Hstep as (Hid' & Hz1' & Hz2' & Hsame).
  exists bq'. split.
  - f_equal. destruct Hsame as [->|[-> _]]; [reflexivity | discriminate Hnz].
  - split; [exact Hid'|]. split; assumption.
Qed.

Lemma stereo_filter_at_rest (n : nat) (bqL bqR : Biquad.Biquad) (fl fr : list float) :
  at_rest bqL -> at_rest bqR ->
  (forall i, i < n -> clean (fl !!! i) = true) ->
  (forall i, i < n -> clean (fr !!! i) = true) ->
  exists bqL' bqR',
    FilterBank.stereo_filter bqL bqR n fl fr = (bqL', bqR', fl, fr) /\
    at_rest bqL' /\ at_rest bqR'.
Proof.
  intros HL HR. unfold FilterBank.stereo_filter.
  induction n as [|n IH]; intros Hfl Hfr.
  - exists bqL, bqR. split; [reflexivity|]. split; assumption.
  - assert (Hfl' : forall i, i < n -> clean (fl !!! i) = true)
      by (intros i Hi; apply Hfl; lia).
    assert (Hfr' : forall i, i < n -> clean (fr !!! i) = true)
      by (intros i Hi; apply Hfr; lia).
    destruct (IH Hfl' Hfr') as (bL & bR & Heq & HbL & HbR).
    rewrite seq_S, fold_left_app, Heq. cbn [fold_left Nat.add FilterBank.stereo_step].
    destruct (process_at_rest bL (fl !!! n) HbL (Hfl n ltac:(lia))) as (bL' & -> & HbL').
    destruct (process_at_rest bR (fr !!! n) HbR (Hfr n ltac:(lia))) as (bR' & -> & HbR').
    rewrite !insert_same. exists bL', bR'. split; [reflexivity|]. split; assumption.
Qed.

(** Steps 3 to 5 with both filters off and the equalizer at rest. *)
Lemma main_filters_flat (fb : FilterBank.FilterBank) (p : AudioEngineParams) (n : nat)
    (fl fr : list float) :
  hpfEnabled p = false -> lpfEnabled p = false -> eq_at_rest fb ->
  (forall i, i < n -> clean (fl !!! i) = true) ->
  (forall i, i < n -> clean (fr !!! i) = true) ->
  exists fb', FilterBank.main_filters fb p n fl fr = (fb', fl, fr) /\ eq_at_rest fb'.
Proof.
  intros Hh Hl (H1 & H2 & H3 & H4 & H5 & H6) Hfl Hfr.
  unfold FilterBank.main_filters. rewrite Hh, Hl.
  destruct (stereo_filter_at_rest n _ _ fl fr H1 H2 Hfl Hfr) as (a1 & a2 & -> & Ha1 & Ha2).
  destruct (stereo_filter_at_rest n _ _ fl fr H3 H4 Hfl Hfr) as (b1 & b2 & -> & Hb1 & Hb2).
  destruct (stereo_filter_at_rest n _ _ fl fr H5 H6 Hfl Hfr) as (c1 & c2 & -> & Hc1 & Hc2).
  eexists. split; [reflexivity|].
  unfold eq_at_rest. cbn. tauto.
Qed.

Lemma condition_reference_keeps_eq (fb : FilterBank.FilterBank) (p : AudioEngineParams)
    (n : nat) (fhp : list float) :
  eq_at_rest fb -> eq_at_rest (fst (FilterBank.condition_reference fb p n fhp)).
Proof.
  intros H. unfold FilterBank.condition_reference.
  destruct (FilterBank.mono_filter (FilterBank._veRefHpfBq fb) n _) as [rH hp2].
  destruct (FilterBank.mono_filter (FilterBank._veRefLpfBq fb) n hp2) as [rL hp3].
  exact H.
Qed.

Lemma gain_unity (n : nat) (fl fr : list float) :
  (forall i, i < n -> clean (fl !!! i) = true) ->
  (forall i, i < n -> clean (fr !!! i) = true) ->
  Output.apply_gain one n fl fr = (fl, fr).
Proof.
  unfold Output.apply_gain. induction n as [|n IH]; intros Hfl Hfr; [reflexivity|].
  rewrite seq_S, fold_left_app.
  rewrite IH; [|intros i Hi; apply Hfl; lia | intros i Hi; apply Hfr; lia].
  cbn [fold_left Nat.add]. unfold Output.gain_step. cbn [fst snd].
  rewrite (mul_one_r _ (Hfl n ltac:(lia))), (mul_one_r _ (Hfr n ltac:(lia))).
  rewrite !insert_same. reflexivity.
Qed.

(** Step 2 fills the first [n] places of the two main buffers. *)
Lemma extract_channels_lookup (n : nat) (inBuf : list Z) (fl fr fhp : list float) :
  n <= length fl -> n <= length fr ->
  let r := extract_channels n inBuf fl fr fhp in
  length (fst (fst r)) = length fl /\ length (snd (fst r)) = length fr /\
  forall i, i < n ->
    fst (fst r) !!! i = mul (of_Z (inBuf !!! (i * 4 + 0))) scale /\
    snd (fst r) !!! i = mul (of_Z (inBuf !!! (i * 4 + 2))) scale.
Proof.
  cbn zeta. unfold extract_channels.
  induction n as [|n IH]; intros Hl Hr.
  - cbn. split; [reflexivity|]. split; [reflexivity|]. intros i Hi. lia.
  - rewrite seq_S, fold_left_app. cbn [fold_left Nat.add].
    destruct (IH ltac:(lia) ltac:(lia)) as (IHl & IHr & IHi).
    destruct (fold_left (extract_step inBuf) (seq 0 n) (fl, fr, fhp)) as [[bl br] bhp].
    cbn [fst snd] in *. unfold extract_step. cbn [fst snd].
    rewrite !length_insert. split; [exact IHl|]. split; [exact IHr|].
    intros i Hi. destruct (decide (i = n)) as [->|Hne].
    + rewrite !list_lookup_total_insert_eq by lia. split; reflexivity.
    + rewrite !list_lookup_total_insert_ne by congruence. apply IHi. lia.
Qed.

(** Step 11 writes the two channels of sample [i] at [2 i] and [2 i + 1]. *)
Lemma convert_block_lookup (cast : float -> Z) (n : nat) (fl fr : list float)
    (ob : list Z) :
  n * 2 <= length ob ->
  forall i, i < n ->
    Output.convert_block cast n fl fr ob !!! (i * 2 + 0) =
      Output.to_int16 cast (mul (clamp (fl !!! i) Output.minus_one one) Output.full_scale) /\
    Output.convert_block cast n fl fr ob !!! (i * 2 + 1) =
      Output.to_int16 cast (mul (clamp (fr !!! i) Output.minus_one one) Output.full_scale).
Proof.
  induction n as [|n IH]; intros Hn i Hi; [lia|].
  unfold Output.convert_block. rewrite seq_S, fold_left_app. cbn [fold_left Nat.add].
  fold (Output.convert_block cast n fl fr ob).
  pose proof (convert_block_length cast n fl fr ob) as Hlen.
  unfold Output.convert_step.
  destruct (decide (i = n)) as [->|Hne].
  - split.
    + rewrite list_lookup_total_insert_ne by lia.
      rewrite list_lookup_total_insert_eq by lia. reflexivity.
    + rewrite list_lookup_total_insert_eq by (rewrite length_insert; lia). reflexivity.
  - rewrite !list_lookup_total_insert_ne by lia. apply IH; lia.
Qed.
End TransparencyFacts.

Module TransparencyTheorems.
Import F32 Engine Worker WorkerProps OutputFacts TransparencyFacts.

Section Helpers.
Variable NsHandle AgcHandle AecHandle VadHandle : Type.
Variable ns_process : NsHandle -> list Z -> NsHandle * list Z.
Variable agc_process : AgcHandle -> list Z -> AgcHandle * list Z.
Variable aec_process : AecHandle -> list Z -> list Z -> AecHandle * list Z.
Variable vad_process : VadHandle -> list Z -> VadHandle * bool.
Variable cast_undefined : float -> Z.

Local Abbreviation Worker := (Worker NsHandle AgcHandle AecHandle VadHandle).
Local Abbreviation Outside := (Outside NsHandle AgcHandle AecHandle VadHandle).
Local Abbreviation process_block :=
  (process_block NsHandle AgcHandle AecHandle VadHandle ns_process agc_process
     aec_process vad_process cast_undefined).

(** X18: at flat settings (filters, noise suppression, gain control and
    voice exclusion off, unity output gain, not muted) and with the
    equalizer bands bypassed and at rest, a block of 16-bit input
    samples comes out one step closer to zero: sample [i] of input
    channels 0 and 2 is written to output places [2 i] and [2 i + 1] as
    [x - sgn x], and the equalizer is at rest again for the next
    block. *)
Theorem flat_pipeline_moves_samples_one_step_toward_zero
    (w : Worker) (lv : AudioLevels) (o : Outside) (n : nat) :
  flat (localParams w) -> eq_at_rest (filters w) ->
  n <= length (floatL w) -> n <= length (floatR w) -> n * 2 <= length (outBuf w) ->
  Forall int16 (inBuf o) ->
  let r := process_block w lv o n in
  length (blk_written r) = n * 2 /\
  (forall i, i < n ->
     blk_written r !!! (i * 2) = toward_zero (inBuf o !!! (i * 4)) /\
     blk_written r !!! (i * 2 + 1) = toward_zero (inBuf o !!! (i * 4 + 2))) /\
  eq_at_rest (filters (blk_worker r)).
Proof.
  intros (Hhpf & Hlpf & Hns & Hagc & Hve & Hgain & Hmute) Hrest HlenL HlenR HlenO Hin.
  cbn zeta.
  assert (Hint : forall k, int16 (inBuf o !!! k)).
  { intros k. destruct (inBuf o !! k) as [z|] eqn:Hz.
    - rewrite (list_lookup_total_correct _ _ _ Hz).
      apply (Forall_lookup_1 _ _ _ _ Hin Hz).
    - rewrite list_lookup_total_alt, Hz. cbn. unfold int16. lia. }
  unfold Worker.process_block.
  pose proof (extract_channels_lookup n (inBuf o) (floatL w) (floatR w) (floatHP w)
                HlenL HlenR) as Hex.
  cbn zeta in Hex.
  destruct (extract_channels n (inBuf o) (floatL w) (floatR w) (floatHP w))
    as [[fl0 fr0] fhp0].
  cbn [fst snd] in Hex. destruct Hex as (Hl0 & Hr0 & Hsamp).
  assert (HcleanL : forall i, i < n -> clean (fl0 !!! i) = true).
  { intros i Hi. destruct (Hsamp i Hi) as [-> _].
    apply (unity_sample cast_undefined). apply Hint. }
  assert (HcleanR : forall i, i < n -> clean (fr0 !!! i) = true).
  { intros i Hi. destruct (Hsamp i Hi) as [_ ->].
    apply (unity_sample cast_undefined). apply Hint. }
  destruct (main_filters_flat (filters w) (localParams w) n fl0 fr0 Hhpf Hlpf Hrest
              HcleanL HcleanR) as (fb1 & -> & Hrest1).
  pose proof (condition_reference_keeps_eq fb1 (localParams w) n fhp0 Hrest1) as Hrest2.
  destruct (FilterBank.condition_reference fb1 (localParams w) n fhp0) as [fb2 fhp1].
  cbn [fst] in Hrest2.
  destruct (poll_headphone (hpDetectCounter w) (hpDetected w) (headphone o))
    as [counter detected].
  unfold VoiceExclusion.voice_exclusion. rewrite Hve, Hns, Hagc. cbn [andb].
  cbn beta iota zeta.
  cbn [_nsHandleL _nsHandleR _agcHandleL _agcHandleR after_front outBuf].
  unfold Output.output_stage. rewrite Hgain, Hmute, (gain_unity n fl0 fr0 HcleanL HcleanR).
  cbn [blk_written blk_worker with_buffers filters Output.res_written Output.res_outBuf].
  split.
  { rewrite length_take, convert_block_length.
    change Output.NUM_CHANNELS_OUT with 2. lia. }
  split; [|exact Hrest2].
  intros i Hi.
  pose proof (convert_block_lookup cast_undefined n fl0 fr0 (outBuf w) HlenO i Hi)
    as [HcL HcR].
  destruct (Hsamp i Hi) as [HsL HsR].
  change Output.NUM_CHANNELS_OUT with 2.
  rewrite !lookup_total_take.
  destruct (decide (i * 2 < n * 2)); [|lia].
  destruct (decide (i * 2 + 1 < n * 2)); [|lia].
  replace (i * 2 + 0) with (i * 2) in HcL by lia.
  rewrite HcL, HcR, HsL, HsR.
  replace (i * 4 + 0) with (i * 4) by lia.
  split; apply (unity_sample cast_undefined); apply Hint.
Qed.
End Helpers.

Lemma flat_pipeline_moves_samples_one_step_toward_zero_witness :
  let r := process_block unit unit unit unit MoreExamples.echo MoreExamples.echo
             MoreExamples.echo_near MoreExamples.no_speech MoreExamples.cast_zero
             MoreExamples.flat_worker default_levels
             (MoreExamples.outside MoreExamples.two_frames 16 false) 2 in
  length (blk_written r) = 2 * 2 /\
  (forall i, i < 2 ->
     blk_written r !!! (i * 2) = toward_zero (MoreExamples.two_frames !!! (i * 4)) /\
     blk_written r !!! (i * 2 + 1) = toward_zero (MoreExamples.two_frames !!! (i * 4 + 2))) /\
  eq_at_rest (filters (blk_worker r)).
Proof.
  apply (flat_pipeline_moves_samples_one_step_toward_zero unit unit unit unit
           MoreExamples.echo MoreExamples.echo MoreExamples.echo_near
           MoreExamples.no_speech MoreExamples.cast_zero
           MoreExamples.flat_worker default_levels
           (MoreExamples.outside MoreExamples.two_frames 16 false) 2).
  - vm_compute. tauto.
  - vm_compute. tauto.
  - vm_compute. lia.
  - vm_compute. lia.
  - vm_compute. lia.
  - unfold int16. repeat constructor; lia.
Defined.
End TransparencyTheorems.


(** ** The coefficients follow the settings *)

Module CoefficientFacts.
Import F32 Engine Setters Worker WorkerProps SetterFacts WorkerFacts.

Ltac bank_fields :=
  cbn [map fst snd FilterBank._hpfL FilterBank._hpfR FilterBank._lpfL FilterBank._lpfR
       FilterBank._eqLowL FilterBank._eqLowR FilterBank._eqMidL FilterBank._eqMidR
       FilterBank._eqHighL FilterBank._eqHighR FilterBank._veRefHpfBq
       FilterBank._veRefLpfBq].

Lemma process_keeps_coeffs (bq : Biquad.Biquad) (x : float) :
  coeffs (fst (Biquad.process bq x)) = coeffs bq.
Proof. reflexivity. Qed.

Lemma stereo_loop_keeps_coeffs (l : list nat) :
  forall (bqL bqR : Biquad.Biquad) (fl fr : list float),
    let r := fold_left FilterBank.stereo_step l (bqL, bqR, fl, fr) in
    coeffs (fst (fst (fst r))) = coeffs bqL /\ coeffs (snd (fst (fst r))) = coeffs bqR.
Proof.
  induction l as [|i l IH]; intros bqL bqR fl fr; [split; reflexivity|].
  cbn [fold_left FilterBank.stereo_step].
  pose proof (process_keeps_coeffs bqL (fl !!! i)) as HL.
  pose proof (process_keeps_coeffs bqR (fr !!! i)) as HR.
  destruct (Biquad.process bqL (fl !!! i)) as [bqL' yl].
  destruct (Biquad.process bqR (fr !!! i)) as [bqR' yr].
  cbn [fst] in HL, HR.
  destruct (IH bqL' bqR' (<[i := yl]> fl) (<[i := yr]> fr)) as [IHL IHR].
  cbn zeta. split; congruence.
Qed.

Lemma stereo_stage_keeps_coeffs (b : bool) (n : nat) (bqL bqR : Biquad.Biquad)
    (fl fr : list float) :
  let r := if b then FilterBank.stereo_filter bqL bqR n fl fr else (bqL, bqR, fl, fr) in
  coeffs (fst (fst (fst r))) = coeffs bqL /\ coeffs (snd (fst (fst r))) = coeffs bqR.
Proof.
  destruct b; [apply stereo_loop_keeps_coeffs | split; reflexivity].
Qed.

Lemma mono_loop_keeps_coeffs (l : list nat) :
  forall (bq : Biquad.Biquad) (buf : list float),
    coeffs (fst (fold_left FilterBank.mono_step l (bq, buf))) = coeffs bq.
Proof.
  induction l as [|i l IH]; intros bq buf; [reflexivity|].
  cbn [fold_left FilterBank.mono_step].
  pose proof (process_keeps_coeffs bq (buf !!! i)) as H.
  destruct (Biquad.process bq (buf !!! i)) as [bq' y]. cbn [fst] in H.
  rewrite IH. exact H.
Qed.

(** Steps 3 to 6 change the state of the sections, never a coefficient. *)
Lemma main_filters_keep_coeffs (fb : FilterBank.FilterBank) (p : AudioEngineParams)
    (n : nat) (fl fr : list float) :
  bank_coeffs (fst (fst (FilterBank.main_filters fb p n fl fr))) = bank_coeffs fb.
Proof.
  unfold FilterBank.main_filters.
  pose proof (stereo_stage_keeps_coeffs (hpfEnabled p) n (FilterBank._hpfL fb)
                (FilterBank._hpfR fb) fl fr) as H1.
  cbn zeta in H1.
  destruct (if hpfEnabled p then _ else _) as [[[hL hR] fl1] fr1].
  pose proof (stereo_stage_keeps_coeffs (lpfEnabled p) n (FilterBank._lpfL fb)
                (FilterBank._lpfR fb) fl1 fr1) as H2.
  cbn zeta in H2.
  destruct (if lpfEnabled p then _ else _) as [[[lL lR] fl2] fr2].
  pose proof (stereo_stage_keeps_coeffs true n (FilterBank._eqLowL fb)
                (FilterBank._eqLowR fb) fl2 fr2) as H3.
  cbn zeta iota in H3.
  destruct (FilterBank.stereo_filter (FilterBank._eqLowL fb) _ n fl2 fr2)
    as [[[eLL eLR] fl3] fr3].
  pose proof (stereo_stage_keeps_coeffs true n (FilterBank._eqMidL fb)
                (FilterBank._eqMidR fb) fl3 fr3) as H4.
  cbn zeta iota in H4.
  destruct (FilterBank.stereo_filter (FilterBank._eqMidL fb) _ n fl3 fr3)
    as [[[eML eMR] fl4] fr4].
  pose proof (stereo_stage_keeps_coeffs true n (FilterBank._eqHighL fb)
                (FilterBank._eqHighR fb) fl4 fr4) as H5.
  cbn zeta iota in H5.
  destruct (FilterBank.stereo_filter (FilterBank._eqHighL fb) _ n fl4 fr4)
    as [[[eHL eHR] fl5] fr5].
  cbn [fst snd] in *. unfold bank_coeffs. bank_fields.
  destruct H1 as [-> ->], H2 as [-> ->], H3 as [-> ->], H4 as [-> ->], H5 as [-> ->].
  reflexivity.
Qed.

Lemma condition_reference_keeps_coeffs (fb : FilterBank.FilterBank)
    (p : AudioEngineParams) (n : nat) (fhp : list float) :
  bank_coeffs (fst (FilterBank.condition_reference fb p n fhp)) = bank_coeffs fb.
Proof.
  unfold FilterBank.condition_reference, FilterBank.mono_filter.
  pose proof (mono_loop_keeps_coeffs (seq 0 n) (FilterBank._veRefHpfBq fb)
                (FilterBank.scale_block (veRefGain p) n fhp)) as H1.
  destruct (fold_left FilterBank.mono_step (seq 0 n) (FilterBank._veRefHpfBq fb, _))
    as [rH hp2].
  pose proof (mono_loop_keeps_coeffs (seq 0 n) (FilterBank._veRefLpfBq fb) hp2) as H2.
  destruct (fold_left FilterBank.mono_step (seq 0 n) (FilterBank._veRefLpfBq fb, hp2))
    as [rL hp3].
  cbn [fst] in *. unfold bank_coeffs. bank_fields. rewrite H1, H2. reflexivity.
Qed.

Section Helpers.
Variable NsHandle AgcHandle AecHandle VadHandle : Type.
Variable ns_process : NsHandle -> list Z -> NsHandle * list Z.
Variable agc_process : AgcHandle -> list Z -> AgcHandle * list Z.
Variable set_agc_config : AgcHandle -> Z -> Z -> Z -> AgcHandle.
Variable aec_process : AecHandle -> list Z -> list Z -> AecHandle * list Z.
Variable vad_process : VadHandle -> list Z -> VadHandle * bool.
Variable cast_undefined : float -> Z.
Variable cosf sinf : float -> float.
Variable powf : float -> float -> float.

Local Abbreviation Worker := (Worker NsHandle AgcHandle AecHandle VadHandle).
Local Abbreviation Outside := (Outside NsHandle AgcHandle AecHandle VadHandle).
Local Abbreviation process_block :=
  (process_block NsHandle AgcHandle AecHandle VadHandle ns_process agc_process
     aec_process vad_process cast_undefined).
Local Abbreviation ns_stage :=
  (ns_stage NsHandle AgcHandle AecHandle VadHandle ns_process cast_undefined).
Local Abbreviation agc_stage :=
  (agc_stage NsHandle AgcHandle AecHandle VadHandle agc_process cast_undefined).
Local Abbreviation apply_params :=
  (apply_params NsHandle AgcHandle AecHandle VadHandle set_agc_config cosf sinf powf).
Local Abbreviation iteration :=
  (iteration NsHandle AgcHandle AecHandle VadHandle ns_process agc_process
     set_agc_config aec_process vad_process cast_undefined cosf sinf powf).
Local Abbreviation run :=
  (run NsHandle AgcHandle AecHandle VadHandle ns_process agc_process
     set_agc_config aec_process vad_process cast_undefined cosf sinf powf).
Local Abbreviation recalcAllCoeffs := (FilterBank.recalcAllCoeffs cosf sinf powf).

(** What [recalcAllCoeffs] writes depends on the parameters alone. *)
Lemma recalc_coeffs_from_params (fb fb' : FilterBank.FilterBank) (p : AudioEngineParams) :
  bank_coeffs (recalcAllCoeffs fb p) = bank_coeffs (recalcAllCoeffs fb' p).
Proof.
  unfold bank_coeffs, FilterBank.recalcAllCoeffs. bank_fields.
  unfold Biquad.calcPeakEqCoeffs.
  destruct (ltb (abs (eqLowGain p)) Biquad.bypass_threshold),
           (ltb (abs (eqMidGain p)) Biquad.bypass_threshold),
           (ltb (abs (eqHighGain p)) Biquad.bypass_threshold); reflexivity.
Qed.

Lemma ns_step_keeps_filters (b : bool) (w : Worker) (fl fr : list float) :
  filters
    (fst (fst match b, _nsHandleL w, _nsHandleR w with
              | true, Some hL, Some hR => ns_stage w hL hR fl fr
              | _, _, _ => (w, fl, fr)
              end)) = filters w.
Proof.
  destruct b; [|destruct (_nsHandleL w), (_nsHandleR w); reflexivity].
  destruct (_nsHandleL w) as [hL|]; [|reflexivity].
  destruct (_nsHandleR w) as [hR|]; [|reflexivity].
  apply (ns_stage_frame _ _ _ _ ns_process cast_undefined w hL hR fl fr).
Qed.

Lemma agc_step_keeps_filters (b : bool) (w : Worker) (fl fr : list float) :
  filters
    (fst (fst match b, _agcHandleL w, _agcHandleR w with
              | true, Some hL, Some hR => agc_stage w hL hR fl fr
              | _, _, _ => (w, fl, fr)
              end)) = filters w.
Proof.
  destruct b; [|destruct (_agcHandleL w), (_agcHandleR w); reflexivity].
  destruct (_agcHandleL w) as [hL|]; [|reflexivity].
  destruct (_agcHandleR w) as [hR|]; [|reflexivity].
  apply (agc_stage_frame _ _ _ _ agc_process cast_undefined w hL hR fl fr).
Qed.

Lemma process_block_keeps_coeffs (w : Worker) (lv : AudioLevels) (o : Outside) (n : nat) :
  bank_coeffs (filters (blk_worker (process_block w lv o n))) = bank_coeffs (filters w).
Proof.
  unfold Worker.process_block.
  destruct (extract_channels n (inBuf o) (floatL w) (floatR w) (floatHP w))
    as [[fl0 fr0] fhp0].
  pose proof (main_filters_keep_coeffs (filters w) (localParams w) n fl0 fr0) as H1.
  destruct (FilterBank.main_filters (filters w) (localParams w) n fl0 fr0)
    as [[fb1 fl1] fr1].
  pose proof (condition_reference_keeps_coeffs fb1 (localParams w) n fhp0) as H2.
  destruct (FilterBank.condition_reference fb1 (localParams w) n fhp0) as [fb2 fhp1].
  cbn [fst] in H1, H2.
  destruct (poll_headphone (hpDetectCounter w) (hpDetected w) (headphone o))
    as [counter detected].
  destruct (VoiceExclusion.voice_exclusion _ _ _ _ _ _ _ _ n fl1 fr1 fhp1)
    as [[st1 fl2] fr2].
  set (w1 := after_front _ _ _ _ w fb2 st1 counter detected).
  assert (Hw1 : filters w1 = fb2) by reflexivity.
  pose proof (ns_step_keeps_filters (nsEnabled (localParams w) && (n =? BLOCK_SIZE))
                w1 fl2 fr2) as H3.
  match type of H3 with
  | context [fst (fst ?M)] => destruct M as [[w2 fl3] fr3]
  end.
  pose proof (agc_step_keeps_filters (agcEnabled (localParams w) && (n =? BLOCK_SIZE))
                w2 fl3 fr3) as H4.
  match type of H4 with
  | context [fst (fst ?M)] => destruct M as [[w3 fl4] fr4]
  end.
  cbn [fst] in H3, H4. cbn [blk_worker with_buffers filters].
  rewrite H4, H3, Hw1, H2, H1. reflexivity.
Qed.

Lemma apply_params_filters (w w' : Worker) (o : Outside) (shared : AudioEngineParams)
    (c : CodecCalls) :
  apply_params w o shared = Some (w', c) ->
  filters w' = recalcAllCoeffs (filters w) shared.
Proof.
  unfold Worker.apply_params.
  destruct (ns_update _ _ _ _ _ _ _) as [[[nsL nsR] pNsE] pNsM].
  destruct (nlms_update _ _ _ _ _) as [[[[nlL nlR] pVeE] pVeL]|]; [|discriminate].
  destruct (vad_update _ _ _ _ _ _) as [[vad pVadE] pVadM].
  destruct (agc_changed _ _ _ _ (localParams w) w).
  - destruct (agcEnabled (localParams w)).
    + destruct (both_or_none (agc_created o)) as [l r]. intros [= <- _]. reflexivity.
    + intros [= <- _]. reflexivity.
  - intros [= <- _]. reflexivity.
Qed.

(** With [_paramsChanged] and the worker's flag clear, the coefficients
    are those of the shared parameters. *)
Lemma iteration_coeffs (e : AudioEngine) (w : Worker) (o : Outside) (s : Step _ _ _ _) :
  worker_ok w ->
  (_paramsChanged e = false -> localParamsChanged w = false ->
   forall fb, bank_coeffs (filters w) = bank_coeffs (recalcAllCoeffs fb (_params e))) ->
  iteration e w o = Done s ->
  _paramsChanged (step_engine s) = false ->
  forall fb,
    bank_coeffs (filters (step_worker s))
      = bank_coeffs (recalcAllCoeffs fb (_params (step_engine s))).
Proof.
  intros Hok Hk Hit.
  destruct (iteration_cases _ _ _ _ ns_process agc_process set_agc_config aec_process
              vad_process cast_undefined cosf sinf powf e w o s Hit)
    as (e1 & lp & ch & w2 & Hsnap & Hw2 & Hcases).
  cbn zeta in Hw2, Hcases.
  apply snapshot_cases in Hsnap as (_ & _ & Hpar & Hsnap).
  set (e2 := fold_left call (racing_calls o) e1) in *.
  assert (H2 : _paramsChanged e2 = false ->
               forall fb,
                 bank_coeffs (filters w2) = bank_coeffs (recalcAllCoeffs fb (_params e2))).
  { intros Hflag fb. destruct Hw2 as [(_ & c & Happly)|(-> & ->)].
    - rewrite (apply_params_filters _ _ _ _ _ Happly). apply recalc_coeffs_from_params.
    - assert (Hnone : racing_calls o = []).
      { destruct (racing_calls o) as [|c calls] eqn:Hr; [reflexivity|].
        destruct (calls_flags (c :: calls) e1) as [_ Hc].
        subst e2. rewrite Hc in Hflag by discriminate.
        discriminate Hflag. }
      subst e2. rewrite Hnone in *. cbn [fold_left] in *.
      destruct Hsnap as [(_ & _ & Hx & _)|(Hc0 & _ & Hch & ->)]; [discriminate Hx|].
      cbn [with_local filters]. apply Hk; [exact Hc0 | symmetry; exact Hch]. }
  destruct Hcases as [(_ & -> & -> & _)|(_ & Hr)].
  - exact H2.
  - cbn zeta in Hr. destruct Hr as (-> & -> & _). cbn [publish _paramsChanged _params].
    intros Hflag fb. rewrite process_block_keeps_coeffs. apply H2. exact Hflag.
Qed.

Lemma run_coeffs (events : list (list SetterCall * Outside)) :
  forall (e : AudioEngine) (w : Worker) e' w',
    worker_ok w ->
    (_paramsChanged e = false -> localParamsChanged w = false ->
     forall fb, bank_coeffs (filters w) = bank_coeffs (recalcAllCoeffs fb (_params e))) ->
    run e w events = Some (e', w') ->
    _paramsChanged e' = false -> localParamsChanged w' = false ->
    forall fb, bank_coeffs (filters w') = bank_coeffs (recalcAllCoeffs fb (_params e')).
Proof.
  induction events as [|[calls o] rest IH]; intros e w e' w' Hok Hk Hrun.
  - injection Hrun as <- <-. exact Hk.
  - cbn [Worker.run] in Hrun.
    destruct (iteration (fold_left call calls e) w o) as [| |s] eqn:Hit;
      try discriminate Hrun.
    destruct (iteration_ok _ _ _ _ ns_process agc_process set_agc_config aec_process
                vad_process cast_undefined cosf sinf powf _ w o s Hok Hit) as [Hok1 _].
    apply (IH (step_engine s) (step_worker s) e' w' Hok1); [|exact Hrun].
    intros Hflag _.
    apply (iteration_coeffs (fold_left call calls e) w o s Hok); [|exact Hit|exact Hflag].
    destruct calls as [|c calls]; [exact Hk|].
    destruct (calls_flags (c :: calls) e) as [_ Hc].
    rewrite Hc by discriminate. discriminate.
Qed.
End Helpers.
End CoefficientFacts.

Module CoefficientTheorems.
Import F32 Engine Setters Worker WorkerProps WorkerFacts CoefficientFacts.

Section Helpers.
Variable NsHandle AgcHandle AecHandle VadHandle : Type.
Variable ns_process : NsHandle -> list Z -> NsHandle * list Z.
Variable agc_process : AgcHandle -> list Z -> AgcHandle * list Z.
Variable set_agc_config : AgcHandle -> Z -> Z -> Z -> AgcHandle.
Variable aec_process : AecHandle -> list Z -> list Z -> AecHandle * list Z.
Variable vad_process : VadHandle -> list Z -> VadHandle * bool.
Variable cast_undefined : float -> Z.
Variable cosf sinf : float -> float.
Variable powf : float -> float -> float.

Local Abbreviation Worker := (Worker NsHandle AgcHandle AecHandle VadHandle).
Local Abbreviation Outside := (Outside NsHandle AgcHandle AecHandle VadHandle).
Local Abbreviation run :=
  (run NsHandle AgcHandle AecHandle VadHandle ns_process agc_process
     set_agc_config aec_process vad_process cast_undefined cosf sinf powf).
Local Abbreviation at_entry := (at_entry NsHandle AgcHandle AecHandle VadHandle).

(** X19: [recalcAllCoeffs] reads the shared parameters without the lock,
    possibly newer than the worker's snapshot, yet the coefficients never
    stay behind: after any run of the loop of at least one iteration,
    whenever [_paramsChanged] is clear, the twelve biquads carry exactly
    the coefficients [recalcAllCoeffs] computes from the shared
    parameters, so recalculating would change none of them. *)
Theorem coefficients_follow_shared_parameters
    (fb : FilterBank.FilterBank) (params : AudioEngineParams)
    (nsCreated : option NsHandle * option NsHandle)
    (agcCreated : option AgcHandle * option AgcHandle)
    (buffers : list float * list float * list float * list Z)
    (e : AudioEngine) (events : list (list SetterCall * Outside))
    (e' : AudioEngine) (w' : Worker) :
  events <> [] ->
  run e (at_entry fb params nsCreated agcCreated buffers) events = Some (e', w') ->
  _paramsChanged e' = false ->
  bank_coeffs (FilterBank.recalcAllCoeffs cosf sinf powf (filters w') (getParams e'))
    = bank_coeffs (filters w').
Proof.
  intros Hne Hrun Hflag.
  destruct (at_entry_ok NsHandle AgcHandle AecHandle VadHandle fb params nsCreated
              agcCreated buffers) as [Hok Hch].
  destruct (run_ok _ _ _ _ ns_process agc_process set_agc_config aec_process
              vad_process cast_undefined cosf sinf powf events _ _ _ _ Hok Hrun)
    as [_ Hfl].
  symmetry.
  apply (run_coeffs _ _ _ _ ns_process agc_process set_agc_config aec_process
           vad_process cast_undefined cosf sinf powf events e _ e' w' Hok);
    [|exact Hrun|exact Hflag|exact (Hfl Hne)].
  intros _ Hx. rewrite Hch in Hx. discriminate Hx.
Qed.
End Helpers.

Lemma coefficients_follow_shared_parameters_witness :
  exists e' w',
    MoreExamples.example_run MoreExamples.running_engine MoreExamples.entry_worker
      [([CallSetEqLow (of_Z 6)], MoreExamples.outside MoreExamples.two_frames 16 false)]
      = Some (e', w') /\
    bank_coeffs (FilterBank.recalcAllCoeffs MoreExamples.same MoreExamples.same
                   MoreExamples.first_arg (filters w') (getParams e'))
      = bank_coeffs (filters w').
Proof.
  eexists _, _.
  refine ((fun H Hflag => conj H
    (coefficients_follow_shared_parameters unit unit unit unit
       MoreExamples.echo MoreExamples.echo MoreExamples.keep_config MoreExamples.echo_near
       MoreExamples.no_speech MoreExamples.cast_zero MoreExamples.same MoreExamples.same
       MoreExamples.first_arg FilterBank.fresh default_params (None, None) (None, None)
       (replicate 480 zero, replicate 480 zero, replicate 480 zero, replicate 960 0%Z)
       MoreExamples.running_engine
       [([CallSetEqLow (of_Z 6)], MoreExamples.outside MoreExamples.two_frames 16 false)]
       _ _ ltac:(discriminate) H Hflag)) _ _).
  - vm_compute. reflexivity.
  - reflexivity.
Defined.
End CoefficientTheorems.
